(* ===== verification/_CoqProject ===== *)
-Q . S2P
Prelude.v
Interleave.v
GoStrings.v
GoPath.v
GoTime.v
Permissions.v
GoErrors.v
PermissionsTest.v
CertCache.v
CertConc.v
GoEncoding.v
GoNet.v
GoURL.v
GoHTTP.v
GoMux.v
GoRedirect.v
GoHTML.v
Cookies.v
JsonAPI.v
JWTUtil.v
Auth0.v
Passkeys.v
PasskeysInv.v
PasskeysConc.v
TLSNames.v
Certs.v
ServingCache.v
Webhooks.v
Redirect.v
IPACL.v
PrivateNets.v
TLSValidate.v
ServerConfig.v
Acme.v
AcmeLoop.v
Shutdown.v
WebUtil.v
CssUtil.v
WebAssets.v
GoClient.v
GoFileServer.v
GoGet.v
WebChecks.v
EndToEnd.v
RelayCheck.v
GoX509.v
Pebble.v
PebbleMock.v
DevTest.v
JSPage.v
Commands.v
Servers.v
RedirectCheck.v
DevServer.v
WebApp.v
Chrome.v
ChromeListener.v
TLSChecks.v
CommandLine.v
