(* ===== verification/Prelude.v ===== *)
(** * A verification of cloudengio/go.webapp

go.webapp is a Go library for building web applications: HTTP servers with an
orderly shutdown, TLS configuration, certificates obtained through ACME and
kept in a cache, passkey (WebAuthn) login, JSON web tokens, permissions,
webhooks, IP access control and smaller handlers.  It comes with packages that
check a deployed application, helpers for tests and two commands.  This
development translates these packages into definitions and proves what makes
them correct.

** The program and the files

The library has no central state: every package keeps its own (a cache, a
session map, a queue), and packages meet at interfaces.  A file of this
development models one package or one group of source files, and the
definitions keep the names of the Go functions.  A method of a type with
several implementations, or of several types, is prefixed ([sm_Registered],
[Secure_Set], [Config_Options]).

The language and its standard library:
- [Prelude]: results and panics ([result], [go]), slice access, tactics, hints.
- [Interleave]: programs of calls on a shared state, pools of threads that run
  them in any interleaving, and when such runs are bounded and linearizable.
- [GoStrings]: Go strings as byte strings; the packages strings and utf8.
- [GoErrors]: error values, [errors.Is], collected errors.
- [GoPath]: path.Clean, path.Join and valid names of file systems.
- [GoTime]: 64-bit integers, float64 and durations.
- [GoURL]: net/url.  Escaping, queries, the parser and the printer, with round
  trips of escaped texts and of queries.
- [GoHTTP]: headers, requests, cookies and the response writer of net/http.
- [GoEncoding]: hexadecimal, base64, decimal and JSON strings, with round trips.
- [GoHTML]: the escaping of html/template.  [GoNet]: host and port strings.
  [GoRedirect]: http.Redirect.  [GoMux]: http.ServeMux.
- [GoClient]: the HTTP client and its redirects.  [GoFileServer]: http.FileServer.
  [GoX509]: certificate pools.

The packages (source files under src/):
- [Permissions]: webauth/permissions.  Wildcard patterns and permission sets.
  [PermissionsTest]: permissionstestutil.
- [CertCache]: webauth/acme/certcache.  A caching store over a local cache, a
  shared backing store and a lock.  [CertConc]: several of them at the same time.
- [Cookies]: cookies.  [JsonAPI]: jsonapi.  Used by the passkey handlers.
- [JWTUtil]: webauth/jwtutil.  Signing, validation, verification tokens.
- [Auth0]: webauth/auth0.  Tokens issued by auth0.com and their key sets.
- [Passkeys]: webauth/webauthn/passkeys.  Users, sessions, the login manager
  (which uses [JWTUtil] and [Cookies]) and the HTTP handlers.  [PasskeysInv]:
  the states that any sequence of requests reaches.  [PasskeysConc]: requests in
  any interleaving, with the credential slices that they share.
- [TLSNames]: tls_capabilities.go, cipher_suites.go.
- [Certs]: certs.go.  [ServingCache]: servingcache.go, on top of [Certs].
- [Webhooks]: webhooks.  The relay, signatures and the configuration.
- [Redirect]: redirect.go, no_sni.go.  [IPACL]: ipacl.  [PrivateNets]: the
  interface of [IPACL] for IPv4 addresses, and private subnets of them.
- [TLSValidate]: tlsvalidate.  [ServerConfig]: flags.go, client.go.
- [Acme]: webauth/acme (the manager, the refresh client) and certcache/util.go.
  [AcmeLoop]: the goroutines of the refresh client.
- [Shutdown]: shutdown.go.  [WebUtil]: healthz.go, body.go,
  http_server_errors.go, serve_file.go, filename.go.
- [CssUtil]: cssutil.  [GoGet]: goget.  [WebAssets]: webassets.
- [WebChecks], [TLSChecks]: testwebapp.  Checks of a deployed application, whose
  servers are the transport of the client; they meet the handlers of [WebUtil]
  and the validator of [TLSValidate].  [EndToEnd]: the go-get check against the
  handlers of [GoGet].  [RelayCheck]: the webhook check against a relay of
  [Webhooks].  [RedirectCheck]: the redirect check against the port 80 server of
  [Servers].
- [Pebble]: webauth/acme/pebble and pebbletest.  [PebbleMock]: the mock server that
  its tests run, against the loops of [Pebble] that read its output.
- [DevTest]: devtest, which writes what [Certs] reads.  [JSPage]: the page of its
  JavaScript handler.  [DevServer]: devserver.
- [Chrome]: devtest/chromedputil and the navigation checks of testwebapp.
  [ChromeListener]: the goroutines of the logging listener.
- [Commands], [Servers]: cmd/acme and RedirectPort80, composed from [CertCache],
  [Certs], [DevTest], [TLSValidate], [Redirect] and [Acme].  [WebApp]: cmd/webapp,
  composed from [WebAssets], [DevServer], [ServerConfig] and [Servers].
  [CommandLine]: the commands of both and what they run.

** How Go is modelled

A pure function is a function.  A function that returns an error returns
[res T], one that can panic returns [go T].  State is passed explicitly: the
response writer [rw] of [GoHTTP] goes through the handlers, the worlds of
[CertCache] and [Passkeys] hold the stores.  Where the order of calls matters,
the world also records them in a trace ([CertCache]) or a log ([IPACL]).
Concurrency is modelled where the code has it: [Shutdown] is a transition
system of two goroutines and a channel; [Webhooks] runs any sequence of
deliveries, polls and expiry scans, with the outcome of each [select] as an
argument; [ServingCache] separates the lookup from the insertion, so that other
handshakes may come between; [TLSValidate] takes the order in which handshakes
complete; [AcmeLoop] is a transition system with one goroutine per host, tickers
and a cancelled context; [ChromeListener] is one with bounded channels, a
callback that blocks on them and a goroutine per console message.  [CertConc] and [PasskeysConc] have every operation as a
program that yields at each call of a lock, a store or a manager; run alone the
program is the function of [CertCache] or [Passkeys].  The clock, random bytes and file contents are
arguments; loops that wait get the list of what their [select] receives, and
yield nothing when it ends first.

Code outside the repository is an argument of the definitions or a type class
whose laws are a second class: [Cache]/[StoreFS] with [CacheLaws]/[StoreLaws]
(autocert caches), [X509] with [PEMLaws] (crypto/x509, encoding/pem), [JWX] with
[JWTLaws] (lestrrat-go/jwx), [Jose] with [JoseLaws] (square/go-jose), [WebAuthn] (go-webauthn), [FIFO] with [FIFOLaws]
(the queue of cloudeng.io/sync), [Netip] with [TableLaws] (net/netip and the
prefix table).  The URL parser takes as [ip_literal] which texts net/netip accepts
in brackets.  Each class of laws has an instance in the same file, so the
theorems that use it are not vacuous.

Loops are structural where the data allows it.  The others have fuel that is
shown or visibly enough: [ParsePEM_loop] gets one more than the number of bytes
(each block consumes at least one, and more fuel gives the same answer),
[Split], [runes] and the digit printers get the length of the string or the
number of bits, and the walk over an HTML tree the number of its nodes.  The
redirects of an HTTP client are bounded by its policy: [Do] takes fuel, which is
shown to be enough when it exceeds the allowed redirects.

** What the theorems show

- Permissions (C1, C2): the optimised matcher is the documented component-wise
  relation; sets grant exactly what a member grants.
- Certificate cache (C4-C8): refinement to a shared and a private map; concurrent
  operations are linearizable, exclude conflicting accesses of the local cache
  and do not deadlock; no local name reaches the shared store; read-only stores
  write nothing.
- Commands (C9, C10, C25): what the revoke command requests, what the application
  server answers for paths it has no route for, and which PEM files are validated
  (none without a root file).
- Assets and checks (C11, C13, C27, C32): files stay below a prefix for valid names
  only; the go-get and webhook checks against the handlers of this repository;
  status checks are bounded.
- Browser helpers (C12): the logging listener ends, and what it has logged.
- Tokens (C14, C15, C17): verification links whose token validates exactly as
  issued, and which auth0 tokens are accepted.
- Passkeys (C3, C16, C19-C22): the invariant of all states that interleaved
  requests reach, user ID encodings, single-use sessions under races, registration from end to end, logins only for
  stored sessions and credentials, login cookies.
- Test servers and certificates (C18, C23): the configuration that is written for
  pebble and its bounds; self-signed certificates are read back.
- TLS and certificates (C24, C26, C28, C35, C36): YAML round trips, PEM files, the serving cache returns only verified certificates, the
  checks of the validator, the ECDSA-only manager.
- ACME client (C30): it stops once it is cancelled.
- Webhooks (C29, C31): ordered delivery at most once, exact signature
  validation.
- Servers and handlers (C33, C34, C37-C40): what the port 80 server answers,
  access control, shutdown outcomes and termination, registered files only, file
  names, and which addresses a private subnet contains.

Other theorems are not numbered: the round trip through [Put] and [Get] and the
lock discipline of single operations, chain verification, acceptance of signed
webhooks, that every command has one runner, redirect targets, the health and
redirect checks against the handlers of this repository, the mock of pebble, CSS
classes, the page of a script, the formats of serial numbers, cookies, JSON documents, credentials, forwarded
headers, cipher suite names, classified errors, and what the remaining checks and
helpers do.

The names C1 to C40 number the main theorems.  A theorem with hypotheses is followed by a witness that applies it to
concrete data.

** What is not modelled

Logging, except where the code computes what it logs ([ChromeListener],
[TLSValidate]), metrics calls that do not influence results, and the fields of
library records that no code here reads.  Operands of error messages that are not
strings are left out when no code inspects them.  Constructors that only store
their arguments are the records themselves.  Processes (mkcert, minica, pebble,
compilers, browsers), the signals sent to them, the YAML and JSON encoders and the
network are parameters.  HTTP tracing only logs; the proxy of the development
server is the one of net/http/httputil and is a name.  The validation of a login
by the WebAuthn library is one atomic call, on the credentials at the time of the
lookup.  IPv6 is left to the parameters, apart from the mapped addresses of
[PrivateNets].  Left out as a whole: the usage text of the commands and the
function types of metrics.go, which have no behaviour, and the example server of
the passkeys package, which is excluded from the build and does not compile
against the functions it calls, so that there is nothing it could be shown to do. *)

From stdpp Require Export base gmap strings list fin_maps.
From Stdlib Require Export Ascii Lia ZArith.

#[global] Set Default Goal Selector "!".
#[global] Set Warnings "-clear-no-such-hyp".


(** ** Go results

A Go function that returns [(T, error)] is a function into [result T]; a Go
function that can also panic (index out of range, nil dereference) returns
[go (result T)] or [go T]. *)

Inductive result (E A : Type) : Type :=
| Ok (a : A)
| Err (e : E).
Arguments Ok {E A} _.
Arguments Err {E A} _.

Inductive panic : Type :=
| IndexOutOfRange
| NilDereference
| OtherPanic (what : string).

Inductive go (A : Type) : Type :=
| Ret (a : A)
| Panic (p : panic).
Arguments Ret {A} _.
Arguments Panic {A} _.

#[global] Instance result_ret {E} : MRet (result E) := fun A a => Ok a.
#[global] Instance result_bind {E} : MBind (result E) := fun A B f m =>
  match m with Ok a => f a | Err e => Err e end.
#[global] Instance go_ret : MRet go := fun A a => Ret a.
#[global] Instance go_bind : MBind go := fun A B f m =>
  match m with Ret a => f a | Panic p => Panic p end.

#[global] Instance panic_eq_dec : EqDecision panic.
Proof. solve_decision. Defined.
#[global] Instance result_eq_dec {E A} `{EqDecision E, EqDecision A} : EqDecision (result E A).
Proof. solve_decision. Defined.
#[global] Instance go_eq_dec {A} `{EqDecision A} : EqDecision (go A).
Proof. solve_decision. Defined.

Definition is_ok {E A} (r : result E A) : bool :=
  match r with Ok _ => true | Err _ => false end.

(** Slice indexing [l[i]]: out of range panics. *)
Definition index {A} (l : list A) (i : nat) : go A :=
  match l !! i with Some a => Ret a | None => Panic IndexOutOfRange end.

Lemma index_lt {A} (l : list A) i a : l !! i = Some a -> index l i = Ret a.
Proof. unfold index. by intros ->. Qed.

(** ** Tactics shared by the components *)

(** Case on the innermost scrutinee of a [match] in the goal or in a
    hypothesis, keeping the equation, and clean up. *)
Ltac go_case :=
  repeat (case_match; simplify_eq/=; try done).

Create HintDb golib.

(** ** Lists *)

Lemma forallb_Forall {A} (f : A -> bool) (l : list A) :
  forallb f l = true <-> Forall (fun x => f x = true) l.
Proof.
  rewrite forallb_forall, Forall_forall. split; intros H x Hx; apply H; by apply list_elem_of_In.
Qed.

Lemma existsb_Exists {A} (f : A -> bool) (l : list A) :
  existsb f l = true <-> exists x, x ∈ l /\ f x = true.
Proof.
  rewrite existsb_exists. split; intros (x & Hx & Hf); exists x; split; auto; by apply list_elem_of_In.
Qed.

(** [slices.Contains]. *)
Definition contains {A} `{EqDecision A} (l : list A) (x : A) : bool := bool_decide (x ∈ l).

Lemma contains_true {A} `{EqDecision A} (l : list A) x : contains l x = true <-> x ∈ l.
Proof. apply bool_decide_eq_true. Qed.

Lemma contains_false {A} `{EqDecision A} (l : list A) x : contains l x = false <-> x ∉ l.
Proof. apply bool_decide_eq_false. Qed.

Create Rewrite HintDb golib_rw.
#[export] Hint Rewrite @contains_true @contains_false : golib_rw.
