(* ===== verification/Interleave.v ===== *)
(** * Programs of calls and their interleavings

Code that runs in several goroutines or processes at once is modelled as a tree
of calls to shared objects: a program returns, or makes a call and continues
with its reply.  [run] executes one program alone, [step] and [run_schedule] run
a pool of threads, one call at a time, in the order that a schedule gives.  A
call that cannot proceed (a lock that is taken) blocks its thread.

An operation that makes at most one call that touches the shared state, its
commit, takes effect at that call; [linearizable] is the theorem for pools of
such operations. *)

From S2P Require Import Prelude.

(** ** Programs *)
Section prog.
Context {C : Type} {R : C -> Type}.

Inductive prog (A : Type) : Type :=
| Done (a : A)
| Do (c : C) (k : R c -> prog A).
Arguments Done {A} _.
Arguments Do {A} _ _.

Definition call (c : C) : prog (R c) := Do c Done.

Fixpoint prog_bind {A B} (f : A -> prog B) (p : prog A) : prog B :=
  match p with
  | Done a => f a
  | Do c k => Do c (fun r => prog_bind f (k r))
  end.

(** One program alone: every call is answered. *)
Section run.
Context {St : Type} (h : forall c : C, St -> R c * St).

Fixpoint run {A} (p : prog A) (s : St) : A * St :=
  match p with
  | Done a => (a, s)
  | Do c k => let '(r, s') := h c s in run (k r) s'
  end.

End run.

Lemma run_bind {St A B} (h : forall c, St -> R c * St) (p : prog A) (f : A -> prog B) s :
  run h (prog_bind f p) s = let '(a, s') := run h p s in run h (f a) s'.
Proof. revert s. induction p as [a|c k IH]; intros s; [done|]. simpl. destruct (h c s). apply IH. Qed.

(** Handlers that agree on a view of the state give runs that agree on it. *)
Lemma run_view {St St' A} (h : forall c, St -> R c * St) (h' : forall c, St' -> R c * St') (view : St -> St') :
  (forall c s, h' c (view s) = ((h c s).1, view (h c s).2)) ->
  forall (p : prog A) s, run h' p (view s) = ((run h p s).1, view (run h p s).2).
Proof.
  intros Hv p. induction p as [a|c k IH]; intros s; [done|]. simpl. rewrite Hv. destruct (h c s) as [r s']. apply IH.
Qed.

(** A program with at most [n] calls. *)
Fixpoint bounded {A} (n : nat) (p : prog A) : Prop :=
  match p, n with
  | Done _, _ => True
  | Do c k, O => False
  | Do c k, S n' => forall r, bounded n' (k r)
  end.

(** At most one call that commits, none if one was made already. *)
Fixpoint once {A} (commit : C -> bool) (done : bool) (p : prog A) : Prop :=
  match p with
  | Done _ => True
  | Do c k => (commit c = true -> done = false) /\ forall r, once commit (done || commit c) (k r)
  end.

End prog.
Arguments prog {C} R A.
Arguments Done {C R A} _.
Arguments Do {C R A} _ _.

#[global] Arguments bounded {C R A} n !p : simpl nomatch.
#[global] Arguments once {C R A} commit done !p : simpl nomatch.

#[global] Instance prog_mret {C} {R : C -> Type} : MRet (prog R) := fun A => Done.
#[global] Instance prog_mbind {C} {R : C -> Type} : MBind (prog R) := fun A B => prog_bind.

(** ** Pools of threads *)
Section pool.
Context {C : Type} {R : C -> Type} {St Job Out : Type}.

(** The operations a thread has still to run, and the one it is in: whether it
    has committed, and what remains of it. *)
Record thread := mkThread { todo : list Job; cur : option (Job * bool * prog R Out) }.

(** The shared state and the threads; [lin] lists the operations in the order in
    which they took effect, [rets] the results in the order of the returns. *)
Record conf := mkConf {
  shared : St; pool : list thread; lin : list (nat * Job); rets : list (nat * Job * Out)
}.

(** A call of a thread; [None] while it blocks. *)
Variable exec : nat -> forall c : C, St -> option (R c * St).
Variable prog_of : nat -> Job -> prog R Out.
Variable commit : C -> bool.

(** One step of thread [i]: it starts its next operation, returns from the
    current one, or makes a call. *)
Definition step (i : nat) (c : conf) : option conf :=
  match pool c !! i with
  | None => None
  | Some t =>
      match cur t with
      | None =>
          match todo t with
          | [] => None
          | j :: js => Some (mkConf (shared c) (<[i := mkThread js (Some (j, false, prog_of i j))]> (pool c)) (lin c) (rets c))
          end
      | Some (j, b, Done o) =>
          Some (mkConf (shared c) (<[i := mkThread (todo t) None]> (pool c))
                  (if (b : bool) then lin c else lin c ++ [(i, j)]) (rets c ++ [(i, j, o)]))
      | Some (j, b, Do cl k) =>
          match exec i cl (shared c) with
          | None => None
          | Some (r, s) =>
              Some (mkConf s (<[i := mkThread (todo t) (Some (j, b || commit cl, k r))]> (pool c))
                      (if commit cl then lin c ++ [(i, j)] else lin c) (rets c))
          end
      end
  end.

Fixpoint run_schedule (sched : list nat) (c : conf) : option conf :=
  match sched with
  | [] => Some c
  | i :: sched' => match step i c with None => None | Some c' => run_schedule sched' c' end
  end.

Definition init (s : St) (jobs : list (list Job)) : conf := mkConf s (map (fun js => mkThread js None) jobs) [] [].

Definition finished (t : thread) : Prop := todo t = [] /\ cur t = None.

Lemma run_schedule_app s1 s2 c :
  run_schedule (s1 ++ s2) c = match run_schedule s1 c with Some c' => run_schedule s2 c' | None => None end.
Proof. revert c. induction s1 as [|i s1 IH]; intros c; [done|]. simpl. by destruct (step i c). Qed.

(** Induction over schedules, for a property that every step preserves. *)
Lemma run_schedule_inv (P : conf -> Prop) sched c c' :
  (forall i c c', P c -> step i c = Some c' -> P c') -> P c -> run_schedule sched c = Some c' -> P c'.
Proof.
  intros Hs. revert c. induction sched as [|i sched IH]; intros c Hc; simpl; [by intros [= <-]|].
  destruct (step i c) eqn:E; [|done]. eauto.
Qed.

(** The ways to make a step. *)
Variant stepped (i : nat) (c : conf) : conf -> Prop :=
| stepped_start j js :
    pool c !! i = Some (mkThread (j :: js) None) ->
    stepped i c (mkConf (shared c) (<[i := mkThread js (Some (j, false, prog_of i j))]> (pool c)) (lin c) (rets c))
| stepped_return js j b o :
    pool c !! i = Some (mkThread js (Some (j, b, Done o))) ->
    stepped i c (mkConf (shared c) (<[i := mkThread js None]> (pool c))
                   (if (b : bool) then lin c else lin c ++ [(i, j)]) (rets c ++ [(i, j, o)]))
| stepped_call js j b cl k r s :
    pool c !! i = Some (mkThread js (Some (j, b, Do cl k))) -> exec i cl (shared c) = Some (r, s) ->
    stepped i c (mkConf s (<[i := mkThread js (Some (j, b || commit cl, k r))]> (pool c))
                   (if commit cl then lin c ++ [(i, j)] else lin c) (rets c)).

Lemma step_inv i c c' : step i c = Some c' -> stepped i c c'.
Proof.
  unfold step. destruct (pool c !! i) as [[js [[[j b] [o|cl k]]|]]|] eqn:E; simpl; [| | |done].
  - intros [= <-]. by apply stepped_return.
  - destruct (exec i cl (shared c)) as [[r s]|] eqn:Ex; [|done]. intros [= <-]. by apply stepped_call.
  - destruct js as [|j js]; [done|]. intros [= <-]. by apply stepped_start.
Qed.

End pool.
Arguments thread {C} R Job Out.
Arguments conf {C} R St Job Out.

Lemma sum_list_insert (ms : list nat) i m m' :
  ms !! i = Some m -> sum_list (<[i := m']> ms) + m = sum_list ms + m'.
Proof.
  intros Hi. rewrite <- (take_drop_middle ms i m Hi) at 2. rewrite insert_take_drop by eauto using lookup_lt_Some.
  rewrite !sum_list_with_app; simpl. unfold sum_list. lia.
Qed.

(** ** Every schedule is bounded *)
Section termination.
Context {C : Type} {R : C -> Type} {St Job Out : Type}.
Variable exec : nat -> forall c : C, St -> option (R c * St).
Variable prog_of : nat -> Job -> prog R Out.
Variable commit : C -> bool.
Variable n : nat.
Hypothesis jobs_bounded : forall i j, bounded n (prog_of i j).
Abbreviation conf := (conf R St Job Out).

(** The steps left to a thread: two for the start and the return of an operation
    and at most [n] calls. *)
Definition left (t : thread R Job Out) (m : nat) : Prop :=
  match cur t with
  | None => m = (n + 2) * length (todo t)
  | Some (_, _, p) => exists m', bounded m' p /\ m = S m' + (n + 2) * length (todo t)
  end.

Lemma step_left i (c c' : conf) ms :
  step exec prog_of commit i c = Some c' -> Forall2 left (pool c) ms ->
  exists ms', Forall2 left (pool c') ms' /\ sum_list ms' < sum_list ms.
Proof.
  intros Hs%step_inv Hms.
  assert (H : exists t t', pool c !! i = Some t /\ pool c' = <[i := t']> (pool c) /\
            forall m, left t m -> exists m', left t' m' /\ m' < m).
  { destruct Hs as [j js Hi|js j b o Hi|js j b cl k r s Hi _]; eexists _, _; split_and!; try done; simpl; unfold left; simpl.
    - intros m ->. exists (S n + (n + 2) * length js). split; [eauto|lia].
    - intros m (m' & _ & ->). eexists. split; [done|lia].
    - intros m (m' & Hb & ->). destruct m' as [|m']; [done|]. exists (S m' + (n + 2) * length js). split; [eauto|lia]. }
  destruct H as (t & t' & Hi & -> & Hm).
  destruct (Forall2_lookup_l _ _ _ _ _ Hms Hi) as (m & Hmi & Hl). destruct (Hm _ Hl) as (m' & Hl' & Hlt).
  exists (<[i := m']> ms). split; [by apply Forall2_insert|]. pose proof (sum_list_insert ms i m m' Hmi). lia.
Qed.

Lemma run_schedule_left sched (c c' : conf) ms :
  run_schedule exec prog_of commit sched c = Some c' -> Forall2 left (pool c) ms ->
  length sched <= sum_list ms.
Proof.
  revert c ms. induction sched as [|i sched IH]; intros c ms; simpl; [lia|].
  destruct (step _ _ _ i c) as [c1|] eqn:E; [|done]. intros Hr Hms.
  destruct (step_left _ _ _ _ E Hms) as (ms' & Hms' & Hlt). specialize (IH _ _ Hr Hms'). lia.
Qed.

(** A schedule has at most [n + 2] steps for every operation. *)
Lemma schedule_bounded sched (s : St) jobs (c : conf) :
  run_schedule exec prog_of commit sched (init s jobs) = Some c ->
  length sched <= (n + 2) * sum_list (map length jobs).
Proof.
  intros Hr. assert (Hms : Forall2 left (pool (init (R := R) (Out := Out) s jobs)) (map (fun js => (n + 2) * length js) jobs)).
  { simpl. apply Forall2_fmap, Forall_Forall2_diag, Forall_forall. done. }
  apply (run_schedule_left _ _ _ _ Hr) in Hms. etransitivity; [exact Hms|]. clear. apply Nat.eq_le_incl.
  induction jobs as [|js jobs IH]; simpl; [lia|]. unfold sum_list in *. simpl in *. lia.
Qed.

End termination.

(** ** Linearizability *)

(** The entries of thread [i]. *)
Definition proj {A} (i : nat) (l : list (nat * A)) : list A := omap (fun x => if decide (x.1 = i) then Some x.2 else None) l.

Lemma proj_app {A} i (l1 l2 : list (nat * A)) : proj i (l1 ++ l2) = proj i l1 ++ proj i l2.
Proof. apply omap_app. Qed.

Lemma proj_one {A} i (a : A) : proj i [(i, a)] = [a].
Proof. unfold proj. simpl. by rewrite decide_True. Qed.

Lemma proj_other {A} i j (a : A) : i <> j -> proj i [(j, a)] = [].
Proof. intros. unfold proj. simpl. by rewrite decide_False by congruence. Qed.

Section linearizability.
Context {C : Type} {R : C -> Type} {St V Job Out : Type}.
Variable exec : nat -> forall c : C, St -> option (R c * St).
Variable prog_of : nat -> Job -> prog R Out.
Variable commit : C -> bool.
(** What the operations are about, and what a call does to it when nothing else
    runs. *)
Variable view : St -> V.
Variable alone : nat -> forall c : C, V -> R c * V.

(** Calls that commit do the same in a pool as alone; other calls leave the view
    alone, and their replies do not depend on it. *)
Hypothesis exec_commit : forall i c s r s',
  exec i c s = Some (r, s') -> commit c = true -> alone i c (view s) = (r, view s').
Hypothesis exec_other : forall i c s r s',
  exec i c s = Some (r, s') -> commit c = false -> view s' = view s /\ forall v, alone i c v = (r, v).
Hypothesis alone_other : forall i c, commit c = false -> exists r, forall v, alone i c v = (r, v).
Hypothesis jobs_once : forall i j, once commit false (prog_of i j).
Abbreviation conf := (conf R St Job Out).

(** The operations one after the other, with their results. *)
Fixpoint replay (l : list (nat * Job)) (v : V) : list (nat * (Job * Out)) * V :=
  match l with
  | [] => ([], v)
  | (i, j) :: l' =>
      let '(o, v') := run (alone i) (prog_of i j) v in
      let '(os, v'') := replay l' v' in ((i, (j, o)) :: os, v'')
  end.

Lemma replay_snoc l i j v :
  replay (l ++ [(i, j)]) v =
    let '(os, v') := replay l v in
    let '(o, v'') := run (alone i) (prog_of i j) v' in (os ++ [(i, (j, o))], v'').
Proof.
  revert v. induction l as [|[i' j'] l IH]; intros v; simpl.
  { by destruct (run _ _ _). }
  destruct (run (alone i') (prog_of i' j') v) as [o' v1]. rewrite IH.
  destruct (replay l v1) as [os v2]. by destruct (run _ _ _).
Qed.

(** After its commit the rest of an operation only computes its result. *)
Lemma once_committed {A} i (p : prog R A) : once commit true p -> exists a, forall v, run (alone i) p v = (a, v).
Proof.
  induction p as [a|c k IH]; simpl; [by exists a|]. intros [Hc Hk].
  destruct (commit c) eqn:E; [by discriminate Hc|]. destruct (alone_other i c E) as [r Hr].
  destruct (IH r (Hk r)) as [a Ha]. exists a. intros v. by rewrite Hr.
Qed.

Definition returned (c : conf) : list (nat * (Job * Out)) := map (fun x => (x.1.1, (x.1.2, x.2))) (rets c).

(** What holds of thread [i] with operations [jobs], while [os] are the results
    in the order of effects. *)
Definition thread_ok (os : list (nat * (Job * Out))) (c : conf) (i : nat) (jobs : list Job) (t : thread R Job Out) : Prop :=
  match cur t with
  | None => proj i os = proj i (returned c) /\ jobs = proj i (lin c) ++ todo t
  | Some (j, false, p) =>
      proj i os = proj i (returned c) /\ jobs = proj i (lin c) ++ j :: todo t /\
      once commit false p /\ forall v, run (alone i) p v = run (alone i) (prog_of i j) v
  | Some (j, true, p) =>
      exists o, proj i os = proj i (returned c) ++ [(j, o)] /\ jobs = proj i (lin c) ++ todo t /\
        once commit true p /\ forall v, run (alone i) p v = (o, v)
  end.

Definition lin_ok (v0 : V) (jobs : list (list Job)) (c : conf) : Prop :=
  let '(os, v) := replay (lin c) v0 in
  view (shared c) = v /\ length (pool c) = length jobs /\
  forall i js t, jobs !! i = Some js -> pool c !! i = Some t -> thread_ok os c i js t.

(** An effect or a return of thread [i] is not seen by another thread. *)
Lemma thread_ok_other os os' (c c' : conf) i j js t :
  i <> j -> proj j os' = proj j os -> proj j (returned c') = proj j (returned c) -> proj j (lin c') = proj j (lin c) ->
  thread_ok os c j js t -> thread_ok os' c' j js t.
Proof. intros _ H1 H2 H3. unfold thread_ok. by rewrite H1, H2, H3. Qed.

Lemma returned_snoc (c c' : conf) i j o :
  rets c' = rets c ++ [(i, j, o)] -> returned c' = returned c ++ [(i, (j, o))].
Proof. intros H. unfold returned. rewrite H. by rewrite map_app. Qed.

(** What changes in a step of thread [i]. *)
Lemma lin_ok_update v0 jobs (c c' : conf) i t' os v os' :
  replay (lin c) v0 = (os, v) -> lin_ok v0 jobs c -> pool c' = <[i := t']> (pool c) ->
  replay (lin c') v0 = (os', view (shared c')) ->
  (forall j, i <> j -> proj j os' = proj j os /\ proj j (returned c') = proj j (returned c) /\ proj j (lin c') = proj j (lin c)) ->
  (forall js t, jobs !! i = Some js -> pool c !! i = Some t -> thread_ok os c i js t -> thread_ok os' c' i js t') ->
  lin_ok v0 jobs c'.
Proof.
  intros Hos Hok Hp Hos' Hother Hi. unfold lin_ok in *. rewrite Hos in Hok. rewrite Hos'.
  destruct Hok as (_ & Hlen & Hok). split_and!; [done|by rewrite Hp, length_insert|].
  intros j js t Hj. rewrite Hp. destruct (decide (i = j)) as [<-|Hne].
  - intros Ht. assert (Hlt : i < length (pool c)) by (rewrite Hlen; eauto using lookup_lt_Some).
    rewrite list_lookup_insert_eq in Ht by done. injection Ht as <-.
    destruct (lookup_lt_is_Some_2 _ _ Hlt) as [t Ht]. eauto.
  - rewrite list_lookup_insert_ne by done. intros Ht. destruct (Hother j Hne) as (H1 & H2 & H3).
    eapply thread_ok_other; eauto.
Qed.

Lemma proj_snoc_other {A} i j (l : list (nat * A)) a : i <> j -> proj j (l ++ [(i, a)]) = proj j l.
Proof. intros. by rewrite proj_app, proj_other, app_nil_r. Qed.

Lemma proj_snoc_one {A} i (l : list (nat * A)) a : proj i (l ++ [(i, a)]) = proj i l ++ [a].
Proof. by rewrite proj_app, proj_one. Qed.

Hint Resolve proj_snoc_other : core.

Lemma lin_ok_return v0 jobs (c : conf) i js j b o :
  pool c !! i = Some (mkThread js (Some (j, b, Done o))) -> lin_ok v0 jobs c ->
  lin_ok v0 jobs (mkConf (shared c) (<[i := mkThread js None]> (pool c))
                    (if (b : bool) then lin c else lin c ++ [(i, j)]) (rets c ++ [(i, j, o)])).
Proof.
  intros Hi Hok. destruct (replay (lin c) v0) as [os v] eqn:Hos.
  assert (Hv : view (shared c) = v) by (unfold lin_ok in Hok; rewrite Hos in Hok; by destruct Hok).
  assert (Ht : forall jobs0 t, jobs !! i = Some jobs0 -> pool c !! i = Some t -> thread_ok os c i jobs0 t).
  { unfold lin_ok in Hok. rewrite Hos in Hok. destruct Hok as (_ & _ & H). eauto. }
  refine (lin_ok_update v0 jobs c _ i _ os v (if b then os else os ++ [(i, (j, o))]) Hos Hok _ _ _ _); [reflexivity|..].
  - simpl. destruct b; [by rewrite Hos, Hv|]. rewrite replay_snoc, Hos.
    destruct (lookup_lt_is_Some_2 jobs i) as [jobs0 Hj].
    { unfold lin_ok in Hok. rewrite Hos in Hok. destruct Hok as (_ & <- & _). eauto using lookup_lt_Some. }
    destruct (Ht _ _ Hj Hi) as (_ & _ & _ & Hr). rewrite <- Hr. simpl. by rewrite Hv.
  - intros j' Hne. split_and!; [by destruct b; auto| |by destruct b; simpl; auto].
    erewrite (returned_snoc c) by reflexivity. auto.
  - intros jobs0 t Hj Hi' Hok'. rewrite Hi in Hi'. injection Hi' as <-. unfold thread_ok in *. simpl in *.
    erewrite (returned_snoc c) by reflexivity. rewrite !proj_snoc_one.
    destruct b.
    + destruct Hok' as (o' & -> & -> & _ & Hr). split; [|done]. by injection (Hr v) as ->.
    + destruct Hok' as (H1 & -> & _ & _). rewrite !proj_snoc_one, H1, <- app_assoc. done.
Qed.

Lemma lin_ok_call v0 jobs (c : conf) i js j b cl k r s :
  pool c !! i = Some (mkThread js (Some (j, b, Do cl k))) -> exec i cl (shared c) = Some (r, s) -> lin_ok v0 jobs c ->
  lin_ok v0 jobs (mkConf s (<[i := mkThread js (Some (j, b || commit cl, k r))]> (pool c))
                    (if commit cl then lin c ++ [(i, j)] else lin c) (rets c)).
Proof.
  intros Hi Hex Hok. destruct (replay (lin c) v0) as [os v] eqn:Hos.
  assert (Hok1 := Hok). unfold lin_ok in Hok1. rewrite Hos in Hok1. destruct Hok1 as (Hv & Hlen & Ht).
  destruct (lookup_lt_is_Some_2 jobs i) as [jobs0 Hj]; [rewrite <- Hlen; eauto using lookup_lt_Some|].
  assert (Hti := Ht _ _ _ Hj Hi). unfold thread_ok in Hti. simpl in Hti. destruct (commit cl) eqn:Ec.
  - destruct b; [by destruct Hti as (? & _ & _ & [Hf _] & _); discriminate Hf|].
    destruct Hti as (Hp & Hjs & [_ Honce] & Hrun).
    destruct (once_committed i (k r) (Honce r)) as [o Ho]. apply exec_commit in Hex as Ha; [|done].
    refine (lin_ok_update v0 jobs c _ i _ os v (os ++ [(i, (j, o))]) Hos Hok _ _ _ _); [reflexivity|..].
    + simpl. rewrite replay_snoc, Hos, <- Hrun. simpl. rewrite <- Hv, Ha. by rewrite Ho.
    + intros j' Hne. simpl. split_and!; auto.
    + intros jobs1 t Hj1 Hi1 _. assert (jobs1 = jobs0) as -> by congruence. unfold thread_ok. simpl. exists o. rewrite !proj_snoc_one.
      split_and!; [by rewrite Hp|by rewrite Hjs, <- app_assoc|by apply Honce|done].
  - apply exec_other in Hex as [Hs Hr]; [|done]. rewrite orb_false_r.
    refine (lin_ok_update v0 jobs c _ i _ os v os Hos Hok _ _ _ _); [reflexivity|..].
    + simpl. by rewrite Hs, Hv.
    + intros j' Hne. by split_and!.
    + intros jobs1 t Hj1 Hi1 _. assert (jobs1 = jobs0) as -> by congruence. unfold thread_ok. simpl. destruct b.
      * destruct Hti as (o & Hp & Hjs & [_ Honce] & Hrun). exists o. split_and!; [done..|by apply Honce|].
        intros v'. rewrite <- Hrun. by rewrite Hr.
      * destruct Hti as (Hp & Hjs & [_ Honce] & Hrun). split_and!; [done..|by apply Honce|].
        intros v'. rewrite <- Hrun. by rewrite Hr.
Qed.

Lemma lin_ok_step v0 jobs i (c c' : conf) :
  lin_ok v0 jobs c -> step exec prog_of commit i c = Some c' -> lin_ok v0 jobs c'.
Proof.
  intros Hok Hs%step_inv. destruct Hs as [j js Hi|js j b o Hi|js j b cl k r s Hi Hex];
    [|by apply lin_ok_return|by apply lin_ok_call].
  destruct (replay (lin c) v0) as [os v] eqn:Hos.
  refine (lin_ok_update v0 jobs c _ i _ os v os Hos Hok _ _ _ _); [reflexivity|..].
  - simpl. unfold lin_ok in Hok. rewrite Hos in *. by destruct Hok as [-> _].
  - done.
  - intros jobs0 t _ Hi' Hok'. rewrite Hi in Hi'. injection Hi' as <-. unfold thread_ok in *. simpl in *.
    destruct Hok' as [H1 H2]. by split_and!.
Qed.

Lemma lin_ok_init s jobs : lin_ok (view s) jobs (init s jobs).
Proof.
  unfold lin_ok, init. simpl. split_and!; [done|apply length_map|]. intros i js t Hj Ht.
  rewrite list_lookup_fmap, Hj in Ht. by injection Ht as <-.
Qed.

(** The order of effects only grows. *)
Lemma run_schedule_lin sched (c c' : conf) :
  run_schedule exec prog_of commit sched c = Some c' -> lin c `prefix_of` lin c'.
Proof.
  intros Hr. eapply (run_schedule_inv exec prog_of commit (fun c1 => lin c `prefix_of` lin c1)); [|done|exact Hr].
  intros i c1 c2 Hp Hs%step_inv. destruct Hs; simpl; repeat case_match; try done; by apply prefix_app_r.
Qed.

(** Any schedule is explained by running its operations one after the other, in
    the order in which they took effect: the view of the state is the one that
    this leaves; every thread gets the results it has in this order (an operation
    may have taken effect that has not returned yet); and the order keeps the
    program order of every thread. *)
Lemma linearizable sched s jobs (c : conf) :
  run_schedule exec prog_of commit sched (init s jobs) = Some c ->
  let '(os, v) := replay (lin c) (view s) in
  view (shared c) = v /\
  forall i js, jobs !! i = Some js ->
    proj i (returned c) `prefix_of` proj i os /\ length (proj i os) <= length (proj i (returned c)) + 1 /\
    proj i (lin c) `prefix_of` js /\
    (Forall finished (pool c) -> proj i os = proj i (returned c) /\ proj i (lin c) = js).
Proof.
  intros Hr. assert (Hok : lin_ok (view s) jobs c).
  { eapply (run_schedule_inv exec prog_of commit (lin_ok (view s) jobs)); [|apply lin_ok_init|exact Hr].
    intros i c1 c2 H1 H2. eapply lin_ok_step; eauto. }
  unfold lin_ok in Hok. destruct (replay (lin c) (view s)) as [os v] eqn:Hos. destruct Hok as (Hv & Hlen & Hok).
  split; [done|]. intros i js Hj. destruct (lookup_lt_is_Some_2 (pool c) i) as [t Ht].
  { rewrite Hlen. eauto using lookup_lt_Some. }
  specialize (Hok _ _ _ Hj Ht). unfold thread_ok in Hok.
  assert (Hfin : Forall finished (pool c) -> finished t) by (intros HF; rewrite Forall_lookup in HF; eauto).
  destruct (cur t) as [[[j [|]] p]|] eqn:Ec.
  - destruct Hok as (o & -> & -> & _). split_and!; [by apply prefix_app_r|rewrite length_app; simpl; lia|by apply prefix_app_r|].
    intros [_ Hf]%Hfin. congruence.
  - destruct Hok as (-> & -> & _). split_and!; [done|lia|by apply prefix_app_r|]. intros [_ Hf]%Hfin. congruence.
  - destruct Hok as (-> & ->). split_and!; [done|lia|by apply prefix_app_r|]. intros [Hf _]%Hfin.
    by rewrite Hf, app_nil_r.
Qed.

End linearizability.
