(* ===== verification/GoStrings.v ===== *)
(** * Go strings

Go strings are byte sequences: [string] (a list of 8-bit [ascii]) models both
[string] and [[]byte].  This file defines the functions of the packages
[strings], [bytes] and [unicode/utf8] that the modelled code calls, with the
lemmas the components share. *)

From stdpp Require Import sorting.
From S2P Require Import Prelude.

#[global] Arguments String.append !s1 s2 : simpl nomatch.

(** ** Basic operations *)

Fixpoint str_drop (n : nat) (s : string) : string :=
  match n, s with
  | O, _ => s
  | S n', EmptyString => ""
  | S n', String _ s' => str_drop n' s'
  end.

Fixpoint str_take (n : nat) (s : string) : string :=
  match n, s with
  | O, _ => ""
  | S n', EmptyString => ""
  | S n', String c s' => String c (str_take n' s')
  end.

Definition slen (s : string) : nat := String.length s.

(** [strings.HasPrefix] *)
Fixpoint HasPrefix (s p : string) {struct p} : bool :=
  match p, s with
  | EmptyString, _ => true
  | String a p', String b s' => bool_decide (a = b) && HasPrefix s' p'
  | String _ _, EmptyString => false
  end.

(** [strings.HasSuffix]: [len(s) >= len(x) && s[len(s)-len(x):] == x]. *)
Definition HasSuffix (s x : string) : bool :=
  Nat.leb (slen x) (slen s) && bool_decide (str_drop (slen s - slen x) s = x).

(** [strings.Cut]: the text before and after the first occurrence of [sep]. *)
Fixpoint Cut (s sep : string) : option (string * string) :=
  if HasPrefix s sep then Some ("", str_drop (slen sep) s)
  else match s with
       | EmptyString => None
       | String c s' =>
           match Cut s' sep with
           | Some (b, a) => Some (String c b, a)
           | None => None
           end
       end.

(** [strings.Contains] *)
Definition Contains (s sub : string) : bool :=
  match Cut s sub with Some _ => true | None => false end.

(** [strings.TrimPrefix], [strings.CutPrefix] and [strings.TrimSuffix] *)
Definition TrimPrefix (s p : string) : string :=
  if HasPrefix s p then str_drop (slen p) s else s.

Definition CutPrefix (s p : string) : option string :=
  if HasPrefix s p then Some (str_drop (slen p) s) else None.

Definition TrimSuffix (s x : string) : string :=
  if HasSuffix s x then str_take (slen s - slen x) s else s.

(** [strings.Join] *)
Fixpoint Join (l : list string) (sep : string) : string :=
  match l with
  | [] => ""
  | [x] => x
  | x :: l' => x +:+ sep +:+ Join l' sep
  end.

(** ** UTF-8 ([unicode/utf8]) *)

Definition RuneError : N := 65533.

Definition cont_in (lo hi : N) (c : ascii) : bool :=
  let n := N_of_ascii c in (lo <=? n)%N && (n <=? hi)%N.

(** [utf8.DecodeRuneInString]: the first rune and its width in bytes; an
    invalid encoding is [RuneError] of width one. *)
Definition DecodeRune (s : string) : N * nat :=
  match s with
  | EmptyString => (RuneError, 0%nat)
  | String c0 s1 =>
      let b0 := N_of_ascii c0 in
      if (b0 <? 128)%N then (b0, 1%nat)
      else if (b0 <? 194)%N then (RuneError, 1%nat)
      else if (b0 <? 224)%N then
        match s1 with
        | String c1 _ =>
            if cont_in 128 191 c1
            then (((b0 - 192) * 64 + (N_of_ascii c1 - 128))%N, 2%nat)
            else (RuneError, 1%nat)
        | EmptyString => (RuneError, 1%nat)
        end
      else if (b0 <? 240)%N then
        let lo := if (b0 =? 224)%N then 160%N else 128%N in
        let hi := if (b0 =? 237)%N then 159%N else 191%N in
        match s1 with
        | String c1 (String c2 _) =>
            if cont_in lo hi c1 && cont_in 128 191 c2
            then (((b0 - 224) * 4096 + (N_of_ascii c1 - 128) * 64 + (N_of_ascii c2 - 128))%N, 3%nat)
            else (RuneError, 1%nat)
        | _ => (RuneError, 1%nat)
        end
      else if (b0 <? 245)%N then
        let lo := if (b0 =? 240)%N then 144%N else 128%N in
        let hi := if (b0 =? 244)%N then 143%N else 191%N in
        match s1 with
        | String c1 (String c2 (String c3 _)) =>
            if cont_in lo hi c1 && cont_in 128 191 c2 && cont_in 128 191 c3
            then (((b0 - 240) * 262144 + (N_of_ascii c1 - 128) * 4096
                   + (N_of_ascii c2 - 128) * 64 + (N_of_ascii c3 - 128))%N, 4%nat)
            else (RuneError, 1%nat)
        | _ => (RuneError, 1%nat)
        end
      else (RuneError, 1%nat)
  end.

(** The runes of a string with their encodings, in order ([for _, r := range s]
    and the [explode] helper of package strings). *)
Fixpoint runes_fuel (fuel : nat) (s : string) : list (N * string) :=
  match fuel, s with
  | O, _ | _, EmptyString => []
  | S f, _ =>
      let '(r, w) := DecodeRune s in
      (r, str_take w s) :: runes_fuel f (str_drop w s)
  end.

Definition runes (s : string) : list (N * string) := runes_fuel (slen s) s.

(** ** Splitting *)

Fixpoint split_fuel (fuel : nat) (s sep : string) : list string :=
  match fuel with
  | O => [s]
  | S f =>
      match Cut s sep with
      | None => [s]
      | Some (b, a) => b :: split_fuel f a sep
      end
  end.

(** [strings.Split]: for an empty separator, the string split after each UTF-8
    sequence. *)
Definition Split (s sep : string) : list string :=
  if bool_decide (sep = "") then map snd (runes s)
  else split_fuel (slen s) s sep.

(** [strings.SplitN(s, sep, 2)] for a non-empty separator. *)
Definition SplitN2 (s sep : string) : list string :=
  match Cut s sep with None => [s] | Some (b, a) => [b; a] end.

Fixpoint count_fuel (fuel : nat) (s sep : string) : nat :=
  match fuel with
  | O => 0
  | S f => match Cut s sep with None => 0 | Some (_, a) => S (count_fuel f a sep) end
  end.

(** [strings.Count]: non-overlapping occurrences; for an empty [sep], one more
    than the number of runes. *)
Definition Count (s sep : string) : nat :=
  if bool_decide (sep = "") then S (length (runes s))
  else count_fuel (slen s) s sep.

(** ** Trimming *)

(** [unicode.IsSpace] *)
Definition is_space (r : N) : bool :=
  bool_decide (r ∈ ([9; 10; 11; 12; 13; 32; 133; 160; 5760; 8232; 8233; 8239; 8287; 12288] : list N)%N)
  || ((8192 <=? r)%N && (r <=? 8202)%N).

Definition drop_while {A} (f : A -> bool) : list A -> list A :=
  fix go l := match l with [] => [] | x :: l' => if f x then go l' else l end.

Definition concat_runes (l : list (N * string)) : string := String.concat "" (map snd l).

(** [strings.TrimSpace] *)
Definition TrimSpace (s : string) : string :=
  let l := drop_while (fun r => is_space r.1) (runes s) in
  concat_runes (rev (drop_while (fun r => is_space r.1) (rev l))).

(** [strings.Trim(s, c)] for a single ASCII cut character [c]. *)
Definition TrimByte (s : string) (c : ascii) : string :=
  let l := drop_while (fun x => bool_decide (x = c)) (String.list_ascii_of_string s) in
  String.string_of_list_ascii (rev (drop_while (fun x => bool_decide (x = c)) (rev l))).

(** [strings.ContainsAny] for a set of ASCII characters. *)
Definition ContainsAny (s : string) (cs : list ascii) : bool :=
  existsb (fun c => bool_decide (c ∈ cs)) (String.list_ascii_of_string s).

(** ** Lemmas *)

Lemma slen_app (a b : string) : slen (a +:+ b) = (slen a + slen b)%nat.
Proof. unfold slen. induction a; simpl; auto. Qed.

Lemma app_empty_r (s : string) : s +:+ "" = s.
Proof. induction s; simpl; congruence. Qed.

Lemma app_str_assoc (a b c : string) : (a +:+ b) +:+ c = a +:+ (b +:+ c).
Proof. induction a; simpl; congruence. Qed.

Lemma str_drop_app (a b : string) : str_drop (slen a) (a +:+ b) = b.
Proof. induction a; simpl; auto. Qed.

Lemma str_take_app (a b : string) : str_take (slen a) (a +:+ b) = a.
Proof. induction a as [|x a IH]; simpl; [by destruct b | f_equal; apply IH]. Qed.

Lemma str_take_drop n (s : string) : str_take n s +:+ str_drop n s = s.
Proof. revert s. induction n; intros [|c s]; simpl; auto. by rewrite IHn. Qed.

Lemma slen_str_take n (s : string) : slen (str_take n s) = Nat.min n (slen s).
Proof. revert s. unfold slen. induction n; intros [|c s]; simpl; auto. Qed.

Lemma slen_str_drop n (s : string) : slen (str_drop n s) = (slen s - n)%nat.
Proof. revert s. unfold slen. induction n; intros [|c s]; simpl; auto. Qed.

Lemma slen_zero (s : string) : slen s = 0%nat <-> s = "".
Proof. by destruct s. Qed.

Lemma app_str_inj_r (a b c : string) : a +:+ c = b +:+ c -> a = b.
Proof.
  intros H. assert (Hl : slen a = slen b).
  { apply (f_equal slen) in H. rewrite !slen_app in H. lia. }
  rewrite <- (str_take_app a c), H, Hl. apply str_take_app.
Qed.

Lemma HasPrefix_spec (s p : string) : HasPrefix s p = true <-> exists t, s = p +:+ t.
Proof.
  revert s. induction p as [|a p IH]; intros s; simpl; [split; [by exists s | done]|].
  destruct s as [|b s]; [split; [done | by intros [t Ht]]|]. rewrite andb_true_iff, bool_decide_eq_true, IH. split.
  - intros [-> [t ->]]. by exists t.
  - intros [t Ht]. simpl in Ht. simplify_eq. eauto.
Qed.

Lemma HasSuffix_spec (s x : string) : HasSuffix s x = true <-> exists t, s = t +:+ x.
Proof.
  unfold HasSuffix. rewrite andb_true_iff, Nat.leb_le, bool_decide_eq_true. split.
  - intros [_ H]. exists (str_take (slen s - slen x) s). rewrite <- H at 2. by rewrite str_take_drop.
  - intros [t ->]. rewrite slen_app. split; [lia|].
    replace (slen t + slen x - slen x)%nat with (slen t) by lia. apply str_drop_app.
Qed.

Lemma HasPrefix_app (p t : string) : HasPrefix (p +:+ t) p = true.
Proof. apply HasPrefix_spec. eauto. Qed.

Lemma HasSuffix_app (t x : string) : HasSuffix (t +:+ x) x = true.
Proof. apply HasSuffix_spec. eauto. Qed.

Lemma TrimPrefix_app (p t : string) : TrimPrefix (p +:+ t) p = t.
Proof. unfold TrimPrefix. by rewrite HasPrefix_app, str_drop_app. Qed.

Lemma TrimSuffix_app (t x : string) : TrimSuffix (t +:+ x) x = t.
Proof.
  unfold TrimSuffix. rewrite HasSuffix_app, slen_app.
  replace (slen t + slen x - slen x)%nat with (slen t) by lia. apply str_take_app.
Qed.

#[export] Hint Rewrite slen_app app_empty_r app_str_assoc str_drop_app str_take_app
  HasPrefix_app HasSuffix_app TrimPrefix_app TrimSuffix_app : golib_rw.

Lemma HasPrefix_drop (s p : string) : HasPrefix s p = true -> p +:+ str_drop (slen p) s = s.
Proof. intros [t ->]%HasPrefix_spec. by rewrite str_drop_app. Qed.

Lemma Cut_Some (s sep b a : string) : Cut s sep = Some (b, a) -> s = b +:+ sep +:+ a.
Proof.
  revert b a. induction s as [|c s IH]; intros b a; cbn [Cut].
  - destruct (HasPrefix "" sep) eqn:E; [|done].
    intros [= <- <-]. symmetry. by apply HasPrefix_drop.
  - destruct (HasPrefix (String c s) sep) eqn:E.
    + intros [= <- <-]. symmetry. by apply HasPrefix_drop.
    + destruct (Cut s sep) as [[b' a']|] eqn:E2; [|done].
      intros [= <- <-]. simpl. f_equal. by apply IH.
Qed.

Lemma Cut_None (s sep x y : string) : Cut s sep = None -> s <> x +:+ sep +:+ y.
Proof.
  revert x. induction s as [|c s IH]; intros x H Heq; cbn [Cut] in H; revert H;
    destruct (HasPrefix _ sep) eqn:E; try done.
  - destruct x; [|done]. simpl in Heq. rewrite Heq in E. by rewrite HasPrefix_app in E.
  - destruct x as [|c' x]; simpl in Heq.
    + rewrite Heq in E. by rewrite HasPrefix_app in E.
    + simplify_eq. destruct (Cut _ sep) as [[??]|] eqn:E2; [done|]. intros _. by eapply IH.
Qed.

Lemma Contains_spec (s sub : string) : Contains s sub = true <-> exists x y, s = x +:+ sub +:+ y.
Proof.
  unfold Contains. destruct (Cut s sub) as [[b a]|] eqn:E.
  - apply Cut_Some in E. naive_solver.
  - split; [done|]. intros (x & y & ->). by eapply Cut_None in E.
Qed.

Lemma slen_Cut (s sep b a : string) : Cut s sep = Some (b, a) -> sep <> "" -> (slen a < slen s)%nat.
Proof.
  intros ->%Cut_Some Hne. rewrite !slen_app. destruct sep; [done|]. unfold slen. simpl. lia.
Qed.

Lemma Split_length (s sep : string) : sep <> "" -> length (Split s sep) = S (Count s sep).
Proof.
  intros Hne. unfold Split, Count. rewrite !bool_decide_false by done.
  generalize (slen s). intros n. revert s. induction n as [|n IH]; intros s; simpl; [done|].
  destruct (Cut s sep) as [[b a]|]; simpl; auto.
Qed.

Lemma split_fuel_ne f (s sep : string) : split_fuel f s sep <> [].
Proof. destruct f; simpl; [done|]. destruct (Cut s sep) as [[??]|]; done. Qed.

Lemma Join_cons (x : string) l sep : l <> [] -> Join (x :: l) sep = x +:+ sep +:+ Join l sep.
Proof. by destruct l. Qed.

(** Joining the parts gives the string back. *)
Lemma Join_Split (s sep : string) : sep <> "" -> Join (Split s sep) sep = s.
Proof.
  intros Hne. unfold Split. rewrite bool_decide_false by done.
  generalize (slen s). intros n. revert s. induction n as [|n IH]; intros s; simpl; [done|].
  destruct (Cut s sep) as [[b a]|] eqn:E; [|done].
  rewrite Join_cons by apply split_fuel_ne. rewrite IH. symmetry. by apply Cut_Some.
Qed.

(** *** Single-byte separators *)

Fixpoint split_byte (c : ascii) (s : string) : list string :=
  match s with
  | EmptyString => [""]
  | String x s' =>
      if bool_decide (x = c) then "" :: split_byte c s'
      else match split_byte c s' with
           | h :: t => String x h :: t
           | [] => [String x ""]
           end
  end.

Lemma split_byte_ne c s : split_byte c s <> [].
Proof. destruct s; simpl; [done|]. case_bool_decide; [done|]. by destruct (split_byte c s). Qed.

Lemma Cut_byte c x s :
  Cut (String x s) (String c "") =
    if bool_decide (x = c) then Some ("", s)
    else match Cut s (String c "") with Some (b, a) => Some (String x b, a) | None => None end.
Proof.
  cbn [Cut HasPrefix]. case_bool_decide as H1; case_bool_decide as H2; subst; try done.
Qed.

Lemma split_byte_Cut c s :
  split_byte c s = match Cut s (String c "") with
                   | Some (b, a) => b :: split_byte c a
                   | None => [s]
                   end.
Proof.
  induction s as [|x s IH]; [done|]. rewrite Cut_byte. simpl.
  case_bool_decide; [done|]. rewrite IH. by destruct (Cut s (String c "")) as [[??]|].
Qed.

Lemma Split_split_byte c s : Split s (String c "") = split_byte c s.
Proof.
  unfold Split. rewrite bool_decide_false by done.
  assert (Hf : (slen s <= slen s)%nat) by lia. revert Hf. generalize (slen s) at 2 3.
  intros n. revert s. induction n as [|n IH]; intros s Hn.
  - assert (s = "") as -> by (apply slen_zero; lia). done.
  - simpl. rewrite split_byte_Cut. destruct (Cut s (String c "")) as [[b a]|] eqn:E; [|done].
    f_equal. apply IH. apply slen_Cut in E; [lia|done].
Qed.

Lemma split_byte_app c a b : split_byte c (a +:+ String c b) = split_byte c a ++ split_byte c b.
Proof.
  induction a as [|x a IH]; simpl; [by rewrite bool_decide_true|].
  case_bool_decide; [by rewrite IH|]. rewrite IH.
  destruct (split_byte c a) eqn:E; [by apply split_byte_ne in E|]. done.
Qed.

(** ** Runes and their encodings *)

(** The bytes of a string that stand for themselves are its ASCII runes. *)
Lemma DecodeRune_ascii c s : (N_of_ascii c < 128)%N -> DecodeRune (String c s) = (N_of_ascii c, 1%nat).
Proof. intros Hc. simpl. destruct (N.ltb_spec (N_of_ascii c) 128); [done|lia]. Qed.

Lemma DecodeRune_width s : s <> "" -> (1 <= (DecodeRune s).2 <= slen s)%nat /\
  ((1 < (DecodeRune s).2)%nat -> forall i x, (i < (DecodeRune s).2)%nat -> String.get i s = Some x -> (128 <= N_of_ascii x)%N).
Proof.
  destruct s as [|c0 s1]; [done|]. intros _. unfold slen. cbn [DecodeRune String.length].
  set (b0 := N_of_ascii c0).
  destruct (N.ltb_spec b0 128); [simpl; split; [lia|lia]|].
  destruct (N.ltb_spec b0 194); [simpl; split; [lia|lia]|].
  assert (Hc0 : forall x, Some c0 = Some x -> (128 <= N_of_ascii x)%N) by (intros x [= <-]; done).
  assert (Hcont : forall lo hi c, (128 <= lo)%N -> cont_in lo hi c = true -> (128 <= N_of_ascii c)%N).
  { intros lo hi c Hlo [H1 _]%andb_true_iff. apply N.leb_le in H1. lia. }
  destruct (N.ltb_spec b0 224).
  { destruct s1 as [|c1 s]; [simpl; split; lia|]. destruct (cont_in 128 191 c1) eqn:E; [|simpl; split; lia].
    simpl. split; [lia|]. intros _ [|[|i]] x Hi; [apply Hc0| |lia].
    intros [= <-]. by apply (Hcont _ _ _ (N.le_refl _) E). }
  destruct (N.ltb_spec b0 240).
  { destruct s1 as [|c1 [|c2 s]]; [simpl; split; lia..|].
    destruct (cont_in _ _ c1 && cont_in 128 191 c2) eqn:E; [|simpl; split; lia].
    apply andb_true_iff in E as [E1 E2]. simpl. split; [lia|]. intros _ [|[|[|i]]] x Hi; [apply Hc0| | |lia]; intros [= <-].
    - eapply Hcont; [|exact E1]. destruct (b0 =? 224)%N; lia.
    - by apply (Hcont _ _ _ (N.le_refl _) E2). }
  destruct (N.ltb_spec b0 245); [|simpl; split; lia].
  destruct s1 as [|c1 [|c2 [|c3 s]]]; [simpl; split; lia..|].
  destruct (cont_in _ _ c1 && cont_in 128 191 c2 && cont_in 128 191 c3) eqn:E; [|simpl; split; lia].
  apply andb_true_iff in E as [E E3]. apply andb_true_iff in E as [E1 E2].
  simpl. split; [lia|]. intros _ [|[|[|[|i]]]] x Hi; [apply Hc0| | | |lia]; intros [= <-].
  - eapply Hcont; [|exact E1]. destruct (b0 =? 240)%N; lia.
  - by apply (Hcont _ _ _ (N.le_refl _) E2).
  - by apply (Hcont _ _ _ (N.le_refl _) E3).
Qed.

Lemma String_get_drop n s i : String.get (n + i) s = String.get i (str_drop n s).
Proof. revert s. induction n as [|n IH]; intros [|c s]; simpl; auto. Qed.

(** Every ASCII byte of a string is one of its runes. *)
Lemma ascii_rune fuel s i c :
  (slen s <= fuel)%nat -> String.get i s = Some c -> (N_of_ascii c < 128)%N ->
  exists e, (N_of_ascii c, e) ∈ runes_fuel fuel s.
Proof.
  revert s i. induction fuel as [|f IH]; intros s i Hf Hg Hc.
  { destruct s; [by destruct i|simpl in Hf; lia]. }
  destruct s as [|c0 s]; [by destruct i|].
  assert (Hne : String c0 s <> "") by done. pose proof (DecodeRune_width _ Hne) as [Hw Hhigh].
  change (runes_fuel (S f) (String c0 s)) with
    (let '(r, w) := DecodeRune (String c0 s) in (r, str_take w (String c0 s)) :: runes_fuel f (str_drop w (String c0 s))).
  destruct (DecodeRune (String c0 s)) as [r w] eqn:E. simpl in Hw, Hhigh.
  destruct (decide (i < w)%nat) as [Hi|Hi].
  - destruct (decide (1 < w)%nat) as [Hw1|Hw1].
    { specialize (Hhigh Hw1 i c Hi Hg). lia. }
    assert (i = 0%nat) as -> by lia. simpl in Hg. injection Hg as <-.
    rewrite DecodeRune_ascii in E by done. injection E as <- <-. eexists. by left.
  - replace i with (w + (i - w))%nat in Hg by lia. rewrite String_get_drop in Hg.
    destruct (IH (str_drop w (String c0 s)) (i - w)%nat) as [e He]; [|done..|].
    + rewrite slen_str_drop. lia.
    + exists e. by right.
Qed.

(** A rune and its encoding: a byte below 128 that stands for itself, or at most
    four bytes from 128 on. *)
Definition rune_ok (x : N * string) : Prop :=
  (exists c, x = (N_of_ascii c, String c "") /\ (N_of_ascii c < 128)%N) \/
  ((128 <= x.1)%N /\ (1 <= slen x.2 <= 4)%nat /\ Forall (fun c => (128 <= N_of_ascii c)%N) (String.list_ascii_of_string x.2)).

Lemma DecodeRune_high c s : (128 <= N_of_ascii c)%N ->
  (128 <= (DecodeRune (String c s)).1)%N /\ ((DecodeRune (String c s)).2 <= 4)%nat.
Proof.
  intros Hc. cbn [DecodeRune]. assert (HE : (128 <= RuneError)%N) by done.
  assert (Hcont : forall lo hi c, (128 <= lo)%N -> cont_in lo hi c = true -> (lo <= N_of_ascii c)%N).
  { intros lo hi c' Hlo [H1 _]%andb_true_iff. by apply N.leb_le in H1. }
  destruct (N.ltb_spec (N_of_ascii c) 128); [lia|]. destruct (N.ltb_spec (N_of_ascii c) 194); [simpl; split; [done|lia]|].
  destruct (N.ltb_spec (N_of_ascii c) 224).
  { destruct s as [|c1 s]; [simpl; split; [done|lia]|]. destruct (cont_in 128 191 c1); simpl; split; try done; lia. }
  destruct (N.ltb_spec (N_of_ascii c) 240).
  { destruct s as [|c1 [|c2 s]]; [simpl; split; [done|lia]..|].
    destruct (cont_in (if (N_of_ascii c =? 224)%N then 160 else 128) _ c1 && _) eqn:E; simpl; split; try done; try lia.
    apply andb_true_iff in E as [E1 _]. apply Hcont in E1; destruct (N.eqb_spec (N_of_ascii c) 224); lia. }
  destruct (N.ltb_spec (N_of_ascii c) 245); [|simpl; split; [done|lia]].
  destruct s as [|c1 [|c2 [|c3 s]]]; [simpl; split; [done|lia]..|].
  destruct (cont_in (if (N_of_ascii c =? 240)%N then 144 else 128) _ c1 && _ && _) eqn:E; simpl; split; try done; try lia.
  apply andb_true_iff in E as [E _]. apply andb_true_iff in E as [E1 _].
  apply Hcont in E1; destruct (N.eqb_spec (N_of_ascii c) 240); lia.
Qed.

Lemma list_ascii_get s c : c ∈ String.list_ascii_of_string s <-> exists i, String.get i s = Some c.
Proof.
  induction s as [|d s IH]; simpl.
  - split; [by intros ?%elem_of_nil|]. by intros [[|i] Hi].
  - rewrite elem_of_cons, IH. split.
    + intros [->|[i Hi]]; [by exists 0%nat|by exists (S i)].
    + intros [[|i] Hi]; [left; by injection Hi|right; eauto].
Qed.

Lemma get_str_take n s i c : String.get i (str_take n s) = Some c -> (i < n)%nat /\ String.get i s = Some c.
Proof.
  revert s i. induction n as [|n IH]; intros s i; [by destruct s, i|]. destruct s as [|d s]; [by destruct i|].
  destruct i as [|i]; simpl; [split; [lia|done]|]. intros [H1 H2]%IH. split; [lia|done].
Qed.

Lemma runes_fuel_spec fuel s : (slen s <= fuel)%nat ->
  concat_runes (runes_fuel fuel s) = s /\ Forall rune_ok (runes_fuel fuel s).
Proof.
  revert s. induction fuel as [|f IH]; intros s Hf.
  { destruct s; [by split|simpl in Hf; lia]. }
  destruct s as [|c0 s0] eqn:Es; [by split|]. rewrite <- Es in *. assert (Hne : s <> "") by (by rewrite Es).
  pose proof (DecodeRune_width s Hne) as [Hw Hhigh].
  replace (runes_fuel (S f) s) with (let '(r, w) := DecodeRune s in (r, str_take w s) :: runes_fuel f (str_drop w s))
    by (by rewrite Es).
  destruct (DecodeRune s) as [r w] eqn:E. simpl in Hw, Hhigh.
  destruct (IH (str_drop w s)) as [H1 H2]; [rewrite slen_str_drop; lia|]. split.
  - rewrite <- (str_take_drop w s) at 3. rewrite <- H1 at 2. unfold concat_runes. simpl.
    destruct (map snd (runes_fuel f (str_drop w s))); [by rewrite app_empty_r|done].
  - constructor; [|done]. destruct (decide (N_of_ascii c0 < 128)%N) as [Hc|Hc].
    + left. exists c0. rewrite Es, DecodeRune_ascii in E by done. injection E as <- <-. subst s. simpl. by destruct s0.
    + right. simpl. pose proof (DecodeRune_high c0 s0) as Hh. rewrite <- Es, E in Hh. simpl in Hh.
      destruct Hh as [Hr Hw4]; [lia|]. split_and!; [done|rewrite slen_str_take; lia|rewrite slen_str_take; lia|].
      apply Forall_forall. intros x [i Hi]%list_ascii_get. apply get_str_take in Hi as [Hi Hg].
      destruct (decide (1 < w)%nat) as [Hw1|Hw1]; [by apply (Hhigh Hw1 i)|].
      assert (i = 0%nat) as -> by lia. rewrite Es in Hg. simpl in Hg. injection Hg as <-. lia.
Qed.

Lemma concat_runes_runes s : concat_runes (runes s) = s.
Proof. by apply runes_fuel_spec. Qed.

Lemma runes_ok s : Forall rune_ok (runes s).
Proof. by apply runes_fuel_spec. Qed.

(** A string without [c]. *)
Definition without (c : ascii) (s : string) : Prop := Forall (fun x => x <> c) (String.list_ascii_of_string s).

#[global] Instance without_dec c s : Decision (without c s).
Proof. unfold without. apply _. Defined.

Lemma list_ascii_app a b :
  String.list_ascii_of_string (a +:+ b) = String.list_ascii_of_string a ++ String.list_ascii_of_string b.
Proof. induction a as [|c a IH]; [done|]. simpl. by rewrite IH. Qed.

Lemma without_app c a b : without c (a +:+ b) <-> without c a /\ without c b.
Proof. unfold without. by rewrite list_ascii_app, Forall_app. Qed.

Lemma without_concat c l : Forall (without c) l -> without c (String.concat "" l).
Proof.
  induction 1 as [|x l Hx Hl IH]; [constructor|]. simpl. destruct l; [done|]. by apply without_app.
Qed.


Lemma split_byte_without c s : without c s -> split_byte c s = [s].
Proof.
  unfold without. induction s as [|d s IH]; [done|]. simpl. intros [Hd Hs]%Forall_cons.
  rewrite IH by done. by rewrite bool_decide_false.
Qed.

Lemma split_byte_cons c s t : without c s -> split_byte c (s +:+ String c t) = s :: split_byte c t.
Proof. intros Hs. by rewrite split_byte_app, split_byte_without. Qed.

Lemma Contains_without c s : Contains s (String c "") = false <-> without c s.
Proof.
  unfold without. rewrite Forall_forall. rewrite <- not_true_iff_false, Contains_spec. split.
  - intros Hn x Hx ->. apply Hn. apply list_elem_of_split in Hx as (l1 & l2 & Hl).
    exists (String.string_of_list_ascii l1), (String.string_of_list_ascii l2).
    rewrite <- (String.string_of_list_ascii_of_string s), Hl. clear. induction l1; simpl; [done|]. by f_equal.
  - intros Hall (x & y & ->). apply (Hall c); [|done]. rewrite !list_ascii_app. set_solver.
Qed.

Lemma Cut_without c s t : without c s -> Cut (s +:+ String c t) (String c "") = Some (s, t).
Proof.
  induction s as [|x s IH]; intros Hs; cbn [String.append]; rewrite Cut_byte.
  - by rewrite bool_decide_true.
  - apply Forall_cons in Hs as [Hx Hs]. rewrite bool_decide_false by done. by rewrite IH.
Qed.

Lemma Cut_none c s : without c s -> Cut s (String c "") = None.
Proof.
  induction s as [|x s IH]; intros Hs; [done|]. rewrite Cut_byte.
  apply Forall_cons in Hs as [Hx Hs]. rewrite bool_decide_false by done. by rewrite IH.
Qed.

Lemma split_byte_Join c l :
  l <> [] -> Forall (without c) l -> split_byte c (Join l (String c "")) = l.
Proof.
  intros Hl HF. induction HF as [|x l Hx HF IH]; [done|]. destruct l as [|y l]; [by apply split_byte_without|].
  rewrite Join_cons by done. cbn [String.append]. rewrite split_byte_cons by done. f_equal. by apply IH.
Qed.

(** A string that ends in [c] does not end in a text without it. *)
Lemma without_last c q t p : p +:+ q = t +:+ String c "" -> without c q -> q = "".
Proof.
  intros He Hq. apply (f_equal String.list_ascii_of_string) in He. rewrite !list_ascii_app in He. simpl in He.
  unfold without in Hq. destruct (String.list_ascii_of_string q) as [|x l] eqn:E using rev_ind; [by destruct q|].
  rewrite app_assoc in He. apply app_inj_2 in He as [_ He]; [|done]. injection He as ->.
  apply Forall_app in Hq as [_ Hq]. by apply Forall_cons in Hq as [? _].
Qed.

(** ** ASCII case *)

Definition to_upper (c : ascii) : ascii :=
  let n := N_of_ascii c in if ((97 <=? n) && (n <=? 122))%N then ascii_of_N (n - 32) else c.

Definition to_lower (c : ascii) : ascii :=
  let n := N_of_ascii c in if ((65 <=? n) && (n <=? 90))%N then ascii_of_N (n + 32) else c.

(** ** Sorting *)

(** Comparison of strings, byte by byte. *)
Fixpoint str_leb (s t : string) : bool :=
  match s, t with
  | EmptyString, _ => true
  | String _ _, EmptyString => false
  | String a s', String b t' => if bool_decide (a = b) then str_leb s' t' else (N_of_ascii a <? N_of_ascii b)%N
  end.
Definition str_le (s t : string) : Prop := str_leb s t = true.

#[global] Instance str_le_dec : RelDecision str_le.
Proof. intros s t. unfold str_le. apply _. Defined.

(** [slices.Sort] *)
Definition Sort (l : list string) : list string := merge_sort str_le l.

Lemma str_le_refl s : str_le s s.
Proof. unfold str_le. induction s as [|a s IH]; simpl; [done|]. by rewrite bool_decide_true. Qed.

Lemma str_le_total s t : str_le s t \/ str_le t s.
Proof.
  unfold str_le. revert t. induction s as [|a s IH]; intros [|b t]; simpl; auto.
  destruct (decide (a = b)) as [->|Hne]; [rewrite bool_decide_true by done; apply IH|].
  rewrite !bool_decide_false by auto. rewrite !N.ltb_lt.
  assert (N_of_ascii a <> N_of_ascii b) by (intros H; apply Hne; by apply (f_equal ascii_of_N) in H; rewrite !ascii_N_embedding in H).
  lia.
Qed.

Lemma str_le_antisym s t : str_le s t -> str_le t s -> s = t.
Proof.
  unfold str_le. revert t. induction s as [|a s IH]; intros [|b t]; simpl; try done.
  destruct (decide (a = b)) as [->|Hne]; [rewrite bool_decide_true by done; intros; f_equal; by apply IH|].
  rewrite !bool_decide_false by auto. rewrite !N.ltb_lt. lia.
Qed.

Lemma str_le_trans s t u : str_le s t -> str_le t u -> str_le s u.
Proof.
  unfold str_le. revert t u. induction s as [|a s IH]; intros [|b t] [|c u]; simpl; try done.
  destruct (decide (a = b)) as [->|Hab].
  - rewrite (bool_decide_true (b = b)) by done. case_bool_decide; [apply IH|done].
  - rewrite (bool_decide_false (a = b)) by done. destruct (decide (b = c)) as [->|Hbc].
    + rewrite (bool_decide_true (c = c)) by done. by rewrite (bool_decide_false (a = c)).
    + rewrite (bool_decide_false (b = c)) by done. rewrite !N.ltb_lt. intros H1 H2.
      rewrite bool_decide_false; [apply N.ltb_lt; lia|]. intros ->. lia.
Qed.

#[global] Instance str_le_Total : Total str_le.
Proof. intros s t. apply str_le_total. Qed.
#[global] Instance str_le_Transitive : Transitive str_le.
Proof. intros s t u. apply str_le_trans. Qed.

Lemma Sort_Permutation l : Sort l ≡ₚ l.
Proof. apply merge_sort_Permutation. Qed.
