(* ===== verification/GoPath.v ===== *)
(** * Slash-separated paths

The functions [Clean] and [Join] of the package path (and of path/filepath on
systems whose separator is the slash) and [fs.ValidPath], with what they do to
paths built from plain elements. *)

From S2P Require Import Prelude GoStrings.

(** One element of a path, the elements kept so far being in reverse order:
    empty elements and dots are dropped, two dots take away the last element
    kept, or stay at the front of a path that is not rooted. *)
Definition clean_step (rooted : bool) (kept : list string) (e : string) : list string :=
  if bool_decide (e = "" \/ e = ".") then kept
  else if bool_decide (e = "..") then
    match kept with
    | top :: rest => if bool_decide (top = "..") then e :: kept else rest
    | [] => if rooted then [] else [e]
    end
  else e :: kept.

Definition clean_elems (rooted : bool) (es : list string) : list string :=
  rev (fold_left (clean_step rooted) es []).

(** [path.Clean] *)
Definition Clean (path : string) : string :=
  if bool_decide (path = "") then "."
  else
    let rooted := HasPrefix path "/" in
    let out := (if rooted then "/" else "") +:+ Join (clean_elems rooted (Split path "/")) "/" in
    if bool_decide (out = "") then "." else out.

(** [path.Join]: leading empty elements are ignored, and nothing gives nothing. *)
Definition path_Join (elems : list string) : string :=
  match drop_while (fun e => bool_decide (e = "")) elems with
  | [] => ""
  | es => Clean (Join es "/")
  end.

(** A plain element: neither empty nor one of the special ones. *)
Definition plain (e : string) : bool :=
  negb (bool_decide (e = "" \/ e = "." \/ e = "..")).

(** [fs.ValidPath], on UTF-8 strings. *)
Definition ValidPath (name : string) : bool :=
  bool_decide (name = ".") || forallb plain (Split name "/").

(** The elements of a valid path below the root that it is relative to. *)
Definition path_elems (name : string) : list string :=
  if bool_decide (name = ".") then [] else Split name "/".

(** ** Lemmas *)

Lemma plain_true e : plain e = true <-> e <> "" /\ e <> "." /\ e <> "..".
Proof. unfold plain. rewrite negb_true_iff, bool_decide_eq_false. naive_solver. Qed.

Lemma clean_step_plain rooted kept e : plain e = true -> clean_step rooted kept e = e :: kept.
Proof.
  intros (H1 & H2 & H3)%plain_true. unfold clean_step. by rewrite !bool_decide_false by naive_solver.
Qed.

Lemma clean_plain rooted es kept :
  Forall (fun e => plain e = true) es -> fold_left (clean_step rooted) es kept = rev es ++ kept.
Proof.
  intros HF. revert kept. induction HF as [|e es He _ IH]; intros kept; simpl; [done|].
  by rewrite clean_step_plain, IH, <- app_assoc.
Qed.

Lemma clean_dotdots rooted n es :
  (n <= length es)%nat -> Forall (fun e => plain e = true) es ->
  fold_left (clean_step rooted) (replicate n "..") es = drop n es.
Proof.
  revert es. induction n as [|n IH]; intros es Hn HF; [done|].
  destruct es as [|e es]; simpl in *; [lia|]. inversion HF as [|?? He HF']; subst.
  unfold clean_step at 2. rewrite bool_decide_false by naive_solver. rewrite bool_decide_true by done.
  rewrite bool_decide_false by (by apply plain_true in He as (_ & _ & ?)). apply IH; [lia|done].
Qed.

(** Empty elements, as a trailing slash gives, leave no trace. *)
Lemma clean_nonempty rooted es kept :
  fold_left (clean_step rooted) es kept =
  fold_left (clean_step rooted) (List.filter (fun e => negb (bool_decide (e = ""))) es) kept.
Proof.
  revert kept. induction es as [|e es IH]; intros kept; simpl; [done|].
  case_bool_decide as He; simpl; [|apply IH]. rewrite IH. f_equal. unfold clean_step.
  by rewrite bool_decide_true by auto.
Qed.

Lemma Split_slash a b : Split (a +:+ "/" +:+ b) "/" = Split a "/" ++ Split b "/".
Proof. rewrite !Split_split_byte. apply split_byte_app. Qed.

Lemma Join_app (l1 l2 : list string) sep :
  l1 <> [] -> l2 <> [] -> Join (l1 ++ l2) sep = Join l1 sep +:+ sep +:+ Join l2 sep.
Proof.
  intros H1 H2. induction l1 as [|x l1 IH]; [done|]. cbn [app]. destruct l1 as [|y l1].
  - by rewrite Join_cons.
  - rewrite !Join_cons by done. rewrite IH by done. by rewrite !app_str_assoc.
Qed.

Lemma Join_plain_ne es : es <> [] -> Forall (fun e => plain e = true) es -> Join es "/" <> "".
Proof.
  intros Hne HF. destruct HF as [|e es He _]; [done|]. apply plain_true in He as [He _].
  destruct es as [|y es]; simpl; [done|]. by destruct e.
Qed.

(** A path of plain elements, and possibly empty ones, that does not start at
    the root is cleaned to its elements joined by single slashes. *)
Lemma Clean_elems path :
  path <> "" -> HasPrefix path "/" = false ->
  Clean path = let es := clean_elems false (Split path "/") in
               if bool_decide (Join es "/" = "") then "." else Join es "/".
Proof. intros Hp Hr. unfold Clean. by rewrite bool_decide_false, Hr by done. Qed.

Lemma Clean_valid name : ValidPath name = true -> HasPrefix name "/" = false -> Clean name = name.
Proof.
  intros HV Hr. unfold ValidPath in HV. destruct (decide (name = ".")) as [->|Hd]; [done|].
  rewrite bool_decide_false in HV by done. simpl in HV. apply forallb_Forall in HV.
  destruct (decide (name = "")) as [->|Hne].
  { exfalso. rewrite Split_split_byte in HV. simpl in HV. by inversion HV. }
  rewrite Clean_elems by done. cbv zeta. unfold clean_elems.
  rewrite (clean_plain _ _ [] HV), app_nil_r, rev_involutive, Join_Split by done.
  by rewrite bool_decide_false.
Qed.

Lemma ValidPath_not_rooted name : ValidPath name = true -> HasPrefix name "/" = false.
Proof.
  intros HV. destruct (HasPrefix name "/") eqn:E; [|done]. exfalso.
  apply HasPrefix_spec in E as [t ->]. unfold ValidPath in HV.
  rewrite bool_decide_false, orb_false_l in HV by done.
  rewrite (Split_slash "" t : Split ("/" +:+ t) "/" = _) in HV. done.
Qed.
