(* ===== verification/GoTime.v ===== *)
(** * Machine integers, float64 and durations

[int] and [int64] are integers with wrap-around at 64 bits, a float64 is a
[spec_float] of the Standard Library with the format's precision and exponent
range, and a [time.Duration] is an int64 of nanoseconds. *)

From Stdlib Require Export SpecFloat.
From S2P Require Import Prelude.

Local Open Scope Z_scope.

Definition wrap64 (z : Z) : Z := (z + 2 ^ 63) mod 2 ^ 64 - 2 ^ 63.

Definition in_int64 (z : Z) : Prop := - 2 ^ 63 <= z < 2 ^ 63.

Lemma wrap64_id z : in_int64 z -> wrap64 z = z.
Proof. unfold in_int64, wrap64. intros H. rewrite Z.mod_small; lia. Qed.

Lemma wrap64_range z : in_int64 (wrap64 z).
Proof. unfold in_int64, wrap64. pose proof (Z.mod_pos_bound (z + 2 ^ 63) (2 ^ 64)). lia. Qed.

(** Multiplication of int64 values. *)
Definition mul64 (a b : Z) : Z := wrap64 (a * b).

(** ** float64 *)

Abbreviation float64 := spec_float (only parsing).

(** Conversion of an integer, rounding to nearest even. *)
Definition float64_of_int (z : Z) : float64 := binary_normalize 53 1024 z 0 false.

Definition float64_add (x y : float64) : float64 := SFadd 53 1024 x y.
Definition float64_div (x y : float64) : float64 := SFdiv 53 1024 x y.

(** Conversion to int64 truncates; a value that does not fit has the result of
    the amd64 instruction. *)
Definition int64_of_float64 (f : float64) : Z :=
  match f with
  | S754_zero _ => 0
  | S754_finite s m e =>
      let z := cond_Zopp s (Z.shiftl (Zpos m) e) in
      if (- 2 ^ 63 <=? z) && (z <? 2 ^ 63) then z else - 2 ^ 63
  | _ => - 2 ^ 63
  end.

(** ** Durations *)

Definition Nanosecond : Z := 1.
Definition Millisecond : Z := 1000000.
Definition Second : Z := 1000000000.
Definition Minute : Z := 60 * Second.
Definition Hour : Z := 60 * Minute.

(** [Duration.Seconds] *)
Definition Duration_Seconds (d : Z) : float64 :=
  let sec := Z.quot d Second in
  let nsec := Z.rem d Second in
  float64_add (float64_of_int sec) (float64_div (float64_of_int nsec) (float64_of_int 1000000000)).

(** ** Small integers are exact *)

Lemma digits2_pos_lower p : 2 ^ (Zpos (digits2_pos p) - 1) <= Zpos p.
Proof.
  assert (Hs : forall q, 2 ^ (Zpos (Pos.succ (digits2_pos q)) - 1) = 2 * 2 ^ (Zpos (digits2_pos q) - 1)).
  { intros q. rewrite Pos2Z.inj_succ. rewrite <- Z.pow_succ_r by lia. f_equal. lia. }
  induction p as [p IH|p IH|]; cbn [digits2_pos]; [rewrite Hs; lia..|done].
Qed.

Lemma digits2_pos_bound p : Zpos p < 2 ^ 53 -> Zpos (digits2_pos p) <= 53.
Proof.
  intros Hp. pose proof (digits2_pos_lower p) as Hl.
  destruct (Z.le_gt_cases (Zpos (digits2_pos p)) 53) as [|Hgt]; [done|].
  pose proof (Z.pow_le_mono_r 2 53 (Zpos (digits2_pos p) - 1)). lia.
Qed.

Lemma digits2_pos_shift p k : Zpos (digits2_pos (Pos.iter xO p k)) = Zpos (digits2_pos p) + Zpos k.
Proof.
  induction k as [|k IH] using Pos.peano_ind; [cbn; lia|].
  rewrite Pos.iter_succ. cbn [digits2_pos]. lia.
Qed.

Lemma iter_xO_shiftl p k : Zpos (Pos.iter xO p k) = Z.shiftl (Zpos p) (Zpos k).
Proof.
  rewrite Z.shiftl_mul_pow2 by lia. induction k as [|k IH] using Pos.peano_ind; [cbn; lia|].
  rewrite Pos.iter_succ, Pos2Z.inj_succ, Z.pow_succ_r by lia. lia.
Qed.

(** A mantissa of exactly 53 digits is not rounded. *)
Lemma round_aux_exact s m e :
  Zpos (digits2_pos m) = 53 -> -1074 <= e <= 0 -> binary_round_aux 53 1024 s (Zpos m) e loc_Exact = S754_finite s m e.
Proof.
  intros Hd He. unfold binary_round_aux, shr_fexp, fexp, emin, Zdigits2. rewrite Hd.
  replace (Z.max (53 + e - 53) (3 - 1024 - 53) - e) with 0 by lia. cbn.
  rewrite Hd. replace (Z.max (53 + e - 53) (3 - 1024 - 53) - e) with 0 by lia. cbn.
  destruct e as [|e|e]; [done|lia|done].
Qed.

Lemma binary_round_small s p :
  Zpos p < 2 ^ 53 -> int64_of_float64 (binary_round 53 1024 s p 0) = cond_Zopp s (Zpos p).
Proof.
  intros Hp. pose proof (digits2_pos_bound p Hp) as Hb. unfold binary_round.
  assert (Hfe : fexp 53 1024 (Zpos (digits2_pos p) + 0) = Zpos (digits2_pos p) - 53) by (unfold fexp, emin; lia).
  rewrite Hfe. unfold shl_align. rewrite Z.sub_0_r.
  destruct (Zpos (digits2_pos p) - 53) as [|k|k] eqn:Hk; [|lia|].
  - rewrite round_aux_exact by lia. cbn [int64_of_float64]. rewrite Z.shiftl_0_r.
    destruct s; cbn [cond_Zopp]; case_match; lia.
  - rewrite round_aux_exact; [|rewrite digits2_pos_shift; lia|lia].
    cbn [int64_of_float64]. rewrite iter_xO_shiftl, Z.shiftl_shiftl by lia.
    replace (Zpos k + Zneg k) with 0 by lia. rewrite Z.shiftl_0_r.
    destruct s; cbn [cond_Zopp]; case_match; lia.
Qed.

Lemma int64_float64_small z : Z.abs z < 2 ^ 53 -> int64_of_float64 (float64_of_int z) = z.
Proof.
  intros Hz. destruct z as [|p|p]; [done| |]; unfold float64_of_int, binary_normalize;
    rewrite binary_round_small by lia; done.
Qed.

(** The seconds of a whole number of seconds. *)
Lemma Duration_Seconds_whole k :
  Z.abs k < 2 ^ 53 -> int64_of_float64 (Duration_Seconds (k * Second)) = k.
Proof.
  intros Hk. unfold Duration_Seconds. rewrite Z.quot_mul, Z.rem_mul by done.
  change (float64_div (float64_of_int 0) (float64_of_int 1000000000)) with (S754_zero false).
  rewrite <- (int64_float64_small k Hk) at 2. unfold float64_add, SFadd.
  by destruct (float64_of_int k) as [[]|[]| |].
Qed.
