(* ===== verification/Permissions.v ===== *)
(** * webauth/permissions: permission specs and wildcard patterns

Models [webauth/permissions/permissions.go] and
[webauth/permissions/permissions_spec.go].  [Allowed] is translated with its
fast paths (equality, prefix test for a trailing wildcard) and with the panics
of its slice accesses; [allowed_ref] is the component-by-component meaning
that the documentation of [Allowed] describes. *)

From S2P Require Import Prelude GoStrings.


(** ** permissions_spec.go *)

(** The package variable, which a program may set, and its initial value. *)
Class PackageVars := { DefaultMaxComponentsAllowed : Z }.
Definition initial_vars : PackageVars := {| DefaultMaxComponentsAllowed := 10 |}.

Section permissions.
Context {PV : PackageVars}.

Definition sub1 (s : string) : string := str_take (slen s - 1) s.

(** [for i := range n { if q[i] == "*" continue; if q[i] != r[i] return false }] *)
Fixpoint match_loop (q r : list string) (ix : list nat) : go bool :=
  match ix with
  | [] => Ret true
  | i :: ix' =>
      qi ← index q i;
      if bool_decide (qi = "*") then match_loop q r ix'
      else
        ri ← index r i;
        if bool_decide (qi <> ri) then Ret false else match_loop q r ix'
  end.

Definition Allowed (request requirement sep : string) : go bool :=
  if bool_decide (slen request = 0%nat) || bool_decide (slen requirement = 0%nat) then Ret false
  else
    let requestNumComponents := (Count request sep + 1)%nat in
    let requirementsNumComponents := (Count requirement sep + 1)%nat in
    if (DefaultMaxComponentsAllowed <? Z.of_nat requestNumComponents)%Z
       || (DefaultMaxComponentsAllowed <? Z.of_nat requirementsNumComponents)%Z then Ret false
    else if bool_decide (request = requirement) then Ret true
    else
      let wildcardEnd := HasSuffix request (sep +:+ "*") in
      if wildcardEnd && HasPrefix requirement (sub1 request) then Ret true
      else if (if wildcardEnd then Nat.ltb requirementsNumComponents requestNumComponents
               else negb (Nat.eqb requestNumComponents requirementsNumComponents)) then Ret false
      else
        let requirementComponents := Split requirement sep in
        let requestComponents := Split request sep in
        match_loop requestComponents requirementComponents (seq 0 requestNumComponents).

(** ** permissions.go *)

Record Spec := mkSpec { Role : string; Method : string; Resource : string; Action : string }.

Record PSet := mkSet { PermissionsOf : list Spec }.

#[global] Instance Spec_eq_dec : EqDecision Spec.
Proof. solve_decision. Defined.

Definition Spec_String (s : Spec) : string :=
  Role s +:+ "," +:+ Method s +:+ "," +:+ Resource s +:+ "," +:+ Action s.

Definition Valid (s : Spec) : bool :=
  bool_decide (Role s <> "") && bool_decide (Method s <> "")
  && bool_decide (Resource s <> "") && bool_decide (Action s <> "").

(** The short-circuit conjunction of [Satisfies]' loop body. *)
Definition permission_matches (permission required : Spec) : go bool :=
  if bool_decide (Role permission = Role required)
     && bool_decide (Method permission = Method required) then
    a ← Allowed (Action permission) (Action required) ":";
    if (a : bool) then Allowed (Resource permission) (Resource required) "/" else Ret false
  else Ret false.

Fixpoint satisfies_loop (l : list Spec) (required : Spec) : go bool :=
  match l with
  | [] => Ret false
  | permission :: l' =>
      m ← permission_matches permission required;
      if (m : bool) then Ret true else satisfies_loop l' required
  end.

Definition Satisfies (s : PSet) (required : Spec) : go bool :=
  if negb (Valid required) then Ret false else satisfies_loop (PermissionsOf s) required.

(** [Specs]: the iterator passes each permission to [yield] until it returns
    false; [yield] acts on a caller state [S]. *)
Fixpoint specs_loop {S} (l : list Spec) (yield : Spec -> S -> bool * S) (st : S) : S :=
  match l with
  | [] => st
  | p :: l' =>
      let '(continue, st') := yield p st in
      if (continue : bool) then specs_loop l' yield st' else st'
  end.

Definition Specs {S} (s : PSet) (yield : Spec -> S -> bool * S) (st : S) : S :=
  specs_loop (PermissionsOf s) yield st.

(** ** Reference semantics *)

(** One request component against one requirement component. *)
Definition comp_match (q r : string) : bool := bool_decide (q = "*") || bool_decide (q = r).

(** Componentwise match of the whole request against a prefix of the
    requirement. *)
Fixpoint comps_match (q r : list string) : bool :=
  match q, r with
  | [], _ => true
  | _ :: _, [] => false
  | x :: q', y :: r' => comp_match x y && comps_match q' r'
  end.

(** A trailing wildcard component, which is not the only component. *)
Definition trailing_wildcard (q : list string) : bool :=
  Nat.ltb 1 (length q) && bool_decide (last q = Some "*").

(** The documented meaning: both patterns non-empty with at most
    [DefaultMaxComponentsAllowed] components; the request matches component by
    component, and the requirement may be longer only after a trailing
    wildcard. *)
Definition allowed_ref (c : ascii) (request requirement : string) : bool :=
  let q := split_byte c request in
  let r := split_byte c requirement in
  bool_decide (request <> "") && bool_decide (requirement <> "")
  && (Z.of_nat (length q) <=? DefaultMaxComponentsAllowed)%Z
  && (Z.of_nat (length r) <=? DefaultMaxComponentsAllowed)%Z
  && comps_match q r
  && (trailing_wildcard q || Nat.eqb (length q) (length r)).

(** ** Lemmas *)

Lemma match_loop_spec (q r pq pr : list string) :
  (length q <= length r)%nat -> length pq = length pr ->
  match_loop (pq ++ q) (pr ++ r) (seq (length pq) (length q)) = Ret (comps_match q r).
Proof.
  revert r pq pr. induction q as [|x q IH]; intros r pq pr Hl Hp; [done|].
  destruct r as [|y r]; simpl in Hl; [lia|]. cbn [length seq match_loop comps_match].
  unfold comp_match. rewrite (index_lt (pq ++ x :: q) _ x).
  2:{ by rewrite lookup_app_r, Nat.sub_diag by lia. }
  rewrite Hp. rewrite (index_lt (pr ++ y :: r) _ y).
  2:{ by rewrite lookup_app_r, Nat.sub_diag by lia. }
  specialize (IH r (pq ++ [x]) (pr ++ [y])).
  rewrite !length_app, <- !app_assoc in IH. simpl in IH.
  rewrite !Nat.add_1_r, Hp in IH. simpl.
  case_bool_decide; simpl; [apply IH; lia|].
  destruct (decide (x = y)) as [->|Hne].
  - rewrite bool_decide_false, bool_decide_true by naive_solver. apply IH; lia.
  - by rewrite bool_decide_true, bool_decide_false.
Qed.

Lemma sub1_snoc (s : string) c : sub1 (s +:+ String c "") = s.
Proof.
  unfold sub1. autorewrite with golib_rw. change (slen (String c "")) with 1%nat.
  replace (slen s + 1 - 1)%nat with (slen s) by lia. apply str_take_app.
Qed.

Lemma comps_match_refl q r : comps_match q (q ++ r) = true.
Proof. induction q; simpl; [done|]. unfold comp_match. by rewrite bool_decide_true with (P := a = a), orb_true_r. Qed.

Lemma comps_match_length q r : comps_match q r = true -> (length q <= length r)%nat.
Proof.
  revert r. induction q as [|x q IH]; intros [|y r]; simpl; try done; [lia|].
  rewrite andb_true_iff. intros [_ H%IH]. lia.
Qed.

Lemma comps_match_snoc q x r : comps_match (q ++ ["*"]) (q ++ x :: r) = true.
Proof.
  induction q; simpl; [done|]. unfold comp_match at 1. by rewrite bool_decide_true with (P := a = a), orb_true_r.
Qed.

Section single_byte.
Variable c : ascii.
Hypothesis c_not_star : c <> "*"%char.

Lemma wildcardEnd_split s :
  HasSuffix s (String c "*") = true ->
  exists t, s = t +:+ String c "*" /\ split_byte c s = split_byte c t ++ ["*"].
Proof.
  intros [t ->]%HasSuffix_spec. exists t. split; [done|].
  rewrite split_byte_app. simpl. by rewrite bool_decide_false.
Qed.

Lemma wildcardEnd_trailing s :
  HasSuffix s (String c "*") = trailing_wildcard (split_byte c s).
Proof.
  apply eq_true_iff_eq. unfold trailing_wildcard. rewrite andb_true_iff, Nat.ltb_lt, bool_decide_eq_true.
  split.
  - intros (t & -> & ->)%wildcardEnd_split. rewrite last_snoc, length_app. simpl. split; [|done].
    pose proof (split_byte_ne c t). destruct (split_byte c t); simpl; [done|lia].
  - intros [Hlen Hlast]. apply last_Some in Hlast as [q Hq].
    rewrite Hq, length_app in Hlen. simpl in Hlen.
    rewrite <- (Join_Split s (String c "")) by done. rewrite Split_split_byte, Hq.
    clear Hq. induction q as [|x q IH]; [simpl in *; lia|].
    destruct q as [|y q].
    + apply (HasSuffix_app x (String c "*")).
    + cbn [app]. rewrite Join_cons by done. apply HasSuffix_spec.
      destruct (proj1 (HasSuffix_spec _ _) (IH ltac:(simpl; lia))) as [t Ht].
      cbn [app] in Ht. rewrite Ht. exists (x +:+ String c "" +:+ t). by autorewrite with golib_rw.
Qed.

Lemma fast_path_comps q r :
  HasSuffix q (String c "*") = true -> HasPrefix r (sub1 q) = true ->
  comps_match (split_byte c q) (split_byte c r) = true.
Proof.
  intros (t & -> & Hs)%wildcardEnd_split Hp. rewrite Hs.
  replace (t +:+ String c "*") with ((t +:+ String c "") +:+ "*") in Hp by (by rewrite app_str_assoc).
  rewrite sub1_snoc in Hp. apply HasPrefix_spec in Hp as [u ->].
  rewrite app_str_assoc. simpl. rewrite split_byte_app.
  pose proof (split_byte_ne c u). destruct (split_byte c u); [done|]. apply comps_match_snoc.
Qed.

Lemma Count_components s : (Count s (String c "") + 1)%nat = length (split_byte c s).
Proof. rewrite <- Split_split_byte, Split_length by done. lia. Qed.

(** The slow path of [Allowed] decides the reference, given the bounds. *)
Lemma Allowed_ref q r :
  Allowed q r (String c "") = Ret (allowed_ref c q r).
Proof.
  unfold Allowed, allowed_ref. rewrite !Count_components, !Split_split_byte.
  change (String c "" +:+ "*") with (String c "*").
  set (Q := split_byte c q). set (R := split_byte c r).
  destruct (decide (q = "")) as [->|Hq]; [done|].
  destruct (decide (r = "")) as [->|Hr]; [by rewrite orb_true_r, andb_false_r|].
  rewrite (bool_decide_false (slen q = 0%nat)), (bool_decide_false (slen r = 0%nat)) by (by rewrite slen_zero).
  rewrite (bool_decide_true (q <> "")), (bool_decide_true (r <> "")) by done. simpl.
  destruct (Z.ltb_spec DefaultMaxComponentsAllowed (Z.of_nat (length Q))) as [H1|H1]; simpl.
  { by destruct (Z.leb_spec (Z.of_nat (length Q)) DefaultMaxComponentsAllowed); [lia|]. }
  destruct (Z.ltb_spec DefaultMaxComponentsAllowed (Z.of_nat (length R))) as [H2|H2]; simpl.
  { destruct (Z.leb_spec (Z.of_nat (length R)) DefaultMaxComponentsAllowed); [lia|]. by rewrite andb_false_r. }
  apply Z.leb_le in H1, H2. rewrite H1, H2. simpl. rewrite wildcardEnd_trailing. fold Q.
  case_bool_decide as Heq.
  { subst r. subst R. fold Q. pose proof (comps_match_refl Q []) as Hm. rewrite app_nil_r in Hm.
    rewrite Hm, Nat.eqb_refl. by rewrite orb_true_r. }
  destruct (trailing_wildcard Q) eqn:Hw; simpl.
  - rewrite andb_true_r. destruct (HasPrefix r (sub1 q)) eqn:Hp.
    { f_equal. symmetry. apply fast_path_comps; [|done]. by rewrite wildcardEnd_trailing. }
    destruct (Nat.ltb_spec (length R) (length Q)) as [Hlt|Hge].
    + destruct (comps_match Q R) eqn:Hm; [|done]. apply comps_match_length in Hm. lia.
    + by apply (match_loop_spec Q R [] []).
  - destruct (Nat.eqb_spec (length Q) (length R)) as [He|Hne]; simpl.
    + rewrite andb_true_r. apply (match_loop_spec Q R [] []); [lia|done].
    + by rewrite andb_false_r.
Qed.

End single_byte.

Lemma match_loop_no_panic q r ix :
  Forall (fun i => (i < length q)%nat /\ (i < length r)%nat) ix -> exists b, match_loop q r ix = Ret b.
Proof.
  induction 1 as [|i ix [Hq Hr] _ [b IH]]; [by exists true|]. simpl.
  apply lookup_lt_is_Some in Hq as [x Hx]. apply lookup_lt_is_Some in Hr as [y Hy].
  rewrite (index_lt _ _ _ Hx), (index_lt _ _ _ Hy). simpl.
  repeat case_bool_decide; eauto.
Qed.

(** The loop body of [Satisfies], as a total test. *)
Definition permission_ref (p required : Spec) : bool :=
  bool_decide (Role p = Role required) && bool_decide (Method p = Method required)
  && allowed_ref ":" (Action p) (Action required) && allowed_ref "/" (Resource p) (Resource required).

Lemma permission_ref_true p req :
  permission_ref p req = true <->
  Role p = Role req /\ Method p = Method req /\
  allowed_ref ":" (Action p) (Action req) = true /\ allowed_ref "/" (Resource p) (Resource req) = true.
Proof. unfold permission_ref. rewrite !andb_true_iff, !bool_decide_eq_true. tauto. Qed.

Lemma permission_matches_ref p req : permission_matches p req = Ret (permission_ref p req).
Proof.
  unfold permission_matches, permission_ref. rewrite !Allowed_ref by done.
  destruct (_ && _); simpl; [|done]. by destruct (allowed_ref ":" _ _).
Qed.

Lemma satisfies_loop_ref l req :
  satisfies_loop l req = Ret (existsb (fun p => permission_ref p req) l).
Proof.
  induction l as [|p l IH]; simpl; [done|]. rewrite permission_matches_ref, IH. simpl.
  by destruct (permission_ref p req).
Qed.

(** ** Properties *)

(** C1 For every separator byte other than the wildcard itself, [Allowed], with
    its equality and prefix fast paths, its component counts and its index
    loop, returns (without panicking) exactly the documented component-wise
    answer [allowed_ref], whatever the package variable with the maximum number of
    components is set to. *)
Theorem Allowed_equiv_ref (c : ascii) (request requirement : string) :
  c <> "*"%char ->
  Allowed request requirement (String c "") = Ret (allowed_ref c request requirement).
Proof. intros Hc. by apply Allowed_ref. Qed.

(** C2 [Satisfies] never panics, and it grants a request exactly when the
    request has all four fields and some permission of the set has the same
    role and method and matches it on the action (separator [:]) and on the
    resource (separator [/]). *)
Theorem Satisfies_correct (s : PSet) (required : Spec) :
  (exists b, Satisfies s required = Ret b) /\
  (Satisfies s required = Ret true <->
     Valid required = true /\
     exists p, p ∈ PermissionsOf s /\ Role p = Role required /\ Method p = Method required /\
       allowed_ref ":" (Action p) (Action required) = true /\
       allowed_ref "/" (Resource p) (Resource required) = true).
Proof.
  unfold Satisfies. rewrite satisfies_loop_ref.
  destruct (Valid required); simpl; [|split; [by eexists | split; [done | by intros []]]].
  split; [by eexists|]. transitivity (existsb (fun p => permission_ref p required) (PermissionsOf s) = true).
  { split; congruence. }
  rewrite existsb_Exists. setoid_rewrite permission_ref_true. naive_solver.
Qed.

(** With any non-empty separator, of any length, [Allowed] never indexes a
    component slice out of range. *)
Theorem Allowed_no_panic (request requirement sep : string) :
  sep <> "" -> exists b, Allowed request requirement sep = Ret b.
Proof.
  intros Hsep. unfold Allowed.
  destruct (_ || _); [by eexists|]. destruct (_ || _); [by eexists|].
  case_bool_decide; [by eexists|]. destruct (_ && _); [by eexists|].
  match goal with |- context [if ?t then _ else _] => destruct t eqn:Hlen end; [by eexists|].
  apply match_loop_no_panic, Forall_forall. intros i Hi%elem_of_seq. rewrite !Split_length by done.
  destruct (HasSuffix _ _); [apply Nat.ltb_ge in Hlen | apply negb_false_iff, Nat.eqb_eq in Hlen]; lia.
Qed.

End permissions.

Lemma Allowed_equiv_ref_witness :
  Allowed (PV := initial_vars) "a:*:c" "a:b:c" ":" = Ret true /\ allowed_ref (PV := initial_vars) ":" "a:*:c" "a:b:c" = true.
Proof.
  split; [|by vm_compute]. change ":" with (String ":"%char "").
  rewrite (Allowed_equiv_ref (PV := initial_vars) ":"%char "a:*:c" "a:b:c") by done. by vm_compute.
Defined.

(** With the empty separator the component count exceeds the number of parts of
    [strings.Split], and the loop runs off the slice. *)
Example Allowed_empty_sep_panics : Allowed (PV := initial_vars) "*a" "ba" "" = Panic IndexOutOfRange.
Proof. by vm_compute. Qed.
