(* ===== verification/GoErrors.v ===== *)
(** * Go errors

The [error] values of the modelled code: package-level sentinels compared by
identity, the values [fmt.Errorf] builds (format, formatted operands, and the
operands of [%w]), and the joined errors of [errors.Join].  [errors_is] is
[errors.Is] for a sentinel target.  Operands of a format that are not strings
are left out where no code inspects the text. *)

From S2P Require Import Prelude GoStrings.

Inductive error : Type :=
| Sentinel (name : string)
| Errorf (format : string) (args : list string) (wrapped : list error)
| Joined (errs : list error).

(** [errors.New("...")] of a message that is created at the point of use. *)
Definition errors_New (msg : string) : error := Errorf msg [] [].

Fixpoint errors_is (e : error) (target : string) : bool :=
  match e with
  | Sentinel n => bool_decide (n = target)
  | Errorf _ _ ws => existsb (fun w => errors_is w target) ws
  | Joined es => existsb (fun w => errors_is w target) es
  end.

(** [err == sentinel] *)
Definition is_sentinel (e : error) (target : string) : bool :=
  match e with Sentinel n => bool_decide (n = target) | _ => false end.

Lemma errors_is_sentinel n : errors_is (Sentinel n) n = true.
Proof. simpl. by rewrite bool_decide_true. Qed.

Lemma is_sentinel_true e n : is_sentinel e n = true <-> e = Sentinel n.
Proof. destruct e; simpl; rewrite ?bool_decide_eq_true; naive_solver. Qed.

Lemma errors_is_wrap f args e n : errors_is (Errorf f args [e]) n = errors_is e n.
Proof. simpl. by rewrite orb_false_r. Qed.

(** Sentinels of the Go libraries. *)
Definition fs_ErrNotExist : string := "fs.ErrNotExist".
(** [os.ErrNotExist] is the same value as [fs.ErrNotExist]. *)
Definition os_ErrNotExist : string := fs_ErrNotExist.
Definition context_Canceled : string := "context.Canceled".
Definition context_DeadlineExceeded : string := "context.DeadlineExceeded".
Definition io_EOF : string := "io.EOF".
Definition http_ErrServerClosed : string := "http.ErrServerClosed".

Abbreviation res := (result error).

(** The error component of a returned pair; [None] is [nil]. *)
Definition err_of {A} (r : res A) : option error :=
  match r with Ok _ => None | Err e => Some e end.

(** The [String] methods of the specs of checks: a value is printed as YAML, or as the error of marshalling it. *)
Definition yaml_String {A} (yaml_Marshal : A -> res string) (text : error -> string) (s : A) : string :=
  match yaml_Marshal s with Err e => text e | Ok out => out end.

(** [errgroup.T.Wait] and [errors.M.Err] of cloudeng.io: nil, or all the errors
    that were collected. *)
Definition group_Wait (errs : list (option error)) : option error :=
  match omap id errs with [] => None | l => Some (Joined l) end.

Lemma group_Wait_None errs : group_Wait errs = None <-> Forall (fun e => e = None) errs.
Proof.
  unfold group_Wait. induction errs as [|[e|] errs IH]; simpl; [done| |].
  - split; [done|]. by intros [? _]%Forall_cons.
  - rewrite IH, Forall_cons. naive_solver.
Qed.

#[export] Hint Rewrite errors_is_sentinel errors_is_wrap : golib_rw.
