(* ===== verification/PermissionsTest.v ===== *)
(** * permissionstestutil: permission sets from tuples of strings

Models [webauth/permissions/permissionstestutil/test_permissions.go]. *)

From S2P Require Import Prelude GoStrings GoErrors Permissions.

(** The loop over the strings; there is no index out of range, as their number
    is a multiple of four. *)
Fixpoint tuples_loop (ss : list string) (perms : list Spec) : go (list Spec) :=
  match ss with
  | [] => Ret perms
  | role :: method :: resource :: act :: ss' => tuples_loop ss' (perms ++ [mkSpec role method resource act])
  | _ => Panic IndexOutOfRange
  end.

Definition New (ss : list string) : go (res PSet) :=
  if negb (Nat.eqb (length ss mod 4) 0)
  then Ret (Err (errors_New "expected a multiple of 4 strings for role-method-resource-action 4-tuples"))
  else perms ← tuples_loop ss []; Ret (Ok (mkSet perms)).

Definition NewMust (ss : list string) : go PSet :=
  r ← New ss;
  match r with Ok s => Ret s | Err _ => Panic (OtherPanic "expected a multiple of 4 strings") end.

(** A set as the strings it is made from. *)
Definition tuple_of (s : Spec) : list string := [Role s; Method s; Resource s; Action s].

Lemma tuples_loop_spec specs perms : tuples_loop (concat (map tuple_of specs)) perms = Ret (perms ++ specs).
Proof.
  revert perms. induction specs as [|[r m rs a] specs IH]; intros perms; [by rewrite app_nil_r|].
  simpl. rewrite IH. by rewrite <- app_assoc.
Qed.

(** Any set can be made from its strings, and other lists of strings are
    rejected without a panic. *)
Lemma New_tuples specs : New (concat (map tuple_of specs)) = Ret (Ok (mkSet specs)).
Proof.
  assert (Hl : length (concat (map tuple_of specs)) = (length specs * 4)%nat)
    by (induction specs as [|s specs IH]; [done|]; simpl; lia).
  unfold New. rewrite Hl, Nat.Div0.mod_mul. simpl. by rewrite tuples_loop_spec.
Qed.

Lemma New_no_panic ss : exists r, New ss = Ret r /\ (is_ok r = true <-> (4 | length ss)%nat).
Proof.
  unfold New. destruct (Nat.eqb_spec (length ss mod 4) 0) as [Hz|Hz]; cbn [negb].
  2: { eexists. split; [done|]. split; [done|]. intros Hd. by apply Nat.Lcm0.mod_divide in Hd. }
  apply Nat.Lcm0.mod_divide in Hz as [n Hn].
  assert (Ht : forall perms, exists out, tuples_loop ss perms = Ret out).
  { clear -Hn. revert ss Hn. induction n as [|n IH]; intros ss Hn perms; [destruct ss; [by eexists|done]|].
    destruct ss as [|a [|b [|c [|d ss]]]]; simpl in Hn; try lia. simpl. apply IH. lia. }
  destruct (Ht []) as [out ->]. eexists. split; [done|]. split; [|done]. intros _. exists n. lia.
Qed.
