(* ===== verification/CertCache.v ===== *)
(** * webauth/acme/certcache: the certificate caching store

Models [webauth/acme/certcache/cache.go] and [account_key.go].  The local
[autocert.Cache], the [StoreFS] backing store, the file lock and the
multi-error package are other people's code: they are parameters, with their
state threaded through.  Every call the store makes is also recorded in a
trace, so that ordering claims (lock before use, unlock after) can be stated. *)

From S2P Require Import Prelude GoStrings GoErrors.

(** ** Sentinels *)
Definition ErrCacheMiss : string := "autocert.ErrCacheMiss".
Definition ErrReadonlyCache : string := "readonly cache".
Definition ErrLocalOperation : string := "local operation".
Definition ErrBackingOperation : string := "backing store operation".
Definition ErrLockFailed : string := "lock acquisition failed".

(** ** Options *)
Record options := mkOptions {
  readonly : bool;
  saveAccountKeyName : string;
  logger : option string;
  allowRSAKeys : bool;
  metrics : option string
}.

Definition zero_options : options := mkOptions false "" None false None.

Abbreviation Option := (options -> options) (only parsing).

Definition WithReadonly (b : bool) : options -> options :=
  fun o => mkOptions b (saveAccountKeyName o) (logger o) (allowRSAKeys o) (metrics o).

Definition WithSaveAccountKey (name : string) : options -> options :=
  fun o => mkOptions (readonly o) name (logger o) (allowRSAKeys o) (metrics o).

Definition WithLogger (l : option string) : options -> options :=
  fun o => mkOptions (readonly o) (saveAccountKeyName o) l (allowRSAKeys o) (metrics o).

Definition WithAllowRSAKeys (b : bool) : options -> options :=
  fun o => mkOptions (readonly o) (saveAccountKeyName o) (logger o) b (metrics o).

Definition WithMetrics (m : option string) : options -> options :=
  fun o => mkOptions (readonly o) (saveAccountKeyName o) (logger o) (allowRSAKeys o) m.

(** [for _, opt := range opts { opt(&o) }] *)
Definition apply_options (opts : list (options -> options)) (o : options) : options :=
  fold_left (fun o opt => opt o) opts o.

Definition HasReadonlyOption (opts : list (options -> options)) : bool :=
  readonly (apply_options opts zero_options).

Definition MetricsColumns : list string := ["name"; "operation"].

Definition MetricsOperationValues : list string :=
  ["get"; "put"; "delete"; "get-backing"; "put-backing"; "delete-backing"].

(** ** Names *)
Definition IsAcmeAccountKey (name : string) : bool :=
  bool_decide (name = "acme_account+key") || bool_decide (name = "acme_account.key").

Definition IsLocalName (name : string) (allowRSAKeys : bool) : bool :=
  HasSuffix name "+token"
  || (HasSuffix name "+rsa" && negb allowRSAKeys)
  || Contains name "http-01"
  || IsAcmeAccountKey name.

(** ** Events: the calls made by the store, in order *)
Inductive event :=
| EvMetric (name operation : string)
| EvLock | EvRLock | EvUnlock
| EvLocalGet (name : string) | EvLocalPut (name : string) | EvLocalDelete (name : string)
| EvBackGet (name : string) | EvBackPut (name : string) | EvBackDelete (name : string).

(** ** Interfaces *)

(** [autocert.Cache]: reads do not change the cache. *)
Class Cache (L : Type) := {
  cache_get : L -> string -> res string;
  cache_put : L -> string -> string -> L * option error;
  cache_delete : L -> string -> L * option error
}.

(** [StoreFS] ([ReadFile] is [ReadFileCtx] with the background context). *)
Class StoreFS (B : Type) := {
  read_file : B -> string -> res string;
  write_file : B -> string -> string -> B * option error;
  delete_file : B -> string -> B * option error
}.

Section caching_store.
Context {L B : Type} `{Cache L} `{StoreFS B}.
(** [errors.NewM(err, sentinel)] of cloudeng.io/errors. *)
Variable NewM : error -> error -> error.

(** A [CachingStore]: its options and the outcomes of acquiring its lock for
    writing and for reading ([None] is success). Every acquisition has an outcome
    of its own, which depends on the calls made before it. *)
Record CachingStore := mkStore {
  lock_Lock : list event -> option error;
  lock_RLock : list event -> option error;
  opts : options
}.

(** The mutable state: the two stores and the trace of calls. *)
Record world := mkWorld { localCache : L; backingStore : B; trace : list event }.

Definition log (evs : list event) (w : world) : world :=
  mkWorld (localCache w) (backingStore w) (trace w ++ evs).

(** [mkdir] is the outcome of [os.MkdirAll(localDir, 0700)]; [lock], [rlock]
    those of the lock file's mutex. *)
Definition NewCachingStore (mkdir : option error) (lock rlock : list event -> option error)
    (options_ : list (options -> options)) (w : world) : res CachingStore * world :=
  let o := apply_options options_ zero_options in
  let o := match logger o with None => WithLogger (Some "discard") o | Some _ => o end in
  let o := match metrics o with None => WithMetrics (Some "noop") o | Some _ => o end in
  match mkdir with
  | Some e => (Err e, w)
  | None =>
      let cache := mkStore lock rlock o in
      if readonly o then
        match lock (trace w) with
        | Some e => (Err (Errorf "lock acquisition failed: %w" [] [e]), w)
        | None => (Ok cache, log [EvLock; EvUnlock] w)
        end
      else (Ok cache, w)
  end.

Definition isRSAKeyAllowed (dc : CachingStore) (name : string) : bool :=
  if negb (HasSuffix name "+rsa") then true else allowRSAKeys (opts dc).

Definition translateCacheMiss (e : error) : error :=
  if errors_is e fs_ErrNotExist || errors_is e ErrCacheMiss || errors_is e os_ErrNotExist
  then Sentinel ErrCacheMiss else e.

Definition useBackingStore (dc : CachingStore) (name : string) : string * bool :=
  if negb (IsLocalName name (allowRSAKeys (opts dc))) then (name, true)
  else if Nat.ltb 0 (slen (saveAccountKeyName (opts dc))) && IsAcmeAccountKey name
       then (saveAccountKeyName (opts dc), true)
       else (name, false).

Definition Delete (dc : CachingStore) (name : string) (w : world) : option error * world :=
  if readonly (opts dc) then
    (Some (Errorf "webauth/acme/certcache: delete %q: %w" [name] [Sentinel ErrReadonlyCache]), w)
  else
    let w := log [EvMetric name "delete"] w in
    if negb (IsLocalName name (allowRSAKeys (opts dc))) then
      let w := log [EvMetric name "delete-backing"; EvBackDelete name] w in
      let '(b, e) := delete_file (backingStore w) name in
      let w := mkWorld (localCache w) b (trace w) in
      match e with
      | Some err =>
          (Some (Errorf "webauth/acme/certcache: delete %q: %w" [name]
                   [NewM err (Sentinel ErrBackingOperation)]), w)
      | None => (None, w)
      end
    else
      match lock_Lock dc (trace w) with
      | Some err =>
          (Some (NewM (Errorf "webauth/acme/certcache: delete %q: lock acquisition failed: %w" [name] [err])
                   (Sentinel ErrLockFailed)), w)
      | None =>
          let w := log [EvLock; EvLocalDelete name] w in
          let '(l, e) := cache_delete (localCache w) name in
          let w := log [EvUnlock] (mkWorld l (backingStore w) (trace w)) in
          match e with
          | Some err =>
              (Some (Errorf "webauth/acme/certcache: delete %q: %w" [name]
                       [NewM err (Sentinel ErrLocalOperation)]), w)
          | None => (None, w)
          end
      end.

Definition Get (dc : CachingStore) (name : string) (w : world) : res string * world :=
  let w := log [EvMetric name "get"] w in
  let '(bname, backing) := useBackingStore dc name in
  if (backing : bool) then
    let w := log [EvMetric bname "get-backing"; EvBackGet bname] w in
    match read_file (backingStore w) bname with
    | Err err =>
        let err := translateCacheMiss err in
        if is_sentinel err ErrCacheMiss then (Err (Sentinel ErrCacheMiss), w)
        else (Err (Errorf "webauth/acme/certcache: get %q: backing store name %q: %w" [name; bname]
                     [NewM err (Sentinel ErrBackingOperation)]), w)
    | Ok data => (Ok data, w)
    end
  else
    let '(acquired, ev) :=
      if readonly (opts dc) then (lock_RLock dc (trace w), EvRLock) else (lock_Lock dc (trace w), EvLock) in
    match acquired with
    | Some err =>
        (Err (NewM (Errorf "webauth/acme/certcache: get lock acquisition failed: %w" [] [err])
                (Sentinel ErrLockFailed)), w)
    | None =>
        let r := cache_get (localCache w) name in
        let w := log [ev; EvLocalGet name; EvUnlock] w in
        match r with
        | Err err =>
            let err := translateCacheMiss err in
            if is_sentinel err ErrCacheMiss then (Err (Sentinel ErrCacheMiss), w)
            else (Err (Errorf "webauth/acme/certcache: get %q: %w" [name]
                         [NewM err (Sentinel ErrLocalOperation)]), w)
        | Ok data => (Ok data, w)
        end
    end.

Definition Put (dc : CachingStore) (name data : string) (w : world) : option error * world :=
  let w := log [EvMetric name "put"] w in
  if negb (isRSAKeyAllowed dc name) then
    (Some (Errorf "put %q: %w" [name]
             [NewM (errors_New "RSA keys are not enabled") (Sentinel ErrBackingOperation)]), w)
  else if readonly (opts dc) then
    (Some (Errorf "put %q: %w" [name] [Sentinel ErrReadonlyCache]), w)
  else
    let '(bname, backing) := useBackingStore dc name in
    if (backing : bool) then
      let w := log [EvMetric bname "put-backing"; EvBackPut bname] w in
      let '(b, e) := write_file (backingStore w) bname data in
      let w := mkWorld (localCache w) b (trace w) in
      match e with
      | Some err =>
          (Some (Errorf "put %q, backing store name: %q: %w" [name; bname]
                   [NewM err (Sentinel ErrBackingOperation)]), w)
      | None => (None, w)
      end
    else
      match lock_Lock dc (trace w) with
      | Some err =>
          (Some (NewM (Errorf "webauth/acme/certcache: put lock acquisition failed: %w" [] [err])
                   (Sentinel ErrLockFailed)), w)
      | None =>
          let w := log [EvLock; EvLocalPut name] w in
          let '(l, e) := cache_put (localCache w) name data in
          let w := log [EvUnlock] (mkWorld l (backingStore w) (trace w)) in
          match e with
          | Some err =>
              (Some (Errorf "put %q: %w" [name] [NewM err (Sentinel ErrLocalOperation)]), w)
          | None => (None, w)
          end
      end.

(** file.ReadFileFS and file.WriteFileFS *)
Definition ReadFileCtx (dc : CachingStore) (name : string) (w : world) : res string * world :=
  Get dc name w.

Definition ReadFile (dc : CachingStore) (name : string) (w : world) : res string * world :=
  ReadFileCtx dc name w.

Definition WriteFileCtx (dc : CachingStore) (name data : string) (perm : Z) (w : world)
  : option error * world := Put dc name data w.

Definition WriteFile (dc : CachingStore) (name data : string) (perm : Z) (w : world)
  : option error * world := WriteFileCtx dc name data perm w.

(** ** account_key.go *)

(** [pem.Decode]: the first block's type and bytes; [ParsePrivateKeyDER] is
    webapp.ParsePrivateKeyDER. *)
Variable signer : Type.
Variable pem_Decode : string -> option (string * string).
Variable ParsePrivateKeyDER : string -> res signer.

Fixpoint find_key (dc : CachingStore) (names : list string) (w : world) : option string * world :=
  match names with
  | [] => (None, w)
  | kn :: names' =>
      let '(r, w) := Get dc kn w in
      match r with
      | Ok data => (Some data, w)
      | Err _ => find_key dc names' w
      end
  end.

(** A stored key is a non-nil slice, so [keyData == nil] says that no name was
    found. *)
Definition GetAccountKey (dc : CachingStore) (w : world) : res signer * world :=
  let '(keyData, w) := find_key dc ["acme_account+key"; "acme_account.key"] w in
  match keyData with
  | None => (Err (errors_New "no account key found in cert store"), w)
  | Some keyData =>
      match pem_Decode keyData with
      | None => (Err (errors_New "acme/autocert: invalid account key found in cache"), w)
      | Some (typ, bytes) =>
          if negb (Contains typ "PRIVATE")
          then (Err (errors_New "acme/autocert: invalid account key found in cache"), w)
          else (ParsePrivateKeyDER bytes, w)
      end
  end.

End caching_store.

(** [acme.CRLReasonCode] values of RFC 5280. *)
Definition ParseRevocationReason (reason : string) : Z * option error :=
  if bool_decide (reason = "") || bool_decide (reason = "unspecified") then (0%Z, None)
  else if bool_decide (reason = "keyCompromise") then (1%Z, None)
  else if bool_decide (reason = "affiliationChanged") then (3%Z, None)
  else if bool_decide (reason = "superseded") then (4%Z, None)
  else if bool_decide (reason = "cessationOfOperation") then (5%Z, None)
  else if bool_decide (reason = "certificateHold") then (6%Z, None)
  else (0%Z, Some (Errorf "unknown revocation reason: %q" [reason] [])).

(** ** The local file store: [NewLocalStore] and [localCache]

The file system maps paths to contents; [io_fail] lists the paths whose access
fails for another reason.  [join] is [filepath.Join] of the root and a name. *)
Module LocalStore.

Record filesys := mkFS { files : gmap string string; io_fail : gmap string error }.

Section local_store.
Variable join : string -> string.

Definition not_exist (path : string) : error :=
  Errorf "open %s: no such file or directory" [path] [Sentinel fs_ErrNotExist].

Definition path (name : string) : string := join name.

Definition ReadFileCtx (f : filesys) (name : string) : res string :=
  match io_fail f !! path name with
  | Some e => Err e
  | None => match files f !! path name with
            | Some d => Ok d
            | None => Err (not_exist (path name))
            end
  end.

Definition ReadFile (f : filesys) (name : string) : res string := ReadFileCtx f name.

Definition WriteFileCtx (f : filesys) (name data : string) : filesys * option error :=
  match io_fail f !! path name with
  | Some e => (f, Some e)
  | None => (mkFS (<[path name := data]> (files f)) (io_fail f), None)
  end.

Definition Delete (f : filesys) (name : string) : filesys * option error :=
  match io_fail f !! path name with
  | Some e => (f, Some e)
  | None => match files f !! path name with
            | Some _ => (mkFS (delete (path name) (files f)) (io_fail f), None)
            | None => (f, Some (not_exist (path name)))
            end
  end.

(** [mkdir] is the outcome of [os.MkdirAll(dir, 0700)]. *)
Definition NewLocalStore (mkdir : option error) : res (StoreFS filesys) :=
  match mkdir with
  | Some e => Err e
  | None => Ok {| read_file := ReadFileCtx; write_file := WriteFileCtx; delete_file := Delete |}
  end.

End local_store.
End LocalStore.

(** ** What the store relies on *)

(** A reliable [autocert.Cache] is a map whose [Get] reports a missing entry as
    [ErrCacheMiss] (the documented contract of the interface). *)
Class CacheLaws (L : Type) `{Cache L} (labs : L -> gmap string string) := {
  cache_hit : forall l n d, labs l !! n = Some d -> cache_get l n = Ok d;
  cache_miss : forall l n, labs l !! n = None ->
    exists e, cache_get l n = Err e /\ errors_is e ErrCacheMiss = true;
  cache_put_ok : forall l n d l', cache_put l n d = (l', None) -> labs l' = <[n := d]> (labs l);
  cache_delete_ok : forall l n l', cache_delete l n = (l', None) -> labs l' = delete n (labs l)
}.

(** A reliable [StoreFS] is a map that reports a missing file as
    [fs.ErrNotExist]. *)
Class StoreLaws (B : Type) `{StoreFS B} (babs : B -> gmap string string) := {
  store_hit : forall b n d, babs b !! n = Some d -> read_file b n = Ok d;
  store_miss : forall b n, babs b !! n = None ->
    exists e, read_file b n = Err e /\ errors_is e fs_ErrNotExist = true;
  store_write_ok : forall b n d b', write_file b n d = (b', None) -> babs b' = <[n := d]> (babs b);
  store_delete_ok : forall b n b', delete_file b n = (b', None) -> babs b' = delete n (babs b)
}.

(** ** Operations and what they return *)
Inductive op := OGet (n : string) | OPut (n d : string) | ODelete (n : string).

Definition op_name (c : op) : string := match c with OGet n | OPut n _ | ODelete n => n end.

Inductive out := OData (r : res string) | OError (e : option error).

Definition do_op {L B} `{Cache L} `{StoreFS B} (NewM : error -> error -> error)
    (dc : CachingStore) (c : op) (w : world (L:=L) (B:=B)) : out * world :=
  match c with
  | OGet n => let '(r, w) := Get NewM dc n w in (OData r, w)
  | OPut n d => let '(e, w) := Put NewM dc n d w in (OError e, w)
  | ODelete n => let '(e, w) := Delete NewM dc n w in (OError e, w)
  end.

Definition run_op {L B} `{Cache L} `{StoreFS B} (NewM : error -> error -> error)
    (dc : CachingStore) (w : world (L:=L) (B:=B)) (o : op) : world :=
  match o with
  | OGet n => (Get NewM dc n w).2
  | OPut n d => (Put NewM dc n d w).2
  | ODelete n => (Delete NewM dc n w).2
  end.

Definition run_ops {L B} `{Cache L} `{StoreFS B} (NewM : error -> error -> error)
    (dc : CachingStore) (ops : list op) (w : world (L:=L) (B:=B)) : world :=
  fold_left (run_op NewM dc) ops w.

(** The lock automaton: the local cache is used only while the lock is held,
    the backing store only while it is not, and lock and unlock alternate. *)
Definition lock_step (held : bool) (ev : event) : option bool :=
  match ev with
  | EvLock | EvRLock => if held then None else Some true
  | EvUnlock => if held then Some false else None
  | EvLocalGet _ | EvLocalPut _ | EvLocalDelete _ => if held then Some true else None
  | EvBackGet _ | EvBackPut _ | EvBackDelete _ => if held then None else Some false
  | EvMetric _ _ => Some held
  end.

Fixpoint lock_run (held : bool) (tr : list event) : option bool :=
  match tr with
  | [] => Some held
  | ev :: tr' => match lock_step held ev with Some h => lock_run h tr' | None => None end
  end.

(** The names passed to the backing store. *)
Definition back_name (ev : event) : option string :=
  match ev with EvBackGet n | EvBackPut n | EvBackDelete n => Some n | _ => None end.

(** ** The abstract store: a shared and a private map

What the documentation of the package says, without the functions of the code:
which names are local-only, where a name is kept, and what every operation does
to the two maps. *)
Definition account_key (n : string) : Prop := n = "acme_account+key" \/ n = "acme_account.key".
Definition rsa_refused (o : options) (n : string) : Prop := (exists p, n = p +:+ "+rsa") /\ allowRSAKeys o = false.
Definition local_only (o : options) (n : string) : Prop :=
  (exists p, n = p +:+ "+token") \/ rsa_refused o n \/ (exists a b, n = a +:+ "http-01" +:+ b) \/ account_key n.

Record astore := mkAStore { shared : gmap string string; private : gmap string string }.

Inductive place := InShared (name : string) | InPrivate (name : string).

Definition content (a : astore) (p : place) : option string :=
  match p with InShared n => shared a !! n | InPrivate n => private a !! n end.
Definition update (p : place) (d : string) (a : astore) : astore :=
  match p with
  | InShared n => mkAStore (<[n := d]> (shared a)) (private a)
  | InPrivate n => mkAStore (shared a) (<[n := d]> (private a))
  end.
Definition remove (p : place) (a : astore) : astore :=
  match p with
  | InShared n => mkAStore (delete n (shared a)) (private a)
  | InPrivate n => mkAStore (shared a) (delete n (private a))
  end.

(** Where a name is read and written. *)
Inductive routed (o : options) (n : string) : place -> Prop :=
| routed_shared : ~ local_only o n -> routed o n (InShared n)
| routed_saved : account_key n -> saveAccountKeyName o <> "" -> routed o n (InShared (saveAccountKeyName o))
| routed_private : local_only o n -> (account_key n -> saveAccountKeyName o = "") -> routed o n (InPrivate n).

(** Where a name is deleted: a saved account key is not. *)
Inductive deleted_at (o : options) (n : string) : place -> Prop :=
| deleted_shared : ~ local_only o n -> deleted_at o n (InShared n)
| deleted_private : local_only o n -> deleted_at o n (InPrivate n).

Inductive answer := Found (d : string) | Missing | Stored | Refused (sentinel : string).

Inductive spec_step (o : options) : op -> astore -> answer -> astore -> Prop :=
| spec_get n p a :
    routed o n p -> spec_step o (OGet n) a (match content a p with Some d => Found d | None => Missing end) a
| spec_put_rsa n d a : rsa_refused o n -> spec_step o (OPut n d) a (Refused ErrBackingOperation) a
| spec_put_readonly n d a :
    ~ rsa_refused o n -> readonly o = true -> spec_step o (OPut n d) a (Refused ErrReadonlyCache) a
| spec_put n d p a :
    ~ rsa_refused o n -> readonly o = false -> routed o n p -> spec_step o (OPut n d) a Stored (update p d a)
| spec_delete_readonly n a : readonly o = true -> spec_step o (ODelete n) a (Refused ErrReadonlyCache) a
| spec_delete n p a : readonly o = false -> deleted_at o n p -> spec_step o (ODelete n) a Stored (remove p a).

(** How an operation reports an answer. *)
Definition reports (a : answer) (r : out) : Prop :=
  match a, r with
  | Found d, OData r => r = Ok d
  | Missing, OData r => r = Err (Sentinel ErrCacheMiss)
  | Stored, OError e => e = None
  | Refused s, OError (Some e) => errors_is e s = true
  | _, _ => False
  end.

(** The stores accept what the operation writes or deletes. *)
Definition accepting {L B} `{Cache L} `{StoreFS B} (c : op) (w : world (L:=L) (B:=B)) : Prop :=
  match c with
  | OGet _ => True
  | OPut n d => (forall b, (write_file (backingStore w) b d).2 = None) /\ (cache_put (localCache w) n d).2 = None
  | ODelete n => (delete_file (backingStore w) n).2 = None /\ (cache_delete (localCache w) n).2 = None
  end.

(** The names under which an operation may use the backing store: its own if it
    is not local-only, and for an account key the one configured for saving it. *)
Definition back_ok (o : options) (c : op) (b : string) : Prop :=
  ~ local_only o (op_name c) /\ b = op_name c \/
  account_key (op_name c) /\ saveAccountKeyName o <> "" /\ b = saveAccountKeyName o /\ (forall n, c <> ODelete n).

(** ** Lemmas *)

Lemma lock_run_app h t1 t2 :
  lock_run h (t1 ++ t2) = match lock_run h t1 with Some h' => lock_run h' t2 | None => None end.
Proof. revert h. induction t1 as [|ev t1 IH]; intros h; simpl; [done|]. by destruct (lock_step h ev). Qed.

Lemma IsAcmeAccountKey_spec n : IsAcmeAccountKey n = true <-> account_key n.
Proof. unfold IsAcmeAccountKey. by rewrite orb_true_iff, !bool_decide_eq_true. Qed.

Lemma rsa_refused_spec o n : HasSuffix n "+rsa" && negb (allowRSAKeys o) = true <-> rsa_refused o n.
Proof. unfold rsa_refused. by rewrite andb_true_iff, HasSuffix_spec, negb_true_iff. Qed.

Lemma IsLocalName_spec o n : IsLocalName n (allowRSAKeys o) = true <-> local_only o n.
Proof.
  unfold IsLocalName, local_only.
  rewrite !orb_true_iff, rsa_refused_spec, HasSuffix_spec, Contains_spec, IsAcmeAccountKey_spec. tauto.
Qed.

Lemma IsLocalName_false o n : IsLocalName n (allowRSAKeys o) = false <-> ~ local_only o n.
Proof. by rewrite <- IsLocalName_spec, not_true_iff_false. Qed.

Lemma isRSAKeyAllowed_spec dc n : isRSAKeyAllowed dc n = false <-> rsa_refused (opts dc) n.
Proof.
  rewrite <- rsa_refused_spec. unfold isRSAKeyAllowed. by destruct (HasSuffix n "+rsa"), (allowRSAKeys (opts dc)).
Qed.

Lemma account_key_local o n : account_key n -> local_only o n.
Proof. unfold local_only. tauto. Qed.

(** The place that [useBackingStore] gives. *)
Definition place_of (r : string * bool) : place := if r.2 then InShared r.1 else InPrivate r.1.

Lemma useBackingStore_routed dc n : routed (opts dc) n (place_of (useBackingStore dc n)).
Proof.
  unfold useBackingStore. destruct (IsLocalName n _) eqn:E; simpl.
  - apply IsLocalName_spec in E. destruct (Nat.ltb_spec 0 (slen (saveAccountKeyName (opts dc)))) as [Hl|Hl]; simpl.
    + assert (Hs : saveAccountKeyName (opts dc) <> "") by (intros Hs; rewrite Hs in Hl; simpl in Hl; lia).
      destruct (IsAcmeAccountKey n) eqn:Ea; simpl; constructor; try done; [by apply IsAcmeAccountKey_spec|].
      intros Hk%IsAcmeAccountKey_spec. congruence.
    + constructor; [done|]. intros _. apply slen_zero. lia.
  - constructor. by apply IsLocalName_false.
Qed.

Lemma routed_det o n p q : routed o n p -> routed o n q -> p = q.
Proof. intros [] []; try done; exfalso; eauto using account_key_local. Qed.

Lemma routed_options o o' n p :
  saveAccountKeyName o' = saveAccountKeyName o -> allowRSAKeys o' = allowRSAKeys o -> routed o n p -> routed o' n p.
Proof.
  intros Hs Ha. assert (Hl : local_only o' n <-> local_only o n) by (unfold local_only, rsa_refused; by rewrite Ha).
  intros [H|H H'|H H']; [apply routed_shared|rewrite <- Hs; apply routed_saved|apply routed_private]; rewrite ?Hl, ?Hs; done.
Qed.

Lemma deleted_at_det o n p q : deleted_at o n p -> deleted_at o n q -> p = q.
Proof. by intros [] []. Qed.

Lemma content_update p d a : content (update p d a) p = Some d.
Proof. destruct p; simpl; by simplify_map_eq. Qed.

(** The specification says what every operation answers and leaves. *)
Lemma spec_step_det o c a r1 a1 r2 a2 : spec_step o c a r1 a1 -> spec_step o c a r2 a2 -> r1 = r2 /\ a1 = a2.
Proof.
  intros H1 H2. destruct H1; inversion H2; subst; try done; try congruence.
  all: match goal with
       | H1 : routed _ _ ?p, H2 : routed _ _ ?q |- _ => by rewrite (routed_det _ _ _ _ H1 H2)
       | H1 : deleted_at _ _ ?p, H2 : deleted_at _ _ ?q |- _ => by rewrite (deleted_at_det _ _ _ _ H1 H2)
       end.
Qed.

Lemma useBackingStore_local dc n b : useBackingStore dc n = (b, false) -> b = n.
Proof. unfold useBackingStore. repeat case_match; congruence. Qed.

Lemma translateCacheMiss_cases e :
  (errors_is e fs_ErrNotExist = true \/ errors_is e ErrCacheMiss = true) /\
    translateCacheMiss e = Sentinel ErrCacheMiss
  \/ translateCacheMiss e = e.
Proof.
  unfold translateCacheMiss, os_ErrNotExist.
  destruct (errors_is e fs_ErrNotExist), (errors_is e ErrCacheMiss); simpl; auto.
Qed.

Lemma translate_miss e :
  errors_is e fs_ErrNotExist = true \/ errors_is e ErrCacheMiss = true ->
  translateCacheMiss e = Sentinel ErrCacheMiss.
Proof. unfold translateCacheMiss. intros [-> | ->]; simpl; rewrite ?orb_true_r; done. Qed.

Section facts.
Context {L B : Type} `{Cache L} `{StoreFS B}.
Variable NewM : error -> error -> error.
Abbreviation W := (world (L:=L) (B:=B)).

(** What one operation appends to the trace. *)
Definition op_events (w w' : W) (evs : list event) : Prop := trace w' = trace w ++ evs.

(** Unfold an operation, split its branches and give the events it logged. *)
Ltac op_cases :=
  repeat (case_match; simplify_eq/=);
  (eexists; split; [ unfold op_events; simpl; rewrite <- ?app_assoc; reflexivity | ]).

(** Every operation logs a block of events that the lock automaton accepts from
    the unlocked state, and whose backing-store names are those it may use. *)
Definition good_events (dc : CachingStore) (c : op) (evs : list event) : Prop :=
  lock_run false evs = Some false /\
  forall ev b, ev ∈ evs -> back_name ev = Some b -> back_ok (opts dc) c b.

Lemma back_ok_routed dc c b :
  (forall n, c <> ODelete n) -> useBackingStore dc (op_name c) = (b, true) -> back_ok (opts dc) c b.
Proof.
  intros Hc E. pose proof (useBackingStore_routed dc (op_name c)) as Hr. rewrite E in Hr. simpl in Hr.
  unfold back_ok. inversion Hr; subst; auto.
Qed.

Hint Extern 1 (back_ok _ _ _) => (apply back_ok_routed; [done|assumption]) : golib.
Hint Extern 1 (back_ok _ _ _) => (left; split; [by apply IsLocalName_false|done]) : golib.

Ltac good_block :=
  split; [done |
    let ev := fresh "ev" in intros ev ? Hev Hn;
    repeat (apply elem_of_cons in Hev as [-> | Hev]; [simpl in Hn; simplify_eq; eauto with golib|]);
    apply elem_of_nil in Hev; done].

Lemma op_block dc c (w : W) : exists evs, op_events w (run_op NewM dc w c) evs /\ good_events dc c evs.
Proof.
  destruct c as [n|n d|n]; simpl; [unfold Get|unfold Put|unfold Delete].
  - destruct (useBackingStore dc n) as [b [|]] eqn:E; [|destruct (readonly (opts dc)); simpl]; op_cases; good_block.
  - destruct (useBackingStore dc n) as [b [|]] eqn:E; op_cases; good_block.
  - destruct (readonly (opts dc)); [exists []; split; [unfold op_events; by rewrite app_nil_r|]; good_block|].
    destruct (IsLocalName n (allowRSAKeys (opts dc))) eqn:E; op_cases; good_block.
Qed.

Lemma run_ops_snoc dc ops c (w : W) : run_ops NewM dc (ops ++ [c]) w = run_op NewM dc (run_ops NewM dc ops w) c.
Proof. unfold run_ops. by rewrite fold_left_app. Qed.

Lemma run_ops_locked dc ops (w : W) :
  lock_run false (trace w) = Some false -> lock_run false (trace (run_ops NewM dc ops w)) = Some false.
Proof.
  intros Hw. induction ops as [|c ops IH] using rev_ind; [done|]. rewrite run_ops_snoc.
  destruct (op_block dc c (run_ops NewM dc ops w)) as (evs & -> & Hl & _). by rewrite lock_run_app, IH.
Qed.

(** An operation on a name that is kept locally leaves the backing store alone. *)
Lemma local_op_backing dc c (w : W) :
  local_only (opts dc) (op_name c) ->
  (account_key (op_name c) -> saveAccountKeyName (opts dc) = "") ->
  backingStore (run_op NewM dc w c) = backingStore w.
Proof.
  intros Hl Hk. assert (Hu : useBackingStore dc (op_name c) = (op_name c, false)).
  { pose proof (routed_det _ _ _ _ (useBackingStore_routed dc (op_name c)) (routed_private _ _ Hl Hk)) as Hp.
    destruct (useBackingStore dc (op_name c)) as [b [|]]; [discriminate Hp|]. by injection Hp as ->. }
  apply IsLocalName_spec in Hl. destruct c as [n|n d|n]; simpl in *; unfold Get, Put, Delete; rewrite ?Hu, ?Hl;
    by repeat (case_match; simplify_eq/=).
Qed.

End facts.

Section refinement.
Context {L B : Type} `{Cache L} `{StoreFS B}.
Context (labs : L -> gmap string string) (babs : B -> gmap string string).
Context `{!CacheLaws L labs} `{!StoreLaws B babs}.
Variable NewM : error -> error -> error.
Abbreviation W := (world (L:=L) (B:=B)).

Definition abs (w : W) : astore := mkAStore (babs (backingStore w)) (labs (localCache w)).

(** Every multi-error that [errors.NewM] makes contains both errors. *)
Definition multi_error : Prop := forall e1 e2 t, errors_is (NewM e1 e2) t = errors_is e1 t || errors_is e2 t.

Lemma Get_refines dc n p (w : W) :
  (forall h, lock_Lock dc h = None) -> (forall h, lock_RLock dc h = None) -> routed (opts dc) n p ->
  (Get NewM dc n w).1 = match content (abs w) p with Some d => Ok d | None => Err (Sentinel ErrCacheMiss) end /\
  abs (Get NewM dc n w).2 = abs w.
Proof.
  intros Hl Hr Hp. rewrite (routed_det _ _ _ _ Hp (useBackingStore_routed dc n)). clear Hp. unfold Get.
  destruct (useBackingStore dc n) as [b [|]] eqn:E; simpl.
  - destruct (babs (backingStore w) !! b) as [d|] eqn:Hb.
    + by rewrite (store_hit _ _ _ Hb).
    + destruct (store_miss _ _ Hb) as (e & -> & He). by rewrite translate_miss by auto.
  - rewrite Hl, Hr. replace (if readonly (opts dc) then (None, EvRLock) else (None, EvLock))
      with (@None error, if readonly (opts dc) then EvRLock else EvLock) by (by destruct (readonly _)).
    assert (b = n) as -> by (by apply useBackingStore_local in E). destruct (labs (localCache w) !! n) as [d|] eqn:Hb.
    + by rewrite (cache_hit _ _ _ Hb).
    + destruct (cache_miss _ _ Hb) as (e & -> & He). by rewrite translate_miss by auto.
Qed.

Lemma Put_refines dc n d (w w' : W) :
  Put NewM dc n d w = (None, w') ->
  ~ rsa_refused (opts dc) n /\ readonly (opts dc) = false /\
  exists p, routed (opts dc) n p /\ abs w' = update p d (abs w).
Proof.
  unfold Put, abs. pose proof (useBackingStore_routed dc n) as Hr. rewrite <- isRSAKeyAllowed_spec.
  destruct (isRSAKeyAllowed dc n); [|done]. destruct (readonly (opts dc)); [done|]. cbn [negb].
  destruct (useBackingStore dc n) as [b [|]] eqn:E; simpl; go_case; intros; simplify_eq/=;
    (split_and!; [done..|]; eexists; split; [exact Hr|]); simpl.
  - match goal with Hop : write_file _ _ _ = _ |- _ => by rewrite (store_write_ok (babs := babs) _ _ _ _ Hop) end.
  - apply useBackingStore_local in E as ->.
    match goal with Hop : cache_put _ _ _ = _ |- _ => by rewrite (cache_put_ok (labs := labs) _ _ _ _ Hop) end.
Qed.

Lemma Delete_refines dc n (w w' : W) :
  Delete NewM dc n w = (None, w') ->
  readonly (opts dc) = false /\ exists p, deleted_at (opts dc) n p /\ abs w' = remove p (abs w).
Proof.
  unfold Delete, abs. destruct (readonly (opts dc)); [done|].
  destruct (IsLocalName n (allowRSAKeys (opts dc))) eqn:E; simpl; go_case; intros; simplify_eq/=; split; try done.
  - apply IsLocalName_spec in E. exists (InPrivate n). split; [by constructor|]. simpl.
    match goal with Hop : cache_delete _ _ = _ |- _ => by rewrite (cache_delete_ok (labs := labs) _ _ _ Hop) end.
  - apply IsLocalName_false in E. exists (InShared n). split; [by constructor|]. simpl.
    match goal with Hop : delete_file _ _ = _ |- _ => by rewrite (store_delete_ok (babs := babs) _ _ _ Hop) end.
Qed.

(** The operations that are refused, and the others when the stores accept. *)
Lemma Put_accepted dc n d (w : W) :
  multi_error -> (forall h, lock_Lock dc h = None) -> accepting (OPut n d) w ->
  (rsa_refused (opts dc) n /\ (exists e, (Put NewM dc n d w).1 = Some e /\ errors_is e ErrBackingOperation = true) /\ abs (Put NewM dc n d w).2 = abs w) \/
  (~ rsa_refused (opts dc) n /\ readonly (opts dc) = true /\
   (exists e, (Put NewM dc n d w).1 = Some e /\ errors_is e ErrReadonlyCache = true) /\ abs (Put NewM dc n d w).2 = abs w) \/
  exists w', Put NewM dc n d w = (None, w').
Proof.
  intros HM Hl [Hb Hc]. unfold Put. rewrite <- isRSAKeyAllowed_spec. destruct (isRSAKeyAllowed dc n); cbn [negb].
  2:{ left. split_and!; [done| |done]. eexists. split; [done|]. simpl. by rewrite HM, errors_is_sentinel, !orb_true_r. }
  right. destruct (readonly (opts dc)); [left|right].
  { split_and!; [done..| |done]. by eexists. }
  simpl. destruct (useBackingStore dc n) as [b [|]]; simpl; rewrite ?Hl.
  - specialize (Hb b). destruct (write_file (backingStore w) b d) as [b' e]. simpl in *. subst e. eauto.
  - destruct (cache_put (localCache w) n d) as [l' e]. simpl in *. subst e. eauto.
Qed.

Lemma Delete_accepted dc n (w : W) :
  (forall h, lock_Lock dc h = None) -> accepting (ODelete n) w ->
  (readonly (opts dc) = true /\
   (exists e, (Delete NewM dc n w).1 = Some e /\ errors_is e ErrReadonlyCache = true) /\ abs (Delete NewM dc n w).2 = abs w) \/
  exists w', Delete NewM dc n w = (None, w').
Proof.
  intros Hl [Hb Hc]. unfold Delete. destruct (readonly (opts dc)); [left|right].
  { split_and!; [done| |done]. by eexists. }
  destruct (negb _); simpl; rewrite ?Hl.
  - destruct (delete_file (backingStore w) n) as [b' e]. simpl in *. subst e. eauto.
  - destruct (cache_delete (localCache w) n) as [l' e]. simpl in *. subst e. eauto.
Qed.

End refinement.

(** A read-only store: no operation reaches a writing call. *)
Lemma readonly_op_state {L B} `{Cache L} `{StoreFS B} NewM dc (w : world (L:=L) (B:=B)) o :
  readonly (opts dc) = true ->
  localCache (run_op NewM dc w o) = localCache w /\ backingStore (run_op NewM dc w o) = backingStore w.
Proof.
  intros Hr. destruct o; unfold run_op, Get, Put, Delete; rewrite Hr;
    destruct (useBackingStore dc n) as [b [|]]; simpl; by repeat (case_match; simplify_eq/=).
Qed.

(** ** Instances: an in-memory cache and store *)
#[global] Instance mem_cache : Cache (gmap string string) := {|
  cache_get := fun m n => match m !! n with Some d => Ok d | None => Err (Sentinel ErrCacheMiss) end;
  cache_put := fun m n d => (<[n := d]> m, None);
  cache_delete := fun m n => (delete n m, None)
|}.

#[global] Instance mem_store : StoreFS (gmap string string) := {|
  read_file := fun m n => match m !! n with Some d => Ok d | None => Err (LocalStore.not_exist n) end;
  write_file := fun m n d => (<[n := d]> m, None);
  delete_file := fun m n => (delete n m, None)
|}.

#[global] Instance mem_cache_laws : CacheLaws (gmap string string) id.
Proof.
  constructor; simpl; unfold id.
  - by intros l n d ->.
  - intros l n ->. eauto.
  - by intros l n d l' [= <-].
  - by intros l n l' [= <-].
Qed.

#[global] Instance mem_store_laws : StoreLaws (gmap string string) id.
Proof.
  constructor; simpl; unfold id.
  - by intros l n d ->.
  - intros l n ->. eauto.
  - by intros l n d l' [= <-].
  - by intros l n l' [= <-].
Qed.

(** The store used by the witnesses: account keys are saved under "acct". *)
Definition example_store : CachingStore :=
  mkStore (fun _ => None) (fun _ => None) (apply_options [WithSaveAccountKey "acct"] zero_options).
Definition example_NewM (a b : error) : error := Joined [a; b].
Lemma example_NewM_multi : multi_error example_NewM.
Proof. intros e1 e2 t. simpl. by rewrite orb_false_r. Qed.

Definition example_world : world (L:=gmap string string) (B:=gmap string string) :=
  mkWorld ∅ {["example.com" := "cert"]} [].

(** ** Properties *)

(** C4 Refinement. Over any reliable local cache and backing store, with the
    lock available, the operations implement the abstract store of [spec_step]:
    a shared and a private map, the documented rules for the place of a name, and
    the refusals of RSA keys and of read-only stores. When the stores accept what
    is written, every operation answers and leaves exactly what the specification
    says; and whenever a [Put] or [Delete] reports success, whatever the stores
    did, the step of the specification has been made. *)
Theorem CachingStore_refines {L B} `{Cache L} `{StoreFS B} labs babs
    `{!CacheLaws L labs} `{!StoreLaws B babs} NewM dc c (w : world (L:=L) (B:=B)) :
  multi_error NewM -> (forall h, lock_Lock dc h = None) -> (forall h, lock_RLock dc h = None) ->
  let '(r, w') := do_op NewM dc c w in
  (accepting c w -> exists a, spec_step (opts dc) c (abs labs babs w) a (abs labs babs w') /\ reports a r) /\
  (r = OError None -> spec_step (opts dc) c (abs labs babs w) Stored (abs labs babs w')).
Proof.
  intros HM Hl Hr. destruct c as [n|n d|n]; simpl.
  - pose proof (useBackingStore_routed dc n) as Hp. destruct (Get_refines labs babs NewM dc n _ w Hl Hr Hp) as [Hg Ha].
    destruct (Get NewM dc n w) as [r w']. simpl in *. split; [|done]. intros _. rewrite Ha.
    eexists. split; [by eapply spec_get|]. rewrite Hg. by destruct (content _ _).
  - assert (Hok : forall w', Put NewM dc n d w = (None, w') -> spec_step (opts dc) (OPut n d) (abs labs babs w) Stored (abs labs babs w')).
    { intros w' HP. destruct (Put_refines labs babs _ _ _ _ _ _ HP) as (? & ? & p & ? & ->). by constructor. }
    pose proof (Put_accepted labs babs NewM dc n d w HM Hl) as Hacc. destruct (Put NewM dc n d w) as [e w'].
    split; [|intros [= ->]; by apply Hok]. intros [(Hx & (e' & He & Hs) & Ha)|[(Hx & Hro & (e' & He & Hs) & Ha)|[w1 Hw]]]%Hacc;
      simpl in *; [rewrite Ha; subst e..|injection Hw as -> ->].
    + eexists. split; [by apply spec_put_rsa|done].
    + eexists. split; [by apply spec_put_readonly|done].
    + eexists. split; [by apply Hok|done].
  - assert (Hok : forall w', Delete NewM dc n w = (None, w') -> spec_step (opts dc) (ODelete n) (abs labs babs w) Stored (abs labs babs w')).
    { intros w' HP. destruct (Delete_refines labs babs _ _ _ _ _ HP) as (? & p & ? & ->). by constructor. }
    pose proof (Delete_accepted labs babs NewM dc n w Hl) as Hacc. destruct (Delete NewM dc n w) as [e w'].
    split; [|intros [= ->]; by apply Hok]. intros [(Hro & (e' & He & Hs) & Ha)|[w1 Hw]]%Hacc; simpl in *;
      [rewrite Ha; subst e|injection Hw as -> ->].
    + eexists. split; [by apply spec_delete_readonly|done].
    + eexists. split; [by apply Hok|done].
Qed.

(** A certificate that is stored, and an RSA key that is refused. *)
Lemma CachingStore_refines_witness :
  (exists a, spec_step (opts example_store) (OPut "www.example.com" "c") (abs id id example_world) a
     (abs id id (do_op example_NewM example_store (OPut "www.example.com" "c") example_world).2) /\
     reports a (OError None)) /\
  (exists a e, spec_step (opts example_store) (OPut "www.example.com+rsa" "c") (abs id id example_world) a (abs id id example_world) /\
     reports a (OError (Some e))).
Proof.
  split.
  - destruct (CachingStore_refines id id example_NewM example_store (OPut "www.example.com" "c") example_world
                example_NewM_multi (fun _ => eq_refl) (fun _ => eq_refl)) as [H _]. by apply H.
  - destruct (CachingStore_refines id id example_NewM example_store (OPut "www.example.com+rsa" "c") example_world
                example_NewM_multi (fun _ => eq_refl) (fun _ => eq_refl)) as [H _].
    destruct H as (a & Hs & Hr); [done|]. exists a. eexists. split; [exact Hs|exact Hr].
Defined.

(** Round trip: over reliable stores, what a successful [Put] stores under a
    name is what the next [Get] of that name returns, account keys redirected
    to the backing store included. *)
Theorem Put_Get_roundtrip {L B} `{Cache L} `{StoreFS B} labs babs
    `{!CacheLaws L labs} `{!StoreLaws B babs} NewM dc n d (w w' : world (L:=L) (B:=B)) :
  (forall h, lock_Lock dc h = None) -> (forall h, lock_RLock dc h = None) ->
  Put NewM dc n d w = (None, w') -> (Get NewM dc n w').1 = Ok d.
Proof.
  intros Hl Hr HP. destruct (Put_refines labs babs _ _ _ _ _ _ HP) as (_ & _ & p & Hp & Ha).
  destruct (Get_refines labs babs NewM dc n p w' Hl Hr Hp) as [-> _]. rewrite Ha. by rewrite content_update.
Qed.

Lemma Put_Get_roundtrip_witness :
  let w' := (Put example_NewM example_store "acme_account+key" "key" example_world).2 in
  (Get example_NewM example_store "acme_account+key" w').1 = Ok "key"
  /\ backingStore w' !! "acct" = Some "key".
Proof.
  split; [|by vm_compute].
  apply (Put_Get_roundtrip id id example_NewM example_store "acme_account+key" "key"
           example_world _ (fun _ => eq_refl) (fun _ => eq_refl)). by vm_compute.
Defined.

(** C6 Confidentiality of local data. Whatever operations are run, and however
    the stores and the lock behave, an operation uses the backing store only under
    its own name, if that is not local-only (a token, a refused RSA key, an http-01
    challenge or an account key), or, to read or write an account key when a name
    for saving account keys is configured, under that name; and an operation on
    any other local-only name leaves the backing store as it is. *)
Theorem local_names_stay_local {L B} `{Cache L} `{StoreFS B} NewM dc ops c (w : world (L:=L) (B:=B)) :
  let w1 := run_ops NewM dc ops w in
  let w2 := run_ops NewM dc (ops ++ [c]) w in
  (exists evs, trace w2 = trace w1 ++ evs /\
     forall ev b, ev ∈ evs -> back_name ev = Some b ->
       ~ local_only (opts dc) (op_name c) /\ b = op_name c \/
       account_key (op_name c) /\ saveAccountKeyName (opts dc) <> "" /\ b = saveAccountKeyName (opts dc) /\
         (forall n, c <> ODelete n)) /\
  (local_only (opts dc) (op_name c) -> (account_key (op_name c) -> saveAccountKeyName (opts dc) = "") ->
   backingStore w2 = backingStore w1).
Proof.
  cbv zeta. rewrite run_ops_snoc. split; [|by apply local_op_backing].
  destruct (op_block NewM dc c (run_ops NewM dc ops w)) as (evs & Ht & _ & Hb). by exists evs.
Qed.

(** A token is kept locally; the account key is saved under its alias. *)
Lemma local_names_stay_local_witness :
  let w1 := run_ops example_NewM example_store [OPut "example.com" "c"] example_world in
  let w2 := run_ops example_NewM example_store [OPut "example.com" "c"; OPut "x+token" "t"] example_world in
  backingStore w2 = backingStore w1 /\
  exists evs, trace (run_ops example_NewM example_store [OPut "acme_account+key" "k"] example_world) = evs /\
    EvBackPut "acct" ∈ evs /\ account_key "acme_account+key".
Proof.
  split.
  - apply (local_names_stay_local example_NewM example_store [OPut "example.com" "c"] (OPut "x+token" "t") example_world).
    + left. by exists "x".
    + intros [?|?]; discriminate.
  - destruct (local_names_stay_local example_NewM example_store [] (OPut "acme_account+key" "k") example_world)
      as [(evs & Ht & Hb) _].
    exists evs. split; [exact Ht|]. assert (Hin : EvBackPut "acct" ∈ evs) by (rewrite <- (Ht : _ = evs); vm_compute; right; right; left).
    split; [exact Hin|]. destruct (Hb _ _ Hin eq_refl) as [[_ Heq]|[Hk _]]; [discriminate Heq|exact Hk].
Defined.

(** Lock discipline: in every run the local cache is used only between a
    lock (or read lock) and its unlock, the backing store only outside of
    them, and every acquisition is released, on the error paths too. *)
Theorem lock_discipline {L B} `{Cache L} `{StoreFS B} NewM dc ops (w : world (L:=L) (B:=B)) :
  lock_run false (trace w) = Some false ->
  lock_run false (trace (run_ops NewM dc ops w)) = Some false.
Proof. apply run_ops_locked. Qed.

Lemma lock_discipline_witness :
  lock_run false (trace (run_ops example_NewM example_store
     [OPut "x+token" "t"; OGet "x+token"; ODelete "x+token"] example_world)) = Some false.
Proof. apply (lock_discipline example_NewM example_store). by vm_compute. Defined.

(** C8 A read-only store never changes either of its stores, whatever
    operations are run on it. *)
Theorem readonly_never_writes {L B} `{Cache L} `{StoreFS B} NewM dc ops (w : world (L:=L) (B:=B)) :
  readonly (opts dc) = true ->
  localCache (run_ops NewM dc ops w) = localCache w /\
  backingStore (run_ops NewM dc ops w) = backingStore w.
Proof.
  intros Hr. revert w. induction ops as [|o ops IH]; intros w; [done|]. unfold run_ops in *. simpl.
  destruct (IH (run_op NewM dc w o)) as [-> ->]. by apply readonly_op_state.
Qed.

Lemma readonly_never_writes_witness :
  let dc := mkStore (fun _ => None) (fun _ => None) (apply_options [WithReadonly true] zero_options) in
  backingStore (run_ops example_NewM dc [OPut "example.com" "new"; ODelete "example.com"]
    example_world) = backingStore example_world.
Proof.
  apply (readonly_never_writes example_NewM
    (mkStore (fun _ => None) (fun _ => None) (apply_options [WithReadonly true] zero_options))). by vm_compute.
Defined.

(** Every error of [Get] is either exactly [ErrCacheMiss], or carries one of
    the sentinels that name the part that failed (backing store, local cache,
    lock), for any multi-error constructor that [errors.Is] sees through. *)
Theorem Get_errors_classified {L B} `{Cache L} `{StoreFS B} NewM dc n (w : world (L:=L) (B:=B)) e :
  multi_error NewM ->
  (Get NewM dc n w).1 = Err e ->
  e = Sentinel ErrCacheMiss \/ errors_is e ErrBackingOperation = true \/
  errors_is e ErrLocalOperation = true \/ errors_is e ErrLockFailed = true.
Proof.
  intros HM. unfold Get. destruct (useBackingStore dc n) as [b [|]]; simpl.
  - repeat (case_match; simplify_eq/=); try (intros; simplify_eq/=; auto); [].
    right; left. by rewrite HM, errors_is_sentinel, orb_true_r.
  - destruct (readonly (opts dc)); repeat (case_match; simplify_eq/=); intros; simplify_eq/=; auto;
      rewrite ?HM, ?errors_is_sentinel, ?orb_true_r; auto.
Qed.

Lemma Get_errors_classified_witness :
  let e := Sentinel ErrCacheMiss in
  (Get example_NewM example_store "missing.com" example_world).1 = Err e /\
  (e = Sentinel ErrCacheMiss \/ errors_is e ErrBackingOperation = true \/
   errors_is e ErrLocalOperation = true \/ errors_is e ErrLockFailed = true).
Proof.
  split; [by vm_compute|].
  apply (Get_errors_classified example_NewM example_store "missing.com" example_world).
  - exact example_NewM_multi.
  - by vm_compute.
Defined.

(** When account keys are saved to the backing store, [Delete] of the
    account key does not delete it: a [Get] of the same name still returns the
    saved key, whatever [Delete] returned. *)
Theorem Delete_keeps_saved_account_key {L B} `{Cache L} `{StoreFS B} labs babs
    `{!CacheLaws L labs} `{!StoreLaws B babs} NewM dc n d (w : world (L:=L) (B:=B)) :
  (forall h, lock_Lock dc h = None) -> (forall h, lock_RLock dc h = None) ->
  account_key n -> saveAccountKeyName (opts dc) <> "" ->
  babs (backingStore w) !! saveAccountKeyName (opts dc) = Some d ->
  (Get NewM dc n (Delete NewM dc n w).2).1 = Ok d.
Proof.
  intros Hl Hr Hn Hs Hd.
  destruct (Get_refines labs babs NewM dc n _ (Delete NewM dc n w).2 Hl Hr (routed_saved _ _ Hn Hs)) as [-> _].
  simpl. assert (Hb : backingStore (Delete NewM dc n w).2 = backingStore w); [|by rewrite Hb, Hd].
  apply account_key_local with (o := opts dc), IsLocalName_spec in Hn. unfold Delete. rewrite Hn.
  simpl. by repeat (case_match; simplify_eq/=).
Qed.

Lemma Delete_keeps_saved_account_key_witness :
  let w := mkWorld (∅ : gmap string string) ({["acct" := "key"]} : gmap string string) [] in
  (Get example_NewM example_store "acme_account+key"
    (Delete example_NewM example_store "acme_account+key" w).2).1 = Ok "key".
Proof.
  apply (Delete_keeps_saved_account_key id id example_NewM example_store "acme_account+key" "key");
    [done|done|by left|done|by vm_compute].
Defined.
