(* ===== verification/CertConc.v ===== *)
(** * webauth/acme/certcache: concurrent use of the caching store

A certificate cache is shared: the servers of several hosts use one backing
store, and the goroutines and processes of a host use one local directory and
its lock file.  Here [Get], [Put] and [Delete] of [cache.go] are programs of the
calls they make ([Interleave]); run alone they are the definitions of
[CertCache].  A call of the backing store is atomic.  A call of the local cache
is not: it has a start and an end, and when a conflicting call is in progress at
the same time it may return anything and leave anything.  What makes it safe is
the lock, and nothing else. *)

From S2P Require Import Prelude Interleave GoStrings GoErrors CertCache.

(** ** Calls *)

Inductive access := AGet (name : string) | APut (name data : string) | ADelete (name : string).

Definition areply (a : access) : Type := match a with AGet _ => res string | _ => option error end.

Inductive call :=
| CMetric (name operation : string)
| CLock (write : bool) (fails : option error)
| CUnlock
| CLocalStart (a : access)
| CLocal (a : access)
| CBack (a : access).

Definition reply (c : call) : Type :=
  match c with
  | CMetric _ _ | CUnlock | CLocalStart _ => unit
  | CLock _ _ => option error
  | CLocal a | CBack a => areply a
  end.

Abbreviation cprog := (prog reply) (only parsing).

Definition metric (name operation : string) : cprog unit := Interleave.call (CMetric name operation).
Definition lock (fails : bool -> option error) (write : bool) : cprog (option error) :=
  Interleave.call (CLock write (fails write) : call).
Definition unlock : cprog unit := Interleave.call CUnlock.
Definition local (a : access) : cprog (areply a) := Do (CLocalStart a) (fun _ => Do (CLocal a) Done).
Definition backing (a : access) : cprog (areply a) := Do (CBack a) Done.

Section programs.
Variable NewM : error -> error -> error.
(** Whether acquiring the lock, for writing or for reading, fails in this call; an
    operation acquires it at most once. *)
Variable fails : bool -> option error.

(** [defer unlock()] runs when the function returns. *)
Definition Delete_prog (dc : CachingStore) (name : string) : cprog (option error) :=
  if readonly (opts dc) then
    Done (Some (Errorf "webauth/acme/certcache: delete %q: %w" [name] [Sentinel ErrReadonlyCache]))
  else
    _ ← metric name "delete";
    if negb (IsLocalName name (allowRSAKeys (opts dc))) then
      _ ← metric name "delete-backing";
      e ← backing (ADelete name);
      Done (match e with
            | Some err => Some (Errorf "webauth/acme/certcache: delete %q: %w" [name] [NewM err (Sentinel ErrBackingOperation)])
            | None => None
            end)
    else
      acquired ← lock fails true;
      match acquired with
      | Some err =>
          Done (Some (NewM (Errorf "webauth/acme/certcache: delete %q: lock acquisition failed: %w" [name] [err])
                        (Sentinel ErrLockFailed)))
      | None =>
          e ← local (ADelete name);
          _ ← unlock;
          Done (match e with
                | Some err => Some (Errorf "webauth/acme/certcache: delete %q: %w" [name] [NewM err (Sentinel ErrLocalOperation)])
                | None => None
                end)
      end.

Definition Get_prog (dc : CachingStore) (name : string) : cprog (res string) :=
  _ ← metric name "get";
  let '(bname, back) := useBackingStore dc name in
  if (back : bool) then
    _ ← metric bname "get-backing";
    r ← backing (AGet bname);
    Done (match r with
          | Err err =>
              let err := translateCacheMiss err in
              if is_sentinel err ErrCacheMiss then Err (Sentinel ErrCacheMiss)
              else Err (Errorf "webauth/acme/certcache: get %q: backing store name %q: %w" [name; bname]
                          [NewM err (Sentinel ErrBackingOperation)])
          | Ok data => Ok data
          end)
  else
    acquired ← (if readonly (opts dc) then lock fails false else lock fails true);
    match acquired with
    | Some err =>
        Done (Err (NewM (Errorf "webauth/acme/certcache: get lock acquisition failed: %w" [] [err]) (Sentinel ErrLockFailed)))
    | None =>
        r ← local (AGet name);
        _ ← unlock;
        Done (match r with
              | Err err =>
                  let err := translateCacheMiss err in
                  if is_sentinel err ErrCacheMiss then Err (Sentinel ErrCacheMiss)
                  else Err (Errorf "webauth/acme/certcache: get %q: %w" [name] [NewM err (Sentinel ErrLocalOperation)])
              | Ok data => Ok data
              end)
    end.

Definition Put_prog (dc : CachingStore) (name data : string) : cprog (option error) :=
  _ ← metric name "put";
  if negb (isRSAKeyAllowed dc name) then
    Done (Some (Errorf "put %q: %w" [name] [NewM (errors_New "RSA keys are not enabled") (Sentinel ErrBackingOperation)]))
  else if readonly (opts dc) then
    Done (Some (Errorf "put %q: %w" [name] [Sentinel ErrReadonlyCache]))
  else
    let '(bname, back) := useBackingStore dc name in
    if (back : bool) then
      _ ← metric bname "put-backing";
      e ← backing (APut bname data);
      Done (match e with
            | Some err => Some (Errorf "put %q, backing store name: %q: %w" [name; bname] [NewM err (Sentinel ErrBackingOperation)])
            | None => None
            end)
    else
      acquired ← lock fails true;
      match acquired with
      | Some err =>
          Done (Some (NewM (Errorf "webauth/acme/certcache: put lock acquisition failed: %w" [] [err]) (Sentinel ErrLockFailed)))
      | None =>
          e ← local (APut name data);
          _ ← unlock;
          Done (match e with
                | Some err => Some (Errorf "put %q: %w" [name] [NewM err (Sentinel ErrLocalOperation)])
                | None => None
                end)
      end.

End programs.

(** A call of an operation, with the outcome of the lock in it. *)
Definition cjob : Type := (bool -> option error) * op.

Definition op_prog (NewM : error -> error -> error) (dc : CachingStore) (j : cjob) : cprog out :=
  match j.2 with
  | OGet n => r ← Get_prog NewM j.1 dc n; Done (OData r)
  | OPut n d => e ← Put_prog NewM j.1 dc n d; Done (OError e)
  | ODelete n => e ← Delete_prog NewM j.1 dc n; Done (OError e)
  end.

(** The store as such a call finds it. *)
Definition at_call (dc : CachingStore) (fails : bool -> option error) : CachingStore :=
  mkStore (fun _ => fails true) (fun _ => fails false) (opts dc).

Section semantics.
Context {L B : Type} `{Cache L} `{StoreFS B}.
Abbreviation W := (world (L:=L) (B:=B)).

Definition local_access (a : access) (l : L) : areply a * L :=
  match a with
  | AGet n => (cache_get l n, l)
  | APut n d => let '(l', e) := cache_put l n d in (e, l')
  | ADelete n => let '(l', e) := cache_delete l n in (e, l')
  end.

Definition back_access (a : access) (b : B) : areply a * B :=
  match a with
  | AGet n => (read_file b n, b)
  | APut n d => let '(b', e) := write_file b n d in (e, b')
  | ADelete n => let '(b', e) := delete_file b n in (e, b')
  end.

Definition local_event (a : access) : event :=
  match a with AGet n => EvLocalGet n | APut n _ => EvLocalPut n | ADelete n => EvLocalDelete n end.
Definition back_event (a : access) : event :=
  match a with AGet n => EvBackGet n | APut n _ => EvBackPut n | ADelete n => EvBackDelete n end.

(** *** One operation at a time, as in [CertCache] *)
Definition serve (c : call) (w : W) : reply c * W :=
  match c with
  | CMetric n o => (tt, log [EvMetric n o] w)
  | CLock wr (Some e) => (Some e, w)
  | CLock wr None => (None, log [if wr then EvLock else EvRLock] w)
  | CUnlock => (tt, log [EvUnlock] w)
  | CLocalStart a => (tt, log [local_event a] w)
  | CLocal a => let '(r, l) := local_access a (localCache w) in (r, mkWorld l (backingStore w) (trace w))
  | CBack a =>
      let w := log [back_event a] w in
      let '(r, b) := back_access a (backingStore w) in (r, mkWorld (localCache w) b (trace w))
  end.

(** *** The stores alone *)
Definition serve_stores (c : call) (v : L * B) : reply c * (L * B) :=
  match c with
  | CMetric _ _ | CUnlock | CLocalStart _ => (tt, v)
  | CLock _ e => (e, v)
  | CLocal a => let '(r, l) := local_access a v.1 in (r, (l, v.2))
  | CBack a => let '(r, b) := back_access a v.2 in (r, (v.1, b))
  end.

(** *** Shared use *)

(** Who holds the lock file, and whether for writing; the accesses of the local
    cache that are in progress, and whether a conflicting one has been at the same
    time. *)
Record cstate := mkCState { holders : gmap nat bool; in_use : gmap nat (access * bool); c_local : L; c_back : B }.

Definition available (write : bool) (hs : gmap nat bool) : bool :=
  if write then bool_decide (hs = ∅) else bool_decide (map_Forall (fun _ b => b = false) hs).

(** Two accesses conflict unless both read. *)
Definition is_read (a : access) : bool := match a with AGet _ => true | _ => false end.
Definition conflict (a a' : access) : bool := negb (is_read a && is_read a').

(** What an access does that overlaps with a conflicting one: anything. *)
Variable torn : forall a : access, L -> areply a * L.

Definition start_access (i : nat) (a : access) (us : gmap nat (access * bool)) : gmap nat (access * bool) :=
  <[i := (a, bool_decide (map_Exists (fun _ u => conflict a u.1 = true) us))]>
    ((fun u => (u.1, u.2 || conflict a u.1)) <$> us).

Definition end_access (i : nat) (a : access) (s : cstate) : areply a * L :=
  match in_use s !! i with
  | Some (_, false) => local_access a (c_local s)
  | _ => torn a (c_local s)
  end.

(** The lock file admits any number of readers or one writer; an acquisition
    that does not fail waits until it is available. *)
Definition cexec (i : nat) (c : call) (s : cstate) : option (reply c * cstate) :=
  match c with
  | CMetric _ _ => Some (tt, s)
  | CLock _ (Some e) => Some (Some e, s)
  | CLock wr None =>
      if available wr (holders s) then Some (None, mkCState (<[i := wr]> (holders s)) (in_use s) (c_local s) (c_back s)) else None
  | CUnlock => Some (tt, mkCState (delete i (holders s)) (in_use s) (c_local s) (c_back s))
  | CLocalStart a => Some (tt, mkCState (holders s) (start_access i a (in_use s)) (c_local s) (c_back s))
  | CLocal a =>
      let '(r, l) := end_access i a s in Some (r, mkCState (holders s) (delete i (in_use s)) l (c_back s))
  | CBack a => let '(r, b) := back_access a (c_back s) in Some (r, mkCState (holders s) (in_use s) (c_local s) b)
  end.

(** An operation takes effect when it accesses a store. *)
Definition commits (c : call) : bool := match c with CLocal _ | CBack _ => true | _ => false end.

Definition stores (s : cstate) : L * B := (c_local s, c_back s).
Definition world_stores (w : W) : L * B := (localCache w, backingStore w).

Variable NewM : error -> error -> error.

(** ** The programs are the operations of [CertCache] *)

Ltac prog_cases :=
  repeat (case_match; simplify_eq/=); try done;
  unfold log; simpl; rewrite <- ?app_assoc; try done.

Lemma Get_prog_run dc fails n (w : W) : run serve (Get_prog NewM fails dc n) w = Get NewM (at_call dc fails) n w.
Proof.
  unfold Get_prog, Get. change (useBackingStore (at_call dc fails) n) with (useBackingStore dc n).
  destruct (useBackingStore dc n) as [b [|]] eqn:E; simpl; [prog_cases|].
  destruct (readonly (opts dc)); simpl; prog_cases.
Qed.

Lemma Put_prog_run dc fails n d (w : W) : run serve (Put_prog NewM fails dc n d) w = Put NewM (at_call dc fails) n d w.
Proof.
  unfold Put_prog, Put. change (isRSAKeyAllowed (at_call dc fails) n) with (isRSAKeyAllowed dc n).
  change (useBackingStore (at_call dc fails) n) with (useBackingStore dc n). simpl.
  destruct (negb _); [done|]. destruct (readonly (opts dc)); [done|].
  destruct (useBackingStore dc n) as [b [|]] eqn:E; simpl; prog_cases.
Qed.

Lemma Delete_prog_run dc fails n (w : W) : run serve (Delete_prog NewM fails dc n) w = Delete NewM (at_call dc fails) n w.
Proof.
  unfold Delete_prog, Delete. simpl. destruct (readonly (opts dc)); [done|]. simpl. destruct (negb _); simpl; prog_cases.
Qed.

(** A call of an operation of [CertCache] with its result, on the stores. *)
Definition op_on_stores (dc : CachingStore) (j : cjob) (v : L * B) : out * (L * B) :=
  let '(r, w) := do_op NewM (at_call dc j.1) j.2 (mkWorld v.1 v.2 []) in (r, world_stores w).

Lemma op_prog_run dc j v : run serve_stores (op_prog NewM dc j) v = op_on_stores dc j v.
Proof.
  assert (Hv : forall c (w : W), serve_stores c (world_stores w) = ((serve c w).1, world_stores (serve c w).2)).
  { intros c w. destruct c; simpl; unfold world_stores; simpl; [done|by destruct fails|done|done| |];
      by destruct a; simpl; repeat case_match. }
  destruct v as [l b]. rewrite (run_view serve serve_stores world_stores Hv _ (mkWorld l b [])).
  unfold op_prog, op_on_stores, do_op. destruct j as [fails [n|n d|n]]; cbn [fst snd]; unfold mbind, prog_mbind; rewrite run_bind.
  - rewrite Get_prog_run. simpl. by destruct (Get NewM _ n _).
  - rewrite Put_prog_run. simpl. by destruct (Put NewM _ n d _).
  - rewrite Delete_prog_run. simpl. by destruct (Delete NewM _ n _).
Qed.

(** ** The shape of the programs *)

(** What the lock must be held for to make an access. *)
Definition held_for (held : option bool) (a : access) : Prop :=
  held <> None /\ (is_read a = false -> held = Some true).

(** A program that uses the lock properly, from a state in which it holds it (for
    writing or for reading) or not, and is in the middle of an access or not: it
    acquires the lock when it does not hold it, accesses the local cache only while
    it does, for writing if it changes it, uses the backing store only when it does
    not, ends an access before it does anything else, and returns without the lock. *)
Fixpoint locked {A} (held : option bool) (use : option access) (p : cprog A) : Prop :=
  match p with
  | Done _ => held = None /\ use = None
  | Do c k =>
      match c return (reply c -> cprog A) -> (forall r : reply c, option bool -> option access -> Prop) -> Prop with
      | CMetric _ _ => fun _ next => use = None /\ forall r, next r held None
      | CLock wr _ => fun _ next => (held = None /\ use = None) /\ (forall e, next (Some e) None None) /\ next None (Some wr) None
      | CUnlock => fun _ next => (held <> None /\ use = None) /\ next tt None None
      | CLocalStart a => fun _ next => (held_for held a /\ use = None) /\ next tt held (Some a)
      | CLocal a => fun _ next => (held_for held a /\ use = Some a) /\ forall r, next r held None
      | CBack _ => fun _ next => (held = None /\ use = None) /\ forall r, next r held None
      end k (fun r held use => locked held use (k r))
  end.

(** Walk through the branches of an operation. *)
Ltac shape_cases :=
  unfold op_prog, Get_prog, Put_prog, Delete_prog; simpl;
  repeat first
    [ done | progress simpl | progress unfold held_for | split | intros [?|] | intros ?
    | match goal with
      | |- context [useBackingStore ?dc ?n] => destruct (useBackingStore dc n) as [? [|]]
      | |- context [readonly ?o] => destruct (readonly o)
      | |- context [if negb ?b then _ else _] => destruct (negb b)
      end ].

Lemma op_prog_locked dc j : locked None None (op_prog NewM dc j).
Proof. destruct j as [fails []]; shape_cases. Qed.

Lemma op_prog_once dc j : once commits false (op_prog NewM dc j).
Proof. destruct j as [fails []]; shape_cases. Qed.

(** No operation makes more than five calls. *)
Lemma op_prog_bounded dc j : bounded 5 (op_prog NewM dc j).
Proof. destruct j as [fails []]; shape_cases. Qed.

(** ** Shared use of the stores *)
Variable dcs : nat -> CachingStore.

Abbreviation cconf := (conf reply cstate cjob out).
Abbreviation crun := (run_schedule cexec (fun i => op_prog NewM (dcs i)) commits).
Abbreviation cstep := (step cexec (fun i => op_prog NewM (dcs i)) commits).

(** No access in progress has met a conflicting one, each holds the lock as it
    needs to, and a writer is alone. *)
Definition locks_ok (s : cstate) : Prop :=
  (forall i a b, in_use s !! i = Some (a, b) -> b = false /\ held_for (holders s !! i) a) /\
  (forall i j, holders s !! i = Some true -> i <> j -> holders s !! j = None).

(** Whether a thread holds the lock and is in the middle of an access is what its
    program needs. *)
Definition thread_locked (s : cstate) (i : nat) (t : thread reply cjob out) : Prop :=
  match cur t with
  | None => holders s !! i = None /\ in_use s !! i = None
  | Some (_, _, p) => locked (holders s !! i) (fst <$> in_use s !! i) p
  end.

Definition lock_inv (c : cconf) : Prop :=
  (forall i t, pool c !! i = Some t -> thread_locked (Interleave.shared c) i t) /\
  (forall i, is_Some (holders (Interleave.shared c) !! i) -> is_Some (pool c !! i)) /\
  locks_ok (Interleave.shared c).

(** An access that holds the lock as it needs to meets no conflicting one. *)
Lemma start_no_conflict i a (s : cstate) :
  locks_ok s -> held_for (holders s !! i) a -> in_use s !! i = None -> start_access i a (in_use s) = <[i := (a, false)]> (in_use s).
Proof.
  intros [HU HM] [Hh Hw] Hi.
  assert (Hno : forall j u, in_use s !! j = Some u -> conflict a u.1 = false).
  { intros j [a' b] Hj. destruct (HU _ _ _ Hj) as [_ [Hh' Hw']]. assert (Hne : i <> j) by (intros ->; congruence).
    unfold conflict. simpl. destruct (is_read a) eqn:Ea; [destruct (is_read a') eqn:Ea'|]; [done|exfalso..].
    - apply Hh. apply (HM j); [by apply Hw'|done].
    - apply Hh'. apply (HM i); [by apply Hw|done]. }
  unfold start_access. rewrite bool_decide_false by (intros (j & u & Hj & Hc); by rewrite (Hno j u) in Hc). f_equal.
  apply map_eq. intros j. rewrite lookup_fmap. destruct (in_use s !! j) as [[a' b]|] eqn:E; [|done].
  simpl. rewrite (Hno _ _ E : conflict a a' = false). by rewrite orb_false_r.
Qed.

(** What a call does to the lock and to the accesses, and what it leaves to the
    program. *)
Lemma cexec_locked i cl {A} (k : reply cl -> cprog A) (s s' : cstate) r :
  cexec i cl s = Some (r, s') -> locks_ok s -> locked (holders s !! i) (fst <$> in_use s !! i) (Do cl k) ->
  locked (holders s' !! i) (fst <$> in_use s' !! i) (k r) /\ locks_ok s' /\
  (forall j, i <> j -> holders s' !! j = holders s !! j /\ in_use s' !! j = in_use s !! j).
Proof.
  intros Hex Hok. destruct cl as [n o|wr [e|]| |a|a|a]; simpl in Hex |- *.
  - injection Hex as <- <-. intros [Hu Hl]. rewrite Hu in *. split_and!; auto.
  - injection Hex as <- <-. intros ([-> ->] & Hl & _). split_and!; auto.
  - destruct (available wr (holders s)) eqn:Ha; [|done]. injection Hex as <- <-. simpl. intros ([Hh Hu] & _ & Hl).
    rewrite lookup_insert_eq, Hu. split_and!; [done| |by intros; rewrite lookup_insert_ne].
    destruct Hok as [HU HM]. apply fmap_None in Hu. split; simpl.
    + intros j a b Hj. destruct (HU _ _ _ Hj) as [? Hf]. split; [done|]. rewrite lookup_insert_ne by (intros ->; congruence). done.
    + intros j1 j2 H1 Hne. apply lookup_insert_Some in H1 as [[<- ->]|[N1 H1]].
      * apply bool_decide_eq_true in Ha. by rewrite Ha, lookup_insert_ne.
      * destruct wr; [apply bool_decide_eq_true in Ha; by rewrite Ha in H1|].
        apply bool_decide_eq_true in Ha. by apply Ha in H1.
  - injection Hex as <- <-. simpl. intros ([Hh Hu] & Hl). rewrite lookup_delete_eq, Hu. split_and!; [done| |by intros; rewrite lookup_delete_ne].
    destruct Hok as [HU HM]. apply fmap_None in Hu. split; simpl.
    + intros j a b Hj. destruct (HU _ _ _ Hj) as [? Hf]. split; [done|]. rewrite lookup_delete_ne by (intros ->; congruence). done.
    + intros j1 j2 [_ H1]%lookup_delete_Some Hne. apply lookup_delete_None. right. eauto.
  - injection Hex as <- <-. simpl. intros ([Hh Hu] & Hl). apply fmap_None in Hu.
    rewrite start_no_conflict by done. rewrite lookup_insert_eq. split_and!; [done| |by intros; rewrite lookup_insert_ne].
    destruct Hok as [HU HM]. split; simpl; [|done]. intros j a' b Hj.
    apply lookup_insert_Some in Hj as [[<- [= <- <-]]|[_ Hj]]; eauto.
  - destruct (end_access i a s) as [r' l]. injection Hex as <- <-. simpl. intros ([Hh Hu] & Hl).
    rewrite lookup_delete_eq. split_and!; [apply Hl| |by intros; rewrite lookup_delete_ne].
    destruct Hok as [HU HM]. split; simpl; [|done]. intros j a' b [_ Hj]%lookup_delete_Some. eauto.
  - destruct (back_access a (c_back s)) as [r' b]. injection Hex as <- <-. simpl. intros ([Hh Hu] & Hl).
    rewrite Hh, Hu in *. split_and!; auto.
Qed.

Lemma insert_pool (c : cconf) i t' j t : <[i := t']> (pool c) !! j = Some t -> i = j /\ t = t' \/ i <> j /\ pool c !! j = Some t.
Proof.
  destruct (decide (i = j)) as [<-|Hne].
  - intros Hl. left. apply list_lookup_insert_Some in Hl as [(_ & -> & _)|[? _]]; done.
  - rewrite list_lookup_insert_ne by done. auto.
Qed.

Lemma lock_inv_step i (c c' : cconf) : lock_inv c -> cstep i c = Some c' -> lock_inv c'.
Proof.
  intros (HT & HD & HM) Hs%step_inv.
  destruct Hs as [j js Hi|js j b o Hi|js j b cl k r s Hi Hex]; assert (Hti := HT _ _ Hi); unfold thread_locked in Hti; simpl in Hti.
  - split_and!; simpl; [|intros i' Hi'; rewrite list_lookup_insert_is_Some; naive_solver|done].
    intros i' t [(<- & ->)|[Hne Ht]]%insert_pool; [|by apply HT]. unfold thread_locked. simpl. destruct Hti as [-> ->]. apply op_prog_locked.
  - split_and!; simpl; [|intros i' Hi'; rewrite list_lookup_insert_is_Some; naive_solver|done].
    intros i' t [(<- & ->)|[Hne Ht]]%insert_pool; [|by apply HT]. destruct Hti as [Hh Hu%fmap_None]. done.
  - destruct (cexec_locked i cl k _ _ _ Hex HM Hti) as (Hk & Hok & Ho). split_and!; simpl; [| |done].
    + intros i' t [(<- & ->)|[Hne Ht]]%insert_pool; [done|]. apply HT in Ht. unfold thread_locked in *.
      destruct (Ho i' Hne) as [-> ->]. done.
    + intros i' Hi'. rewrite list_lookup_insert_is_Some. destruct (decide (i = i')) as [<-|Hne]; [eauto|].
      destruct (Ho i' Hne) as [E _]. rewrite E in Hi'. auto.
Qed.

Lemma lock_inv_reachable sched l b jobs (c : cconf) :
  crun sched (init (mkCState ∅ ∅ l b) jobs) = Some c -> lock_inv c.
Proof.
  apply (run_schedule_inv _ _ _ lock_inv).
  - intros i c1 c2. apply lock_inv_step.
  - split_and!; simpl; [|by intros i [? ?]|by split]. intros i t Ht.
    rewrite list_lookup_fmap in Ht. by destruct (jobs !! i); simplify_eq/=.
Qed.

(** A call other than an acquisition of the lock never blocks. *)
Lemma locked_runs i (c : cconf) js j b p wr use :
  pool c !! i = Some (mkThread js (Some (j, b, p))) -> locked (Some wr) use p -> is_Some (cstep i c).
Proof.
  intros Hi. unfold step. rewrite Hi. simpl. destruct p as [o|cl k]; [by intros [? _]|].
  destruct cl as [n o|wr' [e|]| |a|a|a]; simpl; [eauto|by intros [[? _] _]|by intros [[? _] _]|eauto|eauto| |].
  - destruct (end_access _ _ _). eauto.
  - destruct (back_access a _). eauto.
Qed.

Lemma lock_inv_progress (c : cconf) : lock_inv c -> Forall finished (pool c) \/ exists i, is_Some (cstep i c).
Proof.
  intros (HT & HD & HM).
  assert (Hh : forall j w, holders (Interleave.shared c) !! j = Some w -> is_Some (cstep j c)).
  { intros j w Hj. destruct (HD j) as [[js cu] Ht]; [eauto|]. specialize (HT _ _ Ht). unfold thread_locked in HT. simpl in HT.
    destruct cu as [[[j' b] p]|]; [|destruct HT; congruence]. rewrite Hj in HT. eauto using locked_runs. }
  assert (Ht : forall i t, pool c !! i = Some t -> finished t \/ exists j, is_Some (cstep j c)).
  { intros i [js cu] Hi. destruct cu as [[[j b] [o|cl k]]|]; [right; exists i; unfold step; rewrite Hi; eauto| |].
    - destruct (cexec i cl (Interleave.shared c)) as [[r s]|] eqn:Ex.
      { right. exists i. unfold step. rewrite Hi. simpl. rewrite Ex. eauto. }
      right. destruct cl as [n o|wr [e|]| |a|a|a]; simpl in Ex; [done|done| |done|done|by destruct (end_access _ _ _)|by destruct (back_access _ _)].
      destruct (available wr _) eqn:Ha; [done|]. clear Ex. unfold available in Ha.
      destruct wr; apply bool_decide_eq_false in Ha.
      + destruct (map_choose _ Ha) as (j' & w & Hj). eauto.
      + apply map_not_Forall in Ha as (j' & w & Hj & _); [|apply _]. eauto.
    - destruct js as [|j js]; [by left|]. right. exists i. unfold step. rewrite Hi. simpl. eauto. }
  clear -Ht. assert (Hall : forall l : list (thread reply cjob out), (forall i t, l !! i = Some t -> finished t \/ exists j, is_Some (cstep j c)) ->
    Forall finished l \/ exists j, is_Some (cstep j c)).
  { induction l as [|t l IH]; intros Hl; [by left|]. destruct (Hl 0 t eq_refl) as [H1|]; [|by right].
    destruct IH as [H2|]; [intros i; apply (Hl (S i))|left; by constructor|by right]. }
  by apply Hall.
Qed.

(** The call that thread [i] makes next; a thread that is about to make the call
    [CLocal a] has started this access of the local cache and not ended it. *)
Definition next_call (c : cconf) (i : nat) : option call :=
  match pool c !! i with
  | Some (mkThread _ (Some (_, _, Do cl _))) => Some cl
  | _ => None
  end.

Lemma next_call_locked (c : cconf) i cl :
  lock_inv c -> next_call c i = Some cl -> exists (k : reply cl -> cprog out) use, locked (holders (Interleave.shared c) !! i) use (Do cl k).
Proof.
  intros (HT & _) Hn. unfold next_call in Hn. destruct (pool c !! i) as [[js [[[j b] [o|cl' k]]|]]|] eqn:E; simplify_eq/=.
  exists k, (fst <$> in_use (Interleave.shared c) !! i). exact (HT _ _ E).
Qed.

Lemma local_holder (c : cconf) i a :
  lock_inv c -> next_call c i = Some (CLocal a) -> held_for (holders (Interleave.shared c) !! i) a.
Proof. intros Hinv Hn. by destruct (next_call_locked _ _ _ Hinv Hn) as (k & use & [Hk _] & _). Qed.

Lemma finished_unlocked (c : cconf) : lock_inv c -> Forall finished (pool c) -> holders (Interleave.shared c) = ∅.
Proof.
  intros (HT & HD & _) HF. apply map_empty. intros i. destruct (holders (Interleave.shared c) !! i) eqn:E; [|done].
  destruct (HD i) as [t Ht]; [eauto|]. rewrite Forall_lookup in HF. destruct (HF _ _ Ht) as [_ Hc].
  specialize (HT _ _ Ht). unfold thread_locked in HT. rewrite Hc in HT. destruct HT. congruence.
Qed.

(** The operations of [CertCache] one after the other, each by the store of its
    thread, with their results. *)
Fixpoint replay_ops (js : list (nat * cjob)) (v : L * B) : list (nat * (cjob * out)) * (L * B) :=
  match js with
  | [] => ([], v)
  | (i, j) :: js' =>
      let '(r, v') := op_on_stores (dcs i) j v in
      let '(rs, v'') := replay_ops js' v' in ((i, (j, r)) :: rs, v'')
  end.

Lemma replay_ops_eq js v : replay (fun i => op_prog NewM (dcs i)) (fun _ => serve_stores) js v = replay_ops js v.
Proof.
  revert v. induction js as [|[i j] js IH]; intros v; [done|]. simpl. rewrite op_prog_run.
  destruct (op_on_stores (dcs i) j v) as [r v']. by rewrite IH.
Qed.

Lemma cexec_other i cl (s : cstate) r (s' : cstate) :
  cexec i cl s = Some (r, s') -> commits cl = false ->
  stores s' = stores s /\ forall v, serve_stores cl v = (r, v).
Proof.
  destruct cl as [n o|wr [e|]| |a|a|a]; simpl; try done; unfold stores; simpl; try (by intros [= <- <-] _).
  destruct (available wr (holders s)); [|done]. by intros [= <- <-] _.
Qed.

Lemma serve_other cl : commits cl = false -> exists r, forall v, serve_stores cl v = (r, v).
Proof. destruct cl; simpl; try done; intros _; by eexists. Qed.

End semantics.

Section no_race.
Context {L B : Type} `{Cache L} `{StoreFS B}.
Variable NewM : error -> error -> error.
Variable dcs : nat -> CachingStore.

(** If no access met a conflicting one, every access is what it is alone. *)
Lemma cexec_commit i cl (s : cstate (L:=L) (B:=B)) r s' :
  cexec local_access i cl s = Some (r, s') -> commits cl = true -> serve_stores cl (stores s) = (r, stores s').
Proof.
  destruct cl; simpl; try done; unfold stores, end_access; simpl.
  - replace (match in_use s !! i with Some (_, false) => _ | _ => _ end) with (local_access a (c_local s)) by (by repeat case_match).
    destruct (local_access a (c_local s)). by intros [= <- <-] _.
  - destruct (back_access a (c_back s)). by intros [= <- <-] _.
Qed.

Lemma step_no_race torn i (c : conf reply (cstate (L:=L) (B:=B)) cjob out) :
  lock_inv c ->
  step (cexec torn) (fun i => op_prog NewM (dcs i)) commits i c =
  step (cexec local_access) (fun i => op_prog NewM (dcs i)) commits i c.
Proof.
  intros (HT & _ & HU & _). unfold step. destruct (pool c !! i) as [[js [[[j b] [o|cl k]]|]]|] eqn:Hi; try done. simpl.
  assert (E : cexec torn i cl (Interleave.shared c) = cexec local_access i cl (Interleave.shared c)); [|by rewrite E].
  specialize (HT _ _ Hi). unfold thread_locked in HT. simpl in HT. destruct cl as [| | | |a|]; try done.
  simpl. destruct HT as [[_ Hu] _]. unfold end_access. destruct (in_use (Interleave.shared c) !! i) as [[a' b']|] eqn:E; [|done].
  by destruct (HU _ _ _ E) as [-> _].
Qed.

(** Runs do not depend on what conflicting accesses would do. *)
Lemma run_no_race torn sched l b jobs (c : conf reply (cstate (L:=L) (B:=B)) cjob out) :
  run_schedule (cexec torn) (fun i => op_prog NewM (dcs i)) commits sched (init (mkCState ∅ ∅ l b) jobs) = Some c ->
  run_schedule (cexec local_access) (fun i => op_prog NewM (dcs i)) commits sched (init (mkCState ∅ ∅ l b) jobs) = Some c.
Proof.
  induction sched as [|i sched IH] using rev_ind in c |- *; [done|]. rewrite !run_schedule_app.
  destruct (run_schedule (cexec torn) _ _ sched _) as [c1|] eqn:E; [|done]. rewrite (IH _ eq_refl). simpl.
  rewrite (step_no_race torn); [done|]. by eapply lock_inv_reachable.
Qed.

End no_race.

(** ** Properties *)

(** C7 The lock makes concurrent use safe and never in the way. Several stores,
    with any options, share one lock file, local cache and backing store, and run
    any operations in any interleaving: while an access of the local cache is in
    progress no conflicting access is (two accesses at a time are both reads), no
    store holds the lock when it calls the backing store, every operation ends
    within seven steps of its own, and the stores never deadlock: some thread can
    go on until all operations have returned, and then the lock is free. *)
Theorem locked_access {L B} `{Cache L} `{StoreFS B} torn NewM dcs sched (l : L) (b : B) jobs (c : conf reply cstate cjob out) :
  run_schedule (cexec torn) (fun i => op_prog NewM (dcs i)) commits sched (init (mkCState ∅ ∅ l b) jobs) = Some c ->
  (forall i j a a', i <> j -> next_call c i = Some (CLocal a) -> next_call c j = Some (CLocal a') ->
     is_read a = true /\ is_read a' = true) /\
  (forall i a, next_call c i = Some (CBack a) -> holders (Interleave.shared c) !! i = None) /\
  length sched <= 7 * sum_list (map length jobs) /\
  (Forall finished (pool c) /\ holders (Interleave.shared c) = ∅ \/
   exists i, is_Some (step (cexec torn) (fun i => op_prog NewM (dcs i)) commits i c)).
Proof.
  intros Hr. assert (Hinv := lock_inv_reachable _ _ _ _ _ _ _ _ Hr). split_and!.
  - intros i j a a' Hne Hi Hj. destruct (local_holder _ _ _ Hinv Hi) as [Ni Wi], (local_holder _ _ _ Hinv Hj) as [Nj Wj].
    destruct Hinv as (_ & _ & _ & HM). split; apply not_false_is_true; intros Hf; [apply Nj|apply Ni]; eauto.
  - intros i a Hn. by destruct (next_call_locked _ _ _ Hinv Hn) as (k & use & [Hk _] & _).
  - apply (schedule_bounded _ _ _ 5 (fun i j => op_prog_bounded NewM (dcs i) j) _ _ _ _ Hr).
  - destruct (lock_inv_progress torn NewM dcs c Hinv); [left|by right]. split; [done|]. by apply finished_unlocked.
Qed.

(** C5 Concurrent use is linearizable, although accesses of the local cache take
    time and conflicting accesses at the same time may do anything ([torn]):
    whatever the interleaving, the stores hold what running the same operations one
    after the other would leave, in the order [lin] of their effects, and every
    operation returned what it returns in that order. The order keeps the program
    order of every thread and only grows as the schedule goes on, so that an
    operation that has returned comes before all that start later; when all have
    returned it contains each of them once. *)
Theorem concurrent_linearizable {L B} `{Cache L} `{StoreFS B} torn NewM dcs sched sched' (l : L) (b : B) jobs
    (c c' : conf reply cstate cjob out) :
  run_schedule (cexec torn) (fun i => op_prog NewM (dcs i)) commits sched (init (mkCState ∅ ∅ l b) jobs) = Some c ->
  run_schedule (cexec torn) (fun i => op_prog NewM (dcs i)) commits sched' c = Some c' ->
  let '(results, v) := replay_ops NewM dcs (lin c) (l, b) in
  stores (Interleave.shared c) = v /\ lin c `prefix_of` lin c' /\
  forall i ops, jobs !! i = Some ops ->
    proj i (returned c) `prefix_of` proj i results /\ length (proj i results) <= length (proj i (returned c)) + 1 /\
    proj i (lin c) `prefix_of` ops /\
    (Forall finished (pool c) -> proj i results = proj i (returned c) /\ proj i (lin c) = ops).
Proof.
  intros Hr%run_no_race Hr'.
  pose proof (linearizable (cexec local_access) (fun i => op_prog NewM (dcs i)) commits stores (fun _ => serve_stores)
    cexec_commit (cexec_other local_access) (fun _ => serve_other) (fun i j => op_prog_once NewM (dcs i) j) sched _ jobs c Hr) as HL.
  unfold stores in HL at 1. simpl in HL. rewrite replay_ops_eq in HL.
  destruct (replay_ops NewM dcs (lin c) (l, b)) as [results v]. destruct HL as [Hv HL].
  split_and!; [done|by eapply run_schedule_lin|done].
Qed.

(** A writer and a read-only store: the reader starts first, and reads after the
    write has returned. *)
Definition demo_stores (i : nat) : CachingStore :=
  mkStore (fun _ => None) (fun _ => None) (apply_options [WithReadonly (Nat.eqb i 1)] zero_options).
(** The lock is acquired whenever it is free. *)
Definition call_of (c : op) : cjob := (fun _ => None, c).
Definition demo_jobs : list (list cjob) :=
  [map call_of [OPut "x+token" "t"; OPut "example.com" "new"]; [call_of (OGet "x+token")]].
(** Conflicting accesses would lose everything. *)
Definition demo_torn (a : access) (l : gmap string string) : areply a * gmap string string :=
  (match a return areply a with AGet _ => Err (errors_New "torn") | _ => None end, ∅).
Definition demo_NewM (a b : error) : error := Joined [a; b].

Definition demo_run (sched : list nat) : option (conf reply (cstate (L:=gmap string string) (B:=gmap string string)) cjob out) :=
  run_schedule (cexec demo_torn) (fun i => op_prog demo_NewM (demo_stores i)) commits sched
    (init (mkCState ∅ ∅ ∅ {["example.com" := "cert"]}) demo_jobs).

(** Thread 1 waits for the lock that thread 0 holds. *)
Definition demo_sched : list nat := [1; 0; 0; 0; 0; 1; 0; 0; 0; 1; 1; 1].
Definition demo_rest : list nat := [1; 1; 0; 0; 0; 0; 0].

(** What is seen of a run. *)
Lemma demo_seen {A} sched c (f : conf reply (cstate (L:=gmap string string) (B:=gmap string string)) cjob out -> A) a :
  demo_run sched = Some c -> f <$> demo_run sched = Some a -> f c = a.
Proof. intros ->. by intros [= ->]. Qed.

(** In the middle of the write of thread 0 the reader cannot acquire the lock. *)
Lemma locked_access_witness :
  exists c, demo_run [1; 0; 0; 0; 0; 1] = Some c /\ next_call c 0 = Some (CLocal (APut "x+token" "t")) /\
    step (cexec demo_torn) (fun i => op_prog demo_NewM (demo_stores i)) commits 1 c = None /\
    exists i, is_Some (step (cexec demo_torn) (fun i => op_prog demo_NewM (demo_stores i)) commits i c).
Proof.
  destruct (demo_run [1; 0; 0; 0; 0; 1]) as [c|] eqn:E; [|by vm_compute in E]. exists c.
  destruct (locked_access demo_torn demo_NewM demo_stores _ _ _ _ _ E) as (_ & _ & _ & [[HF _]|Hi]).
  - exfalso. pose proof (demo_seen _ _ (fun c => match pool c !! 0 with Some (mkThread _ (Some _)) => true | _ => false end) true E eq_refl) as Hp.
    simpl in Hp. destruct (pool c !! 0) as [[js [cu|]]|] eqn:E0; try done.
    rewrite Forall_lookup in HF. by destruct (HF _ _ E0).
  - split_and!; [done| | |done].
    + by apply (demo_seen _ _ (fun c => next_call c 0) _ E).
    + pose proof (demo_seen _ _ (fun c => match step (cexec demo_torn) (fun i => op_prog demo_NewM (demo_stores i)) commits 1 c with
        None => true | _ => false end) true E eq_refl) as Hp. simpl in Hp. by destruct (step _ _ _ 1 c).
Defined.

Lemma concurrent_linearizable_witness :
  exists c, demo_run demo_sched = Some c /\
    lin c = [(0, call_of (OPut "x+token" "t")); (1, call_of (OGet "x+token"))] /\
    stores (Interleave.shared c) = ({["x+token" := "t"]}, {["example.com" := "cert"]}) /\
    exists c', demo_run (demo_sched ++ demo_rest) = Some c' /\ lin c `prefix_of` lin c'.
Proof.
  destruct (demo_run demo_sched) as [c|] eqn:E; [|by vm_compute in E].
  destruct (demo_run (demo_sched ++ demo_rest)) as [c'|] eqn:E'; [|by vm_compute in E'].
  assert (Hr : run_schedule (cexec demo_torn) (fun i => op_prog demo_NewM (demo_stores i)) commits demo_rest c = Some c').
  { unfold demo_run in *. rewrite run_schedule_app, E in E'. exact E'. }
  pose proof (concurrent_linearizable demo_torn demo_NewM demo_stores _ _ _ _ _ _ _ E Hr) as HL.
  pose proof (demo_seen _ _ lin [(0, call_of (OPut "x+token" "t")); (1, call_of (OGet "x+token"))] E eq_refl) as Hlin.
  exists c. rewrite Hlin in HL |- *. destruct (replay_ops _ _ _ _) as [results v] eqn:Ev. destruct HL as (Hs & Hp & _).
  split; [reflexivity|]. split; [reflexivity|]. split; [|exists c'; split; [reflexivity|exact Hp]].
  rewrite Hs. apply (f_equal snd) in Ev. simpl snd in Ev at 2. rewrite <- Ev. vm_compute. reflexivity.
Defined.
