(* ===== verification/GoEncoding.v ===== *)
(** * Encodings of the Go standard library

[encoding/hex], [encoding/base64] (the URL alphabet), [strconv.ParseUint], the
integer verbs of [fmt] and the string encoder of [encoding/json], with their
round trips. *)

From S2P Require Import Prelude GoStrings GoErrors.

(** ** Digits *)

Definition byte_of (n : N) : ascii := ascii_of_N n.

(** The digit of value [d] ([d < 36]), letters in lower or upper case. *)
Definition digit_char (upper : bool) (d : N) : ascii :=
  if (d <? 10)%N then byte_of (48 + d) else byte_of ((if upper then 55 else 87) + d).

(** The value of a digit in the sense of [strconv.ParseUint]: both cases. *)
Definition digit_val (c : ascii) : option N :=
  let n := N_of_ascii c in
  if ((48 <=? n) && (n <=? 57))%N then Some (n - 48)%N
  else if ((97 <=? n) && (n <=? 122))%N then Some (n - 87)%N
  else if ((65 <=? n) && (n <=? 90))%N then Some (n - 55)%N
  else None.

(** ** encoding/hex *)

Fixpoint hex_EncodeToString (s : string) : string :=
  match s with
  | EmptyString => ""
  | String c s' =>
      let n := N_of_ascii c in
      String (digit_char false (n / 16)) (String (digit_char false (n mod 16)) (hex_EncodeToString s'))
  end.

Definition hex_val (c : ascii) : option N :=
  match digit_val c with Some d => if (d <? 16)%N then Some d else None | None => None end.

(** [hex.DecodeString]: [None] stands for the errors (an invalid digit or an odd
    length). *)
Fixpoint hex_DecodeString (s : string) : option string :=
  match s with
  | EmptyString => Some ""
  | String _ EmptyString => None
  | String a (String b s') =>
      match hex_val a, hex_val b, hex_DecodeString s' with
      | Some x, Some y, Some r => Some (String (byte_of (16 * x + y)) r)
      | _, _, _ => None
      end
  end.

Lemma hex_digits c :
  hex_val (digit_char false (N_of_ascii c / 16)) = Some (N_of_ascii c / 16)%N /\
  hex_val (digit_char false (N_of_ascii c mod 16)) = Some (N_of_ascii c mod 16)%N.
Proof. destruct c as [[] [] [] [] [] [] [] []]; by vm_compute. Qed.

Lemma hex_roundtrip s : hex_DecodeString (hex_EncodeToString s) = Some s.
Proof.
  induction s as [|c s IH]; [done|]. simpl hex_EncodeToString. cbn [hex_DecodeString].
  destruct (hex_digits c) as [-> ->]. rewrite IH. do 2 f_equal.
  unfold byte_of. rewrite <- N.div_mod by done. apply ascii_N_embedding.
Qed.

(** ** encoding/base64, URL alphabet without padding *)

(** Six bits, most significant first, as the alphabet character. *)
Definition sextet_char (b5 b4 b3 b2 b1 b0 : bool) : ascii :=
  let n := N_of_ascii (Ascii b0 b1 b2 b3 b4 b5 false false) in
  if (n <? 26)%N then byte_of (65 + n)
  else if (n <? 52)%N then byte_of (71 + n)
  else if (n <? 62)%N then byte_of (n - 4)
  else if (n =? 62)%N then "-"%char else "_"%char.

(** The decode map: the six bits of an alphabet character. *)
Definition sextet_val (c : ascii) : option (bool * bool * bool * bool * bool * bool) :=
  let n := N_of_ascii c in
  let v :=
    if ((65 <=? n) && (n <=? 90))%N then Some (n - 65)%N
    else if ((97 <=? n) && (n <=? 122))%N then Some (n - 71)%N
    else if ((48 <=? n) && (n <=? 57))%N then Some (n + 4)%N
    else if (n =? 45)%N then Some 62%N
    else if (n =? 95)%N then Some 63%N else None in
  match v with
  | Some v => match ascii_of_N v with Ascii b0 b1 b2 b3 b4 b5 _ _ => Some (b5, b4, b3, b2, b1, b0) end
  | None => None
  end.

(** [base64.RawURLEncoding.EncodeToString] *)
Fixpoint RawURL_Encode (s : string) : string :=
  match s with
  | EmptyString => ""
  | String (Ascii a0 a1 a2 a3 a4 a5 a6 a7) EmptyString =>
      String (sextet_char a7 a6 a5 a4 a3 a2) (String (sextet_char a1 a0 false false false false) "")
  | String (Ascii a0 a1 a2 a3 a4 a5 a6 a7) (String (Ascii b0 b1 b2 b3 b4 b5 b6 b7) EmptyString) =>
      String (sextet_char a7 a6 a5 a4 a3 a2) (String (sextet_char a1 a0 b7 b6 b5 b4)
        (String (sextet_char b3 b2 b1 b0 false false) ""))
  | String (Ascii a0 a1 a2 a3 a4 a5 a6 a7) (String (Ascii b0 b1 b2 b3 b4 b5 b6 b7)
      (String (Ascii c0 c1 c2 c3 c4 c5 c6 c7) s')) =>
      String (sextet_char a7 a6 a5 a4 a3 a2) (String (sextet_char a1 a0 b7 b6 b5 b4)
        (String (sextet_char b3 b2 b1 b0 c7 c6) (String (sextet_char c5 c4 c3 c2 c1 c0) (RawURL_Encode s'))))
  end.

Definition CorruptInput : error := errors_New "illegal base64 data".

(** One quantum after another, into a destination with [cap] bytes left: a
    character outside the alphabet or a lone trailing character is an error; a
    quantum that does not fit the destination panics. *)
Fixpoint b64_quanta (cap : nat) (s : string) : go (res string) :=
  match s with
  | EmptyString => Ret (Ok "")
  | String w EmptyString => Ret (Err CorruptInput)
  | String w (String x EmptyString) =>
      match sextet_val w, sextet_val x with
      | Some (a7, a6, a5, a4, a3, a2), Some (a1, a0, _, _, _, _) =>
          if Nat.leb 1 cap then Ret (Ok (String (Ascii a0 a1 a2 a3 a4 a5 a6 a7) ""))
          else Panic IndexOutOfRange
      | _, _ => Ret (Err CorruptInput)
      end
  | String w (String x (String y EmptyString)) =>
      match sextet_val w, sextet_val x, sextet_val y with
      | Some (a7, a6, a5, a4, a3, a2), Some (a1, a0, b7, b6, b5, b4), Some (b3, b2, b1, b0, _, _) =>
          if Nat.leb 2 cap then
            Ret (Ok (String (Ascii a0 a1 a2 a3 a4 a5 a6 a7) (String (Ascii b0 b1 b2 b3 b4 b5 b6 b7) "")))
          else Panic IndexOutOfRange
      | _, _, _ => Ret (Err CorruptInput)
      end
  | String w (String x (String y (String z s'))) =>
      match sextet_val w, sextet_val x, sextet_val y, sextet_val z with
      | Some (a7, a6, a5, a4, a3, a2), Some (a1, a0, b7, b6, b5, b4),
        Some (b3, b2, b1, b0, c7, c6), Some (c5, c4, c3, c2, c1, c0) =>
          if Nat.leb 3 cap then
            r ← b64_quanta (cap - 3) s';
            Ret (match r with
                 | Ok t => Ok (String (Ascii a0 a1 a2 a3 a4 a5 a6 a7)
                                 (String (Ascii b0 b1 b2 b3 b4 b5 b6 b7)
                                   (String (Ascii c0 c1 c2 c3 c4 c5 c6 c7) t)))
                 | Err e => Err e
                 end)
          else Panic IndexOutOfRange
      | _, _, _, _ => Ret (Err CorruptInput)
      end
  end.

Fixpoint str_filter (f : ascii -> bool) (s : string) : string :=
  match s with
  | EmptyString => ""
  | String c s' => if f c then String c (str_filter f s') else str_filter f s'
  end.

Definition not_newline (c : ascii) : bool :=
  negb (bool_decide (c = "010"%char) || bool_decide (c = "013"%char)).

(** [base64.RawURLEncoding.Decode(dst, src)] with [len(dst) = cap]: newlines are
    skipped, trailing bits are not checked, and the destination is not checked
    for room. *)
Definition RawURL_Decode (cap : nat) (src : string) : go (res string) :=
  b64_quanta cap (str_filter not_newline src).

Lemma sextet_val_char b5 b4 b3 b2 b1 b0 :
  sextet_val (sextet_char b5 b4 b3 b2 b1 b0) = Some (b5, b4, b3, b2, b1, b0).
Proof. destruct b5, b4, b3, b2, b1, b0; by vm_compute. Qed.

Lemma sextet_char_not_newline b5 b4 b3 b2 b1 b0 : not_newline (sextet_char b5 b4 b3 b2 b1 b0) = true.
Proof. destruct b5, b4, b3, b2, b1, b0; by vm_compute. Qed.

(** Induction in steps of three bytes. *)
Lemma string_ind3 (P : string -> Prop) :
  P "" -> (forall a, P (String a "")) -> (forall a b, P (String a (String b ""))) ->
  (forall a b c s, P s -> P (String a (String b (String c s)))) -> forall s, P s.
Proof.
  intros H0 H1 H2 H3. fix IH 1. intros [|a [|b [|c s]]]; [exact H0 | exact (H1 a) | exact (H2 a b) | apply H3, IH].
Qed.

Lemma RawURL_Encode_filter s : str_filter not_newline (RawURL_Encode s) = RawURL_Encode s.
Proof.
  induction s as [|[]|[] []|[] [] [] s IH] using string_ind3; simpl;
    rewrite ?sextet_char_not_newline; congruence.
Qed.

Lemma b64_roundtrip s cap : (slen s <= cap)%nat -> b64_quanta cap (RawURL_Encode s) = Ret (Ok s).
Proof.
  revert cap. induction s as [|[]|[] []|[] [] [] s IH] using string_ind3; intros cap Hc; [done|..].
  - simpl. rewrite !sextet_val_char. by destruct cap; [simpl in Hc; lia|].
  - simpl. rewrite !sextet_val_char. by destruct cap as [|[]]; [simpl in Hc; lia..|].
  - cbn [RawURL_Encode b64_quanta]. rewrite !sextet_val_char. unfold slen in Hc. simpl in Hc.
    destruct (Nat.leb_spec 3 cap); [|lia]. rewrite IH by (unfold slen; lia). done.
Qed.

Lemma RawURL_roundtrip s cap : (slen s <= cap)%nat -> RawURL_Decode cap (RawURL_Encode s) = Ret (Ok s).
Proof. intros. unfold RawURL_Decode. rewrite RawURL_Encode_filter. by apply b64_roundtrip. Qed.

Lemma RawURL_Encode_inj s1 s2 : RawURL_Encode s1 = RawURL_Encode s2 -> s1 = s2.
Proof.
  intros H. pose proof (RawURL_roundtrip s1 (slen s1 + slen s2) ltac:(lia)) as H1.
  rewrite H, RawURL_roundtrip in H1 by lia. congruence.
Qed.

(** The length of an encoding depends on the length of the data only. *)
Lemma RawURL_Encode_length s :
  slen (RawURL_Encode s) = (4 * (slen s / 3) + match slen s mod 3 with 0 => 0 | r => S r end)%nat.
Proof.
  induction s as [|[]|[] []|[] [] [] s IH] using string_ind3; [done..|].
  cbn [RawURL_Encode]. unfold slen in *. cbn [String.length]. rewrite IH.
  replace (S (S (S (String.length s)))) with (String.length s + 1 * 3)%nat by lia.
  rewrite Nat.div_add, Nat.Div0.mod_add by lia. lia.
Qed.

(** ** strconv.ParseUint and the integer verbs of fmt *)

Fixpoint parse_digits (base : N) (s : string) (acc : N) : option N :=
  match s with
  | EmptyString => Some acc
  | String c s' =>
      match digit_val c with
      | Some d => if (d <? base)%N then parse_digits base s' (acc * base + d)%N else None
      | None => None
      end
  end.

(** [strconv.ParseUint(s, base, bits)] for an explicit base; [None] is an error
    (syntax or range). *)
Definition ParseUint (s : string) (base bits : N) : option N :=
  if bool_decide (s = "") then None
  else match parse_digits base s 0 with
       | Some v => if (v <? 2 ^ bits)%N then Some v else None
       | None => None
       end.

Fixpoint fmt_digits (fuel : nat) (upper : bool) (base n : N) (acc : string) : string :=
  match fuel with
  | O => acc
  | S f =>
      let acc := String (digit_char upper (n mod base)) acc in
      if (n / base =? 0)%N then acc else fmt_digits f upper base (n / base) acc
  end.

(** [%d], [%x], [%X] of a non-negative integer. *)
Definition fmt_uint (upper : bool) (base n : N) : string :=
  fmt_digits (S (N.size_nat n)) upper base n "".

(** Zero padding to a width, as in [%04X] or [%016x]. *)
Fixpoint zeros (n : nat) : string := match n with O => "" | S n' => String "0"%char (zeros n') end.
Definition pad0 (width : nat) (s : string) : string := zeros (width - slen s) +:+ s.

(** Reading back what the integer verbs print. *)
Lemma recursion_forallb (f : N -> bool) n v :
  N.recursion true (fun v b => b && f v) n = true -> (v < n)%N -> f v = true.
Proof.
  induction n as [|n IH] using N.peano_ind; [lia|].
  rewrite N.recursion_succ by (done || solve_proper). intros [Hn Hf]%andb_true_iff Hv.
  destruct (decide (v = n)) as [->|]; [done|]. apply IH; [done|lia].
Qed.

Lemma digit_val_char upper d : (d < 36)%N -> digit_val (digit_char upper d) = Some d.
Proof.
  intros Hd. set (f := fun d => match digit_val (digit_char upper d) with Some x => N.eqb x d | None => false end).
  assert (Hf : f d = true) by (apply (recursion_forallb f 36); [by destruct upper; vm_compute|done]).
  unfold f in Hf. destruct (digit_val (digit_char upper d)); [|done]. by apply N.eqb_eq in Hf as ->.
Qed.

Lemma fmt_digits_S f upper base n acc :
  fmt_digits (S f) upper base n acc =
    if (n / base =? 0)%N then String (digit_char upper (n mod base)) acc
    else fmt_digits f upper base (n / base) (String (digit_char upper (n mod base)) acc).
Proof. done. Qed.

Lemma parse_fmt_digits fuel upper base n acc :
  (2 <= base <= 36)%N -> (n < 2 ^ N.of_nat (S fuel))%N ->
  parse_digits base (fmt_digits (S fuel) upper base n acc) 0 = parse_digits base acc n.
Proof.
  intros Hb. revert n acc. induction fuel as [|f IH]; intros n acc Hn;
    rewrite fmt_digits_S; destruct (N.eqb_spec (n / base) 0) as [H0|H0].
  2:{ exfalso. apply H0, N.div_small. simpl in Hn. lia. }
  3:{ rewrite IH.
      - cbn [parse_digits]. pose proof (N.mod_lt n base). rewrite digit_val_char by lia.
        destruct (N.ltb_spec (n mod base) base); [|lia]. f_equal. rewrite (N.div_mod n base) at 3; lia.
      - replace (N.of_nat (S (S f))) with (N.succ (N.of_nat (S f))) in Hn by lia.
        rewrite N.pow_succ_r' in Hn. apply N.Div0.div_lt_upper_bound.
        eapply N.lt_le_trans; [exact Hn|]. apply N.mul_le_mono_r. lia. }
  all: cbn [parse_digits]; pose proof (N.mod_lt n base); rewrite digit_val_char by lia;
    destruct (N.ltb_spec (n mod base) base); [|lia]; f_equal;
    rewrite (N.div_mod n base) at 2 by lia; rewrite H0; lia.
Qed.

(** The number of bits bounds a number. *)
Lemma size_nat_bound n : (n < 2 ^ N.of_nat (N.size_nat n))%N.
Proof.
  destruct (N.eq_dec n 0) as [->|Hn]; [done|]. pose proof (N.size_gt n) as H.
  replace (N.of_nat (N.size_nat n)) with (N.size n); [done|].
  destruct n as [|p]; [done|]. simpl. clear. induction p; simpl; lia.
Qed.

Lemma parse_fmt_uint upper base n :
  (2 <= base <= 36)%N -> parse_digits base (fmt_uint upper base n) 0 = Some n.
Proof.
  intros Hb. unfold fmt_uint. rewrite parse_fmt_digits; [done..|].
  rewrite Nat2N.inj_succ, N.pow_succ_r'. pose proof (size_nat_bound n). lia.
Qed.

Lemma parse_digits_zeros base k s : (1 <= base)%N -> parse_digits base (zeros k +:+ s) 0 = parse_digits base s 0.
Proof.
  intros Hb. induction k as [|k IH]; [done|].
  cbn [zeros String.append parse_digits]. change (digit_val "0") with (Some 0%N). cbn match.
  destruct (N.ltb_spec 0 base); [exact IH|lia].
Qed.

Lemma ParseUint_pad0_fmt_uint width upper base bits n :
  (2 <= base <= 36)%N -> (n < 2 ^ bits)%N -> ParseUint (pad0 width (fmt_uint upper base n)) base bits = Some n.
Proof.
  intros Hb Hn. unfold ParseUint, pad0. rewrite parse_digits_zeros by lia. rewrite parse_fmt_uint by done.
  destruct (N.ltb_spec n (2 ^ bits)); [|lia]. case_bool_decide as He; [|done]. exfalso.
  assert (Hd : parse_digits base (zeros (width - slen (fmt_uint upper base n)) +:+ fmt_uint upper base n) 1
    = parse_digits base "" 1) by (by rewrite He).
  revert He. destruct (width - _)%nat; [|done]. simpl.
  unfold fmt_uint. cbn [fmt_digits]. case_match; [done|].
  assert (Hne : forall f m acc, acc <> "" -> fmt_digits f upper base m acc <> "").
  { clear. induction f as [|f IH]; intros m acc Ha; simpl; [done|]. case_match; [done|]. by apply IH. }
  by apply Hne.
Qed.

(** [strconv.Itoa] of a length. *)
Definition Itoa (n : nat) : string := fmt_uint false 10 (N.of_nat n).

(** A signed integer in decimal. *)
Definition fmt_int (z : Z) : string :=
  if (z <? 0)%Z then "-" +:+ fmt_uint false 10 (Z.abs_N z) else fmt_uint false 10 (Z.abs_N z).

(** ** encoding/json: string literals *)

Definition DQUOTE : string := String "034"%char "".
Definition BSLASH : string := String "092"%char "".

(** One rune as the default (HTML-escaping) encoder writes it. *)
Definition json_rune (r : N * string) : string :=
  let '(n, enc) := r in
  if (n =? 34)%N then BSLASH +:+ DQUOTE
  else if (n =? 92)%N then BSLASH +:+ BSLASH
  else if (n =? 8)%N then BSLASH +:+ "b"
  else if (n =? 12)%N then BSLASH +:+ "f"
  else if (n =? 10)%N then BSLASH +:+ "n"
  else if (n =? 13)%N then BSLASH +:+ "r"
  else if (n =? 9)%N then BSLASH +:+ "t"
  else if (n <? 32)%N || (n =? 60)%N || (n =? 62)%N || (n =? 38)%N || (n =? 8232)%N || (n =? 8233)%N
       || ((n =? RuneError)%N && Nat.eqb (slen enc) 1)
  then BSLASH +:+ "u" +:+ pad0 4 (fmt_uint false 16 n)
  else enc.

Definition json_string (s : string) : string :=
  DQUOTE +:+ String.concat "" (map json_rune (runes s)) +:+ DQUOTE.
