(* ===== verification/GoNet.v ===== *)
(** * Host and port strings

[net.SplitHostPort] and [net.JoinHostPort], with their round trip. *)

From S2P Require Import Prelude GoStrings GoErrors.

(** [strings.IndexByte] and [strings.LastIndexByte]; [None] is [-1]. *)
Fixpoint IndexByte (s : string) (c : ascii) : option nat :=
  match s with
  | EmptyString => None
  | String x s' => if bool_decide (x = c) then Some 0%nat else S <$> IndexByte s' c
  end.

Fixpoint LastIndexByte (s : string) (c : ascii) : option nat :=
  match s with
  | EmptyString => None
  | String x s' =>
      match LastIndexByte s' c with
      | Some i => Some (S i)
      | None => if bool_decide (x = c) then Some 0%nat else None
      end
  end.

Definition has_byte (s : string) (c : ascii) : bool :=
  match IndexByte s c with Some _ => true | None => false end.

Definition COLON : ascii := ":"%char.
Definition LBRACK : ascii := "["%char.
Definition RBRACK : ascii := "]"%char.

Definition addrErr (addr why : string) : error := Errorf "address %s: %s" [addr; why] [].

(** [s[i:j]] for [i <= j <= len(s)]. *)
Definition slice (s : string) (i j : nat) : string := str_take (j - i) (str_drop i s).

Definition SplitHostPort (hostport : string) : res (string * string) :=
  match LastIndexByte hostport COLON with
  | None => Err (addrErr hostport "missing port in address")
  | Some i =>
      let parts :=
        if bool_decide (String.get 0 hostport = Some LBRACK) then
          match IndexByte hostport RBRACK with
          | None => Err (addrErr hostport "missing ']' in address")
          | Some end_ =>
              if Nat.eqb (S end_) (slen hostport) then Err (addrErr hostport "missing port in address")
              else if Nat.eqb (S end_) i then Ok (slice hostport 1 end_, 1%nat, S end_)
              else if bool_decide (String.get (S end_) hostport = Some COLON)
              then Err (addrErr hostport "too many colons in address")
              else Err (addrErr hostport "missing port in address")
          end
        else if has_byte (str_take i hostport) COLON then Err (addrErr hostport "too many colons in address")
        else Ok (str_take i hostport, 0%nat, 0%nat) in
      match parts with
      | Err e => Err e
      | Ok (host, j, k) =>
          if has_byte (str_drop j hostport) LBRACK then Err (addrErr hostport "unexpected '[' in address")
          else if has_byte (str_drop k hostport) RBRACK then Err (addrErr hostport "unexpected ']' in address")
          else Ok (host, str_drop (S i) hostport)
      end
  end.

Definition JoinHostPort (host port : string) : string :=
  if has_byte host COLON then "[" +:+ host +:+ "]:" +:+ port else host +:+ ":" +:+ port.

(** ** Lemmas *)

Lemma IndexByte_app s t c :
  IndexByte (s +:+ t) c = match IndexByte s c with Some i => Some i | None => Nat.add (slen s) <$> IndexByte t c end.
Proof.
  induction s as [|x s IH]; simpl; [by destruct (IndexByte t c)|]. case_bool_decide; [done|].
  rewrite IH. destruct (IndexByte s c); [done|]. by destruct (IndexByte t c).
Qed.

Lemma LastIndexByte_app s t c :
  LastIndexByte (s +:+ t) c =
    match LastIndexByte t c with Some i => Some (slen s + i)%nat | None => LastIndexByte s c end.
Proof.
  induction s as [|x s IH]; simpl; [by destruct (LastIndexByte t c)|].
  rewrite IH. by destruct (LastIndexByte t c).
Qed.

Lemma LastIndexByte_None s c : has_byte s c = false -> LastIndexByte s c = None.
Proof.
  unfold has_byte. induction s as [|x s IH]; simpl; [done|]. case_bool_decide; [done|].
  destruct (IndexByte s c); [done|]. intros _. by rewrite IH.
Qed.

Lemma IndexByte_None s c : has_byte s c = false -> IndexByte s c = None.
Proof. unfold has_byte. by destruct (IndexByte s c). Qed.

Lemma has_byte_app s t c : has_byte (s +:+ t) c = has_byte s c || has_byte t c.
Proof. unfold has_byte. rewrite IndexByte_app. destruct (IndexByte s c); [done|]. by destruct (IndexByte t c). Qed.

(** A host or port without brackets. *)
Definition no_brackets (s : string) : Prop := has_byte s LBRACK = false /\ has_byte s RBRACK = false.

Lemma str_drop_0 s : str_drop 0 s = s.
Proof. by destruct s. Qed.

Lemma str_drop_add n a b : str_drop (slen a + n) (a +:+ b) = str_drop n b.
Proof. induction a; simpl; auto. Qed.

(** Splitting what was joined. *)
Lemma Split_brackets host port :
  no_brackets host -> no_brackets port -> has_byte port COLON = false ->
  SplitHostPort (String LBRACK (host +:+ String RBRACK (String COLON port))) = Ok (host, port).
Proof.
  intros [Hl Hr] [Pl Pr] Pc. set (hp := String LBRACK (host +:+ String RBRACK (String COLON port))).
  assert (Hlast : LastIndexByte hp COLON = Some (S (S (slen host)))).
  { unfold hp. simpl. rewrite LastIndexByte_app. simpl. rewrite (LastIndexByte_None port COLON Pc). simpl. do 2 f_equal. lia. }
  assert (Hend : IndexByte hp RBRACK = Some (S (slen host))).
  { unfold hp. simpl. rewrite IndexByte_app, (IndexByte_None host RBRACK Hr). simpl. by rewrite Nat.add_0_r. }
  assert (Hlen : slen hp = (3 + slen host + slen port)%nat).
  { unfold hp, slen. simpl. fold (slen (host +:+ String RBRACK (String COLON port))). autorewrite with golib_rw. unfold slen. simpl. lia. }
  assert (Hslice : slice hp 1 (S (slen host)) = host).
  { unfold slice, hp. simpl. rewrite Nat.sub_0_r. apply str_take_app. }
  assert (Hdrop : forall n, str_drop (S (slen host + n)) hp = str_drop n (String RBRACK (String COLON port))).
  { intros n. unfold hp. simpl. apply str_drop_add. }
  assert (H1 : has_byte (str_drop 1 hp) LBRACK = false).
  { unfold hp. simpl. rewrite has_byte_app, Hl. unfold has_byte. simpl. by rewrite (IndexByte_None port LBRACK Pl). }
  assert (H2 : str_drop (S (S (slen host))) hp = String COLON port).
  { replace (S (S (slen host))) with (S (slen host + 1)) by lia. by rewrite Hdrop. }
  assert (H3 : str_drop (S (S (S (slen host)))) hp = port).
  { replace (S (S (S (slen host)))) with (S (slen host + 2)) by lia. by rewrite Hdrop. }
  assert (Hget : String.get 0 hp = Some LBRACK) by done. clearbody hp.
  unfold SplitHostPort. rewrite Hlast, Hget, Hend, Hlen. rewrite bool_decide_true by done.
  destruct (Nat.eqb_spec (S (S (slen host))) (3 + slen host + slen port)); [lia|].
  rewrite Nat.eqb_refl, Hslice, H1, H2, H3. unfold has_byte. simpl. by rewrite (IndexByte_None port RBRACK Pr).
Qed.

Lemma Split_plain host port :
  no_brackets host -> no_brackets port -> has_byte host COLON = false -> has_byte port COLON = false ->
  SplitHostPort (host +:+ String COLON port) = Ok (host, port).
Proof.
  intros [Hl Hr] [Pl Pr] Hc Pc.
  assert (Hb : forall c, c <> COLON -> has_byte host c = false -> has_byte port c = false ->
    has_byte (host +:+ String COLON port) c = false).
  { intros c Hne H1 H2. rewrite has_byte_app, H1. unfold has_byte. simpl. rewrite bool_decide_false by auto.
    by rewrite (IndexByte_None port c H2). }
  assert (Hget : String.get 0 (host +:+ String COLON port) <> Some LBRACK).
  { destruct host as [|x host]; simpl; [done|]. intros [= ->]. unfold has_byte in Hl. simpl in Hl. done. }
  unfold SplitHostPort. rewrite LastIndexByte_app. cbn [LastIndexByte].
  rewrite (LastIndexByte_None port COLON Pc), bool_decide_true by done. rewrite Nat.add_0_r.
  rewrite bool_decide_false by done. rewrite str_take_app, Hc, str_drop_0.
  rewrite !Hb by done. replace (S (slen host)) with (slen host + 1)%nat by lia. by rewrite str_drop_add.
Qed.

Lemma Split_JoinHostPort host port :
  no_brackets host -> no_brackets port -> has_byte port COLON = false ->
  SplitHostPort (JoinHostPort host port) = Ok (host, port).
Proof.
  intros Hh Hp Pc. unfold JoinHostPort. destruct (has_byte host COLON) eqn:Hc.
  - by apply Split_brackets.
  - by apply Split_plain.
Qed.

(** A host without colons and brackets is not a host and a port. *)
Lemma SplitHostPort_no_colon host : has_byte host COLON = false -> exists e, SplitHostPort host = Err e.
Proof. intros Hc. unfold SplitHostPort. rewrite (LastIndexByte_None host COLON Hc). eauto. Qed.
