(* ===== verification/GoHTTP.v ===== *)
(** * net/http

The parts of net/http that the handlers use: headers with canonical keys,
requests and their bodies, cookies, and the server's [ResponseWriter] with its
rule that the first [WriteHeader] (or [Write]) fixes status and headers. *)

From S2P Require Import Prelude GoStrings GoErrors GoURL.

(** ** Headers *)

Abbreviation Header := (gmap string (list string)).

(** The token characters of RFC 7230 ([httpguts.IsTokenRune]). *)
Definition is_token (c : ascii) : bool :=
  let n := N_of_ascii c in
  ((48 <=? n) && (n <=? 57) || (65 <=? n) && (n <=? 90) || (97 <=? n) && (n <=? 122))%N
  || bool_decide (c ∈ String.list_ascii_of_string "!#$%&'*+-.^_`|~").

Fixpoint canon (upper : bool) (s : string) : string :=
  match s with
  | EmptyString => EmptyString
  | String c s' =>
      String (if upper then to_upper c else to_lower c) (canon (bool_decide (c = "-"%char)) s')
  end.

(** [http.CanonicalHeaderKey]: a key with a byte that is not a token byte is
    returned unchanged. *)
Definition CanonicalHeaderKey (s : string) : string :=
  if forallb is_token (String.list_ascii_of_string s) then canon true s else s.

Definition Header_Values (h : Header) (k : string) : list string :=
  default [] (h !! CanonicalHeaderKey k).

Definition Header_Get (h : Header) (k : string) : string :=
  match Header_Values h k with v :: _ => v | [] => "" end.

Definition Header_Set (h : Header) (k v : string) : Header := <[CanonicalHeaderKey k := [v]]> h.

Definition Header_Add (h : Header) (k v : string) : Header :=
  <[CanonicalHeaderKey k := Header_Values h k ++ [v]]> h.

Definition Header_Del (h : Header) (k : string) : Header := delete (CanonicalHeaderKey k) h.

(** ** Status codes *)
Definition StatusOK : Z := 200.
Definition StatusAccepted : Z := 202.
Definition StatusMovedPermanently : Z := 301.
Definition StatusTemporaryRedirect : Z := 307.
Definition StatusBadRequest : Z := 400.
Definition StatusUnauthorized : Z := 401.
Definition StatusForbidden : Z := 403.
Definition StatusNotFound : Z := 404.
Definition StatusMethodNotAllowed : Z := 405.
Definition StatusConflict : Z := 409.
Definition StatusRequestEntityTooLarge : Z := 413.
Definition StatusUnsupportedMediaType : Z := 415.
Definition StatusInternalServerError : Z := 500.

(** ** Cookies *)
Inductive same_site := SameSiteUnset | SameSiteDefaultMode | SameSiteLaxMode | SameSiteStrictMode | SameSiteNoneMode.

(** The fields of [http.Cookie] that the code sets; [Expires] in nanoseconds. *)
Record Cookie := mkCookie {
  ck_Name : string; ck_Value : string; ck_Path : string; ck_Domain : string;
  ck_Expires : option Z; ck_MaxAge : Z;
  ck_Secure : bool; ck_HttpOnly : bool; ck_SameSite : same_site
}.

#[global] Instance same_site_eq_dec : EqDecision same_site.
Proof. solve_decision. Defined.
#[global] Instance Cookie_eq_dec : EqDecision Cookie.
Proof. solve_decision. Defined.

(** ** Requests *)

(** A body to be read: the bytes that arrive and the error that follows them
    ([None] is [io.EOF]). *)
Record Body := mkBody { b_data : string; b_err : option error }.

Record Request := mkReq {
  r_Method : string;
  r_URL : URL;
  r_Host : string;
  r_Header : Header;
  r_Cookies : list (string * string);   (* the parsed Cookie headers *)
  r_RemoteAddr : string;
  r_ContentLength : Z;
  r_Body : option Body;
  r_CtxErr : option error      (* Context().Err() *)
}.

(** A request for a path, with the host of its URL (empty unless it names one) and
    its query. *)
Definition mkRequest (method path urlHost query host : string) (h : Header) (cookies : list (string * string))
    (remoteAddr : string) (length : Z) (body : option Body) (ctxErr : option error) : Request :=
  mkReq method (mkURL "" "" None urlHost path "" false query "" "" false) host h cookies remoteAddr length body ctxErr.

(** [URL.Path], [URL.Host] and [URL.RawQuery]. *)
Definition r_Path (r : Request) : string := u_Path (r_URL r).
Definition r_URLHost (r : Request) : string := u_Host (r_URL r).
Definition r_Query (r : Request) : string := u_RawQuery (r_URL r).

Definition with_body (r : Request) (b : option Body) : Request :=
  mkReq (r_Method r) (r_URL r) (r_Host r) (r_Header r) (r_Cookies r) (r_RemoteAddr r) (r_ContentLength r) b (r_CtxErr r).

(** [io.ReadAll] of a body. *)
Definition ReadAll (b : Body) : res string :=
  match b_err b with Some e => Err e | None => Ok (b_data b) end.

Definition MaxBytesError : string := "*http.MaxBytesError".

(** [http.MaxBytesReader]: a body longer than the limit yields its first [n]
    bytes and then a [*MaxBytesError]; a negative limit counts as zero. *)
Definition MaxBytesReader (b : Body) (n : Z) : Body :=
  let n := Z.to_nat n in
  if Nat.ltb n (slen (b_data b)) then mkBody (str_take n (b_data b)) (Some (Sentinel MaxBytesError)) else b.

(** [Request.Cookie]: the first cookie of that name. *)
Definition Request_Cookie (r : Request) (name : string) : option Cookie :=
  if bool_decide (name = "") then None
  else match list_find (fun p => p.1 = name) (r_Cookies r) with
       | Some (_, (n, v)) => Some (mkCookie n v "" "" None 0 false false SameSiteUnset)
       | None => None
       end.

(** ** The response writer *)

Record rw := mkRW {
  rw_header : Header;                   (* Header(), still mutable *)
  rw_setcookie : list Cookie;           (* the Set-Cookie headers, in order *)
  rw_sent : option (Z * Header * list Cookie);  (* what WriteHeader fixed *)
  rw_info : list Z;                     (* informational responses *)
  rw_body : string;
  rw_panic : bool                       (* WriteHeader panicked on an invalid code *)
}.

Definition new_rw : rw := mkRW ∅ [] None [] "" false.

Definition rw_status (w : rw) : option Z := match rw_sent w with Some (c, _, _) => Some c | None => None end.

Definition on_header (f : Header -> Header) (w : rw) : rw :=
  mkRW (f (rw_header w)) (rw_setcookie w) (rw_sent w) (rw_info w) (rw_body w) (rw_panic w).

Definition rw_Set (k v : string) : rw -> rw := on_header (fun h => Header_Set h k v).
Definition rw_Add (k v : string) : rw -> rw := on_header (fun h => Header_Add h k v).
Definition rw_Del (k : string) : rw -> rw := on_header (fun h => Header_Del h k).

Definition WriteHeader (code : Z) (w : rw) : rw :=
  if rw_panic w then w
  else match rw_sent w with
  | Some _ => w     (* superfluous WriteHeader: logged and ignored *)
  | None =>
      if ((code <? 100) || (999 <? code))%Z then
        mkRW (rw_header w) (rw_setcookie w) None (rw_info w) (rw_body w) true
      else if ((100 <=? code) && (code <=? 199) && negb (code =? 101))%Z then
        mkRW (rw_header w) (rw_setcookie w) None (rw_info w ++ [code]) (rw_body w) false
      else
        mkRW (rw_header w) (rw_setcookie w) (Some (code, rw_header w, rw_setcookie w)) (rw_info w)
          (rw_body w) false
  end.

Definition bodyAllowedForStatus (code : Z) : bool :=
  negb (((100 <=? code) && (code <=? 199)) || (code =? 204) || (code =? 304))%Z.

#[global] Arguments bodyAllowedForStatus : simpl never.

Definition Write (data : string) (w : rw) : rw :=
  let w := match rw_sent w with Some _ => w | None => WriteHeader StatusOK w end in
  match rw_status w with
  | Some c => if negb (rw_panic w) && bodyAllowedForStatus c
              then mkRW (rw_header w) (rw_setcookie w) (rw_sent w) (rw_info w) (rw_body w +:+ data) (rw_panic w)
              else w
  | None => w
  end.

Definition LF : string := String "010"%char "".

(** [http.Error] *)
Definition http_Error (msg : string) (code : Z) (w : rw) : rw :=
  let w := rw_Del "Content-Length" w in
  let w := rw_Set "Content-Type" "text/plain; charset=utf-8" w in
  let w := rw_Set "X-Content-Type-Options" "nosniff" w in
  Write (msg +:+ LF) (WriteHeader code w).

(** [http.NotFound] *)
Definition http_NotFound (w : rw) : rw := http_Error "404 page not found" StatusNotFound w.

(** [http.SetCookie]: a cookie whose name is not a token is dropped. *)
Definition SetCookie (c : Cookie) (w : rw) : rw :=
  if negb (bool_decide (ck_Name c = "")) && forallb is_token (String.list_ascii_of_string (ck_Name c))
  then mkRW (rw_header w) (rw_setcookie w ++ [c]) (rw_sent w) (rw_info w) (rw_body w) (rw_panic w)
  else w.

(** What the server sends once the handler returns: an unwritten response is a
    200 with the current headers. *)
Definition final_status (w : rw) : Z := default StatusOK (rw_status w).
Definition final_header (w : rw) : Header :=
  match rw_sent w with Some (_, h, _) => h | None => rw_header w end.
Definition final_cookies (w : rw) : list Cookie :=
  match rw_sent w with Some (_, _, cs) => cs | None => rw_setcookie w end.

(** ** Lemmas *)

(** A writer that has not written anything yet. *)
Definition fresh (w : rw) : Prop := rw_sent w = None /\ rw_panic w = false /\ rw_body w = "".

Lemma new_rw_fresh : fresh new_rw.
Proof. done. Qed.

Lemma on_header_fresh f w : fresh w -> fresh (on_header f w).
Proof. done. Qed.

Lemma SetCookie_fresh c w : fresh w -> fresh (SetCookie c w).
Proof. unfold SetCookie. by case_match. Qed.

Lemma WriteHeader_fresh code w :
  fresh w -> (200 <= code <= 999)%Z -> 
  WriteHeader code w =
    mkRW (rw_header w) (rw_setcookie w) (Some (code, rw_header w, rw_setcookie w)) (rw_info w) (rw_body w) false.
Proof.
  intros (Hs & Hp & Hb) Hc. unfold WriteHeader. rewrite Hs, Hp.
  destruct (Z.ltb_spec code 100); [lia|]. destruct (Z.ltb_spec 999 code); [lia|]. simpl.
  destruct (Z.leb_spec code 199); [lia|]. by rewrite andb_false_r.
Qed.

Lemma http_Error_fresh msg code w :
  fresh w -> (200 <= code <= 999)%Z -> bodyAllowedForStatus code = true ->
  rw_status (http_Error msg code w) = Some code /\ rw_body (http_Error msg code w) = msg +:+ LF.
Proof.
  intros Hf Hc Hb. unfold http_Error. rewrite WriteHeader_fresh by auto using on_header_fresh.
  unfold Write, rw_status. simpl. rewrite Hb. simpl. by destruct Hf as (_ & _ & ->).
Qed.

Lemma Write_committed d w c h cs :
  rw_sent w = Some (c, h, cs) -> rw_panic w = false -> bodyAllowedForStatus c = true ->
  Write d w = mkRW (rw_header w) (rw_setcookie w) (Some (c, h, cs)) (rw_info w) (rw_body w +:+ d) false.
Proof. intros Hs Hp Hb. unfold Write, rw_status. rewrite Hs. rewrite Hs, Hp, Hb. done. Qed.

(** Once the response is committed nothing changes its status or headers. *)
Lemma Write_sent d w s : rw_sent w = Some s -> rw_sent (Write d w) = Some s.
Proof. intros Hs. unfold Write, rw_status. rewrite Hs. destruct s as [[c h] cs]. rewrite Hs. by case_match. Qed.

Lemma WriteHeader_sent c w s : rw_sent w = Some s -> rw_sent (WriteHeader c w) = Some s.
Proof. intros Hs. unfold WriteHeader. rewrite Hs. by case_match. Qed.

Lemma http_Error_sent msg code w s : rw_sent w = Some s -> rw_sent (http_Error msg code w) = Some s.
Proof. intros. unfold http_Error. by apply Write_sent, WriteHeader_sent. Qed.

#[export] Hint Resolve new_rw_fresh on_header_fresh SetCookie_fresh Write_sent WriteHeader_sent
  http_Error_sent : golib.

Lemma MaxBytesReader_Ok b n s : ReadAll (MaxBytesReader b n) = Ok s -> (Z.of_nat (slen s) <= Z.max n 0)%Z /\ s = b_data b.
Proof.
  unfold ReadAll, MaxBytesReader. destruct (Nat.ltb_spec (Z.to_nat n) (slen (b_data b))); simpl; [done|].
  case_match; [done|]. intros [= <-]. split; [lia|done].
Qed.

Lemma MaxBytesReader_over b n :
  (Z.max n 0 < Z.of_nat (slen (b_data b)))%Z -> ReadAll (MaxBytesReader b n) = Err (Sentinel MaxBytesError).
Proof. intros H. unfold ReadAll, MaxBytesReader. destruct (Nat.ltb_spec (Z.to_nat n) (slen (b_data b))); [done|lia]. Qed.

Lemma Header_Values_Set h k v : Header_Values (Header_Set h k v) k = [v].
Proof. unfold Header_Values, Header_Set. by simplify_map_eq. Qed.

Lemma Header_Get_Set h k v : Header_Get (Header_Set h k v) k = v.
Proof. unfold Header_Get. by rewrite Header_Values_Set. Qed.

Lemma Header_Get_Set_ne h k k' v :
  CanonicalHeaderKey k <> CanonicalHeaderKey k' -> Header_Get (Header_Set h k v) k' = Header_Get h k'.
Proof. intros. unfold Header_Get, Header_Values, Header_Set. by rewrite lookup_insert_ne. Qed.

(** The first write of a response is its 200 header and the body. *)
Lemma Write_fresh d w :
  fresh w ->
  Write d w =
    mkRW (rw_header w) (rw_setcookie w) (Some (StatusOK, rw_header w, rw_setcookie w)) (rw_info w) d false.
Proof.
  intros Hf. unfold Write. rewrite WriteHeader_fresh by (done || (unfold StatusOK; lia)).
  destruct Hf as (-> & _ & ->). done.
Qed.
