(* ===== verification/GoMux.v ===== *)
(** * http.ServeMux

The routing of [net/http] for patterns that are paths without wildcards and
methods: the segments of a pattern are literals, and a pattern that ends in a
slash matches every path below it.  Paths are matched segment by segment,
unescaped, a literal being preferred to a slash at the end of a pattern.  A path
that is not clean, and one that lacks the slash of a pattern, are redirected by
the mux itself; where to and with which status differs between releases and is
left out.  [RequestURI] is not modelled: requests for [*] are not considered. *)

From S2P Require Import Prelude GoStrings GoPath GoErrors GoURL GoHTTP.

(** Matching a path against concrete patterns. *)
Create Rewrite HintDb mux_rw.

Definition slash : ascii := "/"%char.

(** [cleanPath] *)
Definition cleanPath (p : string) : string :=
  if bool_decide (p = "") then "/"
  else
    let p := if HasPrefix p "/" then p else "/" +:+ p in
    let np := Clean p in
    if HasSuffix p "/" && negb (bool_decide (np = "/")) then np +:+ "/" else np.

(** [pathUnescape]: an invalid escape is left as it is. *)
Definition pathUnescape (s : string) : string :=
  match unescape s encodePathSegment with Ok u => u | Err _ => s end.

(** The parts between slashes, the last one being special when it is empty. *)
Fixpoint segs_of {A} (lit : string -> A) (final : A) (l : list string) : list A :=
  match l with
  | [] => []
  | [e] => [if bool_decide (e = "") then final else lit e]
  | e :: l' => lit e :: segs_of lit final l'
  end.

(** The segments [firstSegment] gives one after the other: that of a slash at
    the end of the path is a slash. *)
Definition path_segments (path : string) : list string :=
  if bool_decide (path = "") then [] else segs_of pathUnescape "/" (split_byte slash (str_drop 1 path)).

Inductive pseg := Lit (s : string) | Multi.

#[global] Instance pseg_eq_dec : EqDecision pseg.
Proof. solve_decision. Defined.

(** [parsePattern] of a path. *)
Definition parsePattern (pattern : string) : list pseg :=
  segs_of (fun e => Lit (pathUnescape e)) Multi (split_byte slash (str_drop 1 pattern)).

Section mux.
Context {Handler : Type}.

(** The patterns with their handlers. *)
Abbreviation ServeMux := (list (list pseg * Handler)).

(** [Handle], for each pattern; an invalid one, or a second one for the same
    paths, panics. *)
Fixpoint mux_Handle (patterns : list (string * Handler)) (m : ServeMux) : go ServeMux :=
  match patterns with
  | [] => Ret m
  | (p, h) :: patterns' =>
      if bool_decide (p = "") then Panic (OtherPanic "http: invalid pattern")
      else if bool_decide (parsePattern p ∈ map fst m) then Panic (OtherPanic "pattern conflicts")
      else mux_Handle patterns' (m ++ [(parsePattern p, h)])
  end.

(** A node of the routing tree is the patterns below it, each with what is left
    of it and its registration. *)
Abbreviation tree := (list (list pseg * (list pseg * Handler))).

Definition findChild (s : string) (t : tree) : tree :=
  omap (fun e => match e.1 with
                 | Lit s' :: rest => if bool_decide (s' = s) then Some (rest, e.2) else None
                 | _ => None
                 end) t.

Definition ends (rest : list pseg) (t : tree) : option (list pseg * Handler) :=
  snd <$> List.find (fun e => bool_decide (e.1 = rest)) t.

Fixpoint matchPath (t : tree) (segs : list string) : option (list pseg * Handler) :=
  match segs with
  | [] => ends [] t
  | s :: rest =>
      match matchPath (findChild s t) rest with
      | Some n => Some n
      | None => ends [Multi] t
      end
  end.

Definition match_mux (m : ServeMux) (path : string) : option (list pseg * Handler) :=
  matchPath (map (fun e => (e.1, e)) m) (path_segments path).

Definition exactMatch (n : option (list pseg * Handler)) (path : string) : bool :=
  match n with
  | None => false
  | Some (p, _) =>
      if negb (bool_decide (last p = Some Multi)) then true
      else if negb (bool_decide (path = "")) && negb (HasSuffix path "/") then false
      else Nat.eqb (length p) (Count path "/")
  end.

(** The redirect of [matchOrRedirect] to the path with a slash. *)
Definition slash_redirect (m : ServeMux) (path : string) : bool :=
  negb (exactMatch (match_mux m path) path) && negb (HasSuffix path "/") &&
  exactMatch (match_mux m (path +:+ "/")) (path +:+ "/").

Inductive routed := Served (h : Handler) | MovedByMux | NoHandler.

(** [findHandler] *)
Definition findHandler (m : ServeMux) (req : Request) : routed :=
  let escapedPath := EscapedPath (r_URL req) in
  let connect := bool_decide (r_Method req = "CONNECT") in
  let path := if connect then escapedPath else cleanPath escapedPath in
  if slash_redirect m path then MovedByMux
  else if negb connect && negb (bool_decide (path = escapedPath)) then MovedByMux
  else match match_mux m path with Some (_, h) => Served h | None => NoHandler end.

(** ** Lemmas *)

Lemma matchPath_nil segs : matchPath [] segs = None.
Proof. induction segs as [|s segs IH]; [done|]. simpl. by rewrite IH. Qed.

Lemma findChild_lit s s' rest n t :
  findChild s ((Lit s' :: rest, n) :: t) = if bool_decide (s' = s) then (rest, n) :: findChild s t else findChild s t.
Proof. unfold findChild. simpl. by case_bool_decide. Qed.

Lemma findChild_multi s rest n t : findChild s ((Multi :: rest, n) :: t) = findChild s t.
Proof. done. Qed.

Lemma findChild_nil s : findChild s [] = [].
Proof. done. Qed.

Lemma findChild_done s n t : findChild s (([], n) :: t) = findChild s t.
Proof. done. Qed.

Lemma exactMatch_multi p (h : Handler) path :
  last p = Some Multi -> path <> "" ->
  exactMatch (Some (p, h)) path = HasSuffix path "/" && Nat.eqb (length p) (Count path "/").
Proof. intros Hl Hp. unfold exactMatch. rewrite bool_decide_true, bool_decide_false by done. by destruct (HasSuffix _ _). Qed.

End mux.
#[export] Hint Rewrite @findChild_lit @findChild_multi @findChild_nil @findChild_done @matchPath_nil : mux_rw.
Arguments routed : clear implicits.

Lemma segs_of_snoc {A} (lit : string -> A) final l :
  l <> [] -> last l <> Some "" -> segs_of lit final (l ++ [""]) = segs_of lit final l ++ [final].
Proof.
  induction l as [|e l IH]; [done|]. intros _ Hl. destruct l as [|e' l].
  - simpl in *. by rewrite bool_decide_false by congruence.
  - change (segs_of lit final (e :: (e' :: l) ++ [""]) = (lit e :: segs_of lit final (e' :: l)) ++ [final]).
    cbn [app segs_of]. cbn [app] in IH. f_equal. apply IH; [done|exact Hl].
Qed.

Lemma length_segs_of {A} (lit : string -> A) final l : length (segs_of lit final l) = length l.
Proof. induction l as [|e [|e' l] IH]; try done. cbn [segs_of length] in *. by rewrite IH. Qed.

Lemma path_segments_nil p : path_segments p = [] <-> p = "".
Proof.
  unfold path_segments. case_bool_decide; [done|]. split; [|done]. intros H0%(f_equal length).
  rewrite length_segs_of in H0. pose proof (split_byte_ne slash (str_drop 1 p)). by destruct (split_byte _ _).
Qed.

(** A rooted path has as many segments as slashes. *)
Lemma Count_segments p : Count (String slash p) "/" = length (path_segments (String slash p)).
Proof.
  unfold path_segments. rewrite bool_decide_false by done. rewrite length_segs_of. cbn [str_drop].
  assert (H : S (Count (String slash p) "/") = length (Split (String slash p) "/")) by (by rewrite Split_length).
  change (String slash p) with ("" +:+ "/" +:+ p) in H at 2. rewrite Split_slash, length_app in H.
  rewrite <- (Split_split_byte slash). unfold slash in *. change (length (Split "" "/")) with 1%nat in H. lia.
Qed.

Lemma last_split_byte c p : last (split_byte c p) = Some "" -> p = "" \/ HasSuffix p (String c "") = true.
Proof.
  intros Hl. destruct (split_byte c p) as [|e l] eqn:E using rev_ind; [done|]. clear IHl.
  rewrite last_snoc in Hl. injection Hl as ->. rewrite <- (Join_Split p (String c "")) by done.
  rewrite Split_split_byte, E. destruct l as [|e l]; [by left|right].
  rewrite Join_app by done. apply HasSuffix_spec. by exists (Join (e :: l) (String c "")).
Qed.

(** A slash at the end is one more segment. *)
Lemma path_segments_slash p :
  HasSuffix (String slash p) "/" = false ->
  path_segments (String slash p +:+ "/") = path_segments (String slash p) ++ ["/"].
Proof.
  intros Hs. unfold path_segments. rewrite !bool_decide_false by done. cbn [String.append str_drop].
  change (String.append p "/") with (p +:+ String slash ""). rewrite split_byte_app.
  change (split_byte slash "") with [""]. apply segs_of_snoc; [apply split_byte_ne|].
  intros [->|H]%last_split_byte; [done|]. apply HasSuffix_spec in H as [t ->].
  apply not_true_iff_false in Hs. apply Hs, HasSuffix_spec. by exists (String slash t).
Qed.

Lemma last_segs_of {A} (lit : string -> A) final l : last (segs_of lit final (l ++ [""])) = Some final.
Proof.
  induction l as [|e l IH]; [done|]. cbn [app]. destruct (l ++ [""]) as [|e' l'] eqn:E; [by destruct l|].
  change (segs_of lit final (e :: e' :: l')) with (lit e :: segs_of lit final (e' :: l')).
  rewrite last_cons, IH. done.
Qed.

Lemma last_path_segments p : HasSuffix (String slash p) "/" = true -> last (path_segments (String slash p)) = Some "/".
Proof.
  intros [t Ht]%HasSuffix_spec. unfold path_segments. rewrite bool_decide_false by done. cbn [str_drop].
  destruct t as [|c t]; injection Ht; [by intros ->|]. intros -> _.
  replace (split_byte slash _) with (split_byte slash t ++ [""]) by (symmetry; exact (split_byte_app slash t "")).
  apply last_segs_of.
Qed.
