(* ===== verification/GoRedirect.v ===== *)
(** * http.Redirect

[http.Redirect] of net/http, with the status texts and the escaping it uses. *)

From S2P Require Import Prelude GoStrings GoErrors GoPath GoEncoding GoNet GoURL GoHTTP.

Definition statusTexts : list (Z * string) :=
  [(100, "Continue"); (101, "Switching Protocols"); (102, "Processing"); (103, "Early Hints"); (200, "OK"); (201, "Created");
   (202, "Accepted"); (203, "Non-Authoritative Information"); (204, "No Content"); (205, "Reset Content");
   (206, "Partial Content"); (207, "Multi-Status"); (208, "Already Reported"); (226, "IM Used"); (300, "Multiple Choices");
   (301, "Moved Permanently"); (302, "Found"); (303, "See Other"); (304, "Not Modified"); (305, "Use Proxy");
   (307, "Temporary Redirect"); (308, "Permanent Redirect"); (400, "Bad Request"); (401, "Unauthorized");
   (402, "Payment Required"); (403, "Forbidden"); (404, "Not Found"); (405, "Method Not Allowed"); (406, "Not Acceptable");
   (407, "Proxy Authentication Required"); (408, "Request Timeout"); (409, "Conflict"); (410, "Gone");
   (411, "Length Required"); (412, "Precondition Failed"); (413, "Request Entity Too Large"); (414, "Request URI Too Long");
   (415, "Unsupported Media Type"); (416, "Requested Range Not Satisfiable"); (417, "Expectation Failed");
   (418, "I'm a teapot"); (421, "Misdirected Request"); (422, "Unprocessable Entity"); (423, "Locked");
   (424, "Failed Dependency"); (425, "Too Early"); (426, "Upgrade Required"); (428, "Precondition Required");
   (429, "Too Many Requests"); (431, "Request Header Fields Too Large"); (451, "Unavailable For Legal Reasons");
   (500, "Internal Server Error"); (501, "Not Implemented"); (502, "Bad Gateway"); (503, "Service Unavailable");
   (504, "Gateway Timeout"); (505, "HTTP Version Not Supported"); (506, "Variant Also Negotiates");
   (507, "Insufficient Storage"); (508, "Loop Detected"); (510, "Not Extended");
   (511, "Network Authentication Required")]%Z.

Definition StatusText (code : Z) : string :=
  match List.find (fun x => (x.1 =? code)%Z) statusTexts with Some (_, text) => text | None => "" end.

(** Bytes that are not ASCII, in hexadecimal. *)
Fixpoint hexEscapeNonASCII (s : string) : string :=
  match s with
  | EmptyString => ""
  | String c s' =>
      (if (128 <=? N_of_ascii c)%N then String PERCENT (fmt_uint false 16 (N_of_ascii c)) else String c "") +:+ hexEscapeNonASCII s'
  end.

Definition html_byte (c : ascii) : string :=
  if bool_decide (c = "&"%char) then "&amp;"
  else if bool_decide (c = "<"%char) then "&lt;"
  else if bool_decide (c = ">"%char) then "&gt;"
  else if bool_decide (c = "034"%char) then "&#34;"
  else if bool_decide (c = "'"%char) then "&#39;"
  else String c "".

Fixpoint htmlEscape (s : string) : string :=
  match s with EmptyString => "" | String c s' => html_byte c +:+ htmlEscape s' end.

(** The directory of [path.Split]. *)
Definition split_dir (path : string) : string :=
  match LastIndexByte path "/" with Some i => str_take (S i) path | None => "" end.

(** A target without scheme and host is made an absolute path. *)
Definition redirect_target (ip_literal : string -> bool) (oldpath url : string) : string :=
  match Parse ip_literal url with
  | Ok u =>
      if bool_decide (u_Scheme u = "") && bool_decide (u_Host u = "") then
        let oldpath := if bool_decide (oldpath = "") then "/" else oldpath in
        let url := if HasPrefix url "/" then url else split_dir oldpath +:+ url in
        let '(url, query) := match Cut url "?" with Some (u, q) => (u, "?" +:+ q) | None => (url, "") end in
        let trailing := HasSuffix url "/" in
        let url := Clean url in
        let url := if trailing && negb (HasSuffix url "/") then url +:+ "/" else url in
        url +:+ query
      else url
  | Err _ => url
  end.

Definition http_Redirect (ip_literal : string -> bool) (w : rw) (r : Request) (url : string) (code : Z) : rw :=
  let url := redirect_target ip_literal (r_Path r) url in
  let hadCT := bool_decide (is_Some (rw_header w !! "Content-Type")) in
  let w := rw_Set "Location" (hexEscapeNonASCII url) w in
  let w := if negb hadCT && bool_decide (r_Method r = "GET" \/ r_Method r = "HEAD")
           then rw_Set "Content-Type" "text/html; charset=utf-8" w else w in
  let w := WriteHeader code w in
  if negb hadCT && bool_decide (r_Method r = "GET")
  then Write ("<a href=" +:+ DQUOTE +:+ htmlEscape url +:+ DQUOTE +:+ ">" +:+ StatusText code +:+ "</a>." +:+ LF +:+ LF) w
  else w.

(** ** Lemmas *)

(** A target with a scheme is kept as it is, also when it does not parse. *)
Lemma redirect_absolute ip oldpath sch rest :
  str_forallb letter sch = true -> sch <> "" ->
  redirect_target ip oldpath (sch +:+ String COLON rest) = sch +:+ String COLON rest.
Proof.
  intros Hs Hne. unfold redirect_target. destruct (Parse ip _) as [u|] eqn:EP; [|done].
  rewrite (Parse_scheme _ _ _ _ Hs Hne EP). rewrite bool_decide_false; [done|]. by destruct sch.
Qed.

(** A redirect sends its code and its target. *)
Lemma http_Redirect_fresh ip w r url code :
  fresh w -> (200 <= code <= 999)%Z ->
  let w' := http_Redirect ip w r url code in
  final_status w' = code /\ Header_Get (final_header w') "Location" = hexEscapeNonASCII (redirect_target ip (r_Path r) url).
Proof.
  intros Hf Hc w'. set (loc := hexEscapeNonASCII _).
  assert (Hsent : exists h cs, rw_sent w' = Some (code, h, cs) /\ Header_Get h "Location" = loc).
  { unfold w', http_Redirect. fold loc. set (w1 := rw_Set "Location" loc w).
    set (w2 := if _ : bool then rw_Set "Content-Type" _ w1 else w1).
    assert (H2 : fresh w2 /\ Header_Get (rw_header w2) "Location" = loc).
    { unfold w2, w1. destruct (_ && _); split; try (by repeat apply on_header_fresh); simpl;
        rewrite ?Header_Get_Set_ne by done; apply Header_Get_Set. }
    clearbody w2. destruct H2 as [Hf2 Hl2]. exists (rw_header w2), (rw_setcookie w2). split; [|done].
    assert (Hs : rw_sent (WriteHeader code w2) = Some (code, rw_header w2, rw_setcookie w2)) by (by rewrite WriteHeader_fresh).
    destruct (_ && _); [by apply Write_sent|done]. }
  destruct Hsent as (h & cs & Hs & Hl). unfold final_status, rw_status, final_header. by rewrite Hs.
Qed.

Lemma hexEscape_app a b : hexEscapeNonASCII (a +:+ b) = hexEscapeNonASCII a +:+ hexEscapeNonASCII b.
Proof. induction a as [|c a IH]; [done|]. simpl. rewrite IH. by rewrite app_str_assoc. Qed.

Lemma hexEscape_ascii s : str_forallb ascii_byte s = true -> hexEscapeNonASCII s = s.
Proof.
  unfold str_forallb, ascii_byte. induction s as [|c s IH]; [done|]. simpl. intros [Hc Hs]%andb_true_iff.
  apply N.ltb_lt in Hc. destruct (N.leb_spec 128 (N_of_ascii c)); [lia|]. by rewrite IH.
Qed.
