(* ===== verification/GoHTML.v ===== *)
(** * The escaping of html/template

[html/template] escapes the value of an action for the place it appears in:
[htmlEscaper] for text and [attrEscaper] for a quoted attribute, for values that
are plain strings.  Both replace runes by the same table. *)

From S2P Require Import Prelude GoStrings GoEncoding.

(** [htmlReplacementTable], by rune. *)
Definition htmlReplacement (r : N) : option string :=
  if (r =? 0)%N then Some (String "239" (String "191" (String "189" "")))
  else if (r =? 34)%N then Some "&#34;"
  else if (r =? 38)%N then Some "&amp;"
  else if (r =? 39)%N then Some "&#39;"
  else if (r =? 43)%N then Some "&#43;"
  else if (r =? 60)%N then Some "&lt;"
  else if (r =? 62)%N then Some "&gt;"
  else None.

(** Runes that are not allowed in unquoted attributes. *)
Definition bad_rune (r : N) : bool :=
  ((64976 <=? r) && (r <=? 65007) || (65520 <=? r) && (r <=? 65535))%N.

(** [&#x%x;] *)
Definition numeric (r : N) : string := "&#x" +:+ fmt_uint false 16 r +:+ ";".

(** What one rune and its encoding become. *)
Definition replace_rune (badRunes : bool) (x : N * string) : string :=
  match htmlReplacement x.1 with
  | Some repl => repl
  | None => if negb badRunes && bad_rune x.1 then numeric x.1 else x.2
  end.

Definition htmlReplacer (badRunes : bool) (s : string) : string :=
  String.concat "" (map (replace_rune badRunes) (runes s)).

Definition htmlEscaper (s : string) : string := htmlReplacer true s.
Definition attrEscaper (s : string) : string := htmlReplacer false s.

(** ** Escaped text *)

(** The characters that would end an attribute or start a tag. *)
Definition quote_char : ascii := "034".
Definition lt_char : ascii := "<".
Definition QUOTE : string := String quote_char "".

(** The replacements of the bad runes. *)
Lemma bad_rune_escape r : bad_rune r = true ->
  without lt_char (numeric r) /\ without quote_char (numeric r) /\ slen (numeric r) = 8%nat.
Proof.
  intros Hr.
  assert (Hall : Forall (fun r => without lt_char (numeric r) /\ without quote_char (numeric r) /\ slen (numeric r) = 8%nat)
            (map (fun k => 64976 + N.of_nat k)%N (seq 0 32) ++ map (fun k => 65520 + N.of_nat k)%N (seq 0 16))).
  { apply (bool_decide_unpack _). by vm_compute. }
  rewrite Forall_forall in Hall. apply Hall. rewrite elem_of_app, !list_elem_of_fmap. unfold bad_rune in Hr.
  apply orb_true_iff in Hr as [Hr|Hr]; apply andb_true_iff in Hr as [H1%N.leb_le H2%N.leb_le]; [left|right].
  - exists (N.to_nat (r - 64976)). rewrite elem_of_seq. lia.
  - exists (N.to_nat (r - 65520)). rewrite elem_of_seq. lia.
Qed.

(** What a rune becomes has neither of the two characters, and is longer than its
    encoding when it differs from it. *)
Lemma replace_rune_spec bad x : rune_ok x ->
  without lt_char (replace_rune bad x) /\ without quote_char (replace_rune bad x) /\
  (replace_rune bad x = x.2 \/ (slen x.2 < slen (replace_rune bad x))%nat).
Proof.
  intros Hx. unfold replace_rune. destruct (htmlReplacement x.1) as [repl|] eqn:E.
  - assert (Hlen : slen x.2 = 1%nat).
    { destruct Hx as [(c & -> & _)|(Hr & _)]; [done|]. exfalso. unfold htmlReplacement in E.
      repeat (case_match; [match goal with H : (_ =? _)%N = true |- _ => apply N.eqb_eq in H end; lia|]). done. }
    unfold htmlReplacement in E. repeat case_match; simplify_eq/=; rewrite Hlen;
      (split_and!; [apply (bool_decide_unpack _); by vm_compute..|right; simpl; lia]).
  - destruct (negb bad && bad_rune x.1) eqn:Eb.
    + apply andb_true_iff in Eb as [_ Eb]. destruct (bad_rune_escape _ Eb) as (H1 & H2 & H3). split_and!; [done..|right].
      rewrite H3. destruct Hx as [(c & -> & _)|(_ & Hl & _)]; simpl in *; lia.
    + split_and!; [| |by left].
      all: destruct Hx as [(c & -> & Hc)|(_ & _ & HF)].
      all: try (apply Forall_singleton; intros ->; by vm_compute in E).
      all: eapply Forall_impl; [exact HF|]; intros y Hy ->; by vm_compute in Hy.
Qed.

Lemma htmlReplacer_spec bad s :
  without lt_char (htmlReplacer bad s) /\ without quote_char (htmlReplacer bad s) /\
  (htmlReplacer bad s = s \/ (slen s < slen (htmlReplacer bad s))%nat).
Proof.
  unfold htmlReplacer. generalize (concat_runes_runes s) (runes_ok s). generalize (runes s). intros l <- HF. unfold concat_runes.
  split_and!; [apply without_concat..|].
  1, 2: apply Forall_fmap; eapply Forall_impl; [exact HF|]; intros x Hx; by apply (replace_rune_spec bad) in Hx as (? & ? & _).
  assert (Hc : forall (a : string) l, String.concat "" (a :: l) = a +:+ String.concat "" l).
  { intros a [|b k]; [by rewrite app_empty_r|done]. }
  induction HF as [|x l Hx HF IH]; [by left|]. simpl map. rewrite !Hc, !slen_app.
  apply (replace_rune_spec bad) in Hx as (_ & _ & Hx). destruct Hx as [->|Hx], IH as [->|IH]; [by left|right; lia..].
Qed.
