(* ===== verification/Cookies.v ===== *)
(** * cookies: named cookies

Models [cookies/cookies.go].  [T] and [Secure] are both named strings, so
their methods take the cookie's name as a [string]; methods that mutate the
[*http.Cookie] they are given return the mutated cookie. *)

From S2P Require Import Prelude GoStrings GoErrors GoHTTP.

Definition readAndClearCookie (w : rw) (r : Request) (name : string) : string * bool * rw :=
  match Request_Cookie r name with
  | None => ("", false, w)
  | Some cookie =>
      let val := ck_Value cookie in
      let cookie := mkCookie (ck_Name cookie) "" (ck_Path cookie) (ck_Domain cookie)
                      (ck_Expires cookie) (-1) (ck_Secure cookie) (ck_HttpOnly cookie)
                      (ck_SameSite cookie) in
      (val, true, SetCookie cookie w)
  end.

(** ** T *)
Definition T_Set (c : string) (w : rw) (ck : Cookie) : Cookie * rw :=
  let ck := mkCookie c (ck_Value ck) (ck_Path ck) (ck_Domain ck) (ck_Expires ck) (ck_MaxAge ck)
              (ck_Secure ck) (ck_HttpOnly ck) (ck_SameSite ck) in
  (ck, SetCookie ck w).

Definition T_ReadAndClear (c : string) (w : rw) (r : Request) : string * bool * rw :=
  readAndClearCookie w r c.

Definition T_Read (c : string) (r : Request) : string * bool :=
  match Request_Cookie r c with None => ("", false) | Some cookie => (ck_Value cookie, true) end.

(** ** Secure *)
Definition Secure_Set (c : string) (w : rw) (ck : Cookie) : Cookie * rw :=
  let ck := mkCookie c (ck_Value ck) (ck_Path ck) (ck_Domain ck) (ck_Expires ck) (ck_MaxAge ck)
              true true SameSiteStrictMode in
  (ck, SetCookie ck w).

Definition Secure_ReadAndClear (c : string) (w : rw) (r : Request) : string * bool * rw :=
  readAndClearCookie w r c.

Definition Secure_Read (c : string) (r : Request) : string * bool :=
  match Request_Cookie r c with None => ("", false) | Some cookie => (ck_Value cookie, true) end.

(** ** ScopeAndDuration: durations and times in nanoseconds *)
Record ScopeAndDuration := mkScope { Domain : string; Path : string; Duration : Z }.

Definition SetDefaults (d : ScopeAndDuration) (domain path : string) (duration : Z) : ScopeAndDuration :=
  mkScope (if bool_decide (Domain d = "") then domain else Domain d)
          (if bool_decide (Path d = "") then path else Path d)
          (if bool_decide (Duration d = 0%Z) then duration else Duration d).

(** [now] is [time.Now()]. *)
Definition ScopeAndDuration_Cookie (d : ScopeAndDuration) (now : Z) (value : string) : Cookie :=
  mkCookie "" value (Path d) (Domain d) (Some (now + Duration d)%Z) 0 true true SameSiteStrictMode.

(** A name [http.SetCookie] accepts. *)
Definition valid_name (c : string) : bool :=
  negb (bool_decide (c = "")) && forallb is_token (String.list_ascii_of_string c).

Lemma SetCookie_valid ck w :
  valid_name (ck_Name ck) = true -> rw_setcookie (SetCookie ck w) = rw_setcookie w ++ [ck].
Proof. unfold SetCookie, valid_name. by intros ->. Qed.

Lemma Request_Cookie_Some r name ck :
  Request_Cookie r name = Some ck <->
  name <> "" /\ exists v, ck = mkCookie name v "" "" None 0 false false SameSiteUnset /\
    exists i, r_Cookies r !! i = Some (name, v) /\
      forall j p, (j < i)%nat -> r_Cookies r !! j = Some p -> p.1 <> name.
Proof.
  unfold Request_Cookie. case_bool_decide as Hn; [naive_solver|].
  destruct (list_find (fun p => p.1 = name) (r_Cookies r)) as [[i [n v]]|] eqn:E.
  - apply list_find_Some in E as (Hi & Hn' & Hj). simpl in Hn'. subst n. split.
    + intros [= <-]. split; [done|]. exists v. split; [done|]. exists i. split; [done|].
      intros j p Hlt Hp. by eapply Hj.
    + intros (_ & v' & -> & k & Hk & Hf). do 2 f_equal.
      destruct (Nat.lt_trichotomy i k) as [Hlt|[->|Hlt]].
      * exfalso. by eapply (Hf i (name, v)).
      * congruence.
      * exfalso. by eapply (Hj k (name, v')).
  - split; [done|]. intros (_ & v & _ & i & Hi & _). exfalso.
    apply list_find_None in E. rewrite Forall_lookup in E. by apply (E i (name, v)).
Qed.

(** A cookie set through [Secure] is always [HttpOnly], [Secure] and
    [SameSite=Strict] and carries the receiver's name, whatever the caller's
    cookie says; its value, path, domain and lifetime are the caller's. *)
Theorem Secure_Set_secure c w ck :
  valid_name c = true ->
  exists sent, rw_setcookie (Secure_Set c w ck).2 = rw_setcookie w ++ [sent] /\
    ck_Name sent = c /\ ck_HttpOnly sent = true /\ ck_Secure sent = true /\
    ck_SameSite sent = SameSiteStrictMode /\
    ck_Value sent = ck_Value ck /\ ck_Path sent = ck_Path ck /\ ck_Domain sent = ck_Domain ck /\
    ck_Expires sent = ck_Expires ck /\ ck_MaxAge sent = ck_MaxAge ck.
Proof.
  intros Hc. eexists. split; [by apply SetCookie_valid|]. done.
Qed.

Lemma Secure_Set_secure_witness :
  valid_name "webauthn_login" = true /\
  exists sent, rw_setcookie (Secure_Set "webauthn_login" new_rw
     (mkCookie "x" "v" "/" "" None 0 false false SameSiteNoneMode)).2 = [] ++ [sent] /\ ck_Secure sent = true.
Proof.
  split; [by vm_compute|].
  destruct (Secure_Set_secure "webauthn_login" new_rw
    (mkCookie "x" "v" "/" "" None 0 false false SameSiteNoneMode)) as (s & H1 & _ & _ & H2 & _);
    [by vm_compute|]. by exists s.
Defined.

(** [ReadAndClear] returns the value of the first request cookie with the
    name, and asks for its removal with an empty value and a negative
    [Max-Age]; the removal cookie never carries a path or a domain, so it
    names the cookie's scope only when the cookie was set without one. When
    the cookie is absent nothing is written. *)
Theorem ReadAndClear_spec c w r :
  valid_name c = true ->
  (forall v i, r_Cookies r !! i = Some (c, v) ->
     (forall j p, (j < i)%nat -> r_Cookies r !! j = Some p -> p.1 <> c) ->
     exists ck, Secure_ReadAndClear c w r = (v, true, SetCookie ck w) /\
       rw_setcookie (SetCookie ck w) = rw_setcookie w ++ [ck] /\
       ck_Name ck = c /\ ck_Value ck = "" /\ (ck_MaxAge ck < 0)%Z /\ ck_Path ck = "" /\ ck_Domain ck = "") /\
  ((forall p, p ∈ r_Cookies r -> p.1 <> c) -> Secure_ReadAndClear c w r = ("", false, w)).
Proof.
  intros Hc. assert (Hne : c <> "") by (intros ->; done).
  unfold Secure_ReadAndClear, readAndClearCookie. split.
  - intros v i Hi Hj.
    assert (Hr : Request_Cookie r c = Some (mkCookie c v "" "" None 0 false false SameSiteUnset))
      by (apply Request_Cookie_Some; eauto 10).
    rewrite Hr. eexists. split; [done|]. split; [by apply SetCookie_valid|]. done.
  - intros Hno. destruct (Request_Cookie r c) as [ck|] eqn:E; [|done].
    apply Request_Cookie_Some in E as (_ & v & _ & i & Hi & _).
    exfalso. eapply (Hno (c, v)); [|done]. by eapply list_elem_of_lookup_2.
Qed.

Lemma ReadAndClear_spec_witness :
  let r := mkRequest "POST" "/finish" "" "" "h" ∅ [("a", "1"); ("k", "v")] "" 0 None None in
  (Secure_ReadAndClear "k" new_rw r).1 = ("v", true).
Proof.
  destruct (ReadAndClear_spec "k" new_rw
    (mkRequest "POST" "/finish" "" "" "h" ∅ [("a", "1"); ("k", "v")] "" 0 None None)) as [H _];
    [by vm_compute|].
  destruct (H "v" 1%nat) as (ck & Hck & _); [done| |cbv zeta; by rewrite Hck].
  intros [|j] p Hj Hp; simplify_eq/=; [done|lia].
Defined.
