(* ===== verification/JsonAPI.v ===== *)
(** * jsonapi: JSON endpoints

Models [jsonapi/jsonapi.go].  The JSON decoder and encoder for the endpoint's
own request and response types are parameters; the error responses, whose JSON
the package builds itself, are written out. *)

From S2P Require Import Prelude GoStrings GoErrors GoHTTP GoEncoding.

Record ErrorResponse := mkErrorResponse { Message : string }.

(** [json.NewEncoder(rw).Encode(ErrorResponse{...})]: one write, with a newline. *)
Definition encode_ErrorResponse (e : ErrorResponse) : string :=
  "{" +:+ json_string "message" +:+ ":" +:+ json_string (Message e) +:+ "}" +:+ LF.

Definition WriteErrorMsg (w : rw) (msg : string) (status : Z) : rw :=
  let w := rw_Set "Content-Type" "application/json" w in
  let w := WriteHeader status w in
  Write (encode_ErrorResponse (mkErrorResponse msg)) w.

Definition WriteError (w : rw) (err : ErrorResponse) (status : Z) : rw :=
  let w := rw_Set "Content-Type" "application/json" w in
  let w := WriteHeader status w in
  Write (encode_ErrorResponse err) w.

Section endpoint.
Context {Req Resp : Type}.
(** The strict decoder on a body: the outcome of [Decode], and the error of the
    following [Token] call ([None] when there is another token). *)
Variable decode : Body -> res Req * option error.
(** [json.Encoder.Encode]: the bytes written, or the marshalling error. *)
Variable encode : Resp -> res string.

Definition ParseRequest (w : rw) (body : Body) : res Req * rw :=
  let '(req, token_err) := decode body in
  match req with
  | Err err =>
      (Err (Errorf "failed to decode request body: %w" [] [err]),
       WriteErrorMsg w "failed to decode request body" StatusBadRequest)
  | Ok req =>
      match token_err with
      | Some e => if errors_is e io_EOF then (Ok req, w)
                  else (Err (errors_New "body contains trailing data"),
                        WriteErrorMsg w "body contains trailing data" StatusBadRequest)
      | None => (Err (errors_New "body contains trailing data"),
                 WriteErrorMsg w "body contains trailing data" StatusBadRequest)
      end
  end.

Definition WriteResponse (w : rw) (resp : Resp) : option error * rw :=
  let w := rw_Set "Content-Type" "application/json" w in
  match encode resp with
  | Err err =>
      (Some (Errorf "failed to encode response: %w" [] [err]),
       WriteErrorMsg w "failed to encode response" StatusInternalServerError)
  | Ok data => (None, Write data w)
  end.

End endpoint.

(** ** Lemmas *)

Lemma WriteErrorMsg_fresh w msg status :
  fresh w -> (200 <= status <= 999)%Z -> bodyAllowedForStatus status = true ->
  rw_status (WriteErrorMsg w msg status) = Some status /\
  rw_body (WriteErrorMsg w msg status) = encode_ErrorResponse (mkErrorResponse msg).
Proof.
  intros Hf Hc Hb. unfold WriteErrorMsg. rewrite WriteHeader_fresh by auto with golib.
  unfold Write, rw_status. simpl. rewrite Hb. simpl. by destruct Hf as (_ & _ & ->).
Qed.

(** Writing an error on a response that is already committed only appends to
    the body. *)
Lemma WriteErrorMsg_sent w msg status c h cs :
  rw_sent w = Some (c, h, cs) -> rw_panic w = false -> bodyAllowedForStatus c = true ->
  rw_status (WriteErrorMsg w msg status) = Some c /\
  rw_body (WriteErrorMsg w msg status) = rw_body w +:+ encode_ErrorResponse (mkErrorResponse msg).
Proof.
  intros Hs Hp Hb. unfold WriteErrorMsg, WriteHeader. simpl. rewrite Hp, Hs.
  by rewrite (Write_committed _ (rw_Set _ _ w) c h cs).
Qed.

(** [ParseRequest] accepts a body exactly when it decodes to one value with
    nothing but the end of input after it, and then writes nothing; otherwise
    the client gets a single JSON error document with status 400. *)
Theorem ParseRequest_spec {Req} (decode : Body -> res Req * option error) w body :
  fresh w ->
  (forall req, (ParseRequest decode w body).1 = Ok req <->
     (decode body).1 = Ok req /\ exists e, (decode body).2 = Some e /\ errors_is e io_EOF = true) /\
  (forall req, (ParseRequest decode w body).1 = Ok req -> (ParseRequest decode w body).2 = w) /\
  (forall e, (ParseRequest decode w body).1 = Err e ->
     exists msg, rw_status (ParseRequest decode w body).2 = Some StatusBadRequest /\
       rw_body (ParseRequest decode w body).2 = encode_ErrorResponse (mkErrorResponse msg)).
Proof.
  intros Hf.
  assert (Hbad : forall msg, exists m,
    rw_status (WriteErrorMsg w msg StatusBadRequest) = Some StatusBadRequest /\
    rw_body (WriteErrorMsg w msg StatusBadRequest) = encode_ErrorResponse (mkErrorResponse m)).
  { intros msg. exists msg. by apply WriteErrorMsg_fresh. }
  unfold ParseRequest. destruct (decode body) as [[req|err] tok]; simpl.
  2:{ repeat split; try done; intros; try apply Hbad; naive_solver. }
  destruct tok as [e|]; [destruct (errors_is e io_EOF) eqn:He|]; simpl.
  - repeat split; try done; intros; naive_solver.
  - split; [|split].
    2:{ done. } 2:{ intros; apply Hbad. }
    intros r; split; [done|]. intros [_ (e' & [= <-] & He')]. congruence.
  - split; [intros r; split; [done|]; by intros [_ (e' & ? & _)] | split; [done | intros; apply Hbad]].
Qed.

Lemma ParseRequest_spec_witness :
  let decode := fun b : Body => (@Err error nat (errors_New "bad"), @None error) in
  exists msg, rw_status (ParseRequest decode new_rw (mkBody "" None)).2 = Some StatusBadRequest /\
    rw_body (ParseRequest decode new_rw (mkBody "" None)).2 = encode_ErrorResponse (mkErrorResponse msg).
Proof.
  destruct (ParseRequest_spec (fun b : Body => (@Err error nat (errors_New "bad"), @None error))
    new_rw (mkBody "" None) new_rw_fresh) as (_ & _ & H).
  eapply H. reflexivity.
Defined.
