(* ===== verification/JWTUtil.v ===== *)
(** * webauth/jwtutil: signing and validating JSON web tokens

Models [webauth/jwtutil/signer.go] and [jwt_url.go].  The
packages jwt and jwk of github.com/lestrrat-go/jwx are parameters; what the
theorems use of them is stated in [JWTLaws]. *)

From S2P Require Import Prelude GoStrings GoErrors GoURL.

(** The claims of a [jwt.Token]; [V] is the type of private claim values. *)
Record Token (V : Type) := mkToken {
  tk_iss : option string; tk_aud : list string; tk_sub : option string;
  tk_exp : option Z; tk_nbf : option Z; tk_iat : option Z; tk_claims : gmap string V
}.
Arguments mkToken {V}. Arguments tk_iss {V}. Arguments tk_aud {V}. Arguments tk_sub {V}.
Arguments tk_exp {V}. Arguments tk_nbf {V}. Arguments tk_iat {V}. Arguments tk_claims {V}.

(** [jwt.ValidateOption] *)
Inductive ValidateOption :=
| WithIssuer (s : string) | WithAudience (s : string) | WithSubject (s : string).

(** The calls of a [jwt.Builder], in the order they are made. *)
Inductive claim (V : Type) :=
| Issuer (s : string) | Audience (l : list string) | Subject (s : string)
| Expiration (z : Z) | NotBefore (z : Z) | IssuedAt (z : Z) | Claim (k : string) (v : V).
Arguments Issuer {V}. Arguments Audience {V}. Arguments Subject {V}. Arguments Expiration {V}.
Arguments NotBefore {V}. Arguments IssuedAt {V}. Arguments Claim {V}.

(** [jwk.Key], [jwk.Set] and the functions of package jwt; times are in
    nanoseconds, and [now] is the time at which a function is called. *)
Class JWX (V Key KeySet : Type) := {
  key_Set : Key -> string -> string -> res Key;
  key_Get : Key -> string -> option string;
  key_PublicKey : Key -> res Key;
  jwk_Import : string -> res Key;
  set_empty : KeySet;
  set_AddKey : KeySet -> Key -> res KeySet;
  jwt_Build : list (claim V) -> res (Token V);
  jwt_Get : Token V -> string -> res V;
  jwt_Sign : Key -> string -> Token V -> res string;
  jwt_Parse : Z -> KeySet -> string -> res (Token V);
  jwt_Validate : Z -> Token V -> list ValidateOption -> option error
}.

Section jwtutil.
Context {V Key KeySet : Type} `{J : !JWX V Key KeySet}.

(** The interfaces [Validator] and [Signer]; [now] is the time of the call. *)
Record Validator := mkValidator {
  v_Parse : Z -> string -> res (Token V);
  v_Validate : Z -> Token V -> list ValidateOption -> option error;
  v_ParseAndValidate : Z -> string -> list ValidateOption -> res (Token V)
}.

Record Signer := mkSigner {
  s_Sign : Token V -> res string;
  s_PublicKey : res Key;
  s_validator : Validator
}.

(** ** validator *)
Definition validator_Parse (set : KeySet) (now : Z) (tokenBytes : string) : res (Token V) :=
  jwt_Parse now set tokenBytes.

Definition validator_Validate (now : Z) (token : Token V) (validators : list ValidateOption) : option error :=
  jwt_Validate (Key:=Key) (KeySet:=KeySet) now token validators.

Definition validator_ParseAndValidate (set : KeySet) (now : Z) (tokenBytes : string)
    (validators : list ValidateOption) : res (Token V) :=
  match validator_Parse set now tokenBytes with
  | Err e => Err e
  | Ok token =>
      match validator_Validate now token validators with
      | Some e => Err e
      | None => Ok token
      end
  end.

Definition NewValidator (set : KeySet) : Validator :=
  mkValidator (validator_Parse set) validator_Validate (validator_ParseAndValidate set).

(** ** signer *)
Definition signer_Sign (key : Key) (algo : string) (token : Token V) : res string :=
  jwt_Sign (KeySet:=KeySet) key algo token.

Fixpoint set_fields (key : Key) (kvs : list (string * string)) : res Key :=
  match kvs with
  | [] => Ok key
  | (k, v) :: kvs' =>
      match key_Set (V:=V) (KeySet:=KeySet) key k v with
      | Err e => Err e
      | Ok key => set_fields key kvs'
      end
  end.

Definition NewSigner (jwkKey : Key) (id algo : string) : res Signer :=
  match set_fields jwkKey [("alg", algo); ("use", "sig"); ("kid", id)] with
  | Err e => Err e
  | Ok jwkKey =>
      match key_PublicKey (V:=V) (KeySet:=KeySet) jwkKey with
      | Err e => Err e
      | Ok pk =>
          match set_AddKey (V:=V) (set_empty (V:=V) (Key:=Key)) jwkKey with
          | Err e => Err e
          | Ok set => Ok (mkSigner (signer_Sign jwkKey algo) (Ok pk) (NewValidator set))
          end
      end
  end.

Definition NewED25519Signer (priv id : string) : res Signer :=
  match jwk_Import (V:=V) (KeySet:=KeySet) priv with
  | Err e => Err e
  | Ok jwkKey => NewSigner jwkKey id "EdDSA"
  end.

(** ** jwt_url.go *)
Definition CreateVerificationToken (s : Signer) (now : Z) (subject claimKey : string) (claimValue : V)
    (expiresIn : Z) (issuer audience : string) : res string :=
  let builder := [Subject subject; IssuedAt now; Expiration (now + expiresIn)%Z; Claim claimKey claimValue] in
  let builder := if bool_decide (issuer <> "") then builder ++ [Issuer issuer] else builder in
  let builder := if bool_decide (audience <> "") then builder ++ [Audience [audience]] else builder in
  match jwt_Build (Key:=Key) (KeySet:=KeySet) builder with
  | Err e => Err e
  | Ok tok => s_Sign s tok
  end.

(** The claim value is returned instead of being stored through a pointer. *)
Definition ValidateVerificationToken (v : Validator) (now : Z) (tokenString expectedSubject
    expectedIssuer expectedAudience claimKey : string) : res V :=
  let validators := [WithSubject expectedSubject] in
  let validators := if bool_decide (expectedIssuer <> "")
                    then validators ++ [WithIssuer expectedIssuer] else validators in
  let validators := if bool_decide (expectedAudience <> "")
                    then validators ++ [WithAudience expectedAudience] else validators in
  match v_ParseAndValidate v now tokenString validators with
  | Err e => Err e
  | Ok tok =>
      match jwt_Get (Key:=Key) (KeySet:=KeySet) tok claimKey with
      | Ok c => Ok c
      | Err e => Err (Errorf "invalid or missing %q claim: %w" [claimKey] [e])
      end
  end.

(** ** What the code relies on *)

Definition opt_holds (t : Token V) (o : ValidateOption) : Prop :=
  match o with
  | WithIssuer s => tk_iss t = Some s
  | WithAudience s => s ∈ tk_aud t
  | WithSubject s => tk_sub t = Some s
  end.

(** Times are serialized as whole seconds and truncated to them before they are
    compared. *)
Definition jwt_second : Z := 1000000000.
Definition secs (z : Z) : Z := (z / jwt_second)%Z.
Definition truncated (t : Token V) : Token V :=
  let tr := option_map (fun z => secs z * jwt_second)%Z in
  mkToken (tk_iss t) (tk_aud t) (tk_sub t) (tr (tk_exp t)) (tr (tk_nbf t)) (tr (tk_iat t)) (tk_claims t).

(** exp, nbf and iat checks, with no skew. *)
Definition time_valid (now : Z) (t : Token V) : Prop :=
  (forall e, tk_exp t = Some e -> (secs now < secs e)%Z) /\
  (forall n, tk_nbf t = Some n -> (secs n <= secs now)%Z) /\
  (forall i, tk_iat t = Some i -> (secs i <= secs now)%Z).

(** The claims that have a type of their own. A claim of one of these names is
    converted to it, or refused. *)
Definition registered : list string := ["aud"; "exp"; "iat"; "iss"; "jti"; "nbf"; "sub"].

Definition set_claim (t : Token V) (c : claim V) : Token V :=
  match c with
  | Issuer s => mkToken (Some s) (tk_aud t) (tk_sub t) (tk_exp t) (tk_nbf t) (tk_iat t) (tk_claims t)
  | Audience l => mkToken (tk_iss t) l (tk_sub t) (tk_exp t) (tk_nbf t) (tk_iat t) (tk_claims t)
  | Subject s => mkToken (tk_iss t) (tk_aud t) (Some s) (tk_exp t) (tk_nbf t) (tk_iat t) (tk_claims t)
  | Expiration z => mkToken (tk_iss t) (tk_aud t) (tk_sub t) (Some z) (tk_nbf t) (tk_iat t) (tk_claims t)
  | NotBefore z => mkToken (tk_iss t) (tk_aud t) (tk_sub t) (tk_exp t) (Some z) (tk_iat t) (tk_claims t)
  | IssuedAt z => mkToken (tk_iss t) (tk_aud t) (tk_sub t) (tk_exp t) (tk_nbf t) (Some z) (tk_claims t)
  | Claim k v => mkToken (tk_iss t) (tk_aud t) (tk_sub t) (tk_exp t) (tk_nbf t) (tk_iat t) (<[k := v]> (tk_claims t))
  end.

Definition private_claim (c : claim V) : Prop :=
  match c with Claim k _ => k ∉ registered | _ => True end.

Definition no_claims : Token V := mkToken None [] None None None None ∅.

(** Documented behaviour of jwx:
    - [Set] of a field of a key sets that field;
    - [Build] sets the claims in order; [Get] returns private claims by name;
    - [Sign] with a key writes the claims, times as whole seconds, and the key ID
      of the key; [Parse] with a key set looks for the key with that ID, which has
      to be for signatures and to name its algorithm, verifies the signature and by
      default validates the times. Values that JSON does not change ([stable]) are
      read back as they are;
    - [Validate] checks the times and the options. *)
Class JWTLaws (stable : V -> Prop) := {
  key_set_get : forall (k k' : Key) f v, key_Set (V:=V) (KeySet:=KeySet) k f v = Ok k' ->
    key_Get (V:=V) (KeySet:=KeySet) k' f = Some v /\
    forall g, g <> f -> key_Get (V:=V) (KeySet:=KeySet) k' g = key_Get (V:=V) (KeySet:=KeySet) k g;
  build_private : forall cs : list (claim V), Forall private_claim cs ->
    jwt_Build (Key:=Key) (KeySet:=KeySet) cs = Ok (fold_left set_claim cs no_claims);
  get_private : forall (t : Token V) k v, k ∉ registered ->
    (jwt_Get (Key:=Key) (KeySet:=KeySet) t k = Ok v <-> tk_claims t !! k = Some v);
  sign_parse : forall key id algo set (t : Token V) (b : string) now t',
    key_Get (V:=V) (KeySet:=KeySet) key "alg" = Some algo ->
    key_Get (V:=V) (KeySet:=KeySet) key "use" = Some "sig" ->
    key_Get (V:=V) (KeySet:=KeySet) key "kid" = Some id -> id <> "" ->
    set_AddKey (V:=V) (KeySet:=KeySet) (set_empty (V:=V) (Key:=Key)) key = Ok set ->
    map_Forall (fun _ => stable) (tk_claims t) ->
    jwt_Sign (KeySet:=KeySet) key algo t = Ok b ->
    jwt_Parse (Key:=Key) now set b = Ok t' <-> t' = truncated t /\ time_valid now t';
  validate_iff : forall now (t : Token V) os,
    jwt_Validate (Key:=Key) (KeySet:=KeySet) now t os = None <-> time_valid now t /\ Forall (opt_holds t) os
}.

(** ** Lemmas *)
Section facts.
Context (stable : V -> Prop) `{HJ : !JWTLaws stable}.

Lemma secs_truncated z : secs (secs z * jwt_second) = secs z.
Proof. unfold secs. by rewrite Z.div_mul. Qed.

Lemma secs_mono a b : (a <= b)%Z -> (secs a <= secs b)%Z.
Proof. intros. unfold secs, jwt_second. apply Z.div_le_mono; lia. Qed.

Lemma secs_lt a b : (secs a < secs b)%Z -> (a < b)%Z.
Proof. intros H. destruct (Z.lt_ge_cases a b) as [|Hge]; [done|]. apply secs_mono in Hge. lia. Qed.

Lemma each_truncated (P : Z -> Prop) o :
  (forall e, option_map (fun z => secs z * jwt_second)%Z o = Some e -> P (secs e)) <-> (forall e, o = Some e -> P (secs e)).
Proof.
  destruct o as [z|]; simpl; [|naive_solver]. split; intros H e [= <-].
  - specialize (H _ eq_refl). by rewrite secs_truncated in H.
  - rewrite secs_truncated. auto.
Qed.

Lemma time_valid_truncated now t : time_valid now (truncated t) <-> time_valid now t.
Proof.
  pose proof (each_truncated (fun x => (secs now < x)%Z) (tk_exp t)) as H1.
  pose proof (each_truncated (fun x => (x <= secs now)%Z) (tk_nbf t)) as H2.
  pose proof (each_truncated (fun x => (x <= secs now)%Z) (tk_iat t)) as H3.
  unfold time_valid, truncated. simpl in *. tauto.
Qed.

Lemma opt_holds_truncated t o : opt_holds (truncated t) o <-> opt_holds t o.
Proof. by destruct o. Qed.

(** The fields that [NewSigner] sets are those that verification needs. *)
Lemma NewSigner_key jwkKey id algo s :
  NewSigner jwkKey id algo = Ok s ->
  exists key set, key_Get (V:=V) (KeySet:=KeySet) key "alg" = Some algo /\
    key_Get (V:=V) (KeySet:=KeySet) key "use" = Some "sig" /\ key_Get (V:=V) (KeySet:=KeySet) key "kid" = Some id /\
    set_AddKey (V:=V) (set_empty (V:=V) (Key:=Key)) key = Ok set /\
    s_Sign s = signer_Sign key algo /\ s_validator s = NewValidator set.
Proof.
  unfold NewSigner. simpl.
  destruct (key_Set jwkKey "alg" algo) as [k1|] eqn:E1; [|done]. destruct (key_Set k1 "use" "sig") as [k2|] eqn:E2; [|done].
  destruct (key_Set k2 "kid" id) as [k3|] eqn:E3; [|done]. destruct (key_PublicKey k3) as [pk|]; [|done].
  destruct (set_AddKey set_empty k3) as [set|] eqn:Hset; [|done]. intros [= <-].
  destruct (key_set_get _ _ _ _ E1) as [A1 _], (key_set_get _ _ _ _ E2) as [A2 B2], (key_set_get _ _ _ _ E3) as [A3 B3].
  exists k3, set. split_and!; [by rewrite B3, B2 by done|by rewrite B3 by done|done..].
Qed.

(** A signer's own validator accepts what it signed, exactly when the claims
    satisfy the options at that time. *)
Lemma NewSigner_ParseAndValidate jwkKey id algo s t b now os t' :
  NewSigner jwkKey id algo = Ok s -> id <> "" -> map_Forall (fun _ => stable) (tk_claims t) -> s_Sign s t = Ok b ->
  v_ParseAndValidate (s_validator s) now b os = Ok t' <->
  t' = truncated t /\ time_valid now t /\ Forall (opt_holds t) os.
Proof.
  intros (key & set & Ha & Hu & Hk & Hset & Hsig & Hval)%NewSigner_key Hid Hst Hs. rewrite Hsig in Hs. rewrite Hval. simpl.
  unfold validator_ParseAndValidate, validator_Parse, validator_Validate.
  pose proof (fun t' => sign_parse key id algo set t b now t' Ha Hu Hk Hid Hset Hst Hs) as HP.
  assert (HF : Forall (opt_holds (truncated t)) os <-> Forall (opt_holds t) os) by (apply Forall_iff; intros; apply opt_holds_truncated).
  rewrite <- (time_valid_truncated now t), <- HF.
  destruct (jwt_Parse now set b) as [t1|e].
  - destruct (proj1 (HP t1) eq_refl) as [-> Ht]. destruct (jwt_Validate now (truncated t) os) eqn:Ev.
    + split; [done|]. intros (_ & H1 & H2). by rewrite (proj2 (validate_iff now (truncated t) os) (conj H1 H2)) in Ev.
    + apply validate_iff in Ev as [H1 H2]. split; [by intros [= <-]|]. by intros (-> & _).
  - split; [done|]. intros (-> & H1 & _). by destruct (proj2 (HP (truncated t)) (conj eq_refl H1)).
Qed.

Lemma ParseAndValidate_sound set now b os t :
  validator_ParseAndValidate set now b os = Ok t -> time_valid now t /\ Forall (opt_holds t) os.
Proof.
  unfold validator_ParseAndValidate, validator_Validate. destruct (validator_Parse set now b); [|done].
  case_match eqn:E; [done|]. intros [= <-]. by apply validate_iff.
Qed.

End facts.
End jwtutil.

Definition VerificationURL (ip_literal : string -> bool) (baseURL tokenBytes : string) : res string :=
  match Parse ip_literal baseURL with
  | Err e => Err e
  | Ok u =>
      let q := Query u in
      let q := Values_Set q "token" tokenBytes in
      let u := set_RawQuery u (Encode q) in
      Ok (URL_String u)
  end.

(** The query of the link has the token and the other values of the base URL. *)
Lemma VerificationURL_query ip baseURL u tokenBytes :
  Parse ip baseURL = Ok u ->
  exists link, VerificationURL ip baseURL tokenBytes = Ok link /\
    let q := parseQuery (raw_query link) in
    q !! "token" = Some [tokenBytes] /\ forall k, k <> "token" -> q !! k = parseQuery (raw_query baseURL) !! k.
Proof.
  intros HP. unfold VerificationURL. rewrite HP. eexists. split; [done|].
  destruct (Parse_ok _ _ _ HP) as (Hu & Hq & _). rewrite URL_String_query; [|exact Hu|apply Encode_without; done].
  simpl. split; [by rewrite parseQuery_Encode; unfold Values_Set; rewrite lookup_insert_eq|].
  intros k Hk. rewrite parseQuery_Encode. unfold Values_Set, Query. rewrite lookup_insert_ne by done. rewrite Hq.
  pose proof (parseQuery_nonempty (raw_query baseURL) k) as Hn. by destruct (parseQuery _ !! k) as [[|]|].
Qed.

#[global] Arguments Validator V : clear implicits.
#[global] Arguments Signer V Key : clear implicits.

(** C14 Verification links round trip: a token created by a signer with a key ID
    and a private claim whose value JSON keeps can be added to every URL that
    parses, next to the values its query has already. The token in the query of the
    link validates against the same subject, issuer and audience, and yields that
    claim, until the second in which it expires; from then on it is refused. *)
Theorem verification_token_roundtrip {V Key KeySet} `{J : !JWX V Key KeySet} stable `{!JWTLaws stable}
    jwkKey id algo s now later subject key (value : V) expiresIn issuer audience b ip baseURL u :
  NewSigner jwkKey id algo = Ok s -> id <> "" -> key ∉ registered -> stable value ->
  CreateVerificationToken (KeySet:=KeySet) s now subject key value expiresIn issuer audience = Ok b ->
  (now <= later)%Z -> Parse ip baseURL = Ok u ->
  exists link, VerificationURL ip baseURL b = Ok link /\
    let q := parseQuery (raw_query link) in
    let validated := ValidateVerificationToken (KeySet:=KeySet) (s_validator s) later (Values_Get q "token") subject issuer audience key in
    ((secs later < secs (now + expiresIn))%Z -> validated = Ok value) /\
    ((secs (now + expiresIn) <= secs later)%Z -> exists e, validated = Err e) /\
    forall k, k <> "token" -> q !! k = parseQuery (raw_query baseURL) !! k.
Proof.
  intros Hs Hid Hreg Hst Hc Ht HP. destruct (VerificationURL_query ip baseURL u b HP) as (link & HL & Htok & Hother).
  exists link. split; [done|]. cbv zeta. unfold Values_Get. rewrite Htok. unfold CreateVerificationToken in Hc.
  rewrite build_private in Hc by (repeat case_bool_decide; repeat constructor; done).
  match type of Hc with s_Sign s ?t = _ => set (tok := t) in Hc end.
  assert (Hcl : tk_claims tok = {[key := value]}) by (subst tok; by repeat case_bool_decide).
  assert (Hexp : tk_exp tok = Some (now + expiresIn)%Z) by (subst tok; by repeat case_bool_decide).
  assert (Htm : (secs later < secs (now + expiresIn))%Z <-> time_valid later tok).
  { unfold time_valid. rewrite Hexp. subst tok. split.
    - intros Hlt. split_and!; [by intros ? [= <-]|repeat case_bool_decide; done|].
      repeat case_bool_decide; intros ? [= <-]; by apply secs_mono.
    - intros (H & _). by apply H. }
  assert (Hall : map_Forall (fun _ => stable) (tk_claims tok)) by (rewrite Hcl; by apply map_Forall_singleton).
  unfold ValidateVerificationToken.
  match goal with |- context [v_ParseAndValidate (s_validator s) later b ?o] => set (os := o);
    pose proof (fun t' => NewSigner_ParseAndValidate stable jwkKey id algo s tok b later os t' Hs Hid Hall Hc) as HV end.
  assert (Hos : Forall (opt_holds tok) os) by (subst tok os; repeat case_bool_decide; repeat constructor).
  split_and!; [| |done].
  - intros Hlt. rewrite (proj2 (HV (truncated tok)) (conj eq_refl (conj (proj1 Htm Hlt) Hos))).
    rewrite (proj2 (get_private (truncated tok) key value Hreg)); [done|]. simpl. rewrite Hcl. by simplify_map_eq.
  - intros Hge. destruct (v_ParseAndValidate (s_validator s) later b os) as [t'|e]; [|eauto].
    destruct (proj1 (HV t') eq_refl) as (_ & Hv%Htm & _). lia.
Qed.

(** C15 A verification token is accepted only if its subject is the expected
    one, its issuer and audience are the expected ones whenever those are
    given, and it has not expired. *)
Theorem verification_token_sound {V Key KeySet} `{J : !JWX V Key KeySet} stable `{!JWTLaws stable}
    (set : KeySet) now b subject issuer audience key (value : V) :
  ValidateVerificationToken (KeySet:=KeySet) (NewValidator set) now b subject issuer audience key = Ok value ->
  exists t, jwt_Parse now set b = Ok t /\ jwt_Get (Key:=Key) (KeySet:=KeySet) t key = Ok value /\
    (key ∉ registered -> tk_claims t !! key = Some value) /\ tk_sub t = Some subject /\
    (issuer <> "" -> tk_iss t = Some issuer) /\ (audience <> "" -> audience ∈ tk_aud t) /\
    (forall e, tk_exp t = Some e -> (now < e)%Z).
Proof.
  unfold ValidateVerificationToken. simpl.
  match goal with |- context [validator_ParseAndValidate set now b ?os] =>
    destruct (validator_ParseAndValidate set now b os) as [t|] eqn:E end; [|done].
  pose proof (ParseAndValidate_sound stable _ _ _ _ _ E) as [[Hexp _] Hos].
  unfold validator_ParseAndValidate, validator_Parse in E.
  destruct (jwt_Parse now set b) as [t'|]; [|done].
  destruct (validator_Validate now t' _); [done|]. injection E as ->.
  destruct (jwt_Get t key) as [c|] eqn:Hc; [|done]. intros [= ->]. exists t.
  rewrite Forall_forall in Hos.
  split_and!; [done|done|intros Hk; by apply (get_private t key value Hk)| apply (Hos (WithSubject subject)) | intros Hi; apply (Hos (WithIssuer issuer))
    | intros Ha; apply (Hos (WithAudience audience)) | intros e He; by apply secs_lt, Hexp];
    repeat case_bool_decide; set_solver.
Qed.

(** ** A model of the JWT interface

A key is a secret with fields, a key set a list of keys; a signed token is the
secret, the algorithm, the key ID and the claims, encoded in binary. It shows
that [JWTLaws] can be satisfied. *)
Module ToyJWT.

Fixpoint p2s (p : positive) : string :=
  match p with
  | xH => "" | xO p => String "0"%char (p2s p) | xI p => String "1"%char (p2s p)
  end.

Fixpoint s2p (s : string) : positive :=
  match s with
  | EmptyString => xH
  | String c s' => if bool_decide (c = "0"%char) then xO (s2p s') else xI (s2p s')
  end.

Lemma s2p_p2s p : s2p (p2s p) = p.
Proof. induction p; simpl; congruence. Qed.

Definition tup (t : Token string) :=
  (tk_iss t, tk_aud t, tk_sub t, tk_exp t, tk_nbf t, tk_iat t, tk_claims t).
Definition untup x : Token string :=
  let '(a, b, c, d, e, f, g) := x in mkToken a b c d e f g.

#[global] Instance Token_eq_dec : EqDecision (Token string).
Proof. solve_decision. Defined.
#[global] Instance Token_countable : Countable (Token string).
Proof. refine (inj_countable' tup untup _). abstract (by intros []). Defined.

Definition time_ok (now : Z) (t : Token string) : bool :=
  match tk_exp t with Some e => (secs now <? secs e)%Z | None => true end
  && match tk_nbf t with Some n => (secs n <=? secs now)%Z | None => true end
  && match tk_iat t with Some i => (secs i <=? secs now)%Z | None => true end.

Definition opt_ok (t : Token string) (o : ValidateOption) : bool :=
  match o with
  | WithIssuer s => bool_decide (tk_iss t = Some s)
  | WithAudience s => bool_decide (s ∈ tk_aud t)
  | WithSubject s => bool_decide (tk_sub t = Some s)
  end.

Definition key : Type := string * gmap string string.

(** The key that a token names. *)
Definition names (secret algo id : string) (k : key) : bool :=
  bool_decide (k.2 !! "kid" = Some id) && bool_decide (id <> "") && bool_decide (k.2 !! "use" = Some "sig")
  && bool_decide (k.2 !! "alg" = Some algo) && bool_decide (k.1 = secret).

#[global] Instance toy : JWX string key (list key) := {|
  key_Set := fun k f v => Ok (k.1, <[f := v]> k.2);
  key_Get := fun k f => k.2 !! f;
  key_PublicKey := fun k => Ok k;
  jwk_Import := fun s => Ok (s, ∅);
  set_empty := [];
  set_AddKey := fun s k => Ok (k :: s);
  jwt_Build := fun cs =>
    if forallb (fun c => match c with Claim k _ => negb (bool_decide (k ∈ registered)) | _ => true end) cs
    then Ok (fold_left set_claim cs no_claims) else Err (errors_New "claim");
  jwt_Get := fun t k => match tk_claims t !! k with Some v => Ok v | None => Err (errors_New "no claim") end;
  jwt_Sign := fun k algo t =>
    match k.2 !! "kid" with
    | Some id => Ok (p2s (encode (k.1, algo, id, truncated t)))
    | None => Ok (p2s (encode (k.1, algo, "", truncated t)))
    end;
  jwt_Parse := fun now set b =>
    match decode (s2p b) with
    | Some (secret, algo, id, t) =>
        if existsb (names secret algo id) set && time_ok now t then Ok t else Err (errors_New "not verified")
    | None => Err (errors_New "malformed")
    end;
  jwt_Validate := fun now t os =>
    if time_ok now t && forallb (opt_ok t) os then None else Some (errors_New "invalid")
|}.

Lemma time_ok_valid now t : time_ok now t = true <-> time_valid now t.
Proof.
  unfold time_ok, time_valid. rewrite !andb_true_iff.
  destruct (tk_exp t), (tk_nbf t), (tk_iat t); rewrite ?Z.ltb_lt, ?Z.leb_le; naive_solver.
Qed.

Lemma opt_ok_holds t o : opt_ok t o = true <-> opt_holds t o.
Proof. destruct o; simpl; by rewrite bool_decide_eq_true. Qed.

#[global] Instance toy_laws : JWTLaws (J := toy) (fun _ => True).
Proof.
  constructor.
  - intros k k' f v [= <-]. simpl. split; [by simplify_map_eq|]. intros g Hg. by rewrite lookup_insert_ne.
  - intros cs Hcs. simpl. assert (E : forallb (fun c => match c with Claim k _ => negb (bool_decide (k ∈ registered)) | _ => true end) cs = true);
      [|by rewrite E]. apply forallb_Forall. eapply Forall_impl; [exact Hcs|]. intros [] Hc; simpl in *; try done. by rewrite bool_decide_false.
  - intros t k v _. simpl. destruct (tk_claims t !! k); naive_solver.
  - intros [secret fs] id algo set t b now t' Ha Hu Hk Hid [= <-] _ Hs. simpl in *. rewrite Hk in Hs. injection Hs as <-.
    rewrite s2p_p2s, decode_encode. assert (En : names secret algo id (secret, fs) = true).
    { unfold names. simpl. by rewrite !bool_decide_true. }
    rewrite En. simpl. destruct (time_ok now (truncated t)) eqn:Et.
    + apply time_ok_valid in Et. split; [by intros [= <-]|]. by intros [-> _].
    + split; [done|]. intros [-> Hv%time_ok_valid]. congruence.
  - intros now t os. simpl. rewrite <- time_ok_valid.
    assert (Hos : forallb (opt_ok t) os = true <-> Forall (opt_holds t) os).
    { rewrite forallb_Forall. apply Forall_iff. intros. apply opt_ok_holds. }
    rewrite <- Hos, <- andb_true_iff. by destruct (_ && _).
Qed.

(** The key "k" with ID "kid". *)
Definition example_key : key := ("k", {["kid" := "kid"; "use" := "sig"; "alg" := "EdDSA"]}).
Definition example_signer : Signer string key :=
  mkSigner (signer_Sign (KeySet:=list key) example_key "EdDSA") (Ok example_key) (NewValidator [example_key]).

Lemma example_signer_new : NewSigner (KeySet:=list key) ("k", ∅) "kid" "EdDSA" = Ok example_signer.
Proof. reflexivity. Qed.

Lemma toy_parse t : time_ok 50 (truncated t) = true -> exists b, jwt_Parse (JWX := toy) 50 [example_key] b = Ok (truncated t).
Proof.
  intros Ht. exists (p2s (encode ("k", "EdDSA", "kid", truncated t))). cbn [jwt_Parse toy]. rewrite s2p_p2s, decode_encode. by rewrite Ht.
Defined.

End ToyJWT.

(** A token that is valid for 100 seconds, after 50 and after 100 seconds. *)
Lemma verification_token_roundtrip_witness :
  exists b link, VerificationURL (fun _ => true) "https://a.b/verify?lang=en#top" b = Ok link /\
    let q := parseQuery (raw_query link) in
    ValidateVerificationToken (KeySet:=list ToyJWT.key) (s_validator ToyJWT.example_signer) (50 * jwt_second) (Values_Get q "token")
      "alice" "iss" "" "email" = Ok "a@b.c" /\
    (exists e, ValidateVerificationToken (KeySet:=list ToyJWT.key) (s_validator ToyJWT.example_signer) (100 * jwt_second) (Values_Get q "token")
      "alice" "iss" "" "email" = Err e) /\
    q !! "lang" = Some ["en"].
Proof.
  eexists. edestruct (verification_token_roundtrip (KeySet:=list ToyJWT.key) (fun _ => True) ("k", ∅) "kid" "EdDSA"
    ToyJWT.example_signer 0 (50 * jwt_second) "alice" "email" "a@b.c" (100 * jwt_second) "iss" "") with (ip := fun _ : string => true)
    (baseURL := "https://a.b/verify?lang=en#top") as (link & HL & HV & _ & Hother);
    [exact ToyJWT.example_signer_new|done|by apply (bool_decide_unpack _); vm_compute|done|reflexivity|done|vm_compute; reflexivity|].
  edestruct (verification_token_roundtrip (KeySet:=list ToyJWT.key) (fun _ => True) ("k", ∅) "kid" "EdDSA"
    ToyJWT.example_signer 0 (100 * jwt_second) "alice" "email" "a@b.c" (100 * jwt_second) "iss" "") with (ip := fun _ : string => true)
    (baseURL := "https://a.b/verify?lang=en#top") as (link' & HL' & _ & HE & _);
    [exact ToyJWT.example_signer_new|done|by apply (bool_decide_unpack _); vm_compute|done|reflexivity|done|vm_compute; reflexivity|].
  exists link. rewrite HL in HL'. injection HL' as <-. split; [exact HL|]. split; [by apply HV|]. split; [by apply HE|].
  rewrite Hother by done. by vm_compute.
Defined.

Lemma verification_token_sound_witness :
  exists (b : string) (t : Token string), jwt_Parse (Key:=ToyJWT.key) 50 [ToyJWT.example_key] b = Ok t /\ tk_sub t = Some "alice".
Proof.
  set (tok := mkToken (V:=string) None [] (Some "alice") (Some (100 * jwt_second)%Z) None None {["email" := "a@b.c"]}).
  destruct (ToyJWT.toy_parse tok eq_refl) as [b Hb]. exists b.
  destruct (verification_token_sound (Key:=ToyJWT.key) (fun _ => True) [ToyJWT.example_key] 50 b "alice" "" "" "email" "a@b.c")
    as (t & Ht & _ & _ & Hs & _); [|by exists t].
  unfold ValidateVerificationToken, NewValidator, v_ParseAndValidate, validator_ParseAndValidate, validator_Parse.
  by rewrite Hb.
Defined.
