(* ===== verification/Auth0.v ===== *)
(** * webauth/auth0: checking tokens issued by auth0.com

Models [webauth/auth0/jwt.go].  The HTTP request for the key set, its JSON decoder and the jwt package of github.com/square/go-jose are parameters;
[JoseLaws] states what the theorem uses of go-jose. *)

From S2P Require Import Prelude GoStrings GoErrors GoHTTP GoURL.

Definition jwksEndpoint : string := "/.well-known/jwks.json".

(** The fields of [jose.JSONWebKey] that are looked at: of its certificates, the
    issuer.  [Key] is the key itself. *)
Record JWK (Key : Type) := mkJWK {
  k_Algorithm : string; k_Use : string; k_Certificates : list string; k_Key : Key
}.
Arguments mkJWK {Key}. Arguments k_Algorithm {Key}. Arguments k_Use {Key}.
Arguments k_Certificates {Key}. Arguments k_Key {Key}.

(** [JWKS] holds a pointer to the key set, which can be nil. *)
Abbreviation JWKS Key := (option (list (JWK Key))).

Record Authenticator (Key : Type) := mkAuth {
  a_domain : string; a_audience : string; a_algo : string; a_cn : string;
  a_staticJWKS : option (JWKS Key); a_jwks : option (JWKS Key)
}.
Arguments mkAuth {Key}. Arguments a_domain {Key}. Arguments a_audience {Key}. Arguments a_algo {Key}.
Arguments a_cn {Key}. Arguments a_staticJWKS {Key}. Arguments a_jwks {Key}.

(** [jwt.Claims] and [jwt.Expected]; a zero time is [None]. *)
Record Claims := mkClaims {
  c_Issuer : string; c_Audience : list string; c_Expiry : option Z; c_NotBefore : option Z
}.
Record Expected := mkExpected { e_Issuer : string; e_Audience : list string; e_Time : option Z }.

Class Jose (Key Tok : Type) := {
  ParseSigned : string -> res Tok;
  tok_Claims : Tok -> JWKS Key -> res Claims;
  claims_Validate : Claims -> Expected -> option error
}.

(** The claims are those of a signature that one of the keys verifies; and
    [Validate] compares what is expected and checks the times only when a time
    is given. *)
Class JoseLaws {Key Tok} (J : Jose Key Tok) (verifies : Key -> Tok -> Claims -> Prop) := {
  claims_verified tok set c : tok_Claims tok set = Ok c ->
    exists keys k, set = Some keys /\ k ∈ keys /\ verifies (k_Key k) tok c;
  validate_ok c e : claims_Validate c e = None <->
    (e_Issuer e = "" \/ c_Issuer c = e_Issuer e) /\ Forall (.∈ c_Audience c) (e_Audience e) /\
    (forall t, e_Time e = Some t ->
       (forall x, c_NotBefore c = Some x -> (x <= t + 60)%Z) /\ (forall x, c_Expiry c = Some x -> (t - 60 <= x)%Z))
}.

Section auth0.
Context {Key Tok : Type} `{J : !Jose Key Tok}.
Variable ip_literal : string -> bool.
(** [http.Get]: the status code and the body; and the decoder. *)
Variable http_Get : string -> res (Z * string).
Variable decode : string -> res (JWKS Key).

Definition RS256 (a : Authenticator Key) : Authenticator Key :=
  mkAuth (a_domain a) (a_audience a) "RS256" (a_cn a) (a_staticJWKS a) (a_jwks a).

Definition StaticJWKS (jwks : option (JWKS Key)) (a : Authenticator Key) : Authenticator Key :=
  mkAuth (a_domain a) (a_audience a) (a_algo a) (a_cn a) jwks (a_jwks a).

(** The error of [url.Parse] is dropped, and with it there is no URL. *)
Definition ensureHTTPS (raw : string) : go string :=
  match Parse ip_literal raw with
  | Err _ => Panic NilDereference
  | Ok u => Ret (URL_String (set_Scheme u "https"))
  end.

Definition JWKSForDomain (tenant : string) : go (res (JWKS Key)) :=
  base ← ensureHTTPS tenant;
  let endpoint := base +:+ jwksEndpoint in
  Ret (match http_Get endpoint with
       | Err e => Err e
       | Ok (status, body) =>
           if negb (status =? StatusOK)%Z then Err (Errorf "failed to access %v: %v" [endpoint] [])
           else match decode body with
                | Err _ => Err (Errorf "failed to decode response from %v: %v" [endpoint] [])
                | Ok jwks => Ok jwks
                end
       end).

(** The conditions of the loop in [refresh], in order. *)
Definition keep_key (a : Authenticator Key) (key : JWK Key) : bool :=
  if bool_decide (k_Algorithm key <> a_algo a) then false
  else if bool_decide (k_Use key <> "sig") then false
  else match k_Certificates key with
       | [] => false
       | issuer :: _ => negb (bool_decide (issuer <> a_cn a))
       end.

Definition set_jwks (a : Authenticator Key) (jwks : option (JWKS Key)) : Authenticator Key :=
  mkAuth (a_domain a) (a_audience a) (a_algo a) (a_cn a) (a_staticJWKS a) jwks.

Definition refresh (a : Authenticator Key) : go (Authenticator Key * option error) :=
  match a_staticJWKS a with
  | Some jwks => Ret (set_jwks a (Some jwks), None)
  | None =>
      r ← JWKSForDomain (a_domain a);
      match r with
      | Err e => Ret (a, Some e)
      | Ok None => Panic NilDereference
      | Ok (Some keys) => Ret (set_jwks a (Some (Some (List.filter (keep_key a) keys))), None)
      end
  end.

Definition NewAuthenticator (domain audience : string) (opts : list (Authenticator Key -> Authenticator Key))
  : go (Authenticator Key * option error) :=
  d ← ensureHTTPS domain;
  aud ← ensureHTTPS audience;
  let a := fold_left (fun a fn => fn a) opts (mkAuth d aud "" ("CN=" +:+ domain) None None) in
  let a := if Nat.eqb (slen (a_algo a)) 0 then RS256 a else a in
  refresh a.

Definition CheckJWT (a : Authenticator Key) (token : string) : go (option error) :=
  match ParseSigned token with
  | Err e => Ret (Some (Errorf "failed to parse jwt: %v" [] []))
  | Ok tok =>
      match a_jwks a with
      | None => Panic NilDereference
      | Some set =>
          Ret (match tok_Claims tok set with
               | Err e => Some e
               | Ok claims => claims_Validate claims (mkExpected (a_domain a) [a_audience a] None)
               end)
      end
  end.

(** ** Lemmas *)

(** The https form of a text is never empty, and that of a name is the name with
    the scheme before it. *)
Lemma ensureHTTPS_nonempty raw s : ensureHTTPS raw = Ret s -> s <> "".
Proof.
  unfold ensureHTTPS. destruct (Parse _ raw) as [u|]; [|done]. intros [= <-]. unfold URL_String, URL_before, set_Scheme.
  cbn [u_Scheme u_Opaque u_Host]. change (nonempty "https") with true. cbn [String.append].
  destruct (nonempty (u_Opaque u)); [done|]. destruct (_ && nonempty (u_Host u)); cbn [String.append]; unfold nonempty;
    by rewrite (bool_decide_true (String _ _ <> "")).
Qed.

Lemma ensureHTTPS_name raw :
  str_forallb plain_byte raw = true -> HasPrefix raw "/" = false -> raw <> "" -> ensureHTTPS raw = Ret ("https://" +:+ raw).
Proof. intros Hs Hp Hne. unfold ensureHTTPS. rewrite Parse_name by done. unfold set_Scheme. cbn. by rewrite String_name. Qed.

Lemma keep_key_true a key :
  keep_key a key = true <->
  k_Algorithm key = a_algo a /\ k_Use key = "sig" /\ exists rest, k_Certificates key = a_cn a :: rest.
Proof.
  unfold keep_key. case_bool_decide as H1; [naive_solver|]. case_bool_decide as H2; [naive_solver|].
  destruct (k_Certificates key) as [|i l]; [naive_solver|]. case_bool_decide as H3; simpl; naive_solver.
Qed.

(** A successful refresh changes nothing but the key set, which is the static
    one or holds only keys that [keep_key] keeps. *)
Lemma refresh_ok a a' :
  refresh a = Ret (a', None) ->
  exists set, a' = set_jwks a (Some set) /\
    (a_staticJWKS a = Some set \/ a_staticJWKS a = None /\ exists keys, set = Some (List.filter (keep_key a) keys)).
Proof.
  unfold refresh. destruct (a_staticJWKS a) as [jwks|] eqn:E; [intros [= <-]; eauto|].
  destruct (JWKSForDomain (a_domain a)) as [[[keys|]|]|]; simpl; try done. intros [= <-]. eauto 6.
Qed.

(** What [NewAuthenticator] returns without an error. *)
Lemma NewAuthenticator_ok domain audience (static : option (JWKS Key)) a :
  NewAuthenticator domain audience (match static with Some s => [StaticJWKS (Some s)] | None => [] end)
    = Ret (a, None) ->
  exists set, a_jwks a = Some set /\ ensureHTTPS domain = Ret (a_domain a) /\
    ensureHTTPS audience = Ret (a_audience a) /\
    (static = None -> forall keys k, set = Some keys -> k ∈ keys ->
       k_Algorithm k = "RS256" /\ k_Use k = "sig" /\ exists rest, k_Certificates k = ("CN=" +:+ domain) :: rest).
Proof.
  unfold NewAuthenticator. destruct (ensureHTTPS domain) as [d|]; [|done].
  destruct (ensureHTTPS audience) as [au|]; [|done].
  destruct static as [s|]; intros (set & -> & Hset)%refresh_ok; exists set; split_and!; try done.
  intros _ keys k -> Hk. destruct Hset as [Hset|(_ & all & Hset)]; [done|]. injection Hset as ->.
  apply list_elem_of_In, filter_In in Hk as [_ Hk]. by apply keep_key_true in Hk.
Qed.

Lemma CheckJWT_iff verifies `{!JoseLaws J verifies} a set token :
  a_jwks a = Some set -> a_domain a <> "" ->
  CheckJWT a token = Ret None <->
  exists tok c, ParseSigned token = Ok tok /\ tok_Claims tok set = Ok c /\
    c_Issuer c = a_domain a /\ a_audience a ∈ c_Audience c.
Proof.
  intros Ha Hd. unfold CheckJWT. rewrite Ha. destruct (ParseSigned token) as [tok|];
    [|split; [done|by intros (? & ? & ? & ?)]].
  destruct (tok_Claims tok set) as [c|] eqn:E.
  2: { split; [done|]. intros (? & ? & ? & ? & _). congruence. }
  pose proof (validate_ok c (mkExpected (a_domain a) [a_audience a] None)) as HV. simpl in HV.
  rewrite Forall_singleton in HV. split.
  - intros [= [[?|?] [? _]]%HV]; [done|eauto 6].
  - intros (tok' & c' & HT & HC & HI & HA). f_equal. apply HV. split_and!; [right|..]; congruence.
Qed.

End auth0.

(** ** Properties *)

(** C17 An authenticator built with the default options, or with a static key
    set, accepts a token exactly when it parses, the key set yields its claims,
    the issuer is the https form of the domain and the https form of the
    audience is among its audiences; nothing else about the claims matters, in
    particular neither their expiry nor their not-before time.  An accepted
    token is signed by a key of the set, and when the set was fetched that key
    is an RS256 key for signatures certified by the domain.  With a fetched set
    no token of an auth0 tenant is accepted: its keys are certified by the name
    of the tenant, and its issuer is the name with a slash, so that the domain
    given without the slash is not the issuer, and the one given with it is not
    the name in the certificates. *)
Theorem CheckJWT_decides {Key Tok} `{J : !Jose Key Tok} verifies `{!JoseLaws J verifies}
    ip_literal http_Get decode domain audience (static : option (JWKS Key)) a token :
  let opts := match static with Some s => [StaticJWKS (Some s)] | None => [] end in
  NewAuthenticator ip_literal http_Get decode domain audience opts = Ret (a, None) ->
  exists set, a_jwks a = Some set /\
    ensureHTTPS ip_literal domain = Ret (a_domain a) /\
    ensureHTTPS ip_literal audience = Ret (a_audience a) /\
    (CheckJWT a token = Ret None <->
       exists tok c, ParseSigned token = Ok tok /\ tok_Claims tok set = Ok c /\
         c_Issuer c = a_domain a /\ a_audience a ∈ c_Audience c) /\
    (CheckJWT a token = Ret None ->
       exists tok c keys k, ParseSigned token = Ok tok /\ set = Some keys /\ k ∈ keys /\
         verifies (k_Key k) tok c /\
         (static = None -> k_Algorithm k = "RS256" /\ k_Use k = "sig" /\
            exists rest, k_Certificates k = ("CN=" +:+ domain) :: rest)) /\
    (static = None -> forall name, str_forallb plain_byte name = true -> HasPrefix name "/" = false -> name <> "" ->
       domain = name \/ domain = name +:+ "/" ->
       (forall keys k, set = Some keys -> k ∈ keys -> head (k_Certificates k) = Some ("CN=" +:+ name)) ->
       (forall tok c, ParseSigned token = Ok tok -> tok_Claims tok set = Ok c -> c_Issuer c = "https://" +:+ name +:+ "/") ->
       CheckJWT a token <> Ret None).
Proof.
  intros opts HN. destruct (NewAuthenticator_ok _ _ _ _ _ _ _ HN) as (set & Ha & Hdom & Haud & Hkeys).
  assert (Hd := ensureHTTPS_nonempty _ _ _ Hdom).
  exists set. rewrite (CheckJWT_iff verifies a set token Ha Hd). split_and!; [done..| |].
  - intros (tok & c & HP & HC & _). destruct (claims_verified tok set c HC) as (keys & k & -> & Hk & Hv).
    exists tok, c, keys, k. split_and!; [done..|]. intros ->. by apply (Hkeys eq_refl keys).
  - intros -> name Hpl Hpre Hne Hname Hcert Hiss (tok & c & HP & HC & HI & _)%(CheckJWT_iff verifies a set token Ha Hd).
    destruct (claims_verified tok set c HC) as (keys & k & -> & Hk & _).
    destruct (Hkeys eq_refl keys k eq_refl Hk) as (_ & _ & rest & Hc). specialize (Hcert keys k eq_refl Hk).
    rewrite Hc in Hcert. simpl in Hcert. injection Hcert as Hcn. destruct Hname as [->| ->].
    + rewrite ensureHTTPS_name in Hdom by done. injection Hdom as Hdom. rewrite (Hiss tok c HP HC), <- Hdom in HI.
      simpl in HI. injection HI as HI. apply (f_equal slen) in HI. rewrite slen_app in HI. simpl in HI. lia.
    + apply (f_equal slen) in Hcn. rewrite slen_app in Hcn. simpl in Hcn. lia.
Qed.

(** A key signs the token [iss/aud/exp] for itself: the token is its claims. *)
Module ToyJose.
#[global] Instance toy : Jose string Claims := {|
  ParseSigned s := if bool_decide (s = "") then Err (errors_New "empty")
                   else Ok (mkClaims ("https://" +:+ s) ["https://api"] (Some 0%Z) None);
  tok_Claims t set := match set with
                      | Some (k :: _) => Ok t
                      | _ => Err (errors_New "no key")
                      end;
  claims_Validate c e :=
    if (bool_decide (e_Issuer e = "") || bool_decide (c_Issuer c = e_Issuer e))
       && bool_decide (Forall (.∈ c_Audience c) (e_Audience e))
       && match e_Time e with
          | None => true
          | Some t => match c_NotBefore c with Some x => (x <=? t + 60)%Z | None => true end
                      && match c_Expiry c with Some x => (t - 60 <=? x)%Z | None => true end
          end
    then None else Some (errors_New "invalid")
|}.

#[global] Instance toy_laws : JoseLaws toy (fun _ t c => t = c).
Proof.
  split.
  - intros tok [[|k l]|] c; simpl; try done. intros [= ->]. exists (k :: l), k. split_and!; [done|by left|done].
  - intros c e. simpl.
    match goal with |- (if ?b then _ else _) = None <-> ?R => assert (H : b = true <-> R) end.
    { rewrite !andb_true_iff, orb_true_iff, !bool_decide_eq_true.
      match goal with |- (_ /\ ?b = true) <-> (_ /\ _ /\ ?R) => assert (HT : b = true <-> R) end; [|tauto].
      destruct (e_Time e) as [t|]; [|naive_solver].
      destruct (c_NotBefore c), (c_Expiry c); rewrite ?andb_true_iff, ?Z.leb_le; naive_solver. }
    rewrite <- H. by destruct (_ && _ && _).
Qed.

Definition keys : list (JWK string) :=
  [mkJWK "HS256" "sig" [] "k0"; mkJWK "RS256" "sig" ["CN=example.com"] "k1"].
End ToyJose.

(** A token that expired at time 0 is accepted. *)
Lemma CheckJWT_decides_witness :
  exists a, NewAuthenticator (fun _ => true) (fun _ => Ok (200%Z, "keys")) (fun _ => Ok (Some ToyJose.keys))
      "example.com" "api" [] = Ret (a, None) /\
    CheckJWT a "example.com" = Ret None /\ CheckJWT a "other.com" <> Ret None.
Proof.
  eexists. split; [vm_compute; reflexivity|].
  match goal with |- CheckJWT ?a _ = _ /\ _ => set (a0 := a) end.
  pose proof (fun t => CheckJWT_decides (fun _ t c => t = c) (fun _ => true) (fun _ => Ok (200%Z, "keys"))
    (fun _ => Ok (Some ToyJose.keys)) "example.com" "api" None a0 t) as H. simpl in H.
  split.
  - destruct (H "example.com") as (set & Hset & _ & _ & HC & _); [vm_compute; reflexivity|].
    apply HC. do 2 eexists. injection Hset as <-. split_and!; [done|done|done|by left].
  - destruct (H "other.com") as (set & Hset & _ & _ & HC & _); [vm_compute; reflexivity|].
    intros (tok & c & HP & HT & HI & _)%HC. injection HP as <-. injection Hset as <-. injection HT as <-. done.
Defined.
