(* ===== verification/Passkeys.v ===== *)
(** * webauth/webauthn/passkeys: passkey registration and login

Models [user.go], [session.go], [user_db.go], [cookies.go], [middleware.go] and
the handlers of [passkeys.go].  The WebAuthn library, the JSON codec of its
types, the random source and the clock are parameters.  The handlers are
written against the interfaces [SessionManager], [UserDatabase] and
[LoginManager], as in the source; the in-memory implementations and the
JWT cookie login manager are instances. *)

From S2P Require Import Prelude GoStrings GoErrors GoHTTP GoEncoding Cookies JsonAPI JWTUtil.

(** ** user.go: user IDs, 64-byte arrays *)

Definition uid_String (u : string) : string := RawURL_Encode u.

Definition uid_MarshalText (u : string) : res string := Ok (RawURL_Encode u).

(** The decoder writes into the 64-byte array itself. *)
Definition uid_UnmarshalText (text : string) : go (res string) :=
  r ← RawURL_Decode 64 text;
  Ret (match r with
       | Err e => Err (Errorf "failed to parse uid from text: %w" [] [e])
       | Ok b => if negb (Nat.eqb (slen b) 64)
                 then Err (Errorf "invalid length for uid: %d, expected 64" [Itoa (slen b)] [])
                 else Ok b
       end).

Definition uid_UnmarshalBinary (b : string) : res string :=
  if negb (Nat.eqb (slen b) 64)
  then Err (Errorf "invalid byte slice length for uid: %d, expected 64" [Itoa (slen b)] [])
  else Ok b.

Definition UserIDFromBytes (b : string) : res string :=
  match uid_UnmarshalBinary b with
  | Err e => Err (Errorf "failed to create UserID from bytes: %w" [] [e])
  | Ok id => Ok id
  end.

Definition UserIDFromString (s : string) : go (res string) :=
  r ← uid_UnmarshalText s;
  Ret (match r with
       | Err e => Err (Errorf "failed to create UserID from string: %w" [] [e])
       | Ok id => Ok id
       end).

Definition ParseUID (uid : string) : go (res string) :=
  r ← uid_UnmarshalText uid;
  Ret (match r with
       | Err e => Err (Errorf "failed to parse UserID from string: %w" [] [e])
       | Ok id => Ok id
       end).

(** ** user.go: users *)
Section user.
Context {Cred : Type} (cred_ID : Cred -> string).

Record User := mkUser { u_id : string; u_email : string; u_displayName : string; u_credentials : list Cred }.

(** [rnd] is what [rand.Read] put in the array, or its error. *)
Definition NewUser (rnd : res string) (email displayName : string) : res User :=
  match rnd with
  | Err e => Err (Errorf "failed to generate random user ID: %w" [] [e])
  | Ok b => if negb (Nat.eqb (slen b) 64)
            then Err (Errorf "failed to generate enough random data: got %v, want 64" [Itoa (slen b)] [])
            else Ok (mkUser b email displayName [])
  end.

Definition User_ID (u : User) : string := u_id u.

Fixpoint update_first (l : list Cred) (cred : Cred) : option (list Cred) :=
  match l with
  | [] => None
  | c :: l' =>
      if bool_decide (cred_ID c = cred_ID cred) then Some (cred :: l')
      else match update_first l' cred with Some l'' => Some (c :: l'') | None => None end
  end.

Definition UpdateCredential (u : User) (cred : Cred) : User * bool :=
  match update_first (u_credentials u) cred with
  | Some l => (mkUser (u_id u) (u_email u) (u_displayName u) l, true)
  | None => (u, false)
  end.

Definition AddCredential (u : User) (cred : Cred) : User :=
  mkUser (u_id u) (u_email u) (u_displayName u) (u_credentials u ++ [cred]).

Definition WebAuthnID (u : User) : string := u_id u.
Definition WebAuthnName (u : User) : string := u_email u.
Definition WebAuthnDisplayName (u : User) : string := u_displayName u.
Definition WebAuthnCredentials (u : User) : list Cred := u_credentials u.

End user.
#[global] Arguments User Cred : clear implicits.
#[global] Arguments mkUser {Cred}.

(** ** Interfaces *)

(** [SessionManager]; [rnd] is the outcome of reading the random source. *)
Class SessionManager (Cred Sess S : Type) := {
  Registering : res string -> User Cred -> option Sess -> S -> res (string * bool) * S;
  Registered : string -> S -> res (option (User Cred) * option Sess) * S;
  Authenticating : res string -> option Sess -> S -> res string * S;
  Authenticated : string -> S -> res (option Sess) * S
}.

Class UserDatabase (Cred D : Type) := {
  Store : User Cred -> D -> option error * D;
  Lookup : string -> D -> res (User Cred)
}.

(** [LoginManager]; [AuthenticateUser] parses a user ID, which can panic. *)
Class LoginManager := {
  UserAuthenticated : Z -> Request -> rw -> string -> option error * rw;
  AuthenticateUser : Z -> Request -> go (res string)
}.

(** ** session.go *)
Section ram.
Context {Cred Sess : Type}.

Record sessionState := mkSessionState { ss_user : option (User Cred); ss_session : option Sess }.

(** [base64.URLEncoding], with padding. *)
Definition URL_Encode (s : string) : string :=
  RawURL_Encode s +:+ match (slen s mod 3)%nat with 1 => "==" | 2 => "=" | _ => "" end.

Definition generateSecureRandomString (rnd : res string) (length : nat) : res string :=
  match rnd with
  | Err e => Err e
  | Ok b => Ok (str_take length (URL_Encode b))
  end.

Abbreviation sessions := (gmap string sessionState).

Definition sm_Registering (rnd : res string) (user : User Cred) (sessionData : option Sess) (sm : sessions)
  : res (string * bool) * sessions :=
  match generateSecureRandomString rnd 32 with
  | Err e => (Err e, sm)
  | Ok tmpKey => (Ok (tmpKey, false), <[tmpKey := mkSessionState (Some user) sessionData]> sm)
  end.

Definition sm_Registered (tmpKey : string) (sm : sessions)
  : res (option (User Cred) * option Sess) * sessions :=
  match sm !! tmpKey with
  | None => (Err (errors_New "session not found"), sm)
  | Some data => (Ok (ss_user data, ss_session data), delete tmpKey sm)
  end.

Definition sm_Authenticating (rnd : res string) (sessionData : option Sess) (sm : sessions)
  : res string * sessions :=
  match generateSecureRandomString rnd 32 with
  | Err e => (Err e, sm)
  | Ok tmpKey => (Ok tmpKey, <[tmpKey := mkSessionState None sessionData]> sm)
  end.

Definition sm_Authenticated (tmpKey : string) (sm : sessions) : res (option Sess) * sessions :=
  match sm !! tmpKey with
  | None => (Err (errors_New "session not found"), sm)
  | Some data => (Ok (ss_session data), delete tmpKey sm)
  end.

(** ** user_db.go *)
Abbreviation users := (gmap string (User Cred)).

Definition um_Store (user : User Cred) (um : users) : option error * users :=
  (None, <[uid_String (User_ID user) := user]> um).

Definition um_Lookup (userID : string) (um : users) : res (User Cred) :=
  match um !! uid_String userID with
  | None => Err (errors_New "user not found")
  | Some user => Ok user
  end.

(** [NewRAMUserDatabase] *)
Definition NewRAMUserDatabase : sessions * users := (∅, ∅).

#[global] Instance ram_sessions : SessionManager Cred Sess sessions := {|
  Registering := sm_Registering; Registered := sm_Registered;
  Authenticating := sm_Authenticating; Authenticated := sm_Authenticated |}.

#[global] Instance ram_users : UserDatabase Cred users := {| Store := um_Store; Lookup := um_Lookup |}.

End ram.
#[global] Arguments sessionState : clear implicits.

(** ** cookies.go *)
Definition AuthenticationCookie : string := "webauthn_authentication".
Definition RegistrationCookie : string := "webauthn_registration".

Definition Minute : Z := 60000000000.

(** ** middleware.go: JWTCookieLoginManager *)
Section login.
Context {V Key KeySet : Type} `{J : !JWX V Key KeySet}.

Record JWTCookieLoginManager := mkLM {
  lm_signer : Signer V Key; lm_issuer : string; lm_audience : list string;
  lm_loginCookie : ScopeAndDuration; lm_LoginCookie : string
}.

Definition NewJWTCookieLoginManager (signer : Signer V Key) (issuer : string) (cookie : ScopeAndDuration)
  : JWTCookieLoginManager :=
  mkLM signer issuer ["webauthn"] (SetDefaults cookie "" "/" (10 * Minute)) "webauthn_login".

Definition jwt_UserAuthenticated (m : JWTCookieLoginManager) (now : Z) (r : Request) (w : rw) (user : string)
  : option error * rw :=
  let builder := [Issuer (lm_issuer m); Audience (lm_audience m); Subject (uid_String user);
                  Expiration (now + Duration (lm_loginCookie m))%Z; NotBefore now] in
  match jwt_Build (Key:=Key) (KeySet:=KeySet) builder with
  | Err e => (Some (Errorf "failed to create token: %v" [] []), w)
  | Ok token =>
      match s_Sign (lm_signer m) token with
      | Err e => (Some e, w)
      | Ok tokenString =>
          (None, (Secure_Set (lm_LoginCookie m) w
                    (ScopeAndDuration_Cookie (lm_loginCookie m) now tokenString)).2)
      end
  end.

Definition jwt_AuthenticateUser (m : JWTCookieLoginManager) (now : Z) (r : Request) : go (res string) :=
  let '(tokenString, ok) := Secure_Read (lm_LoginCookie m) r in
  if negb ok then Ret (Err (errors_New "missing authentication cookie"))
  else
    let validationOptions := WithIssuer (lm_issuer m) :: map WithAudience (lm_audience m) in
    match v_ParseAndValidate (s_validator (lm_signer m)) now tokenString validationOptions with
    | Err e => Ret (Err e)
    | Ok token =>
        match tk_sub token with
        | None => Ret (Err (errors_New "missing subject"))
        | Some subject => UserIDFromString subject
        end
    end.

#[local] Instance jwt_login_manager (m : JWTCookieLoginManager) : LoginManager := {|
  UserAuthenticated := jwt_UserAuthenticated m; AuthenticateUser := jwt_AuthenticateUser m |}.

End login.

(** ** passkeys.go *)

(** [BeginRegistrationRequest] *)
Record BeginRegistrationRequest := mkBRR { Email : string; DisplayName : string }.

(** A [webauthn.User] value: a [*User] of this package or something else. *)
Inductive wuser (Cred : Type) := PasskeyUser (u : User Cred) | OtherUser.
Arguments PasskeyUser {Cred}. Arguments OtherUser {Cred}.

(** The interface [WebAuthn]. *)
Class WebAuthn (Cred Sess Creation Assertion : Type) := {
  BeginMediatedRegistration : User Cred -> string -> list string -> res (Creation * option Sess);
  wa_FinishRegistration : User Cred -> Sess -> Request -> res Cred;
  BeginDiscoverableMediatedLogin : string -> res (Assertion * option Sess);
  FinishPasskeyLogin : (string -> string -> res (User Cred)) -> Sess -> Request -> res (wuser Cred * Cred)
}.

Record poptions := mkPOptions {
  o_logger : option string;
  o_sessionCookie : ScopeAndDuration;
  o_emailValidator : option (string -> option error);
  o_mediationRequirement : string;
  o_registrationOptions : list string
}.

Definition WithLogger (l : option string) : poptions -> poptions := fun o =>
  mkPOptions l (o_sessionCookie o) (o_emailValidator o) (o_mediationRequirement o) (o_registrationOptions o).

Definition WithEmailValidator (v : option (string -> option error)) : poptions -> poptions := fun o =>
  mkPOptions (o_logger o) (o_sessionCookie o) v (o_mediationRequirement o) (o_registrationOptions o).

Definition WithMediation (m : string) : poptions -> poptions := fun o =>
  mkPOptions (o_logger o) (o_sessionCookie o) (o_emailValidator o) m (o_registrationOptions o).

Definition WithRegistrationOptions (ro : list string) : poptions -> poptions := fun o =>
  mkPOptions (o_logger o) (o_sessionCookie o) (o_emailValidator o) (o_mediationRequirement o) ro.

Definition WithSessionCookieScopeAndDuration (ck : ScopeAndDuration) : poptions -> poptions := fun o =>
  mkPOptions (o_logger o) ck (o_emailValidator o) (o_mediationRequirement o) (o_registrationOptions o).

(** The options part of [NewHandler]; the managers are the class arguments of
    the handlers. *)
Definition NewHandler (opts : list (poptions -> poptions)) : poptions :=
  let o := fold_left (fun o fn => fn o) opts (mkPOptions None (mkScope "" "" 0) None "" []) in
  let o := WithSessionCookieScopeAndDuration (SetDefaults (o_sessionCookie o) "" "/" (10 * Minute)) o in
  match o_logger o with None => WithLogger (Some "discard") o | Some _ => o end.

Section handlers.
Context {Cred Sess Creation Assertion S D : Type} (cred_ID : Cred -> string).
Context `{WA : !WebAuthn Cred Sess Creation Assertion} `{SM : !SessionManager Cred Sess S}.
Context `{UM : !UserDatabase Cred D} `{LM : !LoginManager}.
(** The JSON codec of the endpoints' types. *)
Variable decode_brr : Body -> res BeginRegistrationRequest * option error.
Variable encode_creation : Creation -> res string.
Variable encode_assertion : Assertion -> res string.

(** The state a handler acts on; [h_auth] lists the user IDs passed to
    [LoginManager.UserAuthenticated]. *)
Record hworld := mkHW { h_rw : rw; h_sm : S; h_um : D; h_auth : list string }.

Definition set_rw (w : hworld) (x : rw) : hworld := mkHW x (h_sm w) (h_um w) (h_auth w).

Definition fail (w : hworld) (msg : string) (status : Z) : go hworld :=
  Ret (set_rw w (WriteErrorMsg (h_rw w) msg status)).

Definition BeginRegistration (h : poptions) (rnd_id rnd_key : res string) (now : Z) (r : Request)
    (w : hworld) : go hworld :=
  match r_Body r with
  | None => Panic NilDereference
  | Some body =>
      let '(req, x) := ParseRequest decode_brr (h_rw w) body in
      let w := set_rw w x in
      match req with
      | Err _ => fail w "failed to parse request" StatusBadRequest
      | Ok req =>
          match (match o_emailValidator h with Some v => v (Email req) | None => None end) with
          | Some _ => fail w "invalid email address" StatusBadRequest
          | None =>
              match NewUser rnd_id (Email req) (DisplayName req) with
              | Err _ => fail w "failed to create user" StatusInternalServerError
              | Ok user =>
                  match BeginMediatedRegistration user (o_mediationRequirement h) (o_registrationOptions h) with
                  | Err _ => fail w "failed to begin mediated registration" StatusInternalServerError
                  | Ok (creds, session) =>
                      let '(reg, sm) := Registering rnd_key user session (h_sm w) in
                      let w := mkHW (h_rw w) sm (h_um w) (h_auth w) in
                      match reg with
                      | Err _ => fail w "failed to begin registration" StatusInternalServerError
                      | Ok (tmpKey, exists_) =>
                          if (exists_ : bool) then fail w "user already registered" StatusConflict
                          else
                            let w := set_rw w (Secure_Set RegistrationCookie (h_rw w)
                                       (ScopeAndDuration_Cookie (o_sessionCookie h) now tmpKey)).2 in
                            Ret (set_rw w (WriteResponse encode_creation (h_rw w) creds).2)
                      end
                  end
              end
          end
      end
  end.

Definition FinishRegistration (r : Request) (w : hworld) : go hworld :=
  let '(sessionKey, ok, x) := Secure_ReadAndClear RegistrationCookie (h_rw w) r in
  let w := set_rw w x in
  if negb ok then fail w "missing registration cookie" StatusBadRequest
  else
    let '(reg, sm) := Registered sessionKey (h_sm w) in
    let w := mkHW (h_rw w) sm (h_um w) (h_auth w) in
    match reg with
    | Err _ => fail w "failed to retrieve session data" StatusInternalServerError
    | Ok (Some user, Some sessionData) =>
        match wa_FinishRegistration user sessionData r with
        | Err _ => fail w "failed to finish registration" StatusBadRequest
        | Ok cred =>
            let user := AddCredential user cred in
            let '(e, um) := Store user (h_um w) in
            let w := mkHW (h_rw w) (h_sm w) um (h_auth w) in
            match e with
            | Some _ => fail w "failed to store user" StatusInternalServerError
            | None => Ret w
            end
        end
    | Ok (_, _) => fail w "invalid session data" StatusBadRequest
    end.

Definition BeginDiscoverableAuthentication (h : poptions) (rnd_key : res string) (now : Z) (w : hworld)
  : go hworld :=
  match BeginDiscoverableMediatedLogin "" with
  | Err _ => fail w "failed to begin discoverable authentication" StatusInternalServerError
  | Ok (options, session) =>
      let '(auth, sm) := Authenticating rnd_key session (h_sm w) in
      let w := mkHW (h_rw w) sm (h_um w) (h_auth w) in
      match auth with
      | Err _ => fail w "failed to begin authenticating" StatusInternalServerError
      | Ok tmpKey =>
          let w := set_rw w (Secure_Set AuthenticationCookie (h_rw w)
                     (ScopeAndDuration_Cookie (o_sessionCookie h) now tmpKey)).2 in
          Ret (set_rw w (WriteResponse encode_assertion (h_rw w) options).2)
      end
  end.

(** The callback that [FinishAuthentication] hands to the WebAuthn library. *)
Definition user_handler (um : D) (_ userHandle : string) : res (User Cred) :=
  match UserIDFromBytes userHandle with
  | Err e => Err (Errorf "invalid user handle: %w" [] [e])
  | Ok uid =>
      match Lookup uid um with
      | Err e => Err (Errorf "failed to lookup user: %w" [] [e])
      | Ok user => Ok user
      end
  end.

Definition FinishAuthentication (now : Z) (r : Request) (w : hworld) : go hworld :=
  let '(sessionKey, ok, x) := Secure_ReadAndClear AuthenticationCookie (h_rw w) r in
  let w := set_rw w x in
  if negb ok then fail w "missing authentication cookie" StatusBadRequest
  else
    let '(auth, sm) := Authenticated sessionKey (h_sm w) in
    let w := mkHW (h_rw w) sm (h_um w) (h_auth w) in
    match auth with
    | Err _ => fail w "failed to retrieve session data" StatusInternalServerError
    | Ok None => Panic NilDereference
    | Ok (Some session) =>
        match FinishPasskeyLogin (user_handler (h_um w)) session r with
        | Err _ => fail w "failed to finish discoverable login" StatusInternalServerError
        | Ok (OtherUser, _) => fail w "internal server error" StatusInternalServerError
        | Ok (PasskeyUser pu, cred) =>
            let '(pu, updated) := UpdateCredential cred_ID pu cred in
            if negb updated then fail w "failed to update credential" StatusInternalServerError
            else
              let '(e, um) := Store pu (h_um w) in
              let w := mkHW (h_rw w) (h_sm w) um (h_auth w) in
              match e with
              | Some _ => fail w "failed to store user" StatusInternalServerError
              | None =>
                  let '(e, x) := UserAuthenticated now r (h_rw w) (User_ID pu) in
                  let w := mkHW x (h_sm w) (h_um w) (h_auth w ++ [User_ID pu]) in
                  match e with
                  | Some _ => fail w "failed to set authenticated session" StatusInternalServerError
                  | None => Ret w
                  end
              end
        end
    end.

Definition VerifyAuthentication (now : Z) (r : Request) (w : hworld) : go hworld :=
  uid ← AuthenticateUser now r;
  match uid with
  | Err _ => fail w "failed to authenticate user" StatusUnauthorized
  | Ok uid =>
      match Lookup uid (h_um w) with
      | Err _ => fail w "failed to lookup user" StatusInternalServerError
      | Ok _ => Ret w
      end
  end.

End handlers.

#[global] Arguments hworld : clear implicits.
#[global] Arguments mkHW {S D}.

(** ** Lemmas *)

Lemma UserIDFromBytes_Ok b uid : UserIDFromBytes b = Ok uid <-> b = uid /\ slen b = 64%nat.
Proof.
  unfold UserIDFromBytes, uid_UnmarshalBinary. destruct (Nat.eqb_spec (slen b) 64); simpl; naive_solver.
Qed.

Lemma UserID_roundtrip_lemma u : slen u = 64%nat -> UserIDFromString (uid_String u) = Ret (Ok u).
Proof.
  intros Hu. unfold UserIDFromString, uid_UnmarshalText, uid_String. rewrite RawURL_roundtrip by lia. simpl.
  by rewrite Hu.
Qed.

Lemma b64_overlong s cap : (cap < slen s)%nat -> b64_quanta cap (RawURL_Encode s) = Panic IndexOutOfRange.
Proof.
  revert cap. induction s as [|[]|[] []|[] [] [] s IH] using string_ind3; intros cap Hc; [simpl in Hc; lia|..].
  - simpl. rewrite !sextet_val_char. by destruct cap; [|simpl in Hc; lia].
  - simpl. rewrite !sextet_val_char. by destruct cap as [|[]]; [..|simpl in Hc; lia].
  - cbn [RawURL_Encode b64_quanta]. rewrite !sextet_val_char. unfold slen in Hc. simpl in Hc.
    destruct (Nat.leb_spec 3 cap); [|done]. by rewrite IH by (unfold slen; lia).
Qed.

Lemma um_Store_Lookup {Cred} (u : User Cred) um um' e uid :
  um_Store u um = (e, um') -> um_Lookup uid um' = if bool_decide (uid = u_id u) then Ok u else um_Lookup uid um.
Proof.
  intros [= <- <-]. unfold um_Lookup, uid_String, User_ID. case_bool_decide as Hu.
  - subst. by simplify_map_eq.
  - rewrite lookup_insert_ne; [done|]. intros Heq. by apply Hu, RawURL_Encode_inj.
Qed.

Lemma update_first_Some {Cred} (cred_ID : Cred -> string) l c l' :
  update_first cred_ID l c = Some l' <->
  exists l1 x l2, l = l1 ++ x :: l2 /\ l' = l1 ++ c :: l2 /\ cred_ID x = cred_ID c /\
    Forall (fun y => cred_ID y <> cred_ID c) l1.
Proof.
  revert l'. induction l as [|y l IH]; intros l'; simpl.
  { split; [done|]. intros ([|??] & ? & ? & ? & _); done. }
  case_bool_decide as Hy.
  - split; [intros [= <-]; exists [], y, l; eauto|].
    intros ([|z l1] & x & l2 & ? & -> & ? & HF); simplify_eq/=; [done|]. by inversion HF.
  - destruct (update_first cred_ID l c) as [l0|].
    + split.
      * intros [= <-]. destruct (proj1 (IH l0) eq_refl) as (l1 & x & l2 & -> & -> & ? & ?).
        exists (y :: l1), x, l2. repeat split; auto.
      * intros ([|z l1] & x & l2 & ? & -> & ? & HF); simplify_eq/=.
        assert (Some l0 = Some (l1 ++ c :: l2)) as [= ->]; [|done].
        apply IH. inversion HF. exists l1, x, l2. auto.
    + split; [done|]. intros ([|z l1] & x & l2 & ? & -> & ? & HF); simplify_eq/=.
      exfalso. assert (@None (list Cred) = Some (l1 ++ c :: l2)); [|done].
      apply IH. inversion HF. exists l1, x, l2. auto.
Qed.

(** Reading a cookie that the request carries once. *)
Lemma ReadAndClear_found c w r k :
  valid_name c = true -> r_Cookies r = [(c, k)] ->
  exists ck, Secure_ReadAndClear c w r = (k, true, SetCookie ck w).
Proof.
  intros Hc Hr. unfold Secure_ReadAndClear, readAndClearCookie, Request_Cookie.
  rewrite Hr. case_bool_decide; [by subst|]. simpl. rewrite decide_True by done. simpl. eauto.
Qed.

Lemma Write_panic_false d w : rw_panic w = false -> rw_panic (Write d w) = false.
Proof.
  intros Hp. unfold Write. go_case.
  all: unfold WriteHeader; rewrite Hp; go_case.
Qed.

(** ** Properties *)

(** C16 User IDs round trip: a 64-byte ID is recovered from its text form and
    from its bytes, without panicking, and distinct IDs have distinct text
    forms (the keys of the user database).  The text form of anything longer
    is not rejected with an error: decoding it runs off the 64-byte array and
    panics. *)
Theorem UserID_roundtrip u v b :
  slen u = 64%nat -> slen v = 64%nat ->
  UserIDFromString (uid_String u) = Ret (Ok u) /\ UserIDFromBytes u = Ok u /\
  (uid_String u = uid_String v -> u = v) /\
  ((64 < slen b)%nat ->
     UserIDFromString (RawURL_Encode b) = Panic IndexOutOfRange /\
     ParseUID (RawURL_Encode b) = Panic IndexOutOfRange).
Proof.
  intros Hu Hv. split_and!.
  - by apply UserID_roundtrip_lemma.
  - by apply UserIDFromBytes_Ok.
  - apply RawURL_Encode_inj.
  - intros Hb. unfold UserIDFromString, ParseUID, uid_UnmarshalText, RawURL_Decode.
    by rewrite RawURL_Encode_filter, b64_overlong.
Qed.

Lemma UserID_roundtrip_witness :
  UserIDFromString (uid_String (zeros 64)) = Ret (Ok (zeros 64)) /\
  UserIDFromString (RawURL_Encode (zeros 65)) = Panic IndexOutOfRange.
Proof.
  pose proof (UserID_roundtrip (zeros 64) (zeros 64) (zeros 65) eq_refl eq_refl) as (H & _ & _ & HP).
  split; [exact H|]. apply HP. vm_compute. lia.
Defined.

(** [UpdateCredential] replaces exactly the first credential with the same
    ID and keeps all others in place; it reports failure, and changes nothing,
    exactly when the user has no credential with that ID. *)
Theorem UpdateCredential_spec {Cred} (cred_ID : Cred -> string) (u u' : User Cred) c :
  (UpdateCredential cred_ID u c = (u', true) <->
     exists l1 x l2, u_credentials u = l1 ++ x :: l2 /\
       u' = mkUser (u_id u) (u_email u) (u_displayName u) (l1 ++ c :: l2) /\
       cred_ID x = cred_ID c /\ Forall (fun y => cred_ID y <> cred_ID c) l1) /\
  (UpdateCredential cred_ID u c = (u', false) <->
     u' = u /\ Forall (fun y => cred_ID y <> cred_ID c) (u_credentials u)).
Proof.
  unfold UpdateCredential. destruct (update_first cred_ID (u_credentials u) c) as [l|] eqn:E; split.
  - split.
    + intros [= <-]. apply update_first_Some in E as (l1 & x & l2 & Hl & -> & Hx & HF). eauto 10.
    + intros (m1 & y & m2 & Hm & -> & Hy & HG).
      assert (H2 : update_first cred_ID (u_credentials u) c = Some (m1 ++ c :: m2))
        by (apply update_first_Some; eauto 10).
      congruence.
  - apply update_first_Some in E as (l1 & x & l2 & Hl & -> & Hx & HF). split; [done|].
    intros [_ HG]. rewrite Hl in HG. apply Forall_app in HG as [_ HG]. by inversion HG.
  - split; [done|]. intros (l1 & x & l2 & Hl & _ & Hx & HF).
    exfalso. rewrite (proj2 (update_first_Some cred_ID _ c (l1 ++ c :: l2))) in E by eauto 10. done.
  - split; [intros [= <-]|by intros [-> _]]. split; [done|].
    induction (u_credentials u) as [|y l IH]; [constructor|]. simpl in E.
    case_bool_decide; [done|]. constructor; [done|]. apply IH. by destruct (update_first cred_ID l c).
Qed.

Section ram_properties.
Context {Cred Sess Creation Assertion : Type} (cred_ID : Cred -> string).
Context `{WA : !WebAuthn Cred Sess Creation Assertion} `{LM : !LoginManager}.
Abbreviation HW := (hworld (gmap string (sessionState Cred Sess)) (gmap string (User Cred))).

Lemma fail_sm (w w' : HW) m s : fail w m s = Ret w' -> h_sm w' = h_sm w /\ h_um w' = h_um w /\ h_auth w' = h_auth w.
Proof. intros [= <-]. done. Qed.

Lemma sm_Registered_gone k (sm sm' : gmap string (sessionState Cred Sess)) x :
  sm_Registered k sm = (x, sm') -> sm' !! k = None.
Proof. unfold sm_Registered. case_match; intros [= <- <-]; [by simplify_map_eq|done]. Qed.

Lemma sm_Authenticated_gone k (sm sm' : gmap string (sessionState Cred Sess)) x :
  sm_Authenticated k sm = (x, sm') -> sm' !! k = None.
Proof. unfold sm_Authenticated. case_match; intros [= <- <-]; [by simplify_map_eq|done]. Qed.

Lemma FinishRegistration_sm (r : Request) (w w' : HW) k x :
  Secure_ReadAndClear RegistrationCookie (h_rw w) r = (k, true, x) ->
  FinishRegistration r w = Ret w' ->
  h_sm w' = (sm_Registered k (h_sm w)).2 /\ (h_sm w !! k = None -> h_um w' = h_um w).
Proof.
  intros Hk. unfold FinishRegistration. rewrite Hk. simpl.
  destruct (sm_Registered k (h_sm w)) as [reg sm] eqn:E. simpl. intros HF.
  assert (h_sm w' = sm) as ->.
  { revert HF. repeat (case_match; simplify_eq/=); by intros [= <-]. }
  split; [done|]. intros Hn. revert HF. unfold sm_Registered in E. rewrite Hn in E.
  injection E as <- <-. by intros [= <-].
Qed.

Lemma FinishAuthentication_sm now (r : Request) (w w' : HW) k x :
  Secure_ReadAndClear AuthenticationCookie (h_rw w) r = (k, true, x) ->
  FinishAuthentication cred_ID now r w = Ret w' ->
  h_sm w' = (sm_Authenticated k (h_sm w)).2 /\
  (h_sm w !! k = None -> h_um w' = h_um w /\ h_auth w' = h_auth w).
Proof.
  intros Hk. unfold FinishAuthentication. rewrite Hk. simpl.
  destruct (sm_Authenticated k (h_sm w)) as [auth sm] eqn:E. simpl. intros HF.
  assert (h_sm w' = sm) as ->.
  { revert HF. go_case; by intros [= <-]. }
  split; [done|]. intros Hn. revert HF. unfold sm_Authenticated in E. rewrite Hn in E.
  injection E as <- <-. by intros [= <-].
Qed.

End ram_properties.

(** Session keys are single use: whatever the outcome of finishing a
    registration or a login, the session key that the cookie carried is gone
    afterwards, and finishing with a key that is not (or no longer) known
    changes no user and logs nobody in. *)
Theorem session_keys_single_use {Cred Sess Creation Assertion} (cred_ID : Cred -> string)
    `{!WebAuthn Cred Sess Creation Assertion} `{!LoginManager} now r
    (w w' : hworld (gmap string (sessionState Cred Sess)) (gmap string (User Cred))) k x :
  (Secure_ReadAndClear RegistrationCookie (h_rw w) r = (k, true, x) /\ FinishRegistration r w = Ret w' \/
   Secure_ReadAndClear AuthenticationCookie (h_rw w) r = (k, true, x) /\
     FinishAuthentication cred_ID now r w = Ret w') ->
  h_sm w' !! k = None /\ (h_sm w !! k = None -> h_um w' = h_um w) /\
  (h_sm w !! k = None -> Secure_ReadAndClear AuthenticationCookie (h_rw w) r = (k, true, x) ->
     FinishAuthentication cred_ID now r w = Ret w' -> h_auth w' = h_auth w).
Proof.
  intros [[Hk HF]|[Hk HF]].
  - pose proof (FinishRegistration_sm _ _ _ _ _ Hk HF) as [Hsm Hn]. split_and!; [|done|].
    + rewrite Hsm. destruct (sm_Registered k (h_sm w)) eqn:E. by eapply sm_Registered_gone.
    + intros Hno Hk2 HF2. by apply (FinishAuthentication_sm _ _ _ _ _ _ _ Hk2 HF2).
  - pose proof (FinishAuthentication_sm _ _ _ _ _ _ _ Hk HF) as [Hsm Hn]. split_and!.
    + rewrite Hsm. destruct (sm_Authenticated k (h_sm w)) eqn:E. by eapply sm_Authenticated_gone.
    + intros Hno. by apply Hn.
    + intros Hno _ _. by apply Hn.
Qed.

#[local] Arguments str_take : simpl never.

(** C20 Registration: after a begin request whose body, email and random source
    are accepted, a finish request that carries the session cookie and a
    credential the WebAuthn library accepts leaves the new user, with exactly
    that credential, under its ID in the user database; both responses are
    200. *)
Theorem registration_roundtrip {Cred Sess Creation Assertion}
    `{!WebAuthn Cred Sess Creation Assertion} decode_brr (encode_creation : Creation -> res string)
    h id key now body r1 r2 req creation sess data cred
    (w1 : hworld (gmap string (sessionState Cred Sess)) (gmap string (User Cred))) rw2 :
  let user := mkUser id (Email req) (DisplayName req) [] in
  let tmpKey := str_take 32 (URL_Encode key) in
  fresh (h_rw w1) -> fresh rw2 ->
  r_Body r1 = Some body -> decode_brr body = (Ok req, Some (Sentinel io_EOF)) ->
  match o_emailValidator h with Some v => v (Email req) | None => None end = None ->
  slen id = 64%nat ->
  BeginMediatedRegistration user (o_mediationRequirement h) (o_registrationOptions h)
    = Ok (creation, Some sess) ->
  encode_creation creation = Ok data ->
  r_Cookies r2 = [(RegistrationCookie, tmpKey)] ->
  wa_FinishRegistration user sess r2 = Ok cred ->
  exists w2 w3,
    BeginRegistration decode_brr encode_creation h (Ok id) (Ok key) now r1 w1 = Ret w2 /\
    FinishRegistration r2 (set_rw w2 rw2) = Ret w3 /\
    final_status (h_rw w2) = StatusOK /\ final_status (h_rw w3) = StatusOK /\
    (exists ck, ck ∈ final_cookies (h_rw w2) /\ ck_Name ck = RegistrationCookie /\ ck_Value ck = tmpKey) /\
    um_Lookup id (h_um w3) = Ok (AddCredential user cred) /\
    (forall uid, uid <> id -> um_Lookup uid (h_um w3) = um_Lookup uid (h_um w1)) /\
    h_sm w3 !! tmpKey = None.
Proof.
  intros user tmpKey Hf Hf2 Hb Hdec Hem Hid Hbeg Henc Hck Hfin.
  unfold BeginRegistration, ParseRequest. rewrite Hb, Hdec. simpl. rewrite Hem. unfold NewUser.
  rewrite Hid. simpl. fold user. rewrite Hbeg. unfold sm_Registering, generateSecureRandomString.
  fold tmpKey. clearbody tmpKey. unfold WriteResponse. rewrite Henc.
  destruct (ReadAndClear_found RegistrationCookie rw2 r2 tmpKey ltac:(by vm_compute) Hck) as [ck HRC].
  eexists. eexists. split; [reflexivity|]. unfold FinishRegistration. simpl. rewrite HRC.
  simpl. unfold sm_Registered. simplify_map_eq. rewrite Hfin. simpl.
  split; [reflexivity|]. cbn [h_rw h_sm h_um set_rw snd].
  rewrite Write_fresh by (by apply on_header_fresh, SetCookie_fresh). split_and!.
  - done.
  - unfold final_status, rw_status. destruct (SetCookie_fresh ck _ Hf2) as (-> & _). done.
  - eexists. unfold final_cookies, Secure_Set. cbn. rewrite SetCookie_valid by done.
    split; [apply elem_of_app; right; by apply list_elem_of_singleton|done].
  - erewrite (um_Store_Lookup (AddCredential user cred)) by reflexivity. simpl. by rewrite bool_decide_true.
  - intros uid Hne. erewrite (um_Store_Lookup (AddCredential user cred)) by reflexivity. simpl.
    by rewrite bool_decide_false.
  - by simplify_map_eq.
Qed.

(** C21 Logins are authorised: [FinishAuthentication] tells the login manager
    about at most one user, and only when the request carried the key of a
    stored session, the WebAuthn library accepted the assertion for that
    session and returned a user that the database holds under the 64-byte
    handle in the assertion, and the credential used is one of that user's;
    that user is then stored with the credential updated. The library is only
    assumed to return a user that its callback produced. *)
Theorem FinishAuthentication_authorised {Cred Sess Creation Assertion} (cred_ID : Cred -> string)
    `{!WebAuthn Cred Sess Creation Assertion} `{!LoginManager} now r
    (w w' : hworld (gmap string (sessionState Cred Sess)) (gmap string (User Cred))) :
  (forall handler sess req u c, FinishPasskeyLogin handler sess req = Ok (PasskeyUser u, c) ->
     exists rawID handle, handler rawID handle = Ok u) ->
  FinishAuthentication cred_ID now r w = Ret w' ->
  h_auth w' = h_auth w \/
  exists k st sess handle u u' c,
    (Secure_ReadAndClear AuthenticationCookie (h_rw w) r).1 = (k, true) /\
    h_sm w !! k = Some st /\ ss_session st = Some sess /\
    FinishPasskeyLogin (user_handler (h_um w)) sess r = Ok (PasskeyUser u, c) /\
    slen handle = 64%nat /\ um_Lookup handle (h_um w) = Ok u /\
    (exists x, x ∈ u_credentials u /\ cred_ID x = cred_ID c) /\
    UpdateCredential cred_ID u c = (u', true) /\ um_Lookup (u_id u) (h_um w') = Ok u' /\
    h_auth w' = h_auth w ++ [u_id u].
Proof.
  intros Hlib. unfold FinishAuthentication.
  destruct (Secure_ReadAndClear AuthenticationCookie (h_rw w) r) as [[k ok] x] eqn:Hk. simpl.
  destruct ok; simpl; [|by intros [= <-]; left].
  unfold sm_Authenticated. destruct (h_sm w !! k) as [st|] eqn:Hst; [|by intros [= <-]; left].
  destruct (ss_session st) as [sess|] eqn:Hsess; [|done].
  destruct (FinishPasskeyLogin _ sess r) as [[[u|] c]|] eqn:HL; [|by intros [= <-]; left..].
  destruct (UpdateCredential cred_ID u c) as [u' up] eqn:HU.
  destruct up; simpl; [|by intros [= <-]; left].
  assert (Hid : u_id u' = u_id u /\ exists x, x ∈ u_credentials u /\ cred_ID x = cred_ID c).
  { unfold UpdateCredential in HU. destruct (update_first _ _ _) eqn:E; simplify_eq/=. split; [done|].
    apply update_first_Some in E as (l1 & y & l2 & -> & _ & Hy & _). exists y. set_solver. }
  destruct Hid as [Hid Hx].
  destruct (UserAuthenticated now r x (User_ID u')) as [e x'] eqn:HA. intros HR.
  assert (Hw' : h_um w' = <[uid_String (u_id u') := u']> (h_um w) /\ h_auth w' = h_auth w ++ [u_id u']).
  { by destruct e; injection HR as <-. }
  destruct Hw' as [Hum Hau]. right.
  destruct (Hlib _ _ _ _ _ HL) as (rawID & handle & Hh). unfold user_handler in Hh.
  destruct (UserIDFromBytes handle) as [uid|] eqn:Huid; [|done].
  apply UserIDFromBytes_Ok in Huid as [<- Hlen].
  change (Lookup handle (h_um w)) with (um_Lookup handle (h_um w)) in Hh.
  destruct (um_Lookup handle (h_um w)) as [u0|] eqn:Hlk; simplify_eq.
  exists k, st, sess, handle, u, u', c. rewrite Hau, Hum, Hid. split_and!; try done.
  unfold um_Lookup, uid_String. by simplify_map_eq.
Qed.

(** C22 Login cookies: the cookie that [UserAuthenticated] sets, sent back in a
    request, authenticates exactly the user it was issued for until the second in
    which it expires, and nobody from then on. The signer has a key ID. *)
Theorem login_cookie_roundtrip {V Key KeySet} `{J : !JWX V Key KeySet} stable `{!JWTLaws stable}
    jwkKey id algo s issuer scope now later r uid w w' :
  NewSigner jwkKey id algo = Ok s -> id <> "" -> slen uid = 64%nat ->
  let m := NewJWTCookieLoginManager s issuer scope in
  (now <= later)%Z ->
  jwt_UserAuthenticated (KeySet:=KeySet) m now r w uid = (None, w') ->
  exists ck, rw_setcookie w' = rw_setcookie w ++ [ck] /\ ck_Secure ck = true /\ ck_HttpOnly ck = true /\
    forall r', r_Cookies r' = [(ck_Name ck, ck_Value ck)] ->
      let expires := (now + Duration (lm_loginCookie m))%Z in
      ((secs later < secs expires)%Z -> jwt_AuthenticateUser m later r' = Ret (Ok uid)) /\
      ((secs expires <= secs later)%Z -> exists e, jwt_AuthenticateUser m later r' = Ret (Err e)).
Proof.
  intros Hs Hid Hu m Ht. unfold jwt_UserAuthenticated. rewrite build_private by repeat constructor.
  match goal with |- context [s_Sign (lm_signer m) ?t] => set (tok := t) end.
  destruct (s_Sign (lm_signer m) tok) as [b|] eqn:Hsign; [|done]. intros [= <-].
  eexists. split; [by apply SetCookie_valid|]. split; [done|]. split; [done|]. simpl. intros r' Hr'.
  unfold jwt_AuthenticateUser, Secure_Read, Request_Cookie. rewrite Hr'. simpl.
  match goal with |- context [v_ParseAndValidate _ later b ?o] => set (os := o) end.
  pose proof (fun t' => NewSigner_ParseAndValidate stable jwkKey id algo s tok b later os t' Hs Hid (map_Forall_empty _) Hsign) as HV.
  assert (Htm : (secs later < secs (now + Duration (lm_loginCookie m)))%Z <-> time_valid later tok).
  { split; [intros Hlt; split_and!; [intros ? [= <-]; exact Hlt|intros ? [= <-]; by apply secs_mono|done]|].
    intros (H & _). by apply H. }
  split.
  - intros Hlt. rewrite (proj2 (HV (truncated tok))); [simpl; by apply (UserID_roundtrip_lemma uid)|].
    split_and!; [done|by apply Htm|repeat constructor].
  - intros Hge. destruct (v_ParseAndValidate _ later b os) as [t'|e]; [|eauto].
    destruct (proj1 (HV t') eq_refl) as (_ & Hlt%Htm & _). simpl in *. lia.
Qed.

(** A begin request whose body is not acceptable is answered twice: the
    response keeps the first status, 400, and its body is two JSON error
    documents one after the other. *)
Theorem BeginRegistration_double_error {Cred Sess Creation Assertion S D}
    `{!WebAuthn Cred Sess Creation Assertion} `{!SessionManager Cred Sess S} `{!UserDatabase Cred D}
    decode_brr (encode_creation : Creation -> res string) h rnd_id rnd_key now body r err tok (w : hworld S D) :
  fresh (h_rw w) -> r_Body r = Some body -> decode_brr body = (Err err, tok) ->
  exists w', BeginRegistration decode_brr encode_creation h rnd_id rnd_key now r w = Ret w' /\
    rw_status (h_rw w') = Some StatusBadRequest /\
    rw_body (h_rw w') =
      encode_ErrorResponse (mkErrorResponse "failed to decode request body")
      +:+ encode_ErrorResponse (mkErrorResponse "failed to parse request").
Proof.
  intros Hf Hb Hd. unfold BeginRegistration, ParseRequest. rewrite Hb, Hd. eexists. split; [done|]. cbn [h_rw set_rw].
  set (w1 := WriteErrorMsg (h_rw w) _ _).
  destruct (WriteErrorMsg_fresh (h_rw w) "failed to decode request body" StatusBadRequest) as [Hst Hbd]; try done.
  fold w1 in Hst, Hbd. unfold rw_status in Hst. destruct (rw_sent w1) as [[[c hd] cs]|] eqn:Hs; [|done].
  injection Hst as ->. rewrite <- Hbd. eapply WriteErrorMsg_sent; [exact Hs| |done].
  unfold w1, WriteErrorMsg. apply Write_panic_false.
  by rewrite WriteHeader_fresh by (done || by apply on_header_fresh).
Qed.

(** ** A model of the interfaces

Credentials and sessions are strings, the body is the email address; a toy
WebAuthn library accepts a finish request whose path names a known credential,
and calls the user callback with the handle in the query. *)
Module ToyWebAuthn.

#[global] Instance toy : WebAuthn string string unit unit := {|
  BeginMediatedRegistration := fun u _ _ => Ok (tt, Some (u_email u));
  wa_FinishRegistration := fun u sess r => Ok (r_Path r);
  BeginDiscoverableMediatedLogin := fun _ => Ok (tt, Some "login");
  FinishPasskeyLogin := fun handler sess r =>
    match handler "raw" (r_Query r) with
    | Ok u => Ok (PasskeyUser u, r_Path r)
    | Err e => Err e
    end
|}.

#[global] Instance toy_login : LoginManager := {|
  UserAuthenticated := fun _ _ w _ => (None, w);
  AuthenticateUser := fun _ r => UserIDFromString (r_Query r)
|}.

Lemma toy_callback handler (sess : string) req u c :
  FinishPasskeyLogin handler sess req = Ok (PasskeyUser u, c) -> exists rawID handle, handler rawID handle = Ok u.
Proof. simpl. destruct (handler "raw" (r_Query req)) eqn:E; [|done]. intros [= -> <-]. eauto. Defined.

Definition decode_email (b : Body) : res BeginRegistrationRequest * option error :=
  if bool_decide (b_data b = "") then (Err (Sentinel io_EOF), None)
  else (Ok (mkBRR (b_data b) ""), Some (Sentinel io_EOF)).

Definition request (path handle body : string) (cookies : list (string * string)) : Request :=
  mkRequest "POST" path "" handle "localhost" ∅ cookies "127.0.0.1:1" 0 (Some (mkBody body None)) None.

(** A world with one user, who has credential [cred], and one login session. *)
Definition alice : User string := mkUser (zeros 64) "a@b.c" "Alice" ["cred"].
Definition world : hworld (gmap string (sessionState string string)) (gmap string (User string)) :=
  mkHW new_rw {["key" := mkSessionState None (Some "login")]} (um_Store alice ∅).2 [].

Definition login_request : Request := request "cred" (zeros 64) "" [(AuthenticationCookie, "key")].
Definition after_login : hworld (gmap string (sessionState string string)) (gmap string (User string)) :=
  match FinishAuthentication id 0 login_request world with Ret w => w | Panic _ => world end.

Lemma login_runs : FinishAuthentication id 0 login_request world = Ret after_login.
Proof. vm_compute. reflexivity. Defined.

End ToyWebAuthn.

Lemma session_keys_single_use_witness : h_sm ToyWebAuthn.after_login !! "key" = None.
Proof.
  eapply (session_keys_single_use (id : string -> string) 0 ToyWebAuthn.login_request ToyWebAuthn.world
    ToyWebAuthn.after_login "key").
  right. split; [vm_compute; reflexivity|exact ToyWebAuthn.login_runs].
Defined.

Lemma registration_roundtrip_witness :
  exists w3 : hworld (gmap string (sessionState string string)) (gmap string (User string)),
    um_Lookup (zeros 64) (h_um w3) = Ok (mkUser (zeros 64) "a@b.c" "" ["cred"]) /\
    h_sm w3 !! str_take 32 (URL_Encode (zeros 24)) = None.
Proof.
  destruct (registration_roundtrip ToyWebAuthn.decode_email (fun _ => Ok "{}") (NewHandler []) (zeros 64)
    (zeros 24) 0 (mkBody "a@b.c" None) (ToyWebAuthn.request "" "" "a@b.c" [])
    (ToyWebAuthn.request "cred" "" "" [(RegistrationCookie, str_take 32 (URL_Encode (zeros 24)))])
    (mkBRR "a@b.c" "") tt "a@b.c" "{}" "cred" (mkHW new_rw ∅ ∅ []) new_rw)
    as (w2 & w3 & _ & _ & _ & _ & _ & Hu & _ & Hs); [done..|].
  exists w3. split; [exact Hu|exact Hs].
Defined.

Lemma FinishAuthentication_authorised_witness :
  exists handle u, slen handle = 64%nat /\ um_Lookup handle (h_um ToyWebAuthn.world) = Ok u /\
    h_auth ToyWebAuthn.after_login = [u_id u].
Proof.
  destruct (FinishAuthentication_authorised (id : string -> string) 0 ToyWebAuthn.login_request
    ToyWebAuthn.world ToyWebAuthn.after_login ToyWebAuthn.toy_callback ToyWebAuthn.login_runs)
    as [H|(k & st & sess & h & u & u' & c & _ & _ & _ & _ & Hl & Hu & _ & _ & _ & Ha)].
  - exfalso. revert H. vm_compute. congruence.
  - exists h, u. exact (conj Hl (conj Hu Ha)).
Defined.

Lemma login_cookie_roundtrip_witness :
  exists tok, jwt_AuthenticateUser
    (NewJWTCookieLoginManager ToyJWT.example_signer "iss" (mkScope "" "" 0)) (50 * jwt_second)
    (ToyWebAuthn.request "" "" "" [("webauthn_login", tok)]) = Ret (Ok (zeros 64)).
Proof.
  destruct (login_cookie_roundtrip (J:=ToyJWT.toy) (fun _ => True) ("k", ∅) "kid" "EdDSA" ToyJWT.example_signer "iss"
    (mkScope "" "" 0) 0 (50 * jwt_second) (ToyWebAuthn.request "" "" "" []) (zeros 64) new_rw _
    ToyJWT.example_signer_new ltac:(done) ltac:(reflexivity) ltac:(vm_compute; congruence) ltac:(reflexivity))
    as (ck & Hck & _ & _ & Hr).
  exists (ck_Value ck). apply Hr; [|vm_compute; reflexivity]. simpl. injection Hck as <-. reflexivity.
Defined.

Lemma BeginRegistration_double_error_witness :
  exists w', BeginRegistration ToyWebAuthn.decode_email (fun _ : unit => Ok "{}") (NewHandler []) (Ok (zeros 64))
      (Ok (zeros 24)) 0 (ToyWebAuthn.request "" "" "" []) ToyWebAuthn.world = Ret w' /\
    rw_status (h_rw w') = Some StatusBadRequest.
Proof.
  destruct (BeginRegistration_double_error ToyWebAuthn.decode_email (fun _ : unit => Ok "{}") (NewHandler [])
    (Ok (zeros 64)) (Ok (zeros 24)) 0 (mkBody "" None) (ToyWebAuthn.request "" "" "" [])
    (Sentinel io_EOF) None ToyWebAuthn.world) as (w' & H & Hs & _); [done..|].
  by exists w'.
Defined.
