(* ===== verification/PasskeysInv.v ===== *)
(** * What holds of every state the passkey handlers can produce

The handlers of [webauth/webauthn/passkeys/passkeys.go] over the in-memory
session manager and user database, run in any order and on any requests, each
with a response writer of its own. *)

From S2P Require Import Prelude GoStrings GoErrors GoHTTP GoEncoding Cookies JsonAPI JWTUtil Passkeys.

Section invariant.
Context {Cred Sess Creation Assertion : Type} (cred_ID : Cred -> string).
Context `{WA : !WebAuthn Cred Sess Creation Assertion} `{LM : !LoginManager}.
Variable decode_brr : Body -> res BeginRegistrationRequest * option error.
Variable encode_creation : Creation -> res string.
Variable encode_assertion : Assertion -> res string.
Abbreviation SM := (gmap string (sessionState Cred Sess)).
Abbreviation UM := (gmap string (User Cred)).
Abbreviation HW := (hworld SM UM).

(** One request: a handler runs with the response writer it is given. *)
Inductive hstep (h : poptions) : HW -> HW -> Prop :=
| step_begin_registration rnd_id rnd_key now r x w w' :
    BeginRegistration decode_brr encode_creation h rnd_id rnd_key now r (set_rw w x) = Ret w' -> hstep h w w'
| step_finish_registration r x w w' : FinishRegistration r (set_rw w x) = Ret w' -> hstep h w w'
| step_begin_authentication rnd_key now x w w' :
    BeginDiscoverableAuthentication encode_assertion h rnd_key now (set_rw w x) = Ret w' -> hstep h w w'
| step_finish_authentication now r x w w' :
    FinishAuthentication cred_ID now r (set_rw w x) = Ret w' -> hstep h w w'
| step_verify now r x w w' : VerifyAuthentication now r (set_rw w x) = Ret w' -> hstep h w w'.

Inductive hreach (h : poptions) : HW -> Prop :=
| hreach_init :
    hreach h (mkHW new_rw (NewRAMUserDatabase (Cred := Cred) (Sess := Sess)).1 (NewRAMUserDatabase (Cred := Cred) (Sess := Sess)).2 [])
| hreach_step w w' : hreach h w -> hstep h w w' -> hreach h w'.

(** A stored user is found under the text form of its own 64-byte ID and has a
    credential. *)
Definition stored_ok (k : string) (u : User Cred) : Prop :=
  k = uid_String (u_id u) /\ slen (u_id u) = 64%nat /\ u_credentials u <> [].

(** A pending registration is for a new user without credentials. *)
Definition session_ok (_ : string) (s : sessionState Cred Sess) : Prop :=
  forall u, ss_user s = Some u -> slen (u_id u) = 64%nat /\ u_credentials u = [].

(** Everybody who logged in is stored. *)
Definition world_ok (w : HW) : Prop :=
  map_Forall stored_ok (h_um w) /\ map_Forall session_ok (h_sm w) /\
  Forall (fun id => is_Some (h_um w !! uid_String id)) (h_auth w).

(** ** Lemmas *)

Lemma world_ok_rw (w : HW) x : world_ok w -> world_ok (set_rw w x).
Proof. done. Qed.

Lemma fail_ok (w w' : HW) m s : world_ok w -> fail w m s = Ret w' -> world_ok w'.
Proof. by intros ? [= <-]. Qed.

Lemma session_insert (w : HW) x k s :
  world_ok w -> session_ok k s -> world_ok (mkHW x (<[k := s]> (h_sm w)) (h_um w) (h_auth w)).
Proof. intros (? & ? & ?) Hs. split_and!; [done| |done]. by apply map_Forall_insert_2. Qed.

Lemma session_delete (w : HW) x k :
  world_ok w -> world_ok (mkHW x (delete k (h_sm w)) (h_um w) (h_auth w)).
Proof. intros (? & ? & ?). split_and!; [done| |done]. by apply map_Forall_delete. Qed.

Lemma auth_insert (um : UM) u auth :
  Forall (fun id => is_Some (um !! uid_String id)) auth ->
  Forall (fun id => is_Some (<[uid_String (u_id u) := u]> um !! uid_String id)) auth.
Proof.
  intros HF. eapply Forall_impl; [exact HF|]. intros id Hid. simpl.
  destruct (decide (uid_String (u_id u) = uid_String id)) as [->|Hne]; [by rewrite lookup_insert_eq; eauto|].
  by rewrite lookup_insert_ne.
Qed.

Lemma store_ok (w : HW) x u auth :
  world_ok w -> stored_ok (uid_String (u_id u)) u -> (auth = [] \/ auth = [u_id u]) ->
  world_ok (mkHW x (h_sm w) (<[uid_String (u_id u) := u]> (h_um w)) (h_auth w ++ auth)).
Proof.
  intros (Hu & Hs & Ha) Hok Hauth. split_and!; [by apply map_Forall_insert_2|done|]. simpl.
  apply Forall_app. split; [by apply auth_insert|].
  destruct Hauth as [->| ->]; [done|]. apply Forall_singleton. rewrite lookup_insert_eq. eauto.
Qed.

Lemma update_ok u u' c b k : UpdateCredential cred_ID u c = (u', b) -> stored_ok k u -> stored_ok k u'.
Proof.
  unfold UpdateCredential. destruct (update_first cred_ID (u_credentials u) c) as [l|] eqn:E; intros [= <- <-];
    [|done]. apply update_first_Some in E as (l1 & y & l2 & Hl & -> & _). unfold stored_ok. simpl.
  intros (? & ? & _). split_and!; [done|done|by destruct l1].
Qed.

Lemma BeginRegistration_ok h rnd_id rnd_key now r w w' :
  world_ok w -> BeginRegistration decode_brr encode_creation h rnd_id rnd_key now r w = Ret w' -> world_ok w'.
Proof.
  intros Hw. unfold BeginRegistration. destruct (r_Body r) as [body|]; [|done].
  destruct (ParseRequest decode_brr (h_rw w) body) as [[req|e] x]; [|by apply fail_ok, world_ok_rw].
  case_match; [by apply fail_ok, world_ok_rw|].
  destruct (NewUser (Cred := Cred) rnd_id (Email req) (DisplayName req)) as [user|e] eqn:EU;
    [|by apply fail_ok, world_ok_rw].
  destruct (BeginMediatedRegistration user _ _) as [[creds session]|e]; [|by apply fail_ok, world_ok_rw].
  simpl. unfold sm_Registering, generateSecureRandomString. destruct rnd_key as [key|e]; simpl;
    [|by apply fail_ok; destruct w; apply Hw]. intros [= <-].
  apply (session_insert w); [done|]. intros u [= <-]. unfold NewUser in EU.
  destruct rnd_id as [b|]; [|done]. destruct (Nat.eqb_spec (slen b) 64); simpl in EU; [|done].
  by injection EU as <-.
Qed.

Lemma FinishRegistration_ok r w w' : world_ok w -> FinishRegistration r w = Ret w' -> world_ok w'.
Proof.
  intros Hw. unfold FinishRegistration.
  destruct (Secure_ReadAndClear RegistrationCookie (h_rw w) r) as [[k ok] x]. destruct ok; [|by apply fail_ok].
  simpl. unfold sm_Registered. destruct (h_sm w !! k) as [[ou os]|] eqn:E; [|by apply fail_ok].
  simpl. pose proof (session_delete w x k Hw) as Hd. destruct ou as [user|]; [|by apply fail_ok].
  destruct os as [sess|]; [|by apply fail_ok]. destruct (wa_FinishRegistration user sess r) as [cred|];
    [|by apply fail_ok]. intros [= <-].
  destruct (proj1 (proj2 Hw) _ _ E user eq_refl) as [Hid _].
  pose proof (store_ok _ x (AddCredential user cred) [] Hd) as HS. simpl in HS. rewrite app_nil_r in HS.
  apply HS; [|by left]. unfold stored_ok. simpl. split_and!; [done|done|by destruct (u_credentials user)].
Qed.

Lemma FinishAuthentication_ok now r w w' :
  (forall handler sess req u c, FinishPasskeyLogin handler sess req = Ok (PasskeyUser u, c) ->
     exists rawID handle, handler rawID handle = Ok u) ->
  world_ok w -> FinishAuthentication cred_ID now r w = Ret w' -> world_ok w'.
Proof.
  intros Hlib Hw. unfold FinishAuthentication.
  destruct (Secure_ReadAndClear AuthenticationCookie (h_rw w) r) as [[k ok] x]. destruct ok; [|by apply fail_ok].
  simpl. unfold sm_Authenticated. destruct (h_sm w !! k) as [[ou os]|] eqn:E; [|by apply fail_ok].
  simpl. pose proof (session_delete w x k Hw) as Hd. destruct os as [sess|]; [|done].
  destruct (FinishPasskeyLogin _ sess r) as [[[u|] c]|] eqn:EF; [|by apply fail_ok|by apply fail_ok].
  destruct (UpdateCredential cred_ID u c) as [u' b] eqn:EU. destruct b; [|by apply fail_ok]. simpl.
  assert (Hu' : stored_ok (uid_String (u_id u')) u').
  { apply Hlib in EF as (rawID & handle & HH). unfold user_handler in HH.
    destruct (UserIDFromBytes handle) as [uid|]; [|done]. simpl in HH. unfold um_Lookup in HH.
    destruct (h_um w !! uid_String uid) as [v|] eqn:EL; [|done]. injection HH as ->.
    pose proof (proj1 Hw _ _ EL) as Hv. simpl in Hv. pose proof (update_ok _ _ _ _ _ EU Hv) as (Hk & ? & ?). done. }
  destruct (UserAuthenticated now r x (User_ID u')) as [e y].
  pose proof (store_ok _ y u' [u_id u'] Hd Hu' (or_intror eq_refl)) as HS.
  destruct e; [by apply fail_ok|]. by intros [= <-].
Qed.

Lemma hstep_ok h w w' :
  (forall handler sess req u c, FinishPasskeyLogin handler sess req = Ok (PasskeyUser u, c) ->
     exists rawID handle, handler rawID handle = Ok u) ->
  world_ok w -> hstep h w w' -> world_ok w'.
Proof.
  intros Hlib Hw Hs. revert Hw. destruct Hs as [rnd_id rnd_key now r x w0 w1 H|r x w0 w1 H|rnd_key now x w0 w1 H
    |now r x w0 w1 H|now r x w0 w1 H]; intros Hw.
  - by eapply BeginRegistration_ok; [apply world_ok_rw|exact H].
  - by eapply FinishRegistration_ok; [apply world_ok_rw|exact H].
  - revert H. unfold BeginDiscoverableAuthentication.
    destruct (BeginDiscoverableMediatedLogin "") as [[options session]|]; [|by apply fail_ok].
    simpl. unfold sm_Authenticating, generateSecureRandomString.
    destruct rnd_key as [key|]; simpl; [|by apply fail_ok]. intros [= <-].
    by eapply (session_insert w0).
  - by eapply FinishAuthentication_ok; [exact Hlib|apply world_ok_rw|exact H].
  - revert H. unfold VerifyAuthentication. destruct (AuthenticateUser now r) as [[uid|]|]; simpl;
      [|by apply fail_ok|done].
    destruct (um_Lookup uid (h_um w0)); [by intros [= <-]|by apply fail_ok].
Qed.

End invariant.

(** ** Properties *)

(** The state of the passkey service is well formed however its handlers are
    run, from the empty database on and with any requests: every stored user
    is filed under the text form of its own ID, which has 64 bytes, and has a
    credential; every pending registration is for a user with a 64-byte ID
    and no credentials yet; and every ID passed to the login manager is that
    of a stored user, who is found by a lookup.  The WebAuthn library is only
    assumed to return a user that its callback produced. *)
Theorem reachable_ok {Cred Sess Creation Assertion} (cred_ID : Cred -> string)
    `{!WebAuthn Cred Sess Creation Assertion} `{!LoginManager} decode_brr encode_creation encode_assertion h
    (w : hworld (gmap string (sessionState Cred Sess)) (gmap string (User Cred))) :
  (forall handler sess req u c, FinishPasskeyLogin handler sess req = Ok (PasskeyUser u, c) ->
     exists rawID handle, handler rawID handle = Ok u) ->
  hreach cred_ID decode_brr encode_creation encode_assertion h w ->
  world_ok w /\
  Forall (fun id => exists u, um_Lookup id (h_um w) = Ok u /\ u_id u = id /\ u_credentials u <> []) (h_auth w).
Proof.
  intros Hlib Hr. assert (Hok : world_ok w).
  { induction Hr as [|w w' _ IH Hs]; [|by eapply hstep_ok]. split_and!; [apply map_Forall_empty..|done]. }
  split; [done|]. destruct Hok as (Hu & _ & Ha). eapply Forall_impl; [exact Ha|]. simpl.
  intros id [u Hid]. destruct (Hu _ _ Hid) as (Hk & _ & Hc). exists u. unfold um_Lookup. rewrite Hid.
  split_and!; [done| |done]. symmetry. by apply RawURL_Encode_inj.
Qed.

(** Alice registers and logs in: the state after the four requests. *)
Module ToyRun.
Import ToyWebAuthn.

Abbreviation HW := (hworld (gmap string (sessionState string string)) (gmap string (User string))).
Definition encode (_ : unit) : res string := Ok "{}".
Definition w0 : HW :=
  mkHW new_rw (NewRAMUserDatabase (Cred := string) (Sess := string)).1
    (NewRAMUserDatabase (Cred := string) (Sess := string)).2 [].
Definition or_else (w : HW) (g : go HW) : HW := match g with Ret w' => w' | Panic _ => w end.
Definition key : string := str_take 32 (URL_Encode (zeros 24)).
Definition w1 : HW := or_else w0 (BeginRegistration decode_email encode (NewHandler []) (Ok (zeros 64))
  (Ok (zeros 24)) 0 (request "" "" "a@b.c" []) (set_rw w0 new_rw)).
Definition w2 : HW :=
  or_else w1 (FinishRegistration (request "cred" "" "" [(RegistrationCookie, key)]) (set_rw w1 new_rw)).
Definition w3 : HW :=
  or_else w2 (BeginDiscoverableAuthentication encode (NewHandler []) (Ok (zeros 24)) 0 (set_rw w2 new_rw)).
Definition w4 : HW :=
  or_else w3 (FinishAuthentication id 0 (request "cred" (zeros 64) "" [(AuthenticationCookie, key)])
                (set_rw w3 new_rw)).

Lemma reached : hreach id decode_email encode encode (NewHandler []) w4.
Proof.
  eapply hreach_step; [eapply hreach_step; [eapply hreach_step; [eapply hreach_step; [apply hreach_init|]|]|]|].
  - apply (step_begin_registration _ _ _ _ _ (Ok (zeros 64)) (Ok (zeros 24)) 0 (request "" "" "a@b.c" []) new_rw).
    instantiate (1 := w1). vm_compute. reflexivity.
  - apply (step_finish_registration _ _ _ _ _ (request "cred" "" "" [(RegistrationCookie, key)]) new_rw).
    instantiate (1 := w2). vm_compute. reflexivity.
  - apply (step_begin_authentication _ _ _ _ _ (Ok (zeros 24)) 0 new_rw).
    instantiate (1 := w3). vm_compute. reflexivity.
  - apply (step_finish_authentication _ _ _ _ _ 0 (request "cred" (zeros 64) "" [(AuthenticationCookie, key)]) new_rw).
    vm_compute. reflexivity.
Defined.
End ToyRun.

Lemma reachable_ok_witness : world_ok ToyRun.w4 /\ h_auth ToyRun.w4 = [zeros 64].
Proof.
  split; [|vm_compute; reflexivity].
  apply (reachable_ok (id : string -> string) _ _ _ _ _ ToyWebAuthn.toy_callback ToyRun.reached).
Defined.
