(* ===== verification/PasskeysConc.v ===== *)
(** * webauth/webauthn/passkeys: concurrent requests

A server runs the handlers of [passkeys.go] in one goroutine per request.  They
meet in the session manager, the user database and the login manager, whose
methods are atomic (the in-memory ones hold a mutex).  Here each handler is the
program ([Interleave]) of the calls it makes; run alone it is the handler of
[Passkeys].  The WebAuthn library looks the user up while it validates a login:
validation is one call, on the database at the time of the lookup.

A user that the database returns shares its slice of credentials with the stored
one, and [UpdateCredential] writes to that slice in place, without the mutex of
the database.  The slices are therefore part of the shared state, by their
number; an update is a step of its own. *)

From S2P Require Import Prelude Interleave GoStrings GoErrors GoHTTP GoEncoding Cookies JsonAPI JWTUtil Passkeys PasskeysInv.

Section conc.
Context {Cred Sess Creation Assertion : Type} (cred_ID : Cred -> string).
Context `{WA : !WebAuthn Cred Sess Creation Assertion} `{LM : !LoginManager}.
Variable decode_brr : Body -> res BeginRegistrationRequest * option error.
Variable encode_creation : Creation -> res string.
Variable encode_assertion : Assertion -> res string.

(** ** Calls

A login returns the slice of its user too.  A user is stored with the slice it
has, or with a new one ([None]: [AddCredential] to a user without credentials
allocates it). *)
Inductive pcall :=
| PRegistering (rnd : res string) (user : User Cred) (session : option Sess)
| PRegistered (key : string)
| PAuthenticating (rnd : res string) (session : option Sess)
| PAuthenticated (key : string)
| PLogin (session : Sess) (r : Request)
| PUpdate (user : User Cred) (slice : nat) (cred : Cred)
| PStore (user : User Cred) (slice : option nat)
| PLookup (uid : string)
| PLoggedIn (uid : string).

Definition preply (c : pcall) : Type :=
  match c with
  | PRegistering _ _ _ => res (string * bool)
  | PRegistered _ => res (option (User Cred) * option Sess)
  | PAuthenticating _ _ => res string
  | PAuthenticated _ => res (option Sess)
  | PLogin _ _ => res (wuser Cred * Cred * nat)
  | PUpdate _ _ _ => User Cred * bool
  | PStore _ _ => option error
  | PLookup _ => res (User Cred)
  | PLoggedIn _ => unit
  end.

Abbreviation pprog := (prog preply) (only parsing).

Definition pcallp (c : pcall) : pprog (preply c) := Do c Done.

(** The response writer is the request's own. *)
Definition pfail (w : rw) (msg : string) (status : Z) : pprog (go rw) := Done (Ret (WriteErrorMsg w msg status)).

(** ** The handlers *)

Definition BeginRegistration_prog (h : poptions) (rnd_id rnd_key : res string) (now : Z) (r : Request) (w : rw)
  : pprog (go rw) :=
  match r_Body r with
  | None => Done (Panic NilDereference)
  | Some body =>
      let '(req, w) := ParseRequest decode_brr w body in
      match req with
      | Err _ => pfail w "failed to parse request" StatusBadRequest
      | Ok req =>
          match (match o_emailValidator h with Some v => v (Email req) | None => None end) with
          | Some _ => pfail w "invalid email address" StatusBadRequest
          | None =>
              match NewUser rnd_id (Email req) (DisplayName req) with
              | Err _ => pfail w "failed to create user" StatusInternalServerError
              | Ok user =>
                  match BeginMediatedRegistration user (o_mediationRequirement h) (o_registrationOptions h) with
                  | Err _ => pfail w "failed to begin mediated registration" StatusInternalServerError
                  | Ok (creds, session) =>
                      reg ← pcallp (PRegistering rnd_key user session);
                      match reg with
                      | Err _ => pfail w "failed to begin registration" StatusInternalServerError
                      | Ok (tmpKey, exists_) =>
                          if (exists_ : bool) then pfail w "user already registered" StatusConflict
                          else
                            let w := (Secure_Set RegistrationCookie w (ScopeAndDuration_Cookie (o_sessionCookie h) now tmpKey)).2 in
                            Done (Ret (WriteResponse encode_creation w creds).2)
                      end
                  end
              end
          end
      end
  end.

Definition FinishRegistration_prog (r : Request) (w : rw) : pprog (go rw) :=
  let '(sessionKey, ok, w) := Secure_ReadAndClear RegistrationCookie w r in
  if negb ok then pfail w "missing registration cookie" StatusBadRequest
  else
    reg ← pcallp (PRegistered sessionKey);
    match reg with
    | Err _ => pfail w "failed to retrieve session data" StatusInternalServerError
    | Ok (Some user, Some sessionData) =>
        match wa_FinishRegistration user sessionData r with
        | Err _ => pfail w "failed to finish registration" StatusBadRequest
        | Ok cred =>
            e ← pcallp (PStore (AddCredential user cred) None);
            match e with
            | Some _ => pfail w "failed to store user" StatusInternalServerError
            | None => Done (Ret w)
            end
        end
    | Ok (_, _) => pfail w "invalid session data" StatusBadRequest
    end.

Definition BeginDiscoverableAuthentication_prog (h : poptions) (rnd_key : res string) (now : Z) (w : rw) : pprog (go rw) :=
  match BeginDiscoverableMediatedLogin "" with
  | Err _ => pfail w "failed to begin discoverable authentication" StatusInternalServerError
  | Ok (options, session) =>
      auth ← pcallp (PAuthenticating rnd_key session);
      match auth with
      | Err _ => pfail w "failed to begin authenticating" StatusInternalServerError
      | Ok tmpKey =>
          let w := (Secure_Set AuthenticationCookie w (ScopeAndDuration_Cookie (o_sessionCookie h) now tmpKey)).2 in
          Done (Ret (WriteResponse encode_assertion w options).2)
      end
  end.

Definition FinishAuthentication_prog (now : Z) (r : Request) (w : rw) : pprog (go rw) :=
  let '(sessionKey, ok, w) := Secure_ReadAndClear AuthenticationCookie w r in
  if negb ok then pfail w "missing authentication cookie" StatusBadRequest
  else
    auth ← pcallp (PAuthenticated sessionKey);
    match auth with
    | Err _ => pfail w "failed to retrieve session data" StatusInternalServerError
    | Ok None => Done (Panic NilDereference)
    | Ok (Some session) =>
        login ← pcallp (PLogin session r);
        match login with
        | Err _ => pfail w "failed to finish discoverable login" StatusInternalServerError
        | Ok (OtherUser, _, _) => pfail w "internal server error" StatusInternalServerError
        | Ok (PasskeyUser pu, cred, slice) =>
            update ← pcallp (PUpdate pu slice cred);
            let '(pu, updated) := update in
            if negb updated then pfail w "failed to update credential" StatusInternalServerError
            else
              e ← pcallp (PStore pu (Some slice));
              match e with
              | Some _ => pfail w "failed to store user" StatusInternalServerError
              | None =>
                  _ ← pcallp (PLoggedIn (User_ID pu));
                  let '(e, w) := UserAuthenticated now r w (User_ID pu) in
                  match e with
                  | Some _ => pfail w "failed to set authenticated session" StatusInternalServerError
                  | None => Done (Ret w)
                  end
              end
        end
    end.

Definition VerifyAuthentication_prog (now : Z) (r : Request) (w : rw) : pprog (go rw) :=
  match AuthenticateUser now r with
  | Panic p => Done (Panic p)
  | Ret (Err _) => pfail w "failed to authenticate user" StatusUnauthorized
  | Ret (Ok uid) =>
      user ← pcallp (PLookup uid);
      match user with
      | Err _ => pfail w "failed to lookup user" StatusInternalServerError
      | Ok _ => Done (Ret w)
      end
  end.

(** ** Run alone, they are the handlers of [Passkeys] *)
Section alone.
Context {S D : Type} `{SM : !SessionManager Cred Sess S} `{UM : !UserDatabase Cred D}.

Definition pserve (c : pcall) (s : S * D * list string) : preply c * (S * D * list string) :=
  let '(sm, um, auth) := s in
  match c with
  | PRegistering rnd user session => let '(r, sm) := Registering rnd user session sm in (r, (sm, um, auth))
  | PRegistered key => let '(r, sm) := Registered key sm in (r, (sm, um, auth))
  | PAuthenticating rnd session => let '(r, sm) := Authenticating rnd session sm in (r, (sm, um, auth))
  | PAuthenticated key => let '(r, sm) := Authenticated key sm in (r, (sm, um, auth))
  | PLogin session r =>
      (match FinishPasskeyLogin (user_handler um) session r with Ok x => Ok (x, 0%nat) | Err e => Err e end, s)
  | PUpdate user _ cred => (UpdateCredential cred_ID user cred, s)
  | PStore user _ => let '(e, um) := Store user um in (e, (sm, um, auth))
  | PLookup uid => (Lookup uid um, s)
  | PLoggedIn uid => (tt, (sm, um, auth ++ [uid]))
  end.

(** The outcome of a handler, as a program gives it: the response, or a panic. *)
Definition outcome (g : go (hworld S D)) (x : go rw * (S * D * list string)) : Prop :=
  match g, x with
  | Ret w, (Ret y, s) => y = h_rw w /\ s = (h_sm w, h_um w, h_auth w)
  | Panic p, (Panic p', _) => p = p'
  | _, _ => False
  end.

Abbreviation alone_as p g w := (outcome (g w) (run pserve (p (h_rw w)) (h_sm w, h_um w, h_auth w))) (only parsing).

Ltac alone_cases := repeat (case_match; simplify_eq/=); try done.

Lemma FinishRegistration_alone r (w : hworld S D) :
  alone_as (FinishRegistration_prog r) (FinishRegistration r) w.
Proof. unfold FinishRegistration_prog, FinishRegistration. simpl. alone_cases. Qed.

Lemma FinishAuthentication_alone now r (w : hworld S D) :
  alone_as (FinishAuthentication_prog now r) (FinishAuthentication cred_ID now r) w.
Proof. unfold FinishAuthentication_prog, FinishAuthentication. simpl. alone_cases. Qed.

Lemma BeginRegistration_alone h rnd_id rnd_key now r (w : hworld S D) :
  alone_as (BeginRegistration_prog h rnd_id rnd_key now r) (BeginRegistration decode_brr encode_creation h rnd_id rnd_key now r) w.
Proof. unfold BeginRegistration_prog, BeginRegistration. simpl. alone_cases. Qed.

Lemma BeginDiscoverableAuthentication_alone h rnd_key now (w : hworld S D) :
  alone_as (BeginDiscoverableAuthentication_prog h rnd_key now) (BeginDiscoverableAuthentication encode_assertion h rnd_key now) w.
Proof. unfold BeginDiscoverableAuthentication_prog, BeginDiscoverableAuthentication. simpl. alone_cases. Qed.

Lemma VerifyAuthentication_alone now r (w : hworld S D) :
  alone_as (VerifyAuthentication_prog now r) (VerifyAuthentication now r) w.
Proof. unfold VerifyAuthentication_prog, VerifyAuthentication. simpl. alone_cases. Qed.

End alone.

(** ** Requests in any interleaving *)

Abbreviation SMs := (gmap string (sessionState Cred Sess)).
Abbreviation UMs := (gmap string (User Cred)).

(** The managers, the slices of credentials, each with the ID of the user it was
    made for, the slice of every stored user, and what became of the session keys: those that were issued, and those that a
    request got the session of, for a registration or for a login. *)
Record pstate := mkPState {
  p_sm : SMs; p_um : UMs; p_slice : gmap string nat; p_slices : list (string * list Cred); p_auth : list string;
  p_issued : list string; p_registered : list string; p_authenticated : list string
}.

Definition with_sessions (s : pstate) (sm : SMs) (issued registered authenticated : list string) : pstate :=
  mkPState sm (p_um s) (p_slice s) (p_slices s) (p_auth s)
    (p_issued s ++ issued) (p_registered s ++ registered) (p_authenticated s ++ authenticated).

Definition with_users (s : pstate) (um : UMs) (slice : gmap string nat) (slices : list (string * list Cred)) : pstate :=
  mkPState (p_sm s) um slice slices (p_auth s) (p_issued s) (p_registered s) (p_authenticated s).

Definition with_credentials (u : User Cred) (cs : list Cred) : User Cred :=
  mkUser (u_id u) (u_email u) (u_displayName u) cs.

(** The slice of a user that a lookup found. *)
Definition slice_of (s : pstate) (u : wuser Cred) : nat :=
  match u with PasskeyUser u => default 0%nat (p_slice s !! uid_String (u_id u)) | OtherUser => 0%nat end.

(** A user with what is in a slice now. *)
Definition current (s : pstate) (u : User Cred) (l : nat) : User Cred :=
  match p_slices s !! l with Some (_, cs) => with_credentials u cs | None => u end.

(** The stored users that have the slice see what is written to it. *)
Definition write_slice (s : pstate) (l : nat) (cs : list Cred) : pstate :=
  with_users s
    (map_imap (fun k u => Some (if decide (p_slice s !! k = Some l) then with_credentials u cs else u)) (p_um s))
    (p_slice s) (alter (fun x => (x.1, cs)) l (p_slices s)).

Definition pdo (c : pcall) (s : pstate) : preply c * pstate :=
  match c with
  | PRegistering rnd user session =>
      let '(r, sm) := sm_Registering rnd user session (p_sm s) in
      (r, with_sessions s sm (match r with Ok (k, _) => [k] | Err _ => [] end) [] [])
  | PRegistered key =>
      let '(r, sm) := sm_Registered key (p_sm s) in
      (r, with_sessions s sm [] (match r with Ok _ => [key] | Err _ => [] end) [])
  | PAuthenticating rnd session =>
      let '(r, sm) := sm_Authenticating rnd session (p_sm s) in
      (r, with_sessions s sm (match r with Ok k => [k] | Err _ => [] end) [] [])
  | PAuthenticated key =>
      let '(r, sm) := sm_Authenticated key (p_sm s) in
      (r, with_sessions s sm [] [] (match r with Ok _ => [key] | Err _ => [] end))
  | PLogin session r =>
      (match FinishPasskeyLogin (user_handler (p_um s)) session r with
       | Ok (u, cred) => Ok (u, cred, slice_of s u)
       | Err e => Err e
       end, s)
  | PUpdate user l cred =>
      let '(u, updated) := UpdateCredential cred_ID (current s user l) cred in
      ((u, updated), if updated then write_slice s l (u_credentials u) else s)
  | PStore user None =>
      let '(e, um) := um_Store user (p_um s) in
      (e, with_users s um (<[uid_String (User_ID user) := length (p_slices s)]> (p_slice s)) (p_slices s ++ [(User_ID user, u_credentials user)]))
  | PStore user (Some l) =>
      let '(e, um) := um_Store (current s user l) (p_um s) in
      (e, with_users s um (<[uid_String (User_ID user) := l]> (p_slice s)) (p_slices s))
  | PLookup uid => (um_Lookup uid (p_um s), s)
  | PLoggedIn uid =>
      (tt, mkPState (p_sm s) (p_um s) (p_slice s) (p_slices s) (p_auth s ++ [uid]) (p_issued s) (p_registered s) (p_authenticated s))
  end.

(** No call waits. *)
Definition pexec (i : nat) (c : pcall) (s : pstate) : option (preply c * pstate) := Some (pdo c s).

Inductive job :=
| JBeginRegistration (rnd_id rnd_key : res string) (now : Z) (r : Request)
| JFinishRegistration (r : Request)
| JBeginAuthentication (rnd_key : res string) (now : Z)
| JFinishAuthentication (now : Z) (r : Request)
| JVerify (now : Z) (r : Request).

Variable h : poptions.

Definition job_prog (i : nat) (j : job) : pprog (go rw) :=
  match j with
  | JBeginRegistration rnd_id rnd_key now r => BeginRegistration_prog h rnd_id rnd_key now r new_rw
  | JFinishRegistration r => FinishRegistration_prog r new_rw
  | JBeginAuthentication rnd_key now => BeginDiscoverableAuthentication_prog h rnd_key now new_rw
  | JFinishAuthentication now r => FinishAuthentication_prog now r new_rw
  | JVerify now r => VerifyAuthentication_prog now r new_rw
  end.

Definition pstart : pstate :=
  mkPState (NewRAMUserDatabase (Cred := Cred) (Sess := Sess)).1 (NewRAMUserDatabase (Cred := Cred) (Sess := Sess)).2 ∅ [] [] [] [] [].

Definition no_commit (_ : pcall) : bool := false.

Abbreviation pconf := (conf preply pstate job (go rw)).
Abbreviation prun := (run_schedule pexec job_prog no_commit).
Abbreviation pstep := (step pexec job_prog no_commit).

(** *** Session keys *)

Definition count (k : string) (l : list string) : nat := length (filter (fun x => x = k) l).

Lemma count_app k l1 l2 : count k (l1 ++ l2) = (count k l1 + count k l2)%nat.
Proof. unfold count. by rewrite filter_app, length_app. Qed.

Lemma count_one k x : count k [x] = if decide (x = k) then 1%nat else 0%nat.
Proof. unfold count. rewrite filter_cons. by destruct (decide (x = k)). Qed.

Lemma count_nil k : count k [] = 0%nat.
Proof. done. Qed.

(** No key is used more often than it was issued, and a key in the map has still a
    use. *)
Definition keys_ok (s : pstate) : Prop :=
  forall k, (count k (p_registered s) + count k (p_authenticated s) +
             (if decide (is_Some (p_sm s !! k)) then 1 else 0) <= count k (p_issued s))%nat.

Lemma keys_issue s k x : keys_ok s -> keys_ok (with_sessions s (<[k := x]> (p_sm s)) [k] [] []).
Proof.
  intros Hk k'. specialize (Hk k'). simpl. rewrite !count_app, count_one, !count_nil.
  destruct (decide (k = k')) as [<-|Hne]; [rewrite lookup_insert_eq|rewrite lookup_insert_ne by done];
    repeat case_decide; try lia.
Qed.

Lemma keys_use s k regd authd :
  keys_ok s -> is_Some (p_sm s !! k) -> (regd = [k] /\ authd = [] \/ regd = [] /\ authd = [k]) ->
  keys_ok (with_sessions s (delete k (p_sm s)) [] regd authd).
Proof.
  intros Hk Hs Hu k'. specialize (Hk k'). simpl. rewrite !count_app.
  assert (Hc : (count k' regd + count k' authd = if decide (k = k') then 1 else 0)%nat).
  { rewrite <- (count_one k' k). destruct Hu as [[-> ->]|[-> ->]]; rewrite count_nil; lia. }
  rewrite count_nil.
  destruct (decide (k = k')) as [<-|Hne]; [rewrite lookup_delete_eq|rewrite lookup_delete_ne by done];
    repeat case_decide; try lia; by destruct (is_Some_None (A := sessionState Cred Sess)).
Qed.

Lemma with_sessions_id s : with_sessions s (p_sm s) [] [] [] = s.
Proof. unfold with_sessions. rewrite !app_nil_r. by destruct s. Qed.

Lemma keys_users s um slice slices : keys_ok s -> keys_ok (with_users s um slice slices).
Proof. done. Qed.

Lemma pdo_keys c s : keys_ok s -> keys_ok (pdo c s).2.
Proof.
  intros Hk. destruct c as [rnd u sess|key|rnd sess|key|sess req|u l cred|u [l|]|uid|uid]; simpl; try done.
  - unfold sm_Registering. destruct (generateSecureRandomString rnd 32); simpl; [by apply keys_issue|by rewrite with_sessions_id].
  - unfold sm_Registered. destruct (p_sm s !! key) eqn:E; simpl; [apply keys_use; eauto|by rewrite with_sessions_id].
  - unfold sm_Authenticating. destruct (generateSecureRandomString rnd 32); simpl; [by apply keys_issue|by rewrite with_sessions_id].
  - unfold sm_Authenticated. destruct (p_sm s !! key) eqn:E; simpl; [apply keys_use; eauto|by rewrite with_sessions_id].
  - by destruct (UpdateCredential _ _ _) as [u' [|]].
Qed.

(** *** Users and logins *)

Definition as_world (s : pstate) : hworld SMs UMs := mkHW new_rw (p_sm s) (p_um s) (p_auth s).

Definition new_user (u : User Cred) : Prop := slen (u_id u) = 64%nat /\ u_credentials u = [].

(** A program that keeps the state well formed, when it knows that the users [K] are
    stored and that the slices [L] belong to users, and has [n] sessions to log
    somebody in with: it registers new users only, stores well-formed ones, with
    their own slice, and logs in a user it has stored, for a session of its own.
    What it gets from the managers is well formed. *)
Fixpoint safe {A} (K : list string) (L : list (string * nat)) (n : nat) (p : pprog A) : Prop :=
  match p with
  | Done _ => True
  | Do c k =>
      match c return (preply c -> list string -> list (string * nat) -> nat -> Prop) -> Prop with
      | PRegistering _ u _ => fun next => new_user u /\ forall r, next r K L n
      | PRegistered _ => fun next => forall r, (forall u s, r = Ok (Some u, s) -> new_user u) -> next r K L n
      | PAuthenticating _ _ => fun next => forall r, next r K L n
      | PAuthenticated _ => fun next => forall r, next r K L (match r with Ok _ => S n | Err _ => n end)
      | PLogin _ _ => fun next =>
          forall r, (forall u c l, r = Ok (PasskeyUser u, c, l) -> stored_ok (uid_String (u_id u)) u) ->
            next r K (match r with Ok (PasskeyUser u, _, l) => (u_id u, l) :: L | _ => L end) n
      | PUpdate u l _ => fun next =>
          (u_id u, l) ∈ L /\ stored_ok (uid_String (u_id u)) u /\
          forall r, u_id r.1 = u_id u /\ stored_ok (uid_String (u_id u)) r.1 -> next r K L n
      | PStore u l => fun next =>
          stored_ok (uid_String (u_id u)) u /\ match l with Some l => (u_id u, l) ∈ L | None => True end /\
          forall r, next r (u_id u :: K) L n
      | PLookup _ => fun next => forall r, next r K L n
      | PLoggedIn uid => fun next => uid ∈ K /\ (0 < n)%nat /\ next tt K L (pred n)
      end (fun r K L n => safe K L n (k r))
  end.

Lemma job_prog_safe i j : safe [] [] 0 (job_prog i j).
Proof.
  destruct j as [rnd_id rnd_key now r|r|rnd_key now|now r|now r]; simpl.
  - unfold BeginRegistration_prog. destruct (r_Body r); [|done]. destruct (ParseRequest _ _ _) as [[req|e] w]; [|done].
    case_match; [done|]. destruct (NewUser (Cred := Cred) rnd_id (Email req) (DisplayName req)) as [u|] eqn:EU; [|done].
    destruct (BeginMediatedRegistration u _ _) as [[creds session]|]; [|done]. simpl. split.
    + unfold NewUser in EU. destruct rnd_id as [id|]; [|done]. destruct (Nat.eqb_spec (slen id) 64); simpl in EU; [|done].
      by injection EU as <-.
    + intros reply. by repeat case_match.
  - unfold FinishRegistration_prog. destruct (Secure_ReadAndClear _ _ _) as [[k ok] w]. destruct (negb ok); [done|]. simpl.
    intros [[[u|] [sess|]]|e] Hu; simpl; try done. destruct (wa_FinishRegistration u sess r) as [cred|]; [|done]. simpl.
    destruct (Hu u (Some sess) eq_refl) as [Hid _]. split_and!; [|done|intros e; by destruct e].
    unfold stored_ok. simpl. split_and!; [done|done|by destruct (u_credentials u)].
  - unfold BeginDiscoverableAuthentication_prog. destruct (BeginDiscoverableMediatedLogin "") as [[o s]|]; [|done]. simpl.
    intros [k|e]; done.
  - unfold FinishAuthentication_prog. destruct (Secure_ReadAndClear _ _ _) as [[k ok] w]. destruct (negb ok); [done|]. simpl.
    intros [[sess|]|e]; simpl; try done. intros [[[[u|] c] l]|e] Hu; simpl; try done.
    split_and!; [by left|by apply (Hu u c l)|]. intros [u' [|]] [Hid Hu']; simpl in *; [|done]. rewrite Hid.
    split_and!; [done|by left|]. intros [e|]; simpl; [done|]. unfold User_ID. rewrite Hid. split_and!; [by left|lia|].
    destruct (UserAuthenticated now r w (u_id u)) as [[e|] w']; done.
  - unfold VerifyAuthentication_prog. destruct (AuthenticateUser now r) as [[uid|]|]; [|done..]. simpl.
    intros [u|e]; done.
Qed.

(** No handler makes more than five calls. *)
Lemma job_prog_bounded i j : bounded 5 (job_prog i j).
Proof.
  destruct j; unfold job_prog, BeginRegistration_prog, FinishRegistration_prog, BeginDiscoverableAuthentication_prog,
    FinishAuthentication_prog, VerifyAuthentication_prog; repeat first [exact I | progress simpl | case_match | intros ?].
Qed.

(** Every slice of a stored user is that user's own, and holds its credentials; no
    slice is empty. *)
Definition slices_ok (s : pstate) : Prop :=
  (forall k u, p_um s !! k = Some u -> exists l, p_slice s !! k = Some l /\ p_slices s !! l = Some (u_id u, u_credentials u)) /\
  (forall k l, p_slice s !! k = Some l -> exists id cs, p_slices s !! l = Some (id, cs) /\ k = uid_String id) /\
  Forall (fun x => x.2 <> []) (p_slices s).

Definition users_ok (s : pstate) : Prop := world_ok (as_world s) /\ slices_ok s.

Definition known (s : pstate) (K : list string) (L : list (string * nat)) : Prop :=
  Forall (fun id => is_Some (p_um s !! uid_String id)) K /\
  Forall (fun '(id, l) => exists cs, p_slices s !! l = Some (id, cs)) L.

(** What is known in one state still holds in another. *)
Definition keeps (s s' : pstate) : Prop := forall K L, known s K L -> known s' K L.

Lemma known_slice s K L id l : known s K L -> (id, l) ∈ L -> exists cs, p_slices s !! l = Some (id, cs).
Proof. intros [_ HL] Hin. rewrite Forall_forall in HL. by apply (HL (id, l)). Qed.

Lemma keeps_users s s' :
  (forall k, is_Some (p_um s !! k) -> is_Some (p_um s' !! k)) ->
  (forall l id cs, p_slices s !! l = Some (id, cs) -> exists cs', p_slices s' !! l = Some (id, cs')) -> keeps s s'.
Proof.
  intros Hu Hl K L [HK HL]. split; [eapply Forall_impl; [exact HK|]; simpl; auto|].
  eapply Forall_impl; [exact HL|]. intros [id l] [cs Hcs]. eauto.
Qed.

Lemma current_slice s u l id cs : p_slices s !! l = Some (id, cs) -> current s u l = with_credentials u cs.
Proof. unfold current. by intros ->. Qed.

Lemma current_ok s u l id cs k :
  slices_ok s -> p_slices s !! l = Some (id, cs) -> stored_ok k u -> stored_ok k (current s u l).
Proof.
  intros (_ & _ & HF) Hl (? & ? & _). rewrite (current_slice _ _ _ _ _ Hl). split_and!; [done..|]. simpl.
  rewrite Forall_forall in HF. apply (HF (id, cs)). by eapply list_elem_of_lookup_2.
Qed.

Lemma write_lookup s l cs k :
  p_um (write_slice s l cs) !! k =
    (fun u => if decide (p_slice s !! k = Some l) then with_credentials u cs else u) <$> p_um s !! k.
Proof. simpl. rewrite map_lookup_imap. by destruct (p_um s !! k). Qed.

Lemma write_slices_lookup s l cs l' id cs' :
  p_slices s !! l' = Some (id, cs') ->
  p_slices (write_slice s l cs) !! l' = Some (id, if decide (l' = l) then cs else cs').
Proof.
  intros Hl. simpl. destruct (decide (l' = l)) as [->|Hne].
  - by rewrite list_lookup_alter_eq, Hl.
  - by rewrite list_lookup_alter_ne by congruence.
Qed.

Lemma write_keeps s l cs : keeps s (write_slice s l cs).
Proof.
  apply keeps_users.
  - intros k [u Hu]. rewrite write_lookup.
    rewrite Hu. by eexists.
  - intros l' id cs' Hl. eexists. by apply write_slices_lookup.
Qed.

Lemma write_ok s l cs : users_ok s -> cs <> [] -> users_ok (write_slice s l cs).
Proof.
  intros [(Hu & Hs & Ha) (HU & HS & HF)] Hcs. split; split_and!.
  - intros k u. change (h_um _) with (p_um (write_slice s l cs)). rewrite write_lookup. intros (v & Hv & ->)%fmap_Some.
    destruct (Hu _ _ Hv) as (? & ? & ?). by case_decide.
  - done.
  - eapply Forall_impl; [exact Ha|]. simpl. intros id [u Hid]. rewrite map_lookup_imap. simpl in Hid. rewrite Hid. by eexists.
  - intros k u. rewrite write_lookup. intros (v & Hv & ->)%fmap_Some. destruct (HU _ _ Hv) as (l' & Hl' & Hc). exists l'.
    split; [done|]. rewrite (write_slices_lookup _ _ _ _ _ _ Hc), Hl'. repeat case_decide; simplify_eq; done.
  - intros k l' Hl'. destruct (HS _ _ Hl') as (id & cs' & Hc & ->). eexists id, _. split; [by apply write_slices_lookup|done].
  - apply Forall_alter; [done|]. intros. done.
Qed.

(** Storing a user with its slice. *)
Lemma store_keeps s u slice slices :
  (forall l id cs, p_slices s !! l = Some (id, cs) -> slices !! l = Some (id, cs)) ->
  keeps s (with_users s (<[uid_String (u_id u) := u]> (p_um s)) slice slices).
Proof.
  intros Hsl. apply keeps_users; [|eauto]. intros k Hk. simpl.
  destruct (decide (uid_String (u_id u) = k)) as [->|]; [rewrite lookup_insert_eq; eauto|by rewrite lookup_insert_ne].
Qed.

Lemma store_slice_ok s u l slices :
  users_ok s -> stored_ok (uid_String (u_id u)) u ->
  (forall l id cs, p_slices s !! l = Some (id, cs) -> slices !! l = Some (id, cs)) ->
  Forall (fun x => x.2 <> []) slices -> slices !! l = Some (u_id u, u_credentials u) ->
  users_ok (with_users s (<[uid_String (u_id u) := u]> (p_um s)) (<[uid_String (u_id u) := l]> (p_slice s)) slices).
Proof.
  intros [Hw (HU & HS & HF)] Hu Hsl HF' Hl. split.
  { pose proof (store_ok (as_world s) new_rw u [] Hw Hu (or_introl eq_refl)) as HO. simpl in HO. by rewrite app_nil_r in HO. }
  split_and!; [| |done]; simpl.
  - intros k v. destruct (decide (uid_String (u_id u) = k)) as [<-|Hne].
    + rewrite !lookup_insert_eq. intros [= <-]. eauto.
    + rewrite !lookup_insert_ne by done. intros Hv. destruct (HU _ _ Hv) as (l' & ? & ?). eauto.
  - intros k l'. destruct (decide (uid_String (u_id u) = k)) as [<-|Hne].
    + rewrite lookup_insert_eq. intros [= <-]. eauto.
    + rewrite lookup_insert_ne by done. intros Hk. destruct (HS _ _ Hk) as (id & cs & ? & ?). eauto.
Qed.

Lemma store_known s u slice slices K L :
  known (with_users s (<[uid_String (u_id u) := u]> (p_um s)) slice slices) K L ->
  known (with_users s (<[uid_String (u_id u) := u]> (p_um s)) slice slices) (u_id u :: K) L.
Proof. intros [HK HL]. split; [|done]. constructor; [|done]. simpl. rewrite lookup_insert_eq. eauto. Qed.

Lemma store_shared s u l cs K L :
  users_ok s -> known s K L -> stored_ok (uid_String (u_id u)) u -> p_slices s !! l = Some (u_id u, cs) ->
  let s' := (pdo (PStore u (Some l)) s).2 in users_ok s' /\ keeps s s' /\ known s' (u_id u :: K) L.
Proof.
  intros Hok HK Hu Hcs. pose proof (current_ok _ _ _ _ _ _ (proj2 Hok) Hcs Hu) as Hcur. simpl.
  rewrite (current_slice _ _ _ _ _ Hcs) in *. set (v := with_credentials u cs) in *.
  assert (HKP := store_keeps s v (<[uid_String (u_id u) := l]> (p_slice s)) (p_slices s) (fun _ _ _ H => H)).
  split_and!; [apply (store_slice_ok s v); try done; apply Hok|done|]. apply (store_known s v), HKP, HK.
Qed.

Lemma store_new s u K L :
  users_ok s -> known s K L -> stored_ok (uid_String (u_id u)) u ->
  let s' := (pdo (PStore u None) s).2 in users_ok s' /\ keeps s s' /\ known s' (u_id u :: K) L.
Proof.
  intros Hok HK Hu. simpl. unfold User_ID. set (slices := p_slices s ++ _).
  assert (Hold : forall l id cs, p_slices s !! l = Some (id, cs) -> slices !! l = Some (id, cs)).
  { intros l id cs Hl. unfold slices. by rewrite lookup_app_l by (by eapply lookup_lt_Some). }
  assert (HKP := store_keeps s u (<[uid_String (u_id u) := length (p_slices s)]> (p_slice s)) slices Hold).
  split_and!; [|done|apply store_known, HKP, HK]. apply store_slice_ok; try done.
  - apply Forall_app. split; [apply Hok|]. apply Forall_singleton, Hu.
  - unfold slices. by rewrite lookup_app_r, Nat.sub_diag.
Qed.

Lemma with_own_credentials u : with_credentials u (u_credentials u) = u.
Proof. by destruct u. Qed.

(** The user whose slice was written is the only one that changed. *)
Lemma store_write s l cs u :
  slices_ok s -> p_slice s !! uid_String (u_id u) = Some l ->
  <[uid_String (u_id u) := u]> (p_um (write_slice s l cs)) = <[uid_String (u_id u) := u]> (p_um s).
Proof.
  intros (_ & HS & _) Hl. apply map_eq. intros k. destruct (decide (uid_String (u_id u) = k)) as [<-|Hne].
  { by rewrite !lookup_insert_eq. }
  rewrite !lookup_insert_ne by done. rewrite write_lookup. destruct (p_um s !! k) as [v|]; [|done]. simpl.
  destruct (decide _) as [Hk|]; [exfalso|done]. destruct (HS _ _ Hl) as (id & ? & Hid & ?), (HS _ _ Hk) as (id' & ? & Hid' & ?). congruence.
Qed.

Lemma UpdateCredential_id u c u' b : UpdateCredential cred_ID u c = (u', b) -> u_id u' = u_id u.
Proof. unfold UpdateCredential. by destruct (update_first _ _ _); intros [= <- <-]. Qed.

(** The library returns a user that its callback produced. *)
Hypothesis library : forall handler sess req u c, FinishPasskeyLogin handler sess req = Ok (PasskeyUser u, c) ->
  exists rawID handle, handler rawID handle = Ok u.

Lemma login_stored s sess r u c :
  users_ok s -> FinishPasskeyLogin (user_handler (p_um s)) sess r = Ok (PasskeyUser u, c) ->
  stored_ok (uid_String (u_id u)) u /\ p_um s !! uid_String (u_id u) = Some u /\
  p_slice s !! uid_String (u_id u) = Some (slice_of s (PasskeyUser u)) /\
  p_slices s !! slice_of s (PasskeyUser u) = Some (u_id u, u_credentials u).
Proof.
  intros [Hw (HU & _ & _)] (rawID & handle & HH)%library. unfold user_handler in HH.
  destruct (UserIDFromBytes handle) as [uid|]; [|done].
  simpl in HH. unfold um_Lookup in HH. destruct (p_um s !! uid_String uid) as [v|] eqn:EL; [|done]. injection HH as ->.
  destruct (proj1 Hw _ _ EL) as (Hk & ? & ?). rewrite Hk in EL. destruct (HU _ _ EL) as (l & Hl & Hc).
  simpl. rewrite Hl. done.
Qed.

(** Calls of the session manager change neither users nor slices. *)
Lemma sessions_keep s sm a b c : keeps s (with_sessions s sm a b c).
Proof. by apply keeps_users; [|intros l id cs ?; exists cs]. Qed.

Lemma keeps_refl s : keeps s s.
Proof. by intros K L. Qed.

#[local] Hint Resolve sessions_keep keeps_refl write_keeps : core.

(** What a call of a safe program does: the state stays well formed, what others
    know still holds, and the sessions to log in with are accounted for. *)
Lemma pdo_safe c {A} (k : preply c -> pprog A) s K L n :
  users_ok s -> safe K L n (Do c k) -> known s K L ->
  let '(r, s') := pdo c s in
  users_ok s' /\ keeps s s' /\
  exists K' L' n', safe K' L' n' (k r) /\ known s' K' L' /\
    (length (p_auth s') + n' + length (p_authenticated s) <= length (p_auth s) + n + length (p_authenticated s'))%nat.
Proof.
  intros [Hw Hsl] Hs HK. destruct c as [rnd u sess|key|rnd sess|key|sess req|u l cred|u l|uid|uid]; simpl in Hs |- *.
  - destruct Hs as [Hu Hs]. unfold sm_Registering. destruct (generateSecureRandomString rnd 32); simpl.
    + split_and!; [|auto|exists K, L, n; split_and!; [done|by apply sessions_keep|rewrite app_nil_r; lia]].
      split; [|done]. apply (session_insert (as_world s)); [done|]. by intros ? [= <-].
    + rewrite with_sessions_id. split_and!; [by split|auto|]. exists K, L, n. split_and!; [done..|by rewrite app_nil_r].
  - unfold sm_Registered. destruct (p_sm s !! key) as [x|] eqn:E; simpl.
    + split_and!; [split; [by apply (session_delete (as_world s))|done]|auto|].
      exists K, L, n. split_and!; [|by apply sessions_keep|rewrite app_nil_r; lia].
      apply Hs. intros u sess [= Hu _]. destruct Hw as (_ & Hsm & _). apply (Hsm _ _ E u Hu).
    + rewrite with_sessions_id. split_and!; [by split|auto|]. exists K, L, n. split_and!; [by apply Hs|done|by rewrite app_nil_r].
  - unfold sm_Authenticating. destruct (generateSecureRandomString rnd 32); simpl.
    + split_and!; [split; [by apply (session_insert (as_world s))|done]|auto|].
      exists K, L, n. split_and!; [done|by apply sessions_keep|rewrite app_nil_r; lia].
    + rewrite with_sessions_id. split_and!; [by split|auto|]. exists K, L, n. split_and!; [done..|by rewrite app_nil_r].
  - unfold sm_Authenticated. destruct (p_sm s !! key) as [x|] eqn:E; simpl.
    + split_and!; [split; [by apply (session_delete (as_world s))|done]|auto|].
      exists K, L, (S n). split_and!; [apply (Hs (Ok (ss_session x)))|by apply sessions_keep|rewrite length_app; simpl; lia].
    + rewrite with_sessions_id. split_and!; [by split|auto|]. exists K, L, n. split_and!; [apply (Hs (Err _))|done|by rewrite app_nil_r].
  - split_and!; [by split|auto|]. destruct (FinishPasskeyLogin (user_handler (p_um s)) sess req) as [[[u|] c]|e] eqn:EL.
    + destruct (login_stored s _ _ _ _ (conj Hw Hsl) EL) as (Hu & _ & _ & Hc).
      eexists K, _, n. split; [apply Hs; by intros ? ? ? [= <- _ _]|]. split; [|done]. destruct HK as [HK HL].
      split; [done|]. constructor; [eauto|done].
    + eexists K, _, n. by split; [apply Hs; by intros ? ? ? [=]|].
    + eexists K, _, n. by split; [apply Hs; by intros ? ? ? [=]|].
  - destruct Hs as (Hin & Hu & Hs). destruct (known_slice _ _ _ _ _ HK Hin) as [cs Hcs].
    assert (Hcur := current_ok _ _ _ _ _ _ Hsl Hcs Hu).
    destruct (UpdateCredential cred_ID (current s u l) cred) as [u' b] eqn:EU.
    assert (Hu' := update_ok cred_ID _ _ _ _ _ EU Hcur). assert (Hid := UpdateCredential_id _ _ _ _ EU).
    rewrite (current_slice _ _ _ _ _ Hcs) in Hid. simpl in Hid.
    destruct b; simpl.
    + split_and!; [apply write_ok; [by split|apply Hu']|auto|].
      exists K, L, n. split_and!; [by apply Hs|by apply write_keeps|done].
    + split_and!; [by split|auto|]. exists K, L, n. split_and!; [by apply Hs|done..].
  - destruct Hs as (Hu & Hin & Hs). destruct l as [l|].
    + destruct (known_slice _ _ _ _ _ HK Hin) as [cs Hcs].
      destruct (store_shared s u l cs K L (conj Hw Hsl) HK Hu Hcs) as (? & ? & ?).
      split_and!; [done..|]. exists (u_id u :: K), L, n. split_and!; [apply Hs|done..].
    + destruct (store_new s u K L (conj Hw Hsl) HK Hu) as (? & ? & ?).
      split_and!; [done..|]. exists (u_id u :: K), L, n. split_and!; [apply Hs|done..].
  - split_and!; [by split|auto|]. exists K, L, n. by split_and!.
  - destruct Hs as (Hin & Hn & Hs). split_and!; [split; [|done]|by apply keeps_users; [|intros l id cs ?; exists cs]|].
    + destruct Hw as (? & ? & Ha). split_and!; [done..|]. simpl. apply Forall_app. split; [done|]. apply Forall_singleton.
      destruct HK as [HK _]. rewrite Forall_forall in HK. by apply HK.
    + exists K, L, (pred n). split_and!; [done..|]. simpl. rewrite length_app. simpl. lia.
Qed.

Definition thread_safe (s : pstate) (t : thread preply job (go rw)) (n : nat) : Prop :=
  match cur t with None => n = 0%nat | Some (_, _, p) => exists K L, safe K L n p /\ known s K L end.

Definition pinv (c : pconf) : Prop :=
  users_ok (shared c) /\ keys_ok (shared c) /\
  exists ns, Forall2 (thread_safe (shared c)) (pool c) ns /\
    (length (p_auth (shared c)) + sum_list ns <= length (p_authenticated (shared c)))%nat.

Lemma pinv_step i (c c' : pconf) : pinv c -> pstep i c = Some c' -> pinv c'.
Proof.
  intros (Hw & Hk & ns & HT & Hsum) Hs%step_inv.
  assert (Hn : forall t, pool c !! i = Some t -> exists n, ns !! i = Some n /\ thread_safe (shared c) t n).
  { intros t Ht. by destruct (Forall2_lookup_l _ _ _ _ _ HT Ht) as (n & ? & ?); exists n. }
  destruct Hs as [j js Hi|js j b o Hi|js j b cl k r s Hi Hex]; destruct (Hn _ Hi) as (n & Hni & Hti);
    unfold thread_safe in Hti; simpl in Hti.
  - split_and!; [done..|]. exists (<[i := n]> ns). simpl. split.
    + apply Forall2_insert; [done|]. subst n. exists [], []. split; [apply job_prog_safe|split; constructor].
    + rewrite list_insert_id by done. done.
  - split_and!; [done..|]. exists (<[i := 0%nat]> ns). simpl. split; [by apply Forall2_insert|].
    pose proof (sum_list_insert ns i n 0 Hni). lia.
  - destruct Hti as (K & L & HS & HK). pose proof (pdo_safe cl k _ _ _ _ Hw HS HK) as HP.
    pose proof (pdo_keys cl _ Hk) as HK'. injection Hex as Hex. rewrite Hex in HP, HK'.
    destruct HP as (Hw' & Hmono & K' & L' & n' & HS' & HN' & Hcount).
    split_and!; [done|done|]. exists (<[i := n']> ns). simpl. split.
    + apply Forall2_insert; [|by exists K', L']. eapply Forall2_impl; [exact HT|]. intros t m. unfold thread_safe.
      destruct (cur t) as [[[? ?] p]|]; [|done]. intros (J & M & HJ & Hk'). exists J, M. auto.
    + pose proof (sum_list_insert ns i n n' Hni). lia.
Qed.

Lemma pinv_reachable sched reqs (c : pconf) : prun sched (init pstart reqs) = Some c -> pinv c.
Proof.
  apply (run_schedule_inv _ _ _ pinv); [intros i c1 c2; apply pinv_step|]. split_and!.
  - split; split_and!; try apply map_Forall_empty; try constructor; done.
  - intros k. simpl. by rewrite decide_False by (by rewrite lookup_empty; intros [? ?]).
  - exists (map (fun _ => 0%nat) reqs). simpl. split; [apply Forall2_fmap, Forall_Forall2_diag, Forall_forall; done|].
    induction reqs; simpl; [done|]. by unfold sum_list in *.
Qed.

(** No request ever waits for another one. *)
Lemma pstep_runs (c : pconf) i t : pool c !! i = Some t -> finished t \/ is_Some (pstep i c).
Proof.
  intros Hi. unfold step. rewrite Hi. destruct t as [js [[[j b] [o|cl k]]|]]; simpl; [right; eauto| |].
  - right. destruct (pdo cl (shared c)); eauto.
  - destruct js as [|j js]; [by left|right; eauto].
Qed.

(** A request that is not interrupted does not notice that slices are shared: a login
    on the shared state is [FinishAuthentication] on the database. *)
Lemma FinishAuthentication_uninterrupted now r w s :
  users_ok s ->
  let '(o, s') := run pdo (FinishAuthentication_prog now r w) s in
  run pserve (FinishAuthentication_prog now r w) (p_sm s, p_um s, p_auth s) = (o, (p_sm s', p_um s', p_auth s')).
Proof.
  intros Hok. unfold FinishAuthentication_prog. destruct (Secure_ReadAndClear _ _ _) as [[k ok] w1]. destruct (negb ok); [done|].
  cbn -[UpdateCredential]. unfold sm_Authenticated. destruct (p_sm s !! k) as [st|] eqn:Est; [|done]. cbn -[UpdateCredential].
  destruct (ss_session st) as [sess|]; [|done]. cbn -[UpdateCredential].
  destruct (FinishPasskeyLogin (user_handler (p_um s)) sess r) as [[[u|] c]|e] eqn:EL; [|done..]. cbn -[UpdateCredential].
  destruct (login_stored s _ _ _ _ Hok EL) as (_ & _ & Hl & Hc). simpl in Hl, Hc.
  set (l := default 0%nat _) in *. unfold current at 1. cbn [p_slices with_sessions]. rewrite Hc.
  rewrite with_own_credentials. destruct (UpdateCredential cred_ID u c) as [u' [|]] eqn:EU; [|done].
  pose proof (UpdateCredential_id _ _ _ _ EU) as Hid. set (s1 := with_sessions _ _ _ _ _). change (p_slices s) with (p_slices s1) in Hc.
  cbn -[current write_slice p_um p_sm p_auth].
  rewrite (current_slice _ u' l _ _ (write_slices_lookup _ l (u_credentials u') _ _ _ Hc)), decide_True, with_own_credentials by done.
  unfold User_ID. cbn [p_um with_users]. rewrite (store_write s1 l (u_credentials u') u') by (apply Hok || by rewrite Hid).
  destruct (UserAuthenticated now r w1 (u_id u')) as [[e|] w2]; done.
Qed.

End conc.

Lemma NoDup_count (l : list string) : NoDup l <-> forall k, (count k l <= 1)%nat.
Proof.
  induction l as [|x l IH]; [split; [unfold count; simpl; lia|constructor]|].
  assert (Hc : forall k, count k (x :: l) = ((if decide (x = k) then 1 else 0) + count k l)%nat).
  { intros k. by rewrite <- count_one, <- count_app. }
  assert (Hin : forall k, k ∈ l <-> (0 < count k l)%nat).
  { intros k. unfold count. rewrite <- (Nat.neq_0_lt_0 (length _)). rewrite length_zero_iff_nil. split.
    - intros Hk Hf. assert (Hk' : k ∈ filter (fun x => x = k) l) by (by apply list_elem_of_filter). rewrite Hf in Hk'.
      by apply elem_of_nil in Hk'.
    - intros Hf. destruct (filter _ l) as [|y m] eqn:E; [done|]. assert (Hy : y ∈ filter (fun x => x = k) l) by (rewrite E; by left).
      apply list_elem_of_filter in Hy as [-> ?]. done. }
  rewrite NoDup_cons, IH. split.
  - intros [Hx Hl] k. rewrite Hc. specialize (Hl k). destruct (decide (x = k)) as [->|]; [|lia]. rewrite Hin in Hx. lia.
  - intros Hl. split; [|intros k; specialize (Hl k); rewrite Hc in Hl; lia].
    rewrite Hin. specialize (Hl x). rewrite Hc, decide_True in Hl by done. lia.
Qed.

(** ** Properties *)

(** C3 The state of the passkey service is well formed however its handlers
    interleave, from the empty database on and with any requests: every stored
    user is filed under the text form of its own ID, which has 64 bytes, and has a
    credential; every pending registration is for a user with a 64-byte ID and no
    credentials yet; and every ID passed to the login manager is that of a stored
    user, who is found by a lookup. Logins write to credential slices that they
    share with the database, but no slice is shared by two stored users, and each
    holds the credentials its user is stored with. The WebAuthn library is only assumed to return
    a user that its callback produced. *)
Theorem concurrent_ok {Cred Sess Creation Assertion} (cred_ID : Cred -> string)
    `{!WebAuthn Cred Sess Creation Assertion} `{!LoginManager} decode_brr encode_creation encode_assertion h
    sched reqs (c : conf preply pstate job (go rw)) :
  (forall handler sess req u c, FinishPasskeyLogin handler sess req = Ok (PasskeyUser u, c) ->
     exists rawID handle, handler rawID handle = Ok u) ->
  run_schedule (pexec cred_ID) (job_prog decode_brr encode_creation encode_assertion h) no_commit sched (init pstart reqs) = Some c ->
  let s := shared c in
  map_Forall stored_ok (p_um s) /\ map_Forall session_ok (p_sm s) /\
  (forall k u, p_um s !! k = Some u -> exists l,
     p_slice s !! k = Some l /\ p_slices s !! l = Some (u_id u, u_credentials u) /\
     forall k', p_slice s !! k' = Some l -> k' = k) /\
  Forall (fun id => exists u, um_Lookup id (p_um s) = Ok u /\ u_id u = id /\ u_credentials u <> []) (p_auth s).
Proof.
  intros Hlib Hr. destruct (pinv_reachable _ _ _ _ _ Hlib _ _ _ Hr) as ([(Hu & Hs & Ha) (HU & HS & _)] & _). split_and!; [done..| |].
  { intros k u Hk. destruct (HU _ _ Hk) as (l & Hl & Hc). exists l. split_and!; [done..|]. intros k' Hk'.
    destruct (HS _ _ Hl) as (id & ? & Hid & ->), (HS _ _ Hk') as (id' & ? & Hid' & ->). congruence. }
  eapply Forall_impl; [exact Ha|]. simpl. intros id [u Hid]. destruct (Hu _ _ Hid) as (Hk & _ & Hc). exists u.
  unfold um_Lookup. simpl in Hid. rewrite Hid. split_and!; [done| |done]. symmetry. by apply RawURL_Encode_inj.
Qed.

(** C19 Sessions are single use, also when requests race: in every interleaving, no
    session key is given out to requests that finish a registration or a login more
    often than it was issued, so that with distinct keys every session goes to one
    request at most, and the logins are never more than the sessions that login
    requests got. Every request ends within seven steps, and none waits for
    another. *)
Theorem sessions_single_use {Cred Sess Creation Assertion} (cred_ID : Cred -> string)
    `{!WebAuthn Cred Sess Creation Assertion} `{!LoginManager} decode_brr encode_creation encode_assertion h
    sched reqs (c : conf preply pstate job (go rw)) :
  (forall handler sess req u c, FinishPasskeyLogin handler sess req = Ok (PasskeyUser u, c) ->
     exists rawID handle, handler rawID handle = Ok u) ->
  run_schedule (pexec cred_ID) (job_prog decode_brr encode_creation encode_assertion h) no_commit sched (init pstart reqs) = Some c ->
  let s := shared c in
  (forall k, count k (p_registered s) + count k (p_authenticated s) <= count k (p_issued s)) /\
  (NoDup (p_issued s) -> NoDup (p_registered s ++ p_authenticated s)) /\
  length (p_auth s) <= length (p_authenticated s) /\
  length sched <= 7 * sum_list (map length reqs) /\
  (forall i t, pool c !! i = Some t -> finished t \/
     is_Some (step (pexec cred_ID) (job_prog decode_brr encode_creation encode_assertion h) no_commit i c)).
Proof.
  intros Hlib Hr s. destruct (pinv_reachable _ _ _ _ _ Hlib _ _ _ Hr) as (_ & Hk & ns & _ & Hsum).
  assert (Hle : forall k, count k (p_registered s) + count k (p_authenticated s) <= count k (p_issued s)).
  { intros k. specialize (Hk k). fold s in Hk. destruct (decide _); lia. }
  split_and!; [done| |fold s in Hsum; lia| |].
  - rewrite !NoDup_count. intros Hi k. rewrite count_app. specialize (Hle k). specialize (Hi k). lia.
  - apply (schedule_bounded _ _ _ 5 (job_prog_bounded _ _ _ _) _ _ _ _ Hr).
  - intros i t. apply pstep_runs.
Qed.

(** ** Witnesses: two requests race for the session of Alice's login *)
Module RaceDemo.
Import ToyWebAuthn ToyRun.

Definition login : job :=
  JFinishAuthentication 0 (request "cred" (zeros 64) "" [(AuthenticationCookie, key)]).
Definition reqs : list (list job) :=
  [[JBeginRegistration (Ok (zeros 64)) (Ok (zeros 24)) 0 (request "" "" "a@b.c" []);
    JFinishRegistration (request "cred" "" "" [(RegistrationCookie, key)]);
    JBeginAuthentication (Ok (zeros 24)) 0; login]; [login]].

Definition race (sched : list nat) :=
  run_schedule (pexec (Cred := string) (Sess := string) id) (job_prog decode_email encode encode (NewHandler [])) no_commit sched
    (init pstart reqs).

(** Thread 0 registers and begins the login; both start to finish it, and thread 1
    gets the session. *)
Definition sched : list nat := replicate 10 0 ++ [0; 1; 1; 0; 0; 1; 1; 1; 1; 1].

End RaceDemo.

Lemma concurrent_ok_witness :
  exists c, RaceDemo.race RaceDemo.sched = Some c /\ p_auth (shared c) = [zeros 64] /\
    Forall (fun id => exists u, um_Lookup id (p_um (shared c)) = Ok u /\ u_id u = id /\ u_credentials u <> []) (p_auth (shared c)).
Proof.
  destruct (RaceDemo.race RaceDemo.sched) as [c|] eqn:E; [|by vm_compute in E]. exists c.
  destruct (concurrent_ok (id : string -> string) _ _ _ _ _ _ _ ToyWebAuthn.toy_callback E) as (_ & _ & _ & HF).
  split_and!; [done| |done]. vm_compute in E. by injection E as <-.
Defined.

Lemma sessions_single_use_witness :
  exists c, RaceDemo.race RaceDemo.sched = Some c /\ p_issued (shared c) = [ToyRun.key; ToyRun.key] /\
    p_registered (shared c) = [ToyRun.key] /\ p_authenticated (shared c) = [ToyRun.key] /\
    length (p_auth (shared c)) <= length (p_authenticated (shared c)).
Proof.
  destruct (RaceDemo.race RaceDemo.sched) as [c|] eqn:E; [|by vm_compute in E]. exists c.
  destruct (sessions_single_use (id : string -> string) _ _ _ _ _ _ _ ToyWebAuthn.toy_callback E) as (_ & _ & Hl & _).
  split_and!; [done| | | |done]; vm_compute in E; injection E as <-; by vm_compute.
Defined.
