(* ===== verification/TLSNames.v ===== *)
(** * TLS and X.509 names in configuration files

Models [tls_capabilities.go] and [cipher_suites.go]: the parsers that map the
names of signature schemes, curves, protocol versions, cipher suites and
signature algorithms to their numbers, and the YAML (un)marshalling of lists of
them.  The constants and names of crypto/tls and crypto/x509 are written out;
the cipher suite tables, which change with the Go release, are a parameter. *)

From S2P Require Import Prelude GoStrings GoErrors GoEncoding.

(** The list operations that every one of the list types repeats. *)
Fixpoint find_name (name_of : N -> string) (l : list N) (name : string) : option N :=
  match l with
  | [] => None
  | v :: l' => if bool_decide (name_of v = name) then Some v else find_name name_of l' name
  end.

(** The loop of an [UnmarshalYAML] method that fills a slice of the same
    length. *)
Fixpoint parse_each (parse : string -> res N) (names : list string) : res (list N) :=
  match names with
  | [] => Ok []
  | name :: names' =>
      match parse name with
      | Err e => Err e
      | Ok v => match parse_each parse names' with Err e => Err e | Ok vs => Ok (v :: vs) end
      end
  end.

(** The loop of an [UnmarshalYAML] method that appends to a slice. *)
Fixpoint append_each (expand : string -> res (list N)) (acc : list N) (names : list string) : res (list N) :=
  match names with
  | [] => Ok acc
  | name :: names' =>
      match expand name with
      | Err e => Err e
      | Ok vs => append_each expand (acc ++ vs) names'
      end
  end.

(** [node.Decode(&names)] gives [names]; the receiver is assigned only if the
    result is [Ok]. *)
Definition decoded {A B} (names : res A) (k : A -> res B) : res B :=
  match names with Err e => Err (Errorf "unmarshal: %v" [] []) | Ok ns => k ns end.

(** ** crypto/tls: signature schemes *)
Definition PKCS1WithSHA256 : N := 0x0401.
Definition PKCS1WithSHA384 : N := 0x0501.
Definition PKCS1WithSHA512 : N := 0x0601.
Definition PSSWithSHA256 : N := 0x0804.
Definition PSSWithSHA384 : N := 0x0805.
Definition PSSWithSHA512 : N := 0x0806.
Definition ECDSAWithP256AndSHA256 : N := 0x0403.
Definition ECDSAWithP384AndSHA384 : N := 0x0503.
Definition ECDSAWithP521AndSHA512 : N := 0x0603.
Definition Ed25519 : N := 0x0807.
Definition PKCS1WithSHA1 : N := 0x0201.
Definition ECDSAWithSHA1_tls : N := 0x0203.

(** A stringer over a table, with the fallback for unknown values. *)
Definition stringer (table : list (N * string)) (fallback : N -> string) (v : N) : string :=
  match list_find (fun p => p.1 = v) table with Some (_, (_, s)) => s | None => fallback v end.

Definition SignatureScheme_String : N -> string :=
  stringer
    [(PKCS1WithSHA256, "PKCS1WithSHA256"); (PKCS1WithSHA384, "PKCS1WithSHA384");
     (PKCS1WithSHA512, "PKCS1WithSHA512"); (PSSWithSHA256, "PSSWithSHA256");
     (PSSWithSHA384, "PSSWithSHA384"); (PSSWithSHA512, "PSSWithSHA512");
     (ECDSAWithP256AndSHA256, "ECDSAWithP256AndSHA256"); (ECDSAWithP384AndSHA384, "ECDSAWithP384AndSHA384");
     (ECDSAWithP521AndSHA512, "ECDSAWithP521AndSHA512"); (Ed25519, "Ed25519");
     (PKCS1WithSHA1, "PKCS1WithSHA1"); (ECDSAWithSHA1_tls, "ECDSAWithSHA1")]
    (fun v => "SignatureScheme(" +:+ fmt_uint false 10 v +:+ ")").

Definition signatureSchemes : list N :=
  [PKCS1WithSHA256; PKCS1WithSHA384; PKCS1WithSHA512; PSSWithSHA256; PSSWithSHA384; PSSWithSHA512;
   ECDSAWithP256AndSHA256; ECDSAWithP384AndSHA384; ECDSAWithP521AndSHA512; Ed25519; PKCS1WithSHA1;
   ECDSAWithSHA1_tls].

Definition ParseSignatureScheme (name : string) : res N :=
  match find_name SignatureScheme_String signatureSchemes name with
  | Some s => Ok s
  | None => Err (Errorf "unknown signature scheme %q" [name] [])
  end.

Definition TLSSignatureSchemes_UnmarshalYAML (names : res (list string)) : res (list N) :=
  decoded names (parse_each ParseSignatureScheme).
Definition TLSSignatureSchemes_MarshalYAML (s : list N) : list string := map SignatureScheme_String s.
Definition TLSSignatureSchemes_String (s : list N) : string := Join (map SignatureScheme_String s) ",".

(** ** crypto/tls: curves *)
Definition CurveP256 : N := 23.
Definition CurveP384 : N := 24.
Definition CurveP521 : N := 25.
Definition X25519 : N := 29.
Definition X25519MLKEM768 : N := 4588.
Definition SecP256r1MLKEM768 : N := 4587.
Definition SecP384r1MLKEM1024 : N := 4589.

Definition CurveID_String : N -> string :=
  stringer
    [(CurveP256, "CurveP256"); (CurveP384, "CurveP384"); (CurveP521, "CurveP521"); (X25519, "X25519");
     (X25519MLKEM768, "X25519MLKEM768"); (SecP256r1MLKEM768, "SecP256r1MLKEM768");
     (SecP384r1MLKEM1024, "SecP384r1MLKEM1024")]
    (fun v => "CurveID(" +:+ fmt_uint false 10 v +:+ ")").

Definition curveIDs : list N :=
  [CurveP256; CurveP384; CurveP521; X25519; X25519MLKEM768; SecP256r1MLKEM768; SecP384r1MLKEM1024].

Definition ParseCurveID (name : string) : res N :=
  match find_name CurveID_String curveIDs name with
  | Some c => Ok c
  | None => Err (Errorf "unknown curve %q" [name] [])
  end.

Definition TLSCurves_UnmarshalYAML (names : res (list string)) : res (list N) :=
  decoded names (parse_each ParseCurveID).
Definition TLSCurves_MarshalYAML (c : list N) : list string := map CurveID_String c.
Definition TLSCurves_String (c : list N) : string := Join (map CurveID_String c) ",".

(** ** crypto/tls: versions *)
Definition VersionSSL30 : N := 0x0300.
Definition VersionTLS10 : N := 0x0301.
Definition VersionTLS11 : N := 0x0302.
Definition VersionTLS12 : N := 0x0303.
Definition VersionTLS13 : N := 0x0304.

(** [tls.VersionName]: [0x%04X] for the versions it does not know. *)
Definition VersionName : N -> string :=
  stringer
    [(VersionSSL30, "SSLv3"); (VersionTLS10, "TLS 1.0"); (VersionTLS11, "TLS 1.1"); (VersionTLS12, "TLS 1.2");
     (VersionTLS13, "TLS 1.3")]
    (fun v => "0x" +:+ pad0 4 (fmt_uint true 16 v)).

Definition tlsVersions : list N := [VersionTLS10; VersionTLS11; VersionTLS12; VersionTLS13].

Definition ParseTLSVersion (name : string) : res N :=
  match find_name VersionName tlsVersions name with
  | Some v => Ok v
  | None =>
      let from_hex := match CutPrefix name "0x" with Some hex => ParseUint hex 16 16 | None => None end in
      match from_hex with
      | Some v => Ok v
      | None =>
          match ParseUint name 10 16 with
          | Some v => Ok v
          | None => Err (Errorf "unknown TLS version %q" [name] [])
          end
      end
  end.

Definition TLSVersion_UnmarshalYAML (name : res string) : res N := decoded name ParseTLSVersion.
Definition TLSVersion_MarshalYAML (v : N) : string := VersionName v.
Definition TLSVersion_String (v : N) : string := VersionName v.

Definition TLSVersions_UnmarshalYAML (names : res (list string)) : res (list N) :=
  decoded names (parse_each ParseTLSVersion).
Definition TLSVersions_MarshalYAML (v : list N) : list string := map VersionName v.
Definition TLSVersions_String (v : list N) : string := Join (map VersionName v) ",".

(** ** crypto/x509: signature algorithms *)
Definition UnknownSignatureAlgorithm : N := 0.
Definition MD2WithRSA : N := 1.
Definition MD5WithRSA : N := 2.
Definition SHA1WithRSA : N := 3.
Definition SHA256WithRSA : N := 4.
Definition SHA384WithRSA : N := 5.
Definition SHA512WithRSA : N := 6.
Definition DSAWithSHA1 : N := 7.
Definition DSAWithSHA256 : N := 8.
Definition ECDSAWithSHA1 : N := 9.
Definition ECDSAWithSHA256 : N := 10.
Definition ECDSAWithSHA384 : N := 11.
Definition ECDSAWithSHA512 : N := 12.
Definition SHA256WithRSAPSS : N := 13.
Definition SHA384WithRSAPSS : N := 14.
Definition SHA512WithRSAPSS : N := 15.
Definition PureEd25519 : N := 16.

Definition SignatureAlgorithm_String : N -> string :=
  stringer
    [(MD5WithRSA, "MD5-RSA"); (SHA1WithRSA, "SHA1-RSA"); (SHA256WithRSA, "SHA256-RSA");
     (SHA384WithRSA, "SHA384-RSA"); (SHA512WithRSA, "SHA512-RSA"); (SHA256WithRSAPSS, "SHA256-RSAPSS");
     (SHA384WithRSAPSS, "SHA384-RSAPSS"); (SHA512WithRSAPSS, "SHA512-RSAPSS"); (DSAWithSHA1, "DSA-SHA1");
     (DSAWithSHA256, "DSA-SHA256"); (ECDSAWithSHA1, "ECDSA-SHA1"); (ECDSAWithSHA256, "ECDSA-SHA256");
     (ECDSAWithSHA384, "ECDSA-SHA384"); (ECDSAWithSHA512, "ECDSA-SHA512"); (PureEd25519, "Ed25519")]
    (fun v => fmt_uint false 10 v).

Definition signatureAlgorithms : list N :=
  [MD5WithRSA; SHA1WithRSA; SHA256WithRSA; SHA384WithRSA; SHA512WithRSA; DSAWithSHA1; DSAWithSHA256;
   ECDSAWithSHA1; ECDSAWithSHA256; ECDSAWithSHA384; ECDSAWithSHA512; SHA256WithRSAPSS; SHA384WithRSAPSS;
   SHA512WithRSAPSS; PureEd25519].

Definition ParseSignatureAlgorithm (name : string) : res N :=
  match find_name SignatureAlgorithm_String signatureAlgorithms name with
  | Some a => Ok a
  | None => Err (Errorf "unknown signature algorithm %q" [name] [])
  end.

(** The switch in [SignatureAlgorithms.UnmarshalYAML]. *)
Definition expand_algorithm (name : string) : res (list N) :=
  if bool_decide (name = "rsa") then Ok [SHA256WithRSA; SHA384WithRSA; SHA512WithRSA]
  else if bool_decide (name = "dsa") then Ok [DSAWithSHA1; DSAWithSHA256]
  else if bool_decide (name = "ecdsa") then Ok [ECDSAWithSHA1; ECDSAWithSHA256; ECDSAWithSHA384; ECDSAWithSHA512]
  else if bool_decide (name = "ed25519") then Ok [PureEd25519]
  else if bool_decide (name = "rsa-pss") then Ok [SHA256WithRSAPSS; SHA384WithRSAPSS; SHA512WithRSAPSS]
  else match ParseSignatureAlgorithm name with Ok a => Ok [a] | Err e => Err e end.

Definition SignatureAlgorithms_UnmarshalYAML (names : res (list string)) : res (list N) :=
  decoded names (append_each expand_algorithm []).
Definition SignatureAlgorithms_MarshalYAML (s : list N) : list string := map SignatureAlgorithm_String s.
Definition SignatureAlgorithms_String (s : list N) : string := Join (map SignatureAlgorithm_String s) ",".

(** ** Cipher suites *)
Section ciphers.
(** [tls.CipherSuites()] and [tls.InsecureCipherSuites()], as names with IDs. *)
Variables CipherSuites InsecureCipherSuites : list (string * N).

Fixpoint suite_named (l : list (string * N)) (name : string) : option N :=
  match l with
  | [] => None
  | (n, i) :: l' => if bool_decide (n = name) then Some i else suite_named l' name
  end.

Fixpoint suite_with_id (l : list (string * N)) (id : N) : option string :=
  match l with
  | [] => None
  | (n, i) :: l' => if bool_decide (i = id) then Some n else suite_with_id l' id
  end.

(** [tls.CipherSuiteName] *)
Definition CipherSuiteName (id : N) : string :=
  match suite_with_id CipherSuites id with
  | Some n => n
  | None => match suite_with_id InsecureCipherSuites id with
            | Some n => n
            | None => "0x" +:+ pad0 4 (fmt_uint true 16 id)
            end
  end.

Definition ParseCipherSuite (name : string) : res N :=
  match suite_named CipherSuites name with
  | Some i => Ok i
  | None => match suite_named InsecureCipherSuites name with
            | Some i => Ok i
            | None => Err (Errorf "unknown cipher suite %q" [name] [])
            end
  end.

(** The loop body of [CipherSuites.UnmarshalYAML]. *)
Definition expand_suite (name : string) : res (list N) :=
  if bool_decide (name = "insecure") then Ok (map snd InsecureCipherSuites)
  else match ParseCipherSuite name with Ok i => Ok [i] | Err e => Err e end.

Definition CipherSuites_UnmarshalYAML (names : res (list string)) : res (list N) :=
  decoded names (append_each expand_suite []).
Definition CipherSuites_MarshalYAML (c : list N) : list string := map CipherSuiteName c.
Definition CipherSuites_String (c : list N) : string := Join (map CipherSuiteName c) ",".

End ciphers.

(** ** Lemmas *)

Lemma parse_each_map parse (name : N -> string) l :
  Forall (fun v => parse (name v) = Ok v) l -> parse_each parse (map name l) = Ok l.
Proof. induction 1 as [|v l Hv _ IH]; simpl; [done|]. by rewrite Hv, IH. Qed.

Lemma append_each_map expand (name : N -> string) acc l :
  Forall (fun v => expand (name v) = Ok [v]) l -> append_each expand acc (map name l) = Ok (acc ++ l).
Proof.
  intros H. revert acc. induction H as [|v l Hv _ IH]; intros acc; simpl; [by rewrite app_nil_r|].
  by rewrite Hv, IH, <- app_assoc.
Qed.

Lemma append_each_Ok expand acc names r :
  append_each expand acc names = Ok r <->
  exists rs, Forall2 (fun n vs => expand n = Ok vs) names rs /\ r = acc ++ concat rs.
Proof.
  revert acc. induction names as [|n names IH]; intros acc; simpl.
  - split; [intros [= ->]; exists []; by rewrite app_nil_r|].
    intros (rs & HF & ->). inversion HF. by rewrite app_nil_r.
  - destruct (expand n) as [vs|] eqn:E.
    + rewrite IH. split.
      * intros (rs & HF & ->). exists (vs :: rs). split; [by constructor|]. by rewrite <- app_assoc.
      * intros (rs & HF & ->). inversion HF as [|?? vs' rs' Hvs HF']; subst.
        rewrite E in Hvs. injection Hvs as ->. exists rs'. split; [done|]. by rewrite <- app_assoc.
    + split; [done|]. intros (rs & HF & _). inversion HF. congruence.
Qed.

(** Whether one of the names is refused does not depend on what was appended. *)
Lemma append_each_rejects expand acc names :
  (exists e, append_each expand acc names = Err e) <-> exists n, n ∈ names /\ exists e, expand n = Err e.
Proof.
  revert acc. induction names as [|n names IH]; intros acc; simpl.
  - split; [by intros [e ?] | intros (n & Hn & _); by apply elem_of_nil in Hn].
  - destruct (expand n) as [vs|e] eqn:E.
    + rewrite IH. split.
      * intros (m & Hm & He). exists m. split; [by right|done].
      * intros (m & [->|Hm]%elem_of_cons & e & He); [congruence|eauto].
    + split; [|eauto]. intros _. exists n. split; [by left|eauto].
Qed.

(** The tables are small: the parsers invert the names by evaluation. *)
Lemma known_names :
  Forall (fun v => ParseSignatureScheme (SignatureScheme_String v) = Ok v) signatureSchemes /\
  Forall (fun v => ParseCurveID (CurveID_String v) = Ok v) curveIDs /\
  Forall (fun v => expand_algorithm (SignatureAlgorithm_String v) = Ok [v]) signatureAlgorithms.
Proof. split_and!; repeat constructor. Qed.

(** An unknown version is printed in hexadecimal with four digits or more, which
    [ParseUint] reads back. *)
Lemma ParseTLSVersion_VersionName v :
  (v < 65536)%N -> v <> VersionSSL30 -> ParseTLSVersion (VersionName v) = Ok v.
Proof.
  intros Hv Hn. destruct (decide (v ∈ tlsVersions)) as [Ht|Ht].
  { assert (HF : Forall (fun v => ParseTLSVersion (VersionName v) = Ok v) tlsVersions) by repeat constructor.
    rewrite Forall_forall in HF. by apply HF. }
  assert (VersionName v = "0x" +:+ pad0 4 (fmt_uint true 16 v)) as ->.
  { unfold VersionName, stringer. destruct (list_find _ _) as [[i [w s]]|] eqn:E; [|done].
    apply list_find_Some in E as (Hi & Hw & _). simpl in Hw. subst w. exfalso.
    apply list_elem_of_lookup_2 in Hi. set_solver. }
  pose proof (ParseUint_pad0_fmt_uint 4 true 16 16 v ltac:(lia) Hv) as HP. revert HP.
  generalize (pad0 4 (fmt_uint true 16 v)). intros hex HP. unfold ParseTLSVersion, CutPrefix. simpl.
  by rewrite HP.
Qed.

Lemma concat_map_singleton {A} (l : list A) : concat (map (fun x => [x]) l) = l.
Proof. induction l; simpl; congruence. Qed.

Section cipher_facts.
Context (secure insecure : list (string * N)).
Context (names_distinct : NoDup (map fst (secure ++ insecure))).
Context (ids_distinct : NoDup (map snd (secure ++ insecure))).

Lemma suite_named_Some l n i : NoDup (map fst l) -> (n, i) ∈ l -> suite_named l n = Some i.
Proof.
  induction l as [|[m j] l IH]; simpl; [by intros _ ?%elem_of_nil|].
  intros [Hm Hl]%NoDup_cons [Heq|Hi]%elem_of_cons; [injection Heq as -> ->; by rewrite bool_decide_true|].
  rewrite bool_decide_false; [by apply IH|]. intros ->. apply Hm, list_elem_of_fmap. by exists (n, i).
Qed.

Lemma suite_named_None l n : n ∉ map fst l -> suite_named l n = None.
Proof.
  induction l as [|[m j] l IH]; simpl; [done|]. intros [Hm Hl]%not_elem_of_cons.
  rewrite bool_decide_false by done. by apply IH.
Qed.

Lemma suite_with_id_Some l n i : NoDup (map snd l) -> (n, i) ∈ l -> suite_with_id l i = Some n.
Proof.
  induction l as [|[m j] l IH]; simpl; [by intros _ ?%elem_of_nil|].
  intros [Hm Hl]%NoDup_cons [Heq|Hi]%elem_of_cons; [injection Heq as -> ->; by rewrite bool_decide_true|].
  rewrite bool_decide_false; [by apply IH|]. intros ->. apply Hm, list_elem_of_fmap. by exists (n, i).
Qed.

Lemma suite_with_id_None l i : i ∉ map snd l -> suite_with_id l i = None.
Proof.
  induction l as [|[m j] l IH]; simpl; [done|]. intros [Hm Hl]%not_elem_of_cons.
  rewrite bool_decide_false by done. by apply IH.
Qed.

(** A suite of the tables is found by its name and by its ID. *)
Lemma suite_lookup n i :
  (n, i) ∈ secure ++ insecure -> ParseCipherSuite secure insecure n = Ok i /\ CipherSuiteName secure insecure i = n.
Proof.
  rewrite !map_app in *. apply NoDup_app in names_distinct as (N1 & N2 & N3).
  apply NoDup_app in ids_distinct as (I1 & I2 & I3). unfold ParseCipherSuite, CipherSuiteName.
  intros [Hs|Hi]%elem_of_app.
  - by rewrite (suite_named_Some secure n i), (suite_with_id_Some secure n i).
  - rewrite (suite_named_None secure n), (suite_with_id_None secure i), (suite_named_Some insecure n i),
      (suite_with_id_Some insecure n i); [done..| |].
    + intros H. by apply (I2 _ H), (list_elem_of_fmap_2 snd _ (n, i)).
    + intros H. by apply (N2 _ H), (list_elem_of_fmap_2 fst _ (n, i)).
Qed.

Lemma ParseCipherSuite_Err n :
  (exists e, ParseCipherSuite secure insecure n = Err e) <-> n ∉ map fst (secure ++ insecure).
Proof.
  split.
  - intros [e He] Hin. apply list_elem_of_fmap in Hin as ([m i] & -> & Hin). simpl in He.
    apply suite_lookup in Hin as [Hp _]. congruence.
  - intros Hn. rewrite map_app, not_elem_of_app in Hn. unfold ParseCipherSuite.
    rewrite !suite_named_None by (apply Hn). eauto.
Qed.

End cipher_facts.

(** ** Properties *)

(** C24 Configured TLS settings survive a round trip through YAML: a list of
    signature schemes, curves or signature algorithms that the package knows,
    and a list of any 16-bit protocol versions other than SSL 3.0, is read
    back from its marshalled names unchanged. *)
Theorem tls_yaml_roundtrip (schemes curves algs versions : list N) :
  Forall (.∈ signatureSchemes) schemes -> Forall (.∈ curveIDs) curves ->
  Forall (.∈ signatureAlgorithms) algs ->
  Forall (fun v => (v < 65536)%N /\ v <> VersionSSL30) versions ->
  TLSSignatureSchemes_UnmarshalYAML (Ok (TLSSignatureSchemes_MarshalYAML schemes)) = Ok schemes /\
  TLSCurves_UnmarshalYAML (Ok (TLSCurves_MarshalYAML curves)) = Ok curves /\
  SignatureAlgorithms_UnmarshalYAML (Ok (SignatureAlgorithms_MarshalYAML algs)) = Ok algs /\
  TLSVersions_UnmarshalYAML (Ok (TLSVersions_MarshalYAML versions)) = Ok versions.
Proof.
  intros Hs Hc Ha Hv. destruct known_names as (Ks & Kc & Ka). rewrite Forall_forall in Ks, Kc, Ka.
  split_and!; [apply parse_each_map|apply parse_each_map|apply (append_each_map _ _ [])|apply parse_each_map];
    eapply Forall_impl; eauto. intros v [Hv1 Hv2]. by apply ParseTLSVersion_VersionName.
Qed.

Lemma tls_yaml_roundtrip_witness :
  TLSVersions_UnmarshalYAML (Ok ["TLS 1.3"; "0x0305"]) = Ok [VersionTLS13; 0x0305%N].
Proof.
  apply (tls_yaml_roundtrip [Ed25519] [X25519] [PureEd25519] [VersionTLS13; 0x0305%N]);
    repeat constructor; vm_compute; congruence || set_solver.
Defined.

(** The name that is printed for SSL 3.0 is not one that is read. *)
Example ParseTLSVersion_SSLv3 : exists e, ParseTLSVersion (TLSVersion_MarshalYAML VersionSSL30) = Err e.
Proof. eexists. vm_compute. reflexivity. Qed.

(** Cipher suites: whatever the tables of the TLS library are, as long as
    they repeat neither a name nor an ID and no suite is named insecure, a list
    of known suites is read back from its marshalled names unchanged; the name
    insecure stands for all insecure suites, in order; and a list is refused
    as a whole exactly when one of its names is neither in the tables nor
    insecure. *)
Theorem cipher_suites_yaml (secure insecure : list (string * N)) ids before after names :
  NoDup (map fst (secure ++ insecure)) -> NoDup (map snd (secure ++ insecure)) ->
  "insecure" ∉ map fst (secure ++ insecure) ->
  Forall (.∈ map snd (secure ++ insecure)) ids ->
  Forall (.∈ map snd (secure ++ insecure)) before -> Forall (.∈ map snd (secure ++ insecure)) after ->
  let marshal := CipherSuites_MarshalYAML secure insecure in
  let unmarshal := fun l => CipherSuites_UnmarshalYAML secure insecure (Ok l) in
  unmarshal (marshal ids) = Ok ids /\
  unmarshal (marshal before ++ "insecure" :: marshal after) = Ok (before ++ map snd insecure ++ after) /\
  ((exists e, unmarshal names = Err e) <->
     exists n, n ∈ names /\ n <> "insecure" /\ n ∉ map fst (secure ++ insecure)).
Proof.
  intros Hn Hi Hins Hids Hb Ha marshal unmarshal.
  assert (Hone : forall l, Forall (.∈ map snd (secure ++ insecure)) l ->
    Forall (fun v => expand_suite secure insecure (CipherSuiteName secure insecure v) = Ok [v]) l).
  { intros l Hl. eapply Forall_impl; [exact Hl|]. intros v Hv. apply list_elem_of_fmap in Hv as ([n i] & -> & Hin). simpl.
    destruct (suite_lookup _ _ Hn Hi _ _ Hin) as [HP ->]. unfold expand_suite. rewrite HP.
    rewrite bool_decide_false; [done|]. intros ->. apply Hins. by apply (list_elem_of_fmap_2 fst _ ("insecure", i)). }
  split_and!.
  - by apply (append_each_map _ _ []), Hone.
  - apply append_each_Ok. exists (map (fun v => [v]) before ++ map snd insecure :: map (fun v => [v]) after).
    split.
    + apply Forall2_app; [|constructor; [done|]]; apply Forall2_fmap_l, Forall2_fmap_r, Forall_Forall2_diag, Hone; done.
    + rewrite concat_app. cbn [concat]. by rewrite !concat_map_singleton.
  - unfold unmarshal, CipherSuites_UnmarshalYAML. simpl. rewrite append_each_rejects.
    apply exist_proper. intros n. apply and_iff_compat_l. unfold expand_suite. case_bool_decide as Hb'.
    + split; [by intros [e ?]|tauto].
    + rewrite <- (ParseCipherSuite_Err _ _ Hn Hi). destruct (ParseCipherSuite _ _ _); naive_solver.
Qed.

Lemma cipher_suites_yaml_witness :
  CipherSuites_UnmarshalYAML [("TLS_AES_128_GCM_SHA256", 0x1301%N)] [("TLS_RSA_WITH_RC4_128_SHA", 5%N)]
    (Ok ["TLS_AES_128_GCM_SHA256"; "insecure"]) = Ok [0x1301%N; 5%N].
Proof.
  apply (cipher_suites_yaml [("TLS_AES_128_GCM_SHA256", 0x1301%N)] [("TLS_RSA_WITH_RC4_128_SHA", 5%N)]
    [] [0x1301%N] [] []); simpl; [..|constructor|repeat constructor|constructor]; try set_solver.
  - apply NoDup_cons; split; [set_solver|apply NoDup_singleton].
  - apply NoDup_cons; split; [set_solver|apply NoDup_singleton].
Defined.
