(* ===== verification/Certs.v ===== *)
(** * Certificates and private keys in PEM files

Models [certs.go].  The PEM and DER codecs and the certificate verifier of the
Go libraries are the interface [X509]; [PEMLaws] is what the code relies on of
the PEM codec. *)

From S2P Require Import Prelude GoStrings GoErrors GoEncoding.

(** [pem.Block], without its headers. *)
Record Block := mkPEMBlock { b_Type : string; b_Headers : gmap string string; b_Bytes : string }.
(** [pem.Block{Type: t, Bytes: data}] *)
Abbreviation mkBlock t data := (mkPEMBlock t ∅ data).

#[global] Instance Block_eq_dec : EqDecision Block.
Proof. solve_decision. Defined.

(** What a PKCS#8 structure can hold, by the type of the key. *)
Inductive pkcs8_key (Key : Type) := RSAKey (k : Key) | ECDSAKey (k : Key) | OtherKey (k : Key).
Arguments RSAKey {Key}. Arguments ECDSAKey {Key}. Arguments OtherKey {Key}.

(** [x509.VerifyOptions]: a pool is the certificates added to it, [None] is nil. *)
Record VerifyOptions (Cert : Type) := mkVO {
  vo_DNSName : string;
  vo_Roots : option (list Cert);
  vo_Intermediates : option (list Cert);
  vo_CurrentTime : option Z
}.
Arguments mkVO {Cert}. Arguments vo_DNSName {Cert}. Arguments vo_Roots {Cert}.
Arguments vo_Intermediates {Cert}. Arguments vo_CurrentTime {Cert}.

Class X509 (Cert Key TLSCert : Type) := {
  ParseCertificate : string -> res Cert;
  IsCA : Cert -> bool;
  cert_Verify : Cert -> VerifyOptions Cert -> res (list (list Cert));
  ParsePKCS1PrivateKey : string -> res Key;
  ParsePKCS8PrivateKey : string -> res (pkcs8_key Key);
  ParseECPrivateKey : string -> res Key;
  pem_Decode : string -> option (Block * string);
  pem_EncodeToMemory : Block -> string;
  X509KeyPair : string -> string -> res TLSCert
}.

Section certs.
Context {Cert Key TLSCert : Type} `{X : !X509 Cert Key TLSCert}.

(** The loop over the chain in [verifyCertChainOpts]: the certificate pool and
    the leaf found so far. *)
Fixpoint split_chain (certs : list Cert) (intermediates : option (list Cert)) (leaf : option Cert)
  : res (option (list Cert) * option Cert) :=
  match certs with
  | [] => Ok (intermediates, leaf)
  | cert :: certs' =>
      if IsCA cert then
        split_chain certs' (Some (match intermediates with None => [] | Some p => p end ++ [cert])) leaf
      else match leaf with
           | Some _ => Err (errors_New "expected exactly one leaf certificate, found multiple")
           | None => split_chain certs' intermediates (Some cert)
           end
  end.

Definition verifyCertChainOpts (certs : list Cert) (opts : VerifyOptions Cert) : res (list (list Cert)) :=
  if bool_decide (length certs = 0%nat) then Err (errors_New "no certificates supplied")
  else match split_chain certs None None with
       | Err e => Err e
       | Ok (_, None) => Err (errors_New "no leaf certificate found")
       | Ok (intermediates, Some leaf) =>
           cert_Verify leaf (mkVO (vo_DNSName opts) (vo_Roots opts) intermediates (vo_CurrentTime opts))
       end.

Definition VerifyCertChain (dnsname : string) (certs : list Cert) (roots : option (list Cert))
  : res (list (list Cert)) :=
  verifyCertChainOpts certs (mkVO dnsname roots None None).

(** The loop of [ParsePEM]; the blocks found so far are private keys, public
    keys and certificates. *)
Fixpoint ParsePEM_loop (fuel : nat) (rest : string) (acc : list Block * list Block * list Block)
  : list Block * list Block * list Block :=
  match fuel with
  | O => acc
  | S f =>
      match pem_Decode rest with
      | None => acc
      | Some (block, rest) =>
          let '(privateKeys, publicKeys, certs) := acc in
          ParsePEM_loop f rest
            (if bool_decide (b_Type block = "CERTIFICATE") then (privateKeys, publicKeys, certs ++ [block])
             else if HasSuffix (b_Type block) "PRIVATE KEY" then (privateKeys ++ [block], publicKeys, certs)
             else if HasSuffix (b_Type block) "PUBLIC KEY" then (privateKeys, publicKeys ++ [block], certs)
             else (privateKeys, publicKeys, certs))
      end
  end.

(** Every block takes at least one byte of the data. *)
Definition ParsePEM (pemData : string) : list Block * list Block * list Block :=
  ParsePEM_loop (S (slen pemData)) pemData ([], [], []).

Fixpoint parse_blocks (blocks : list Block) (certs : list Cert) : res (list Cert) :=
  match blocks with
  | [] => Ok certs
  | block :: blocks' =>
      match ParseCertificate (b_Bytes block) with
      | Err e => Err e
      | Ok cert => parse_blocks blocks' (certs ++ [cert])
      end
  end.

Definition parseCertsPEM (certsPEM : list Block) : res (list Cert) :=
  match parse_blocks certsPEM [] with
  | Err e => Err e
  | Ok certs => if bool_decide (length certs = 0%nat) then Err (errors_New "no certificates found in pem data")
                else Ok certs
  end.

Definition ParseCertsPEM (pemData : string) : res (list Cert) :=
  let '(_, _, certsPEM) := ParsePEM pemData in
  match parseCertsPEM certsPEM with
  | Err e => Err e
  | Ok certs => if bool_decide (length certs = 0%nat) then Err (errors_New "no certificates found in pem data")
                else Ok certs
  end.

(** [data] is what [fs.ReadFileCtx] returns for the file. *)
Definition ReadAndParseCertsPEM (data : res string) (pemFile : string) : res (list Cert) :=
  match data with
  | Err e => Err (Errorf "failed to read pem file %v: %v" [pemFile] [])
  | Ok data =>
      match ParseCertsPEM data with
      | Err e => Err (Errorf "failed to parse certificate in %v: %v" [pemFile] [])
      | Ok certs => if bool_decide (length certs = 0%nat)
                    then Err (errors_New "no certificates found in pem data") else Ok certs
      end
  end.

Definition ParsePrivateKeyDER (der : string) : res Key :=
  match ParsePKCS1PrivateKey der with
  | Ok key => Ok key
  | Err _ =>
      match ParsePKCS8PrivateKey der with
      | Ok (RSAKey key) => Ok key
      | Ok (ECDSAKey key) => Ok key
      | Ok (OtherKey _) => Err (errors_New "unknown private key type in PKCS#8 wrapping")
      | Err _ =>
          match ParseECPrivateKey der with
          | Ok key => Ok key
          | Err _ => Err (errors_New "failed to parse private key")
          end
      end
  end.

Definition ReadAndParsePrivateKeyPEM (data : res string) (pemFile : string) : res Key :=
  match data with
  | Err e => Err (Errorf "failed to read pem file %v: %v" [pemFile] [])
  | Ok data =>
      let '(privateKeys, _, _) := ParsePEM data in
      match privateKeys with
      | [] => Err (Errorf "no private key found in %v" [pemFile] [])
      | [key] => ParsePrivateKeyDER (b_Bytes key)
      | _ => Err (Errorf "multiple private keys found in %v" [pemFile] [])
      end
  end.

Fixpoint FindLeafPEM (certsPEM : list Block) : res (string * Cert) :=
  match certsPEM with
  | [] => Err (errors_New "no leaf certificate found")
  | block :: certsPEM' =>
      if bool_decide (b_Type block <> "CERTIFICATE") then FindLeafPEM certsPEM'
      else match ParseCertificate (b_Bytes block) with
           | Err e => Err e
           | Ok cert => if negb (IsCA cert) then Ok (b_Bytes block, cert) else FindLeafPEM certsPEM'
           end
  end.

End certs.

(** ** Serial numbers *)

(** [big.Int.Bytes]: the magnitude, big endian, without leading zeros. *)
Fixpoint be_bytes (fuel : nat) (n : N) (acc : string) : string :=
  match fuel with
  | O => acc
  | S f => if (n =? 0)%N then acc else be_bytes f (n / 256) (String (byte_of (n mod 256)) acc)
  end.

Definition big_Bytes (z : Z) : string := be_bytes (N.size_nat (Z.abs_N z)) (Z.abs_N z) "".

(** The formatting loop: pairs of digits, a colon before all but the first. *)
Fixpoint colon_pairs (first : bool) (hexStr : string) : string :=
  match hexStr with
  | String a (String b s') =>
      (if first then "" else ":") +:+ String a (String b (colon_pairs false s'))
  | _ => ""
  end.

Definition SerialNumberOpenSSL (serial : option Z) : string :=
  match serial with
  | None => "nil"
  | Some serial => colon_pairs true (hex_EncodeToString (big_Bytes serial))
  end.

(** [%0*x] of a big integer: the sign counts towards the width. *)
Definition fmt_big_0x (width : nat) (z : Z) : string :=
  let digits := fmt_uint false 16 (Z.abs_N z) in
  if (z <? 0)%Z then "-" +:+ pad0 (width - 1) digits else pad0 width digits.

Definition SerialNumberHex (serial : option Z) : string :=
  match serial with
  | None => ""
  | Some serial => fmt_big_0x (slen (big_Bytes serial) * 2) serial
  end.

(** [hello.Conn.RemoteAddr().String()], of a hello and a connection that may be
    nil. *)
Definition RemoteAddrFromClientHello (hello : option (option string)) : string :=
  match hello with
  | None | Some None => ""
  | Some (Some addr) => addr
  end.

(** ** What the code relies on of the PEM codec *)

(** The types of the blocks that programs write: upper-case words. *)
Definition type_ok (t : string) : bool :=
  forallb (fun c => ((65 <=? N_of_ascii c) && (N_of_ascii c <=? 90))%N || bool_decide (c = " "%char))
    (String.list_ascii_of_string t).

(** ... which have no headers. *)
Definition block_ok (b : Block) : Prop := type_ok (b_Type b) = true /\ b_Headers b = ∅.

Class PEMLaws `{X509} := {
  decode_shrinks : forall s b rest, pem_Decode s = Some (b, rest) -> (slen rest < slen s)%nat;
  decode_encode_block : forall b rest, block_ok b ->
    pem_Decode (pem_EncodeToMemory b +:+ rest) = Some (b, rest)
}.

(** ** Lemmas *)
Section facts.
Context {Cert Key TLSCert : Type} `{X : !X509 Cert Key TLSCert}.

(** The classification of a block: certificate, private key or public key. *)
Definition is_cert (b : Block) : bool := bool_decide (b_Type b = "CERTIFICATE").
Definition is_private (b : Block) : bool := negb (is_cert b) && HasSuffix (b_Type b) "PRIVATE KEY".
Definition is_public (b : Block) : bool :=
  negb (is_cert b) && negb (HasSuffix (b_Type b) "PRIVATE KEY") && HasSuffix (b_Type b) "PUBLIC KEY".

Definition classify (bs : list Block) : list Block * list Block * list Block :=
  (List.filter is_private bs, List.filter is_public bs, List.filter is_cert bs).

Definition acc_app (a b : list Block * list Block * list Block) : list Block * list Block * list Block :=
  (a.1.1 ++ b.1.1, a.1.2 ++ b.1.2, a.2 ++ b.2).

Lemma ParsePEM_step f rest acc block rest' :
  pem_Decode rest = Some (block, rest') ->
  ParsePEM_loop (S f) rest acc = ParsePEM_loop f rest' (acc_app acc (classify [block])).
Proof.
  intros E. simpl. rewrite E. destruct acc as [[p q] c]. unfold acc_app, classify, is_private, is_public, is_cert.
  simpl. destruct (bool_decide (b_Type block = "CERTIFICATE")); simpl; rewrite ?app_nil_r; [done|].
  destruct (HasSuffix (b_Type block) "PRIVATE KEY"), (HasSuffix (b_Type block) "PUBLIC KEY"); simpl;
    by rewrite ?app_nil_r.
Qed.

Lemma classify_cons b bs acc : acc_app (acc_app acc (classify [b])) (classify bs) = acc_app acc (classify (b :: bs)).
Proof.
  unfold acc_app, classify. simpl. destruct (is_private b), (is_public b), (is_cert b); simpl;
    by rewrite ?app_nil_r, <- ?app_assoc.
Qed.

Context `{!PEMLaws}.

(** More fuel than bytes changes nothing: the loop has ended. *)
Lemma ParsePEM_fuel f1 f2 s acc :
  (slen s < f1)%nat -> (slen s < f2)%nat -> ParsePEM_loop f1 s acc = ParsePEM_loop f2 s acc.
Proof.
  revert f2 s acc. induction f1 as [|f1 IH]; intros [|f2] s acc H1 H2; [lia..|].
  destruct (pem_Decode s) as [[b rest]|] eqn:E; [|by simpl; rewrite E].
  rewrite !(ParsePEM_step _ _ _ _ _ E). apply decode_shrinks in E. apply IH; lia.
Qed.

Lemma ParsePEM_blocks bs f acc :
  Forall block_ok bs ->
  (slen (String.concat "" (map pem_EncodeToMemory bs)) < f)%nat ->
  ParsePEM_loop f (String.concat "" (map pem_EncodeToMemory bs)) acc = acc_app acc (classify bs).
Proof.
  intros HF. revert f acc. induction HF as [|b bs Hb _ IH]; intros [|f] acc Hf; [lia| |lia|].
  - simpl. destruct (pem_Decode "") as [[b r]|] eqn:E.
    { apply decode_shrinks in E. simpl in E. lia. }
    unfold acc_app. simpl. rewrite !app_nil_r. by destruct acc as [[??]?].
  - assert (Hc : String.concat "" (map pem_EncodeToMemory (b :: bs)) =
      pem_EncodeToMemory b +:+ String.concat "" (map pem_EncodeToMemory bs)).
    { destruct bs; simpl; [by rewrite app_empty_r|done]. }
    rewrite Hc in *. pose proof (decode_encode_block b (String.concat "" (map pem_EncodeToMemory bs)) Hb) as E.
    rewrite (ParsePEM_step _ _ _ _ _ E). apply decode_shrinks in E. rewrite IH by lia. apply classify_cons.
Qed.

End facts.

Section chain_facts.
Context {Cert Key TLSCert : Type} `{X : !X509 Cert Key TLSCert}.

Definition CAs (certs : list Cert) : list Cert := List.filter IsCA certs.
Definition leaves (certs : list Cert) : list Cert := List.filter (fun c => negb (IsCA c)) certs.

Lemma split_chain_spec certs pool leaf :
  split_chain certs pool leaf =
    match (match leaf with Some l => [l] | None => [] end) ++ leaves certs with
    | [] => Ok (match pool, CAs certs with None, [] => None | _, cas => Some (default [] pool ++ cas) end, None)
    | [l] => Ok (match pool, CAs certs with None, [] => None | _, cas => Some (default [] pool ++ cas) end, Some l)
    | _ => Err (errors_New "expected exactly one leaf certificate, found multiple")
    end.
Proof.
  revert pool leaf. induction certs as [|c certs IH]; intros pool leaf; simpl.
  - destruct leaf, pool; simpl; by rewrite ?app_nil_r.
  - unfold leaves, CAs in *. simpl. destruct (IsCA c); simpl.
    + rewrite IH. destruct (_ ++ _) as [|? [|??]]; [| |done];
        destruct pool; simpl; rewrite <- ?app_assoc; simpl; try done; by destruct (List.filter _ certs).
    + destruct leaf as [l|]; simpl; [done|]. rewrite IH. simpl. done.
Qed.

Lemma verifyCertChainOpts_Ok certs opts chains :
  verifyCertChainOpts certs opts = Ok chains <->
  exists leaf, leaves certs = [leaf] /\
    cert_Verify leaf (mkVO (vo_DNSName opts) (vo_Roots opts)
      (match CAs certs with [] => None | cas => Some cas end) (vo_CurrentTime opts)) = Ok chains.
Proof.
  unfold verifyCertChainOpts. case_bool_decide as H0.
  { apply length_zero_iff_nil in H0 as ->. split; [done|]. by intros (leaf & ? & _). }
  rewrite split_chain_spec. simpl. destruct (leaves certs) as [|l [|l2 ls]].
  - split; [done|]. by intros (leaf & ? & _).
  - split; [intros HV; exists l; split; [done|]; by destruct (CAs certs)|].
    intros (leaf & [= <-] & HV). by destruct (CAs certs).
  - split; [done|]. by intros (leaf & ? & _).
Qed.

Lemma parse_blocks_Ok blocks acc certs :
  parse_blocks blocks acc = Ok certs <->
  exists cs, certs = acc ++ cs /\ Forall2 (fun b c => ParseCertificate (b_Bytes b) = Ok c) blocks cs.
Proof.
  revert acc. induction blocks as [|b bs IH]; intros acc; simpl.
  - split; [intros [= <-]; exists []; by rewrite app_nil_r|].
    intros (cs & -> & HF). inversion HF. by rewrite app_nil_r.
  - destruct (ParseCertificate (b_Bytes b)) as [c|] eqn:E.
    + rewrite IH. split.
      * intros (cs & -> & HF). exists (c :: cs). rewrite <- app_assoc. split; [done|by constructor].
      * intros (cs & -> & HF). inversion HF as [|?? c' cs' Hc HF']; subst. rewrite E in Hc. injection Hc as ->.
        exists cs'. by rewrite <- app_assoc.
    + split; [done|]. intros (cs & _ & HF). inversion HF. congruence.
Qed.

Lemma all_CAs l :
  Forall (fun c => IsCA c = true) l ->
  List.filter IsCA l = l /\ List.filter (fun c => negb (IsCA c)) l = [].
Proof. induction 1 as [|c l Hc _ [IH1 IH2]]; [done|]. simpl. rewrite Hc. simpl. by rewrite IH1, IH2. Qed.

Lemma no_leaves l : leaves l = [] -> Forall (fun c => IsCA c = true) l.
Proof.
  unfold leaves. induction l as [|c l IH]; [constructor|]. simpl. destruct (IsCA c) eqn:Hc; [|done].
  intros Hl. constructor; [done|]. by apply IH.
Qed.

Lemma leaves_singleton certs leaf :
  leaves certs = [leaf] ->
  exists before after, certs = before ++ leaf :: after /\ IsCA leaf = false /\
    Forall (fun c => IsCA c = true) (before ++ after) /\ CAs certs = before ++ after.
Proof.
  unfold CAs. induction certs as [|c certs IH]; [done|]. unfold leaves in *. simpl.
  destruct (IsCA c) eqn:Hc; simpl.
  - intros Hl. destruct (IH Hl) as (b & a & -> & H1 & H2 & H3). exists (c :: b), a. rewrite H3.
    split_and!; try done. by constructor.
  - intros [= -> Hl]. apply no_leaves in Hl. exists [], certs. split_and!; try done. by apply all_CAs.
Qed.

End chain_facts.

(** ** Properties *)

(** C26 PEM files: for a file made of encoded blocks [ParsePEM] returns the
    private keys, public keys and certificates among them, each in file order,
    and nothing else; on any data its loop ends within as many iterations as
    there are bytes. *)
Theorem ParsePEM_spec {Cert Key TLSCert} `{X : !X509 Cert Key TLSCert} `{!PEMLaws} blocks data fuel acc :
  Forall block_ok blocks -> (slen data < fuel)%nat ->
  ParsePEM (String.concat "" (map pem_EncodeToMemory blocks)) = classify blocks /\
  ParsePEM_loop fuel data acc = ParsePEM_loop (S (slen data)) data acc.
Proof.
  intros HF Hfuel. split; [|by apply ParsePEM_fuel; [done|lia]].
  unfold ParsePEM. rewrite ParsePEM_blocks by (done || lia). done.
Qed.

(** Chain verification: [VerifyCertChain] succeeds exactly when the chain
    holds a single certificate that is not a CA, wherever it is, and that
    certificate verifies for the DNS name against the roots with all the other
    certificates as intermediates. *)
Theorem VerifyCertChain_spec {Cert Key TLSCert} `{X : !X509 Cert Key TLSCert} dnsname certs roots chains :
  VerifyCertChain dnsname certs roots = Ok chains <->
  exists before leaf after, certs = before ++ leaf :: after /\ IsCA leaf = false /\
    Forall (fun c => IsCA c = true) (before ++ after) /\
    cert_Verify leaf (mkVO dnsname roots (match before ++ after with [] => None | cas => Some cas end) None)
      = Ok chains.
Proof.
  unfold VerifyCertChain. rewrite verifyCertChainOpts_Ok. simpl.
  split.
  - intros (leaf & Hl & HV). destruct (leaves_singleton _ _ Hl) as (b & a & -> & H1 & H2 & H3).
    exists b, leaf, a. split_and!; try done. by rewrite <- H3.
  - intros (b & leaf & a & -> & Hleaf & HF & HV). apply Forall_app in HF as [Hb Ha].
    exists leaf. unfold CAs, leaves in *. rewrite !List.filter_app. simpl. rewrite Hleaf. simpl.
    destruct (all_CAs b Hb) as [-> ->], (all_CAs a Ha) as [-> ->]. done.
Qed.

(** ** A model of the interface

A certificate is its DNS name, CA certificates start with [CA]; a block is its
type and its bytes in hexadecimal, one per line. *)
Module ToyX509.

Definition LFc : ascii := "010"%char.

#[global] Instance toy : X509 string string (string * string) := {|
  ParseCertificate := fun s => if bool_decide (s = "") then Err (errors_New "malformed certificate") else Ok s;
  IsCA := fun c => HasPrefix c "CA";
  cert_Verify := fun c o =>
    if bool_decide (vo_DNSName o = c) then Ok [c :: default [] (vo_Intermediates o)]
    else Err (errors_New "x509: certificate is not valid for the name");
  ParsePKCS1PrivateKey := fun s => Ok s;
  ParsePKCS8PrivateKey := fun s => Ok (OtherKey s);
  ParseECPrivateKey := fun s => Ok s;
  pem_Decode := fun s =>
    match Cut s (String LFc "") with
    | Some (t, s1) =>
        match Cut s1 (String LFc "") with
        | Some (h, rest) => match hex_DecodeString h with Some b => Some (mkBlock t b, rest) | None => None end
        | None => None
        end
    | None => None
    end;
  pem_EncodeToMemory := fun b => b_Type b +:+ String LFc (hex_EncodeToString (b_Bytes b) +:+ String LFc "");
  X509KeyPair := fun certs key => Ok (certs, key)
|}.

Lemma Cut_clean (f : ascii -> bool) a b :
  f LFc = false -> forallb f (String.list_ascii_of_string a) = true ->
  Cut (a +:+ String LFc b) (String LFc "") = Some (a, b).
Proof.
  intros Hf. induction a as [|c a IH]; intros Ha; [done|].
  cbn [String.append]. rewrite Cut_byte. simpl in Ha. apply andb_true_iff in Ha as [Hc Ha].
  rewrite bool_decide_false by (by intros ->; congruence). by rewrite IH.
Qed.

Definition is_hex (c : ascii) : bool := match hex_val c with Some _ => true | None => false end.

Lemma hex_clean s : forallb is_hex (String.list_ascii_of_string (hex_EncodeToString s)) = true.
Proof.
  induction s as [|c s IH]; [done|].
  cbn [hex_EncodeToString String.list_ascii_of_string forallb]. rewrite IH. unfold is_hex.
  by destruct (hex_digits c) as [-> ->].
Qed.

#[global] Instance toy_laws : PEMLaws (H := toy).
Proof.
  constructor.
  - intros s b rest. simpl. destruct (Cut s _) as [[t s1]|] eqn:E1; [|done].
    destruct (Cut s1 _) as [[h r]|] eqn:E2; [|done]. destruct (hex_DecodeString h); [|done].
    intros [= <- <-]. apply slen_Cut in E1; [|done]. apply slen_Cut in E2; [|done]. lia.
  - intros [t hs bs] rest [Ht Hh]. simpl in *. subst hs. rewrite app_str_assoc. cbn [String.append].
    rewrite (Cut_clean _ t _ eq_refl Ht), app_str_assoc. cbn [String.append].
    rewrite (Cut_clean is_hex _ _ eq_refl (hex_clean bs)). by rewrite hex_roundtrip.
Qed.

Definition chain : list Block :=
  [mkBlock "EC PRIVATE KEY" "key"; mkBlock "CERTIFICATE" "www.example.com"; mkBlock "CERTIFICATE" "CA1"].

Definition chain_file : string := String.concat "" (map pem_EncodeToMemory chain).

End ToyX509.

Lemma ParsePEM_spec_witness :
  ParsePEM ToyX509.chain_file
    = ([mkBlock "EC PRIVATE KEY" "key"], [], [mkBlock "CERTIFICATE" "www.example.com"; mkBlock "CERTIFICATE" "CA1"]).
Proof.
  apply (ParsePEM_spec ToyX509.chain "" 1%nat ([], [], [])); [repeat constructor|simpl; lia].
Defined.

(** ** Serial numbers are read back *)

(** The number that bytes stand for, after [acc]. *)
Fixpoint be_value (s : string) (acc : N) : N :=
  match s with EmptyString => acc | String c s' => be_value s' (acc * 256 + N_of_ascii c) end.

Lemma be_bytes_value fuel n s :
  (n < 2 ^ N.of_nat fuel)%N -> be_value (be_bytes fuel n s) 0 = be_value s n.
Proof.
  revert n s. induction fuel as [|f IH]; intros n s Hn.
  { simpl in *. by replace n with 0%N by lia. }
  cbn [be_bytes]. destruct (N.eqb_spec n 0) as [->|H0]; [done|]. rewrite IH.
  - cbn [be_value]. unfold byte_of. pose proof (N.mod_lt n 256). rewrite N_ascii_embedding by lia.
    f_equal. rewrite (N.div_mod n 256) at 3; lia.
  - rewrite Nat2N.inj_succ, N.pow_succ_r' in Hn. apply N.Div0.div_lt_upper_bound. lia.
Qed.

Lemma big_Bytes_value z : be_value (big_Bytes z) 0 = Z.abs_N z.
Proof. unfold big_Bytes. by rewrite be_bytes_value by apply size_nat_bound. Qed.

Lemma parse_hex s acc : parse_digits 16 (hex_EncodeToString s) acc = Some (be_value s acc).
Proof.
  revert acc. induction s as [|c s IH]; intros acc; [done|]. cbn [hex_EncodeToString parse_digits be_value].
  pose proof (N_ascii_bounded c) as Hc. pose proof (N.mod_lt (N_of_ascii c) 16) as Hm.
  assert (Hd : (N_of_ascii c / 16 < 16)%N) by (apply N.Div0.div_lt_upper_bound; lia).
  rewrite !digit_val_char by lia. do 2 (rewrite (proj2 (N.ltb_lt _ _)) by lia). rewrite IH. do 2 f_equal.
  rewrite (N.div_mod (N_of_ascii c) 16) at 3; lia.
Qed.

Definition not_colon (c : ascii) : bool := negb (bool_decide (c = ":"%char)).

Lemma colon_pairs_hex first s : str_filter not_colon (colon_pairs first (hex_EncodeToString s)) = hex_EncodeToString s.
Proof.
  revert first. induction s as [|c s IH]; intros first; [done|]. cbn [hex_EncodeToString colon_pairs].
  assert (Hn : not_colon (digit_char false (N_of_ascii c / 16)) = true /\ not_colon (digit_char false (N_of_ascii c mod 16)) = true)
    by (destruct c as [[] [] [] [] [] [] [] []]; by vm_compute).
  destruct Hn as [H1 H2]. destruct first; cbn [String.append str_filter]; [|change (not_colon ":") with false; cbn match];
    by rewrite H1, H2, IH.
Qed.

(** Both formats of a serial number denote it: the digits of the OpenSSL format,
    without the colons, are its magnitude, so that the sign is lost and zero has
    no digits; the hexadecimal format keeps the sign. *)
Lemma serial_formats_read z :
  parse_digits 16 (str_filter not_colon (SerialNumberOpenSSL (Some z))) 0 = Some (Z.abs_N z) /\
  (if (z <? 0)%Z then exists s, SerialNumberHex (Some z) = "-" +:+ s /\ parse_digits 16 s 0 = Some (Z.abs_N z)
   else parse_digits 16 (SerialNumberHex (Some z)) 0 = Some (Z.abs_N z)).
Proof.
  cbn [SerialNumberOpenSSL SerialNumberHex]. rewrite colon_pairs_hex, parse_hex, big_Bytes_value. split; [done|].
  unfold fmt_big_0x, pad0. destruct (z <? 0)%Z; [eexists; split; [reflexivity|]|];
    rewrite parse_digits_zeros by lia; by apply parse_fmt_uint.
Qed.

(** Comparing the hexadecimal formats compares the numbers: this is what tells a
    renewed certificate from the one before it. *)
Lemma SerialNumberHex_inj z1 z2 : SerialNumberHex (Some z1) = SerialNumberHex (Some z2) -> z1 = z2.
Proof.
  intros Heq. destruct (serial_formats_read z1) as [_ H1], (serial_formats_read z2) as [_ H2].
  destruct (Z.ltb_spec z1 0), (Z.ltb_spec z2 0).
  - destruct H1 as (s1 & E1 & H1), H2 as (s2 & E2 & H2). rewrite E1, E2 in Heq. injection Heq as ->. rewrite H1 in H2. injection H2. lia.
  - destruct H1 as (s1 & E1 & H1). by rewrite <- Heq, E1 in H2.
  - destruct H2 as (s2 & E2 & H2). by rewrite Heq, E2 in H1.
  - rewrite Heq, H2 in H1. injection H1. lia.
Qed.

(** The OpenSSL format of a serial number and of its negation are the same. *)
Example OpenSSL_sign : SerialNumberOpenSSL (Some 255%Z) = SerialNumberOpenSSL (Some (-255)%Z) /\ SerialNumberOpenSSL (Some 0%Z) = "".
Proof. done. Qed.
