(* ===== verification/ServingCache.v ===== *)
(** * The certificate serving cache

Models [servingcache.go]: the in-memory cache of the certificates served to
clients.  The certificate library is the interface [X509]; the backing store,
the clock and the IDNA conversion of [golang.org/x/net/idna] are parameters. *)

From S2P Require Import Prelude GoStrings GoErrors GoEncoding Certs.

Section cache.
Context {Cert Key TLSCert : Type} `{X : !X509 Cert Key TLSCert}.

Record entry := mkEntry { e_cert : TLSCert; e_expiry : Z }.

(** The configuration of a cache; [sc_cache] is the state. *)
Record CertServingCache := mkSC {
  sc_ttl : Z;
  sc_rootCAs : option (list Cert);
  sc_allowedHosts : list string
}.

Abbreviation cache_map := (gmap string entry).

Definition WithCertCacheRootCAs (rootCAs : option (list Cert)) : CertServingCache -> CertServingCache :=
  fun cs => mkSC (sc_ttl cs) rootCAs (sc_allowedHosts cs).
Definition WithCertCacheTTL (ttl : Z) : CertServingCache -> CertServingCache :=
  fun cs => mkSC ttl (sc_rootCAs cs) (sc_allowedHosts cs).
Definition WithCertCacheAllowedHosts (hosts : list string) : CertServingCache -> CertServingCache :=
  fun cs => mkSC (sc_ttl cs) (sc_rootCAs cs) hosts.

Definition Hour : Z := 3600000000000.

Definition NewCertServingCache (opts : list (CertServingCache -> CertServingCache))
  : CertServingCache * cache_map :=
  (fold_left (fun sc fn => fn sc) opts (mkSC (Hour * 6) None []), ∅).

(** [get] and [put] hold the mutex: each is one atomic step on the map. *)
Definition get (cache : cache_map) (name : string) (when : Z) : option TLSCert :=
  match cache !! name with
  | Some entry => if (when <? e_expiry entry)%Z then Some (e_cert entry) else None
  | None => None
  end.

(** [now] is what [nowFunc] returns inside [put]. *)
Definition put (cache : cache_map) (name : string) (cert : TLSCert) (now expiration : Z) : cache_map :=
  <[name := mkEntry cert (now + expiration)%Z]> cache.

(** The part of [GetCertificate] after the file is read: the certificate for
    [name] in [data], verified at time [now]. *)
Definition load_cert (m : CertServingCache) (name : string) (now : Z) (data : string) : go (res TLSCert) :=
  let '(privPEM, _, certsPEM) := ParsePEM data in
  match certsPEM with
  | [] => Ret (Err (Errorf "certServingCache: no certificates found for %v" [name] []))
  | _ =>
      match privPEM with
      | [] => Ret (Err (Errorf "certServingCache: no private key found for %v" [name] []))
      | _ =>
          match parseCertsPEM certsPEM with
          | Err e => Ret (Err e)
          | Ok certs =>
              match verifyCertChainOpts certs (mkVO name (sc_rootCAs m) None (Some now)) with
              | Err e =>
                  Ret (Err (Errorf "certServingCache: failed to verify certificate for %v: %w" [name] [e]))
              | Ok _ =>
                  leaf ← index certs 0;
                  if IsCA leaf
                  then Ret (Err (Errorf "certServingCache: leaf certificate is a CA cert for %v" [name] []))
                  else
                    let chainPEM := String.concat "" (map pem_EncodeToMemory certsPEM) in
                    privBlock ← index privPEM 0;
                    Ret (match X509KeyPair chainPEM (pem_EncodeToMemory privBlock) with
                         | Err e =>
                             Err (Errorf "certServingCache: failed to load x509 key pair for %v: %w" [name] [e])
                         | Ok cert => Ok cert
                         end)
              end
          end
      end
  end.

(** [idna.Lookup.ToASCII] *)
Variable ToASCII : string -> res string.

(** The checks on the server name before the cache is consulted. *)
Definition server_name (m : CertServingCache) (ServerName : string) : res string :=
  if bool_decide (ServerName = "") then Err (errors_New "missing server name")
  else if negb (Contains (TrimByte ServerName "."%char) ".")
  then Err (Errorf "server name %q is not a qualified domain name" [ServerName] [])
  else match ToASCII ServerName with
       | Err e => Err (errors_New "server name contains invalid character")
       | Ok name =>
           if Nat.ltb 0 (length (sc_allowedHosts m)) && negb (contains (sc_allowedHosts m) name)
           then Err (Errorf "server name %v is not in the list of allowed hosts: %v" (name :: sc_allowedHosts m) [])
           else Ok name
       end.

(** [GetCertificate]; [now] and [now_put] are the two readings of the clock and
    [read] the backing store. *)
Definition GetCertificate (m : CertServingCache) (ServerName : string) (now now_put : Z)
    (read : string -> res string) (cache : cache_map) : go (res TLSCert * cache_map) :=
  match server_name m ServerName with
  | Err e => Ret (Err e, cache)
  | Ok name =>
      match get cache name now with
      | Some cert => Ret (Ok cert, cache)
      | None =>
          match read name with
          | Err e => Ret (Err e, cache)
          | Ok data =>
              loaded ← load_cert m name now data;
              Ret (match loaded with
                   | Err e => (Err e, cache)
                   | Ok cert => (Ok cert, put cache name cert now_put (sc_ttl m))
                   end)
          end
      end
  end.

(** ** Reachable caches

A handshake touches the map twice, in [get] and in [put], so the maps that any
interleaving of handshakes can produce are those built by [put]s of loaded
certificates, each after the clock reading its verification used. The history
lists these loads, the latest first. *)
Record load := mkLoad { l_name : string; l_cert : TLSCert; l_now : Z; l_put : Z; l_data : string }.

Inductive reachable (m : CertServingCache) : list load -> cache_map -> Prop :=
| reach_new : reachable m [] ∅
| reach_put h cache l :
    reachable m h cache -> load_cert m (l_name l) (l_now l) (l_data l) = Ret (Ok (l_cert l)) -> (l_now l <= l_put l)%Z ->
    reachable m (l :: h) (put cache (l_name l) (l_cert l) (l_put l) (sc_ttl m)).

(** The latest load of a name. *)
Fixpoint last_load (name : string) (h : list load) : option load :=
  match h with
  | [] => None
  | l :: h' => if bool_decide (l_name l = name) then Some l else last_load name h'
  end.

(** ** Lemmas *)

Lemma load_cert_Ok m name now data cert :
  load_cert m name now data = Ret (Ok cert) ->
  exists priv privs pubs leafPEM certsPEM leaf cas chains,
    ParsePEM data = (priv :: privs, pubs, leafPEM :: certsPEM) /\
    Forall2 (fun b c => ParseCertificate (b_Bytes b) = Ok c) (leafPEM :: certsPEM) (leaf :: cas) /\
    IsCA leaf = false /\ Forall (fun c => IsCA c = true) cas /\
    cert_Verify leaf (mkVO name (sc_rootCAs m) (match cas with [] => None | _ => Some cas end) (Some now))
      = Ok chains /\
    X509KeyPair (String.concat "" (map pem_EncodeToMemory (leafPEM :: certsPEM))) (pem_EncodeToMemory priv)
      = Ok cert.
Proof.
  unfold load_cert. destruct (ParsePEM data) as [[[|priv privs] pubs] [|leafPEM certsPEM]]; try done.
  unfold parseCertsPEM. destruct (parse_blocks _ []) as [certs|] eqn:Hp; [|done].
  apply parse_blocks_Ok in Hp as (cs & -> & HF). simpl app. case_bool_decide; [done|].
  destruct (verifyCertChainOpts cs _) as [chains|] eqn:Hv; [|done].
  destruct cs as [|leaf cas]; [by inversion HF|]. simpl. destruct (IsCA leaf) eqn:Hca; [done|].
  apply verifyCertChainOpts_Ok in Hv as (l & Hl & HV). unfold leaves, CAs in *. simpl in *.
  rewrite Hca in Hl, HV. simpl in Hl. injection Hl as <- Hno. apply no_leaves in Hno.
  rewrite (proj1 (all_CAs _ Hno)) in HV.
  destruct (X509KeyPair _ _) as [c|] eqn:HK; [|done]. intros [= <-].
  exists priv, privs, pubs, leafPEM, certsPEM, leaf, cas, chains. split_and!; try done. by destruct cas.
Qed.

(** The two slice accesses are guarded. *)
Lemma load_cert_no_panic m name now data : exists r, load_cert m name now data = Ret r.
Proof.
  unfold load_cert. destruct (ParsePEM data) as [[[|priv privs] pubs] [|leafPEM certsPEM]]; eauto.
  unfold parseCertsPEM. destruct (parse_blocks _ []) as [certs|]; [|eauto].
  case_bool_decide as H0; [eauto|]. destruct (verifyCertChainOpts _ _); [|eauto].
  destruct certs as [|leaf cas]; [done|]. simpl. destruct (IsCA leaf); eauto.
Qed.

Lemma server_name_Ok m ServerName name :
  server_name m ServerName = Ok name ->
  ServerName <> "" /\ ToASCII ServerName = Ok name /\ (sc_allowedHosts m = [] \/ name ∈ sc_allowedHosts m).
Proof.
  unfold server_name. case_bool_decide; [done|]. destruct (Contains _ _); simpl; [|done].
  destruct (ToASCII ServerName) as [n|]; [|done].
  destruct (sc_allowedHosts m) as [|h hs] eqn:Hh; simpl; [intros [= <-]; auto|].
  destruct (contains (h :: hs) n) eqn:Hc; simpl; [|done]. intros [= <-]. apply contains_true in Hc. auto.
Qed.

(** What a reachable cache holds. *)
Lemma reachable_lookup m h cache name :
  reachable m h cache -> cache !! name = (fun l => mkEntry (l_cert l) (l_put l + sc_ttl m)%Z) <$> last_load name h.
Proof.
  induction 1 as [|h cache l HR IH HL Ht]; [done|]. unfold put. simpl.
  case_bool_decide as Hn; [subst name; by rewrite lookup_insert_eq|]. by rewrite lookup_insert_ne.
Qed.

Lemma last_load_loaded m h cache name l :
  reachable m h cache -> last_load name h = Some l ->
  l_name l = name /\ load_cert m name (l_now l) (l_data l) = Ret (Ok (l_cert l)).
Proof.
  induction 1 as [|h cache l' HR IH HL Ht]; [done|]. simpl. case_bool_decide as Hn; [|done].
  intros [= <-]. subst name. done.
Qed.

(** What [GetCertificate] does: it serves the latest load until it expires, and
    otherwise what it loads now. *)
Lemma GetCertificate_cases m ServerName now now_put read h cache :
  reachable m h cache -> (now <= now_put)%Z ->
  exists r cache', GetCertificate m ServerName now now_put read cache = Ret (r, cache') /\
    ((exists e, r = Err e) /\ cache' = cache \/
     exists name l, server_name m ServerName = Ok name /\ l_name l = name /\ r = Ok (l_cert l) /\
       load_cert m name (l_now l) (l_data l) = Ret (Ok (l_cert l)) /\
       (last_load name h = Some l /\ (now < l_put l + sc_ttl m)%Z /\ cache' = cache \/
        (forall l', last_load name h = Some l' -> (l_put l' + sc_ttl m <= now)%Z) /\
        l_now l = now /\ l_put l = now_put /\ read name = Ok (l_data l) /\ reachable m (l :: h) cache')).
Proof.
  intros HR Ht. unfold GetCertificate. destruct (server_name m ServerName) as [name|e] eqn:Hn; [|eauto 10].
  unfold get. rewrite (reachable_lookup _ _ _ name HR).
  assert (Hread : (forall l', last_load name h = Some l' -> (l_put l' + sc_ttl m <= now)%Z) ->
    exists r cache', match read name with
          | Err e => Ret (Err e, cache)
          | Ok data =>
              loaded ← load_cert m name now data;
              Ret (match loaded with Err e => (Err e, cache) | Ok cert => (Ok cert, put cache name cert now_put (sc_ttl m)) end)
          end = Ret (r, cache') /\
    ((exists e, r = Err e) /\ cache' = cache \/
     exists name' l, @Ok error string name = Ok name' /\ l_name l = name' /\ r = Ok (l_cert l) /\
       load_cert m name' (l_now l) (l_data l) = Ret (Ok (l_cert l)) /\
       (last_load name' h = Some l /\ (now < l_put l + sc_ttl m)%Z /\ cache' = cache \/
        (forall l', last_load name' h = Some l' -> (l_put l' + sc_ttl m <= now)%Z) /\
        l_now l = now /\ l_put l = now_put /\ read name' = Ok (l_data l) /\ reachable m (l :: h) cache'))).
  { intros Hold. destruct (read name) as [data|e] eqn:Hr; [|eauto 10].
    destruct (load_cert_no_panic m name now data) as [[cert|e] HL]; rewrite HL; simpl; [|eauto 10].
    eexists _, _. split; [done|]. right. exists name, (mkLoad name cert now now_put data). split_and!; try done.
    right. split_and!; try done. by apply (reach_put m h cache (mkLoad name cert now now_put data)). }
  destruct (last_load name h) as [l|] eqn:El; simpl; [|by apply Hread].
  destruct (Z.ltb_spec now (l_put l + sc_ttl m)) as [Hlt|Hge].
  - destruct (last_load_loaded _ _ _ _ _ HR El) as [Hname HL]. eexists _, _. split; [done|]. right. exists name, l. auto 10.
  - apply Hread. by intros l' [= <-].
Qed.

End cache.
#[global] Arguments entry : clear implicits.
#[global] Arguments mkEntry {TLSCert}.
#[global] Arguments CertServingCache : clear implicits.
#[global] Arguments mkSC {Cert}.


Definition example_cache : CertServingCache string := (NewCertServingCache (TLSCert := string * string) []).1.

