(* ===== verification/Webhooks.v ===== *)
(** * webhooks: validated webhook deliveries and their relay

Models [relay.go], [signature.go] and [webhook_config.go].  The FIFO of
[cloudeng.io/sync/patterns] is the interface [FIFO] with the laws [FIFOLaws];
HMAC-SHA256, the YAML decoder, the key store and the clock are parameters.  The
handlers take the outcome of their [select] as an argument. *)

From S2P Require Import Prelude GoStrings GoErrors GoHTTP GoEncoding.

(** ** relay.go: deliveries and options *)

Record delivery := mkDelivery { d_header : Header; d_body : string; d_expiration : Z }.

(** The counters record which of the three is set, by name; nil is [None]. *)
Record options := mkOptions {
  o_size : Z;
  o_payloadLimit : Z;
  o_forwardedHeaders : option (list string);
  o_expiry : Z;
  o_expiryScan : Z;
  o_logger : option string;
  o_deniedCounter : option string;
  o_relayedCounter : option string;
  o_readCounter : option string
}.

Definition DefaultQueueSize : Z := 100.
Definition DefaultPayloadLimit : Z := 1024 * 1024.

Definition DefaultForwardedHeaders : list string :=
  ["X-GitHub-Event"; "X-GitHub-Delivery"; "X-GitHub-Hook-ID"].

Definition WithQueueSize (size : Z) : options -> options := fun o =>
  mkOptions size (o_payloadLimit o) (o_forwardedHeaders o) (o_expiry o) (o_expiryScan o) (o_logger o)
    (o_deniedCounter o) (o_relayedCounter o) (o_readCounter o).

Definition WithMaxPayloadSize (size : Z) : options -> options := fun o =>
  mkOptions (o_size o) size (o_forwardedHeaders o) (o_expiry o) (o_expiryScan o) (o_logger o)
    (o_deniedCounter o) (o_relayedCounter o) (o_readCounter o).

(** The slice is never nil, also when there are no names. *)
Definition WithForwardedHeaders (names : list string) : options -> options := fun o =>
  mkOptions (o_size o) (o_payloadLimit o) (Some names) (o_expiry o) (o_expiryScan o) (o_logger o)
    (o_deniedCounter o) (o_relayedCounter o) (o_readCounter o).

Definition WithExpiry (ttl scanInterval : Z) : options -> options := fun o =>
  mkOptions (o_size o) (o_payloadLimit o) (o_forwardedHeaders o) ttl scanInterval (o_logger o)
    (o_deniedCounter o) (o_relayedCounter o) (o_readCounter o).

Definition WithLogger (logger : option string) : options -> options := fun o =>
  mkOptions (o_size o) (o_payloadLimit o) (o_forwardedHeaders o) (o_expiry o) (o_expiryScan o) logger
    (o_deniedCounter o) (o_relayedCounter o) (o_readCounter o).

Definition WithCounters (denied relayed read : option string) : options -> options := fun o =>
  mkOptions (o_size o) (o_payloadLimit o) (o_forwardedHeaders o) (o_expiry o) (o_expiryScan o) (o_logger o)
    denied relayed read.

Definition zero_options : options := mkOptions 0 0 None 0 0 None None None None.

Definition noop : string := "noop".

(** The defaults that [NewRelay] applies after the options. *)
Definition apply_defaults (o : options) : options :=
  mkOptions
    (if (o_size o =? 0)%Z then DefaultQueueSize else o_size o)
    (if (o_payloadLimit o =? 0)%Z then DefaultPayloadLimit else o_payloadLimit o)
    (Some (match o_forwardedHeaders o with None => DefaultForwardedHeaders | Some l => l end))
    (o_expiry o) (o_expiryScan o)
    (Some (match o_logger o with None => "discard" | Some l => l end))
    (Some (match o_deniedCounter o with None => noop | Some c => c end))
    (Some (match o_relayedCounter o with None => noop | Some c => c end))
    (Some (match o_readCounter o with None => noop | Some c => c end)).

(** The predicate that the periodic scan removes deliveries with, at time
    [now], and its interval; [None] when expiry is disabled. *)
Definition expiryScan (o : options) : option (Z * (Z -> delivery -> bool)) :=
  if (o_expiry o <=? 0)%Z then None
  else
    let interval := if (o_expiryScan o <=? 0)%Z then o_expiry o else o_expiryScan o in
    Some (interval, fun now d => (d_expiration d <? now)%Z).

(** ** The FIFO interface *)

(** [NewFIFO(ctx, size, ...)]; a send on [In()] that went through; the value
    that a receive on [Out()] gets, [None] while it blocks; one periodic scan. *)
Class FIFO (F : Type) := {
  NewFIFO : Z -> F;
  fifo_send : delivery -> F -> F;
  fifo_recv : F -> option (delivery * F);
  fifo_scan : (delivery -> bool) -> F -> F
}.

(** Pushing onto a queue that holds at most [n]: the oldest makes room. *)
Definition push (n : Z) (d : delivery) (q : list delivery) : list delivery :=
  (if (Z.of_nat (length q) <? n)%Z then q else tail q) ++ [d].

(** Documented behaviour of the FIFO: first in first out, with a capacity
    beyond which the oldest element is dropped. *)
Class FIFOLaws (F : Type) `{FIFO F} (capacity : F -> Z) (contents : F -> list delivery) := {
  new_contents : forall n, contents (NewFIFO n) = [] /\ capacity (NewFIFO n) = n;
  send_contents : forall d f,
    contents (fifo_send d f) = push (capacity f) d (contents f) /\ capacity (fifo_send d f) = capacity f;
  recv_contents : forall f,
    match fifo_recv f with
    | Some (d, f') => contents f = d :: contents f' /\ capacity f' = capacity f
    | None => contents f = []
    end;
  scan_contents : forall remove f,
    contents (fifo_scan remove f) = List.filter (fun d => negb (remove d)) (contents f) /\
    capacity (fifo_scan remove f) = capacity f
}.

(** ** The relay *)
Section relay.
Context {F : Type} `{FIFO F}.

(** [Validator]: the payload and a status. *)
Abbreviation Validator := (Request -> go (string * Z)).

(** The configuration and the state of a [Relay]; the counters count the calls. *)
Record Relay := mkRelay { r_validator : Validator; r_opts : options }.
Record rstate := mkRState { fifo : F; denied : Z; relayed : Z; read : Z }.

Definition NoopValidator (req : Request) : go (string * Z) :=
  match r_Body req with
  | None => Panic NilDereference
  | Some body => Ret (match ReadAll body with
                      | Err _ => ("", StatusBadRequest)
                      | Ok payload => (payload, StatusOK)
                      end)
  end.

Definition NewRelay (validator : Validator) (opts : list (options -> options)) : Relay * rstate :=
  let o := apply_defaults (fold_left (fun o opt => opt o) opts zero_options) in
  (mkRelay validator o, mkRState (NewFIFO (o_size o)) 0 0 0).

Definition forward_one (src : Header) (out : Header) (name : string) : Header :=
  match Header_Values src name with
  | [] => out
  | values => <[CanonicalHeaderKey name := values]> out
  end.

Definition forwardedHeaders (r : Relay) (src : Header) : Header :=
  fold_left (forward_one src) (default [] (o_forwardedHeaders (r_opts r))) ∅.

(** Which case of the [select] in [ServeWebhook] was taken. *)
Inductive send_case := Sent | SendCancelled.

Definition ServeWebhook (r : Relay) (sel : send_case) (now : Z) (req : Request) (w : rw) (st : rstate)
  : go (rw * rstate) :=
  if (o_payloadLimit (r_opts r) <? r_ContentLength req)%Z
  then Ret (http_Error "payload too large" StatusRequestEntityTooLarge w, st)
  else if bool_decide (Header_Get (r_Header req) "Content-Type" <> "application/json")
  then Ret (http_Error "unsupported content type" StatusUnsupportedMediaType w, st)
  else if bool_decide (r_Method req <> "POST")
  then Ret (http_Error "method not allowed" StatusMethodNotAllowed w, st)
  else match r_Body req with
  | None => Ret (http_Error "request body is required" StatusBadRequest w, st)
  | Some body =>
      let req := with_body req (Some (MaxBytesReader body (o_payloadLimit (r_opts r)))) in
      v ← r_validator r req;
      let '(payload, status) := v in
      if negb (status =? StatusOK)%Z then
        let w := http_Error "invalid payload" status w in
        Ret (w, if ((StatusBadRequest <=? status) && (status <? StatusInternalServerError))%Z
                then mkRState (fifo st) (denied st + 1) (relayed st) (read st) else st)
      else match r_CtxErr req with
      | Some _ => Ret (w, st)
      | None =>
          match sel with
          | Sent =>
              let d := mkDelivery (forwardedHeaders r (r_Header req)) payload (now + o_expiry (r_opts r))%Z in
              Ret (WriteHeader StatusAccepted w,
                   mkRState (fifo_send d (fifo st)) (denied st) (relayed st + 1) (read st))
          | SendCancelled => Ret (w, st)
          end
      end
  end.

(** Adding the forwarded headers of a delivery to a response. *)
Definition add_headers (job : Header) (h : Header) : Header :=
  map_fold (fun name values h => fold_left (fun h v => Header_Add h name v) values h) h job.

(** Which case of the [select] in [WaitForWebhook] was taken: a receive, a
    receive from the closed channel, or the cancelled context. *)
Inductive recv_case := Received | Closed | RecvCancelled.

(** [None]: the handler is still blocked. *)
Definition WaitForWebhook (r : Relay) (sel : recv_case) (req : Request) (w : rw) (st : rstate)
  : option (rw * rstate) :=
  if bool_decide (r_Method req <> "GET")
  then Some (http_Error "method not allowed" StatusMethodNotAllowed w, st)
  else match sel with
  | Received =>
      match fifo_recv (fifo st) with
      | None => None
      | Some (job, f) =>
          let w := on_header (add_headers (d_header job)) w in
          let w := rw_Set "Content-Type" "application/json" w in
          Some (Write (d_body job) w, mkRState f (denied st) (relayed st) (read st + 1))
      end
  | Closed => Some (w, st)
  | RecvCancelled => Some (w, st)
  end.

(** One scan of the FIFO's periodic scanner at time [now]. *)
Definition scan (r : Relay) (now : Z) (st : rstate) : rstate :=
  match expiryScan (r_opts r) with
  | None => st
  | Some (_, remove) => mkRState (fifo_scan (remove now) (fifo st)) (denied st) (relayed st) (read st)
  end.

Definition DeliveryHandler (r : Relay) := ServeWebhook r.
Definition PollingHandler (r : Relay) := WaitForWebhook r.

(** The routing of [Handler], over the two handlers and [http.NotFound]. *)
Definition Handler {A} (deliveryPath relayPath : string) (serve wait notFound : A) (req : Request) : A :=
  if bool_decide (r_Path req = deliveryPath) then serve
  else if bool_decide (r_Path req = relayPath) then wait
  else notFound.

End relay.
#[global] Arguments rstate : clear implicits.
#[global] Arguments mkRState {F}.

(** ** signature.go *)

Definition SHA256SignatureFromHeader (headerName : string) (req : Request) : string * Z :=
  let signatureHeader := Header_Get (r_Header req) headerName in
  if bool_decide (signatureHeader = "") then ("", StatusBadRequest)
  else match SplitN2 signatureHeader "=" with
       | [p0; p1] =>
           if bool_decide (p0 <> "sha256") then ("", StatusBadRequest)
           else match hex_DecodeString p1 with
                | None => ("", StatusBadRequest)
                | Some sig => (sig, StatusOK)
                end
       | _ => ("", StatusBadRequest)
       end.

Section signature.
(** HMAC-SHA256 of a message under a key. *)
Variable hmac : string -> string -> string.

(** The loop over the tokens: the first that matches, and the tokens whose
    [Clear] was deferred. *)
Fixpoint try_tokens (sig payload : string) (tokens cleared : list string) : bool * list string :=
  match tokens with
  | [] => (false, cleared)
  | token :: tokens' =>
      if bool_decide (sig = hmac token payload) then (true, cleared ++ [token])
      else try_tokens sig payload tokens' (cleared ++ [token])
  end.

(** The payload and status of [SignatureValidator]'s function and the tokens it
    cleared. *)
Definition validate_signature (getSignature : Request -> string * Z) (tokens : res (list string))
    (req : Request) : go (string * Z * list string) :=
  match r_Body req with
  | None => Panic NilDereference
  | Some body =>
      Ret (match ReadAll body with
           | Err _ => ("", StatusBadRequest, [])
           | Ok payload =>
               let '(sig, code) := getSignature req in
               if negb (code =? StatusOK)%Z then ("", code, [])
               else match tokens with
                    | Err _ => ("", StatusInternalServerError, [])
                    | Ok tokens =>
                        let '(found, cleared) := try_tokens sig payload tokens [] in
                        if found : bool then (payload, StatusOK, cleared)
                        else ("", StatusUnauthorized, cleared)
                    end
           end)
  end.

(** The [Validator] that [SignatureValidator] returns; the error is always nil. *)
Definition SignatureValidator (getSignature : Request -> string * Z) (tokens : Request -> res (list string))
    (req : Request) : go (string * Z) :=
  r ← validate_signature getSignature (tokens req) req; Ret r.1.

Definition SignHTTPRequest (header : Header) (payload secret headerName : string) : Header :=
  let signature := "sha256=" +:+ hex_EncodeToString (hmac secret payload) in
  let header := Header_Set header headerName signature in
  Header_Set header "Content-Length" (Itoa (slen payload)).

End signature.

(** ** webhook_config.go *)

Record Config := mkConfig {
  c_DeliveryPath : string; c_RelayPath : string; c_MaxPayloadSize : Z; c_MaxQueueSize : Z;
  c_Service : string; c_ServiceSpecific : option string
}.

Definition fill_defaults (cc : Config) : Config :=
  mkConfig (c_DeliveryPath cc) (c_RelayPath cc)
    (if (c_MaxPayloadSize cc =? 0)%Z then DefaultPayloadLimit else c_MaxPayloadSize cc)
    (if (c_MaxQueueSize cc =? 0)%Z then DefaultQueueSize else c_MaxQueueSize cc)
    (c_Service cc) (c_ServiceSpecific cc).

(** [data] is [yaml.Marshal(node)] and [strict_decode] the decoder with known
    fields only. *)
Definition Config_UnmarshalYAML (data : res string) (strict_decode : string -> res Config) : res Config :=
  match data with
  | Err e => Err e
  | Ok data => match strict_decode data with Err e => Err e | Ok cc => Ok (fill_defaults cc) end
  end.

Definition Config_MarshalYAML (c : Config) : Config := fill_defaults c.

Definition Config_Options (c : Config) : list (options -> options) :=
  [WithQueueSize (c_MaxQueueSize c); WithMaxPayloadSize (c_MaxPayloadSize c)].

Definition ErrWrongServiceSpecificConfig : string := "missing service specific config".

Definition ParseSpecific {T} (ParseDeferred : string -> res T) (c : Config) : res T :=
  match c_ServiceSpecific c with
  | None => Err (Sentinel ErrWrongServiceSpecificConfig)
  | Some d => match ParseDeferred d with
              | Err e => Err (Errorf "failed to parse %v webhook config: %w" [c_Service c] [e])
              | Ok cfg => Ok cfg
              end
  end.

Record KeySpec := mkKeySpec { k_User : string; k_ID : string }.
Record SecretsConfig := mkSecrets {
  sc_Secrets : option (gmap string (list string)); sc_SecretSpecs : option (list KeySpec)
}.

(** [range] visits the users in some order: [order] lists the entries of the
    decoded map in the order of the second loop. *)
Definition SecretsConfig_UnmarshalYAML (order : gmap string (list string) -> list (string * list string))
    (secrets : res (gmap string (list string))) : res SecretsConfig :=
  match secrets with
  | Err e => Err (Errorf "unmarshal SecretsConfig: %v" [] [])
  | Ok secrets =>
      Ok (mkSecrets (Some secrets)
            (Some (concat (map (fun '(user, ids) => map (mkKeySpec user) ids) (order secrets)))))
  end.

Definition add_spec (secrets : gmap string (list string)) (spec : KeySpec) : gmap string (list string) :=
  <[k_User spec := default [] (secrets !! k_User spec) ++ [k_ID spec]]> secrets.

Definition SecretsConfig_MarshalYAML (sc : SecretsConfig) : gmap string (list string) :=
  match sc_Secrets sc with
  | Some secrets => secrets
  | None => match sc_SecretSpecs sc with
            | None => ∅
            | Some specs => fold_left add_spec specs ∅
            end
  end.

(** The loop of [TokensFromContext]: the tokens so far, and on a missing key
    the tokens that are cleared. *)
Fixpoint tokens_loop (lookup : string -> string -> option string) (specs : list KeySpec) (toks : list string)
  : res (list string) * list string :=
  match specs with
  | [] => (Ok toks, [])
  | spec :: specs' =>
      match lookup (k_User spec) (k_ID spec) with
      | None => (Err (Errorf "error retrieving key for spec %q" [k_User spec; k_ID spec] []), toks)
      | Some tok => tokens_loop lookup specs' (toks ++ [tok])
      end
  end.

Definition TokensFromContext (TokenFromContext : string -> string -> option string) (sc : SecretsConfig)
  : res (list string) * list string :=
  tokens_loop TokenFromContext (default [] (sc_SecretSpecs sc)) [].

(** ** Running a relay

The history of a relay: deliveries, polls and expiry scans in some order, with
the payloads that were answered 202 and the responses that carried a payload.
A handler that panics or is still blocked changes nothing. *)
Inductive rop :=
| ODeliver (sel : send_case) (now : Z) (req : Request)
| OPoll (sel : recv_case) (req : Request)
| OScan (now : Z).

Record history (F : Type) := mkHistory { hst : rstate F; accepted : list string; polled : list string }.
Arguments mkHistory {F}. Arguments hst {F}. Arguments accepted {F}. Arguments polled {F}.

(** The payload that the validator sees in a request. *)
Definition payload_of (r : Relay) (req : Request) : string :=
  match r_Body req with
  | None => ""
  | Some body => match r_validator r (with_body req (Some (MaxBytesReader body (o_payloadLimit (r_opts r))))) with
                 | Ret (p, _) => p
                 | Panic _ => ""
                 end
  end.

Definition run_rop {F} `{FIFO F} (r : Relay) (h : history F) (op : rop) : history F :=
  match op with
  | ODeliver sel now req =>
      match ServeWebhook r sel now req new_rw (hst h) with
      | Ret (w, st) =>
          mkHistory st (if bool_decide (rw_status w = Some StatusAccepted)
                        then accepted h ++ [payload_of r req] else accepted h) (polled h)
      | Panic _ => h
      end
  | OPoll sel req =>
      match WaitForWebhook r sel req new_rw (hst h) with
      | Some (w, st) =>
          mkHistory st (accepted h) (if bool_decide (rw_status w = Some StatusOK)
                                     then polled h ++ [rw_body w] else polled h)
      | None => h
      end
  | OScan now => mkHistory (scan r now (hst h)) (accepted h) (polled h)
  end.

Definition run_rops {F} `{FIFO F} (r : Relay) (h : history F) (ops : list rop) : history F :=
  fold_left (run_rop r) ops h.

(** What a validator may return: 200, or an error status. *)
Definition proper_validator (v : Request -> go (string * Z)) : Prop :=
  forall req p s, v req = Ret (p, s) -> s = StatusOK \/ (400 <= s <= 999)%Z.

Section relay_facts.
Context {F : Type} `{!FIFO F} (capacity : F -> Z) (contents : F -> list delivery).
Context `{LAWS : !FIFOLaws F capacity contents}.
Context (r : Relay) (Hv : proper_validator (r_validator r)).

(** The two outcomes of a delivery. *)
Lemma ServeWebhook_cases sel now req st w st' :
  ServeWebhook r sel now req new_rw st = Ret (w, st') ->
  (rw_status w <> Some StatusAccepted /\ fifo st' = fifo st /\ relayed st' = relayed st /\ read st' = read st) \/
  (rw_status w = Some StatusAccepted /\ relayed st' = (relayed st + 1)%Z /\ read st' = read st /\
   fifo st' = fifo_send (mkDelivery (forwardedHeaders r (r_Header req)) (payload_of r req)
                           (now + o_expiry (r_opts r))%Z) (fifo st)).
Proof.
  unfold ServeWebhook, payload_of.
  destruct (_ <? _)%Z; [intros [= <- <-]; by left|].
  do 2 (case_bool_decide; [intros [= <- <-]; by left|]).
  destruct (r_Body req) as [body|]; [|intros [= <- <-]; by left].
  destruct (r_validator r _) as [[p s]|] eqn:E; simpl; [|done]. apply Hv in E.
  destruct (Z.eqb_spec s StatusOK) as [->|Hs]; simpl.
  - destruct (r_CtxErr _); [intros [= <- <-]; by left|]. destruct sel; intros [= <- <-]; [by right|by left].
  - destruct E as [->|Hr]; [done|]. intros [= <- <-]. left. split; [|by case_match].
    assert (Hst : rw_status (http_Error "invalid payload" s new_rw) = Some s).
    { apply http_Error_fresh; [done|lia|]. unfold bodyAllowedForStatus. apply negb_true_iff.
      destruct (Z.eqb_spec s 204); [lia|]. destruct (Z.eqb_spec s 304); [lia|].
      destruct (Z.leb_spec s 199); [lia|]. by rewrite andb_false_r. }
    rewrite Hst. unfold StatusAccepted. intros [= ->]. lia.
Qed.

(** The outcomes of a poll. *)
Lemma WaitForWebhook_cases sel req st w st' :
  WaitForWebhook r sel req new_rw st = Some (w, st') ->
  (rw_status w <> Some StatusOK /\ st' = st) \/
  (exists d, fifo_recv (fifo st) = Some (d, fifo st') /\ r_Method req = "GET" /\
     w = Write (d_body d) (rw_Set "Content-Type" "application/json" (on_header (add_headers (d_header d)) new_rw)) /\
     rw_status w = Some StatusOK /\ rw_body w = d_body d /\ relayed st' = relayed st /\ read st' = (read st + 1)%Z).
Proof.
  unfold WaitForWebhook. case_bool_decide as Hm; [intros [= <- <-]; by left|].
  destruct sel; [|intros [= <- <-]; by left..].
  destruct (fifo_recv (fifo st)) as [[d f]|]; [|done]. intros [= <- <-]. right. exists d.
  rewrite Write_fresh by (by repeat apply on_header_fresh). done.
Qed.

Definition queue (h : history F) : list string := map d_body (contents (fifo (hst h))).

(** The invariant of a history. *)
Definition relay_inv (h : history F) : Prop :=
  polled h ++ queue h `sublist_of` accepted h /\
  (Z.of_nat (length (queue h)) <= Z.max 1 (capacity (fifo (hst h))))%Z /\
  relayed (hst h) = Z.of_nat (length (accepted h)) /\ read (hst h) = Z.of_nat (length (polled h)) /\
  ((o_expiry (r_opts r) <= 0)%Z -> (Z.of_nat (length (accepted h)) <= capacity (fifo (hst h)))%Z ->
     polled h ++ queue h = accepted h).

Lemma filter_sublist {A} (f : A -> bool) (l : list A) : List.filter f l `sublist_of` l.
Proof. induction l as [|x l IH]; simpl; [done|]. destruct (f x); by constructor. Qed.

Lemma tail_sublist {A} (l : list A) : tail l `sublist_of` l.
Proof. destruct l; [done|]. by apply sublist_cons. Qed.

Lemma map_sublist {A B} (f : A -> B) (l k : list A) : l `sublist_of` k -> map f l `sublist_of` map f k.
Proof. induction 1; simpl; by constructor. Qed.

Lemma push_map n d q : map d_body (push n d q) =
  (if (Z.of_nat (length q) <? n)%Z then map d_body q else tail (map d_body q)) ++ [d_body d].
Proof. unfold push. rewrite map_app. destruct (_ <? _)%Z; [done|]. by destruct q. Qed.

Lemma run_rop_capacity h op : capacity (fifo (hst (run_rop r h op))) = capacity (fifo (hst h)).
Proof.
  destruct op as [sel now req|sel req|now]; simpl.
  - destruct (ServeWebhook _ _ _ _ _ _) as [[w st]|] eqn:E; [|done]. simpl.
    destruct (ServeWebhook_cases _ _ _ _ _ _ E) as [(_ & -> & _)|(_ & _ & _ & ->)]; [done|].
    apply send_contents.
  - destruct (WaitForWebhook _ _ _ _ _) as [[w st]|] eqn:E; [|done]. simpl.
    destruct (WaitForWebhook_cases _ _ _ _ _ E) as [(_ & ->)|(d & HR & _)]; [done|].
    pose proof (recv_contents (fifo (hst h))) as HC. rewrite HR in HC. apply HC.
  - unfold scan. destruct (expiryScan (r_opts r)) as [[i remove]|]; [|done]. apply scan_contents.
Qed.

Lemma deliver_inv h sel now req : relay_inv h -> relay_inv (run_rop r h (ODeliver sel now req)).
Proof.
  intros (Hsub & Hlen & Hrel & Hread & Heq). pose proof (run_rop_capacity h (ODeliver sel now req)) as Hcap.
  revert Hcap. simpl. destruct (ServeWebhook _ _ _ _ _ _) as [[w st]|] eqn:E; [|done].
  destruct (ServeWebhook_cases _ _ _ _ _ _ E) as [(Hs & Hf & Hr & Hd)|(Hs & Hr & Hd & Hf)].
  { rewrite bool_decide_false by done. intros _. unfold relay_inv, queue. simpl. rewrite Hf, Hr, Hd. done. }
  rewrite bool_decide_true by done. simpl. intros Hcap. unfold relay_inv, queue in *. simpl.
  rewrite Hcap, Hr, Hd, Hf, (proj1 (send_contents _ _)), push_map, !length_app. simpl.
  rewrite length_map in Hlen. split_and!; [| |lia|lia|].
  - rewrite app_assoc. apply sublist_app; [|done]. destruct (_ <? _)%Z; [done|].
    etrans; [|exact Hsub]. apply sublist_app; [done|]. apply tail_sublist.
  - destruct (Z.ltb_spec (Z.of_nat (length (contents (fifo (hst h))))) (capacity (fifo (hst h)))).
    + rewrite length_map. lia.
    + destruct (contents (fifo (hst h))); simpl in *; rewrite ?length_map; lia.
  - intros Hexp Hl. rewrite app_assoc. rewrite <- Heq by (done || lia). f_equal.
    rewrite <- Heq, length_app, length_map in Hl by (done || lia).
    destruct (Z.ltb_spec (Z.of_nat (length (contents (fifo (hst h))))) (capacity (fifo (hst h)))); [done|lia].
Qed.

Lemma poll_inv h sel req : relay_inv h -> relay_inv (run_rop r h (OPoll sel req)).
Proof.
  intros (Hsub & Hlen & Hrel & Hread & Heq). pose proof (run_rop_capacity h (OPoll sel req)) as Hcap.
  revert Hcap. simpl. destruct (WaitForWebhook _ _ _ _ _) as [[w st]|] eqn:E; [|done].
  destruct (WaitForWebhook_cases _ _ _ _ _ E) as [(Hs & ->)|(d & HR & _ & _ & Hs & Hb & Hr & Hd)].
  { rewrite bool_decide_false by done. done. }
  rewrite bool_decide_true by done. simpl. intros Hcap. unfold relay_inv, queue in *. simpl.
  pose proof (recv_contents (fifo (hst h))) as HC. rewrite HR in HC. destruct HC as [HC _].
  rewrite HC in *. simpl in *. rewrite Hcap, Hr, Hd, Hb, length_app, <- app_assoc. simpl.
  split_and!; [done|lia|done|lia|done].
Qed.

Lemma scan_inv h now : relay_inv h -> relay_inv (run_rop r h (OScan now)).
Proof.
  intros (Hsub & Hlen & Hrel & Hread & Heq). unfold relay_inv, queue in *. simpl. unfold scan, expiryScan.
  destruct (Z.leb_spec (o_expiry (r_opts r)) 0); [done|]. simpl.
  pose proof (scan_contents (fun d => (d_expiration d <? now)%Z) (fifo (hst h))) as [-> ->].
  rewrite length_map in *. pose proof (sublist_length _ _
    (filter_sublist (fun d => negb (d_expiration d <? now)%Z) (contents (fifo (hst h))))).
  split_and!; [|lia|done|done|lia].
  etrans; [|exact Hsub]. apply sublist_app; [done|]. apply map_sublist, filter_sublist.
Qed.

Lemma run_rops_inv h ops : relay_inv h -> relay_inv (run_rops r h ops).
Proof.
  revert h. induction ops as [|op ops IH]; intros h Hh; [done|]. simpl. apply IH.
  destruct op; auto using deliver_inv, poll_inv, scan_inv.
Qed.

Lemma run_rops_capacity h ops : capacity (fifo (hst (run_rops r h ops))) = capacity (fifo (hst h)).
Proof.
  revert h. induction ops as [|op ops IH]; intros h; [done|].
  etrans; [apply (IH (run_rop r h op))|apply run_rop_capacity].
Qed.

End relay_facts.

(** *** Headers *)

Lemma to_case_idemp c :
  to_upper (to_upper c) = to_upper c /\ to_lower (to_lower c) = to_lower c /\
  is_token (to_upper c) = is_token c /\ is_token (to_lower c) = is_token c /\
  (to_upper c = "-"%char <-> c = "-"%char) /\ (to_lower c = "-"%char <-> c = "-"%char).
Proof. destruct c as [[] [] [] [] [] [] [] []]; by vm_compute. Qed.

Lemma canon_idemp b s : canon b (canon b s) = canon b s.
Proof.
  revert b. induction s as [|c s IH]; intros b; [done|]. simpl.
  destruct (to_case_idemp c) as (Hu & Hl & _ & _ & Hu' & Hl').
  destruct b; [rewrite Hu, (bool_decide_ext _ _ Hu')|rewrite Hl, (bool_decide_ext _ _ Hl')]; by rewrite IH.
Qed.

Lemma canon_token b s :
  forallb is_token (String.list_ascii_of_string (canon b s)) = forallb is_token (String.list_ascii_of_string s).
Proof.
  revert b. induction s as [|c s IH]; intros b; [done|]. simpl. rewrite IH.
  destruct (to_case_idemp c) as (_ & _ & Hu & Hl & _). by destruct b; rewrite ?Hu, ?Hl.
Qed.

Lemma CanonicalHeaderKey_idemp s : CanonicalHeaderKey (CanonicalHeaderKey s) = CanonicalHeaderKey s.
Proof.
  unfold CanonicalHeaderKey. destruct (forallb is_token (String.list_ascii_of_string s)) eqn:E.
  - by rewrite canon_token, E, canon_idemp.
  - by rewrite E.
Qed.

(** The values that adding the headers of a delivery gives. *)
Lemma fold_add_values values h k k' :
  Header_Values (fold_left (fun h v => Header_Add h k v) values h) k' =
    if bool_decide (CanonicalHeaderKey k = CanonicalHeaderKey k') then Header_Values h k' ++ values
    else Header_Values h k'.
Proof.
  revert h. induction values as [|v values IH]; intros h; simpl.
  { case_bool_decide; [by rewrite app_nil_r|done]. }
  rewrite IH. unfold Header_Add, Header_Values. case_bool_decide as Hk.
  - rewrite Hk. simplify_map_eq. by rewrite <- app_assoc.
  - by simplify_map_eq.
Qed.

Lemma add_headers_list (l : list (string * list string)) h name :
  NoDup l.*1 -> Forall (fun kv => CanonicalHeaderKey kv.1 = kv.1) l ->
  Header_Values (foldr (fun kv h => fold_left (fun h v => Header_Add h kv.1 v) kv.2 h) h l) name =
    Header_Values h name ++ Header_Values (list_to_map l) name.
Proof.
  induction l as [|[k vs] l IH]; intros Hnd HF; simpl.
  { unfold Header_Values at 3. rewrite lookup_empty. by rewrite app_nil_r. }
  apply NoDup_cons in Hnd as [Hk Hnd]. inversion HF as [|?? Hc HF']; subst. simpl in *.
  rewrite fold_add_values, IH, Hc by done. unfold Header_Values. case_bool_decide as Hn.
  - rewrite <- Hn, lookup_insert_eq, (not_elem_of_list_to_map_1 l k Hk). simpl. by rewrite app_nil_r.
  - by rewrite lookup_insert_ne.
Qed.

Lemma add_headers_values (job : Header) h name :
  (forall k v, job !! k = Some v -> CanonicalHeaderKey k = k) ->
  Header_Values (add_headers job h) name = Header_Values h name ++ Header_Values job name.
Proof.
  intros Hc. unfold add_headers. rewrite map_fold_foldr.
  pose proof (add_headers_list (map_to_list job) h name (NoDup_fst_map_to_list job)) as HL.
  rewrite list_to_map_to_list in HL. rewrite <- HL.
  - f_equal. generalize (map_to_list job). intros l. induction l as [|[k v] l IH]; simpl; congruence.
  - apply Forall_forall. intros [k v] Hin%elem_of_map_to_list. by eapply Hc.
Qed.

Lemma forwardedHeaders_values r src name :
  Header_Values (forwardedHeaders r src) name =
    if bool_decide (CanonicalHeaderKey name ∈ map CanonicalHeaderKey (default [] (o_forwardedHeaders (r_opts r))))
    then Header_Values src name else [].
Proof.
  unfold forwardedHeaders. generalize (default [] (o_forwardedHeaders (r_opts r))). intros names.
  induction names as [|n names IH] using rev_ind; [done|].
  rewrite fold_left_app, map_app. simpl. destruct (decide (CanonicalHeaderKey n = CanonicalHeaderKey name)) as [Hn|Hn].
  - rewrite (bool_decide_true (_ ∈ _)) by (rewrite Hn; set_solver).
    assert (Hvals : Header_Values src n = Header_Values src name) by (unfold Header_Values; by rewrite Hn).
    unfold forward_one at 1. rewrite Hvals. destruct (Header_Values src name) as [|v vs] eqn:Hv.
    + rewrite IH. by case_bool_decide.
    + unfold Header_Values at 1. rewrite Hn. by simplify_map_eq.
  - transitivity (Header_Values (fold_left (forward_one src) names ∅) name).
    { unfold forward_one at 1, Header_Values at 1 3. destruct (Header_Values src n); [done|].
      by rewrite lookup_insert_ne. }
    rewrite IH. erewrite bool_decide_ext; [done|]. set_solver.
Qed.

Lemma forwardedHeaders_canonical r src k v :
  forwardedHeaders r src !! k = Some v -> CanonicalHeaderKey k = k.
Proof.
  unfold forwardedHeaders. generalize (default [] (o_forwardedHeaders (r_opts r))). intros names.
  induction names as [|n names IH] using rev_ind; [done|]. rewrite fold_left_app. simpl.
  unfold forward_one at 1. destruct (Header_Values src n) as [|x xs]; [done|].
  destruct (decide (CanonicalHeaderKey n = k)) as [<-|Hne]; [by rewrite CanonicalHeaderKey_idemp|].
  by rewrite lookup_insert_ne.
Qed.

(** *** Signatures *)

Lemma try_tokens_true hmac sig payload tokens cleared :
  (try_tokens hmac sig payload tokens cleared).1 = true <-> exists t, t ∈ tokens /\ sig = hmac t payload.
Proof.
  revert cleared. induction tokens as [|t tokens IH]; intros cleared; simpl.
  - split; [done|]. intros (t & Ht & _). by apply elem_of_nil in Ht.
  - case_bool_decide; simpl.
    + split; [|done]. intros _. exists t. split; [by left|done].
    + rewrite IH. split; intros (u & Hu & Hs); exists u; (split; [|done]); [by right|].
      apply elem_of_cons in Hu as [->|]; [done|done].
Qed.

Lemma SHA256SignatureFromHeader_OK headerName req sig :
  SHA256SignatureFromHeader headerName req = (sig, StatusOK) <->
  exists h, Header_Get (r_Header req) headerName = "sha256=" +:+ h /\ hex_DecodeString h = Some sig.
Proof.
  unfold SHA256SignatureFromHeader. generalize (Header_Get (r_Header req) headerName). intros s. split.
  - case_bool_decide; [done|]. unfold SplitN2. destruct (Cut s "=") as [[b a]|] eqn:E; [|done].
    apply Cut_Some in E as ->. case_bool_decide as Hb; [done|]. subst b.
    destruct (hex_DecodeString a) as [x|] eqn:Ha; [|done]. intros [= <-]. by exists a.
  - intros (h & -> & Hh). simpl. by rewrite Hh.
Qed.

(** The validator, once the body is read and the signature extracted. *)
Lemma SignatureValidator_eval hmac gs tokens req body p sig :
  r_Body req = Some body -> ReadAll body = Ok p -> gs req = (sig, StatusOK) ->
  SignatureValidator hmac gs (fun _ => Ok tokens) req =
    Ret (if bool_decide (Exists (fun t => sig = hmac t p) tokens) then (p, StatusOK) else ("", StatusUnauthorized)).
Proof.
  intros Hb HR Hg. unfold SignatureValidator, validate_signature. rewrite Hb, HR. simpl. rewrite Hg. simpl.
  pose proof (try_tokens_true hmac sig p tokens []) as HT.
  destruct (try_tokens hmac sig p tokens []) as [found cl]. simpl in *.
  assert (Hex : found = true <-> Exists (fun t => sig = hmac t p) tokens) by (by rewrite HT, Exists_exists).
  destruct found; case_bool_decide; naive_solver.
Qed.

(** A POST request with body [p] that passes the guards before validation. *)
Definition admissible (r : Relay) (req : Request) (p : string) : Prop :=
  (r_ContentLength req <= o_payloadLimit (r_opts r))%Z /\ (Z.of_nat (slen p) <= o_payloadLimit (r_opts r))%Z /\
  r_Method req = "POST" /\ r_CtxErr req = None /\ r_Body req = Some (mkBody p None).

Lemma ServeWebhook_admissible {F} `{!FIFO F} r sel now req p w (st : rstate F) :
  admissible r req p -> Header_Get (r_Header req) "Content-Type" = "application/json" ->
  ServeWebhook r sel now req w st =
    (v ← r_validator r (with_body req (Some (mkBody p None)));
     let '(payload, status) := v in
     if negb (status =? StatusOK)%Z then
       Ret (http_Error "invalid payload" status w,
            if ((StatusBadRequest <=? status) && (status <? StatusInternalServerError))%Z
            then mkRState (fifo st) (denied st + 1) (relayed st) (read st) else st)
     else match r_CtxErr req, sel with
          | None, Sent =>
              Ret (WriteHeader StatusAccepted w,
                   mkRState (fifo_send (mkDelivery (forwardedHeaders r (r_Header req)) payload
                     (now + o_expiry (r_opts r))%Z) (fifo st)) (denied st) (relayed st + 1) (read st))
          | _, _ => Ret (w, st)
          end).
Proof.
  intros (Hl & Hp & Hm & Hc & Hb) Ht. unfold ServeWebhook. rewrite Ht, Hm, Hb, Hc.
  destruct (Z.ltb_spec (o_payloadLimit (r_opts r)) (r_ContentLength req)); [lia|].
  rewrite !bool_decide_false by auto. unfold MaxBytesReader. simpl.
  destruct (Nat.ltb_spec (Z.to_nat (o_payloadLimit (r_opts r))) (slen p)); [lia|].
  destruct (r_validator r _) as [[payload status]|]; simpl; [|done].
  destruct (negb _); [done|]. rewrite Hc. by destruct sel.
Qed.

(** ** Properties *)

(** C29 The relay delivers in order and at most once: after any history of
    deliveries, polls and expiry scans, the payloads handed to polling clients
    followed by those still queued are a subsequence of the payloads that were
    answered 202; the queue is within its bound; the counters count exactly
    the accepted and the polled payloads; and as long as no more payloads
    than the queue holds were accepted and expiry is off, nothing is lost. *)
Theorem relay_in_order {F} `{!FIFO F} capacity contents `{LAWS : !FIFOLaws F capacity contents}
    validator opts ops :
  proper_validator validator ->
  let '(r, st) := NewRelay validator opts in
  let h := run_rops r (mkHistory st [] []) ops in
  let queued := map d_body (contents (fifo (hst h))) in
  polled h ++ queued `sublist_of` accepted h /\
  (Z.of_nat (length queued) <= Z.max 1 (o_size (r_opts r)))%Z /\
  relayed (hst h) = Z.of_nat (length (accepted h)) /\ read (hst h) = Z.of_nat (length (polled h)) /\
  ((o_expiry (r_opts r) <= 0)%Z -> (Z.of_nat (length (accepted h)) <= o_size (r_opts r))%Z ->
     polled h ++ queued = accepted h).
Proof.
  intros Hv. destruct (NewRelay validator opts) as [r st] eqn:E. unfold NewRelay in E. injection E as Hr Hst.
  set (h0 := mkHistory st [] []). assert (Hval : r_validator r = validator) by (by subst r).
  rewrite <- Hval in Hv. destruct (new_contents (o_size (r_opts r))) as [Hc Hcap].
  assert (Hf : fifo st = NewFIFO (o_size (r_opts r))) by (by subst r st).
  assert (H0 : relay_inv capacity contents r h0).
  { unfold relay_inv, queue, h0. simpl. rewrite Hf, Hc, Hcap. subst st. simpl. split_and!; [done|lia|done..]. }
  pose proof (run_rops_inv capacity contents r Hv h0 ops H0) as (H1 & H2 & H3 & H4 & H5).
  rewrite (run_rops_capacity capacity contents r Hv h0 ops) in H2, H5. simpl in H2, H5.
  rewrite Hf, Hcap in H2, H5. by split_and!.
Qed.

(** Header forwarding: a poll that receives a delivery is answered 200 with
    the delivered body; for every header name, its values in the response are
    the request's when the name is configured to be forwarded (in any letter
    case), the content type is JSON, and no other header is set. *)
Theorem forwarded_headers_relayed {F} `{!FIFO F} capacity contents `{LAWS : !FIFOLaws F capacity contents}
    r src body expiration req (st : rstate F) rest name :
  r_Method req = "GET" ->
  contents (fifo st) = mkDelivery (forwardedHeaders r src) body expiration :: rest ->
  exists w st', WaitForWebhook r Received req new_rw st = Some (w, st') /\
    contents (fifo st') = rest /\ final_status w = StatusOK /\ rw_body w = body /\
    Header_Values (final_header w) name =
      if bool_decide (CanonicalHeaderKey name = "Content-Type") then ["application/json"]
      else if bool_decide (CanonicalHeaderKey name ∈
                map CanonicalHeaderKey (default [] (o_forwardedHeaders (r_opts r))))
      then Header_Values src name else [].
Proof.
  intros Hm Hq. unfold WaitForWebhook. rewrite bool_decide_false by auto.
  pose proof (recv_contents (fifo st)) as HC. destruct (fifo_recv (fifo st)) as [[d f]|]; [|congruence].
  destruct HC as [HC _]. rewrite Hq in HC. injection HC as <- HC.
  eexists _, _. split; [done|]. rewrite Write_fresh by (by repeat apply on_header_fresh). simpl.
  split_and!; [done..|]. unfold final_header. simpl. unfold Header_Set. case_bool_decide as Hct.
  - unfold Header_Values. rewrite Hct. by simplify_map_eq.
  - transitivity (Header_Values (add_headers (forwardedHeaders r src) ∅) name).
    { unfold Header_Values. by rewrite lookup_insert_ne. }
    rewrite add_headers_values by apply forwardedHeaders_canonical.
    unfold Header_Values at 1. rewrite lookup_empty. apply forwardedHeaders_values.
Qed.

(** C31 Signature validation is exact: the validator accepts a request with
    payload [p] if and only if [p] is its whole body and the signature header
    is [sha256=] and the hexadecimal HMAC of [p] under one of the tokens, in
    either letter case. *)
Theorem SignatureValidator_exact hmac headerName tokens req p :
  SignatureValidator hmac (SHA256SignatureFromHeader headerName) (fun _ => Ok tokens) req = Ret (p, StatusOK) <->
  (exists body, r_Body req = Some body /\ ReadAll body = Ok p) /\
  exists token h, token ∈ tokens /\ Header_Get (r_Header req) headerName = "sha256=" +:+ h /\
    hex_DecodeString h = Some (hmac token p).
Proof.
  split.
  - unfold SignatureValidator, validate_signature. destruct (r_Body req) as [body|]; [|done]. simpl.
    destruct (ReadAll body) as [payload|] eqn:HR; simpl; [|done].
    destruct (SHA256SignatureFromHeader headerName req) as [sig code] eqn:E.
    destruct (Z.eqb_spec code StatusOK) as [->|Hc]; simpl; [|by intros [= _ ->]].
    apply SHA256SignatureFromHeader_OK in E as (h & Hh & Hsig).
    pose proof (try_tokens_true hmac sig payload tokens []) as HT.
    destruct (try_tokens hmac sig payload tokens []) as [[] cl]; simpl in *; [|done].
    intros [= <-]. destruct (proj1 HT eq_refl) as (t & Ht & ->). split; [eauto|]. by exists t, h.
  - intros [(body & Hb & HR) (t & h & Ht & Hh & Hsig)].
    erewrite SignatureValidator_eval; [|done..|by apply SHA256SignatureFromHeader_OK; eauto].
    rewrite bool_decide_true; [done|]. apply Exists_exists. eauto.
Qed.

(** Signing and validating fit together: a request signed with
    [SignHTTPRequest] whose body is at most the relay's limit is accepted by a
    relay whose tokens include the secret, and is queued unchanged; the same
    headers with any other body are refused with 401, unless that body has the
    same HMAC under one of the tokens. *)
Theorem signed_request_accepted {F} `{!FIFO F} hmac secret tokens headerName payload other req req' r
    (st : rstate F) now :
  r_validator r = SignatureValidator hmac (SHA256SignatureFromHeader headerName) (fun _ => Ok tokens) ->
  secret ∈ tokens -> CanonicalHeaderKey headerName <> "Content-Length" ->
  CanonicalHeaderKey headerName <> "Content-Type" ->
  let signed := SignHTTPRequest hmac (Header_Set ∅ "Content-Type" "application/json") payload secret headerName in
  admissible r req payload -> admissible r req' other -> r_Header req = signed -> r_Header req' = signed ->
  ServeWebhook r Sent now req new_rw st =
    Ret (WriteHeader StatusAccepted new_rw,
         mkRState (fifo_send (mkDelivery (forwardedHeaders r signed) payload (now + o_expiry (r_opts r))%Z) (fifo st))
           (denied st) (relayed st + 1) (read st)) /\
  (Forall (fun t => hmac t other <> hmac secret payload) tokens ->
     ServeWebhook r Sent now req' new_rw st =
       Ret (http_Error "invalid payload" StatusUnauthorized new_rw,
            mkRState (fifo st) (denied st + 1) (relayed st) (read st))).
Proof.
  intros Hval Hin Hcl Hct signed Ha Ha' Hh Hh'.
  assert (Hsig : forall q : Request, r_Header q = signed ->
    SHA256SignatureFromHeader headerName q = (hmac secret payload, StatusOK)).
  { intros q Hq. apply SHA256SignatureFromHeader_OK. rewrite Hq. eexists. split; [|apply hex_roundtrip].
    unfold signed, SignHTTPRequest. rewrite Header_Get_Set_ne by auto. apply Header_Get_Set. }
  assert (Hty : Header_Get signed "Content-Type" = "application/json").
  { unfold signed, SignHTTPRequest. rewrite !Header_Get_Set_ne by (done || auto). apply Header_Get_Set. }
  split; [rewrite (ServeWebhook_admissible r Sent now _ _ _ _ Ha) by congruence
    |intros HF; rewrite (ServeWebhook_admissible r Sent now _ _ _ _ Ha') by congruence]; rewrite Hval;
    (erewrite SignatureValidator_eval; [|reflexivity|reflexivity|by apply Hsig]).
  - rewrite bool_decide_true by (apply Exists_exists; eauto). simpl.
    destruct Ha as (_ & _ & _ & -> & _). by rewrite Hh.
  - rewrite bool_decide_false; [done|]. rewrite Exists_exists. intros (t & Ht & He).
    rewrite Forall_forall in HF. by eapply HF.
Qed.

(** ** A model of the FIFO: a capacity and a list *)
Module ListFIFO.

#[global] Instance list_fifo : FIFO (Z * list delivery) := {|
  NewFIFO := fun n => (n, []);
  fifo_send := fun d f => (f.1, push f.1 d f.2);
  fifo_recv := fun f => match f.2 with d :: q => Some (d, (f.1, q)) | [] => None end;
  fifo_scan := fun remove f => (f.1, List.filter (fun d => negb (remove d)) f.2)
|}.

#[global] Instance list_fifo_laws : FIFOLaws (Z * list delivery) fst snd.
Proof. constructor; try done. intros [n [|d q]]; done. Qed.

(** A key and its message stand for the HMAC. *)
Definition toy_hmac (k m : string) : string := k +:+ ":" +:+ m.

Definition post (h : Header) (body : string) : Request :=
  mkRequest "POST" "/hook" "" "" "localhost" h [] "127.0.0.1:1" (Z.of_nat (slen body)) (Some (mkBody body None)) None.
Definition get_request : Request :=
  mkRequest "GET" "/wait" "" "" "localhost" ∅ [] "127.0.0.1:1" 0 None None.

Definition json_header : Header := Header_Set ∅ "Content-Type" "application/json".
Definition signed (body : string) : Request :=
  post (SignHTTPRequest toy_hmac json_header body "key" "X-Hub-Signature-256") body.

Definition relay : Relay * rstate (Z * list delivery) :=
  NewRelay (SignatureValidator toy_hmac (SHA256SignatureFromHeader "X-Hub-Signature-256") (fun _ => Ok ["key"]))
    [WithQueueSize 2].

Definition ops : list rop :=
  [ODeliver Sent 0 (signed "one"); ODeliver Sent 1 (signed "two"); OPoll Received get_request].

End ListFIFO.

Lemma proper_NoopValidator : proper_validator NoopValidator.
Proof.
  intros req p s. unfold NoopValidator. destruct (r_Body req); [|done]. destruct (ReadAll _); intros [= _ <-]; [by left|].
  right. unfold StatusBadRequest. lia.
Defined.

Definition example_ops : list rop :=
  [ODeliver Sent 0 (ListFIFO.post ListFIFO.json_header "one");
   ODeliver Sent 1 (ListFIFO.post ListFIFO.json_header "two"); OPoll Received ListFIFO.get_request].

Definition example_history : history (Z * list delivery) :=
  let '(r, st) := NewRelay NoopValidator [WithQueueSize 2] in run_rops r (mkHistory st [] []) example_ops.

Lemma relay_in_order_witness :
  accepted example_history = ["one"; "two"] /\
  polled example_history ++ map d_body (fifo (hst example_history)).2 = accepted example_history.
Proof.
  split; [vm_compute; reflexivity|].
  apply (proj2 (proj2 (proj2 (proj2 (relay_in_order (F := Z * list delivery) fst snd NoopValidator
    [WithQueueSize 2] example_ops proper_NoopValidator))))); vm_compute; congruence.
Defined.

Lemma forwarded_headers_relayed_witness :
  exists w st', WaitForWebhook ListFIFO.relay.1 Received ListFIFO.get_request new_rw
      (mkRState (2%Z, [mkDelivery (forwardedHeaders ListFIFO.relay.1 (Header_Set ∅ "x-github-event" "push")) "{}" 0])
        0 0 0) = Some (w, st') /\
    Header_Values (final_header w) "X-GitHub-Event" = ["push"].
Proof.
  destruct (forwarded_headers_relayed fst snd ListFIFO.relay.1 (Header_Set ∅ "x-github-event" "push") "{}" 0
    ListFIFO.get_request (mkRState (2%Z, [mkDelivery (forwardedHeaders ListFIFO.relay.1
      (Header_Set ∅ "x-github-event" "push")) "{}" 0]) 0 0 0) [] "X-GitHub-Event" eq_refl eq_refl)
    as (w & st' & HW & _ & _ & _ & HH).
  exists w, st'. split; [exact HW|]. rewrite HH. vm_compute. reflexivity.
Defined.

Lemma signed_request_accepted_witness :
  exists f, ServeWebhook ListFIFO.relay.1 Sent 5 (ListFIFO.signed "one") new_rw ListFIFO.relay.2 =
    Ret (WriteHeader StatusAccepted new_rw, mkRState f 0 1 0) /\
  ServeWebhook ListFIFO.relay.1 Sent 5 (ListFIFO.post (r_Header (ListFIFO.signed "one")) "two") new_rw ListFIFO.relay.2 =
    Ret (http_Error "invalid payload" StatusUnauthorized new_rw, mkRState (2%Z, []) 1 0 0).
Proof.
  destruct (signed_request_accepted ListFIFO.toy_hmac "key" ["key"] "X-Hub-Signature-256" "one" "two"
    (ListFIFO.signed "one") (ListFIFO.post (r_Header (ListFIFO.signed "one")) "two") ListFIFO.relay.1
    ListFIFO.relay.2 5) as [H1 H2].
  - reflexivity.
  - apply list_elem_of_singleton. reflexivity.
  - vm_compute. congruence.
  - vm_compute. congruence.
  - repeat split; vm_compute; congruence.
  - repeat split; vm_compute; congruence.
  - reflexivity.
  - reflexivity.
  - eexists. split; [exact H1|]. apply H2. repeat constructor. vm_compute. congruence.
Defined.
