(* ===== verification/Redirect.v ===== *)
(** * HTTP redirects and connections without SNI

Models [redirect.go] and [no_sni.go]. *)

From S2P Require Import Prelude GoStrings GoErrors GoURL GoHTTP GoNet GoRedirect.

Definition splitHostPort (hostport : string) : string * string :=
  match SplitHostPort hostport with
  | Ok (host, port) => (host, port)
  | Err _ =>
      if Nat.eqb (slen hostport) 0 then ("", "")
      else if bool_decide (String.get 0 hostport = Some LBRACK)
           && bool_decide (String.get (slen hostport - 1) hostport = Some RBRACK)
      then (slice hostport 1 (slen hostport - 1), "")
      else (hostport, "")
  end.

Abbreviation RedirectTarget := (Request -> go (string * Z)).

Record Redirect := mkRedirect { Description : string; Target : RedirectTarget; Log : bool }.

(** The handler and the log record it writes, if any. *)
Definition Redirect_Handler (ip_literal : string -> bool) (r : Redirect) (w : rw) (req : Request)
  : go (rw * option (list string)) :=
  let ru := URL_String (r_URL req) in
  t ← Target r req;
  let '(t, c) := t in
  Ret (http_Redirect ip_literal w req t c,
       if Log r then Some ["redirecting request"; ru; t; r_RemoteAddr req; Description r] else None).

Definition challengeRewrite (host : string) (r : Request) : string :=
  URL_String (mkURL "http" "" None host (r_Path r) "" false "" "" "" false).

Definition RedirectAcmeHTTP01 (host : string) : Redirect :=
  mkRedirect "redirecting ACME HTTP-01 challenge"
    (fun r => Ret (challengeRewrite host r, StatusTemporaryRedirect)) true.

Definition ACMEHTTP01Prefix : string := "/.well-known/acme-challenge/".
Definition ACMEHTTP01HTTPPrefix : string := ACMEHTTP01Prefix.
Definition ACMEHTTP01ChiPrefix : string := ACMEHTTP01Prefix +:+ "*".

Definition RedirectToHTTPSPort (addr : string) : Redirect :=
  let '(host, port) := splitHostPort addr in
  let port := if Nat.eqb (slen port) 0 then "443" else port in
  mkRedirect "redirect to https"
    (fun r =>
       let '(h, _) := splitHostPort (r_Host r) in
       let h := if Nat.eqb (slen h) 0 then host else h in
       let u := set_Host (r_URL r) (JoinHostPort h port) in
       let u := set_Scheme u "https" in
       Ret (URL_String u, StatusMovedPermanently)) false.

Definition LiteralRedirectTarget (to : string) (code : Z) : RedirectTarget := fun _ => Ret (to, code).

(** [GetConfigForClientNoSNI]: the hello is its connection's remote address and
    its server name; the result is the configuration to use, [None] for the
    default one. *)
Record ClientHello := mkHello { h_RemoteAddr : option string; h_ServerName : string }.

Definition GetConfigForClientNoSNI {C} (matcher : option (string -> bool))
    (getConfig : ClientHello -> res (option C)) (clientHello : option ClientHello) : res (option C) :=
  let matcher := match matcher with None => fun _ => false | Some m => m end in
  match clientHello with
  | None => Ok None
  | Some hello =>
      match h_RemoteAddr hello with
      | None => Ok None
      | Some clientRemoteAddr =>
          if bool_decide (h_ServerName hello <> "") then Ok None
          else if matcher clientRemoteAddr then getConfig hello
          else Ok None
      end
  end.

(** ** Lemmas *)

Lemma String_get_app a b : String.get (slen a) (a +:+ b) = String.get 0 b.
Proof. induction a as [|x a IH]; simpl; [done|]. exact IH. Qed.

(** What [splitHostPort] makes of the forms that a host can take: with and
    without a port, IPv6 in brackets or not. *)
Lemma splitHostPort_join host port :
  no_brackets host -> no_brackets port -> has_byte port COLON = false ->
  splitHostPort (JoinHostPort host port) = (host, port).
Proof. intros. unfold splitHostPort. by rewrite Split_JoinHostPort. Qed.

Lemma splitHostPort_plain host :
  no_brackets host -> has_byte host COLON = false -> splitHostPort host = (host, "").
Proof.
  intros [Hl Hr] Hc. unfold splitHostPort. destruct (SplitHostPort_no_colon host Hc) as [e ->].
  destruct (Nat.eqb_spec (slen host) 0) as [H0|H0]; [by apply slen_zero in H0 as ->|].
  destruct host as [|x host]; [done|]. rewrite bool_decide_false; [done|]. simpl. intros [= ->].
  unfold has_byte in Hl. simpl in Hl. done.
Qed.

Lemma splitHostPort_ipv6 host :
  no_brackets host -> splitHostPort (String LBRACK (host +:+ String RBRACK "")) = (host, "").
Proof.
  intros [Hl Hr]. set (hp := String LBRACK (host +:+ String RBRACK "")).
  assert (Hlen : slen hp = S (S (slen host))).
  { unfold hp, slen. simpl. fold (slen (host +:+ String RBRACK "")). autorewrite with golib_rw. unfold slen. simpl. lia. }
  assert (Herr : exists e, SplitHostPort hp = Err e).
  { unfold SplitHostPort. destruct (LastIndexByte hp COLON) as [i|]; [|eauto].
    rewrite bool_decide_true by done.
    assert (IndexByte hp RBRACK = Some (S (slen host))) as ->.
    { unfold hp. simpl. rewrite IndexByte_app, (IndexByte_None host RBRACK Hr). simpl. by rewrite Nat.add_0_r. }
    rewrite Hlen, Nat.eqb_refl. eauto. }
  destruct Herr as [e He]. unfold splitHostPort. rewrite He, Hlen. simpl (Nat.eqb _ 0).
  rewrite bool_decide_true by done. replace (S (S (slen host)) - 1)%nat with (S (slen host)) by lia.
  rewrite bool_decide_true by (unfold hp; simpl; by rewrite String_get_app). simpl. f_equal.
  unfold slice, hp. simpl. rewrite Nat.sub_0_r. apply str_take_app.
Qed.

(** ** Properties *)

(** The URL of a request for a resource of the server. *)
Definition origin_form (u : URL) : Prop :=
  u_Opaque u = "" /\ u_User u = None /\ u_Fragment u = "" /\ HasPrefix (EscapedPath u) "/" = true.

(** The forms of the address that a request names a host by. *)
Definition names_host (reqhost host : string) : Prop :=
  (exists p, no_brackets p /\ has_byte p COLON = false /\ reqhost = JoinHostPort host p) \/
  (reqhost = host /\ has_byte host COLON = false) \/ reqhost = String LBRACK (host +:+ String RBRACK "").

Lemma splitHostPort_names reqhost host : no_brackets host -> names_host reqhost host -> (splitHostPort reqhost).1 = host.
Proof.
  intros Hh [(p & H1 & H2 & ->)| [ [-> Hc]| -> ]].
  - by rewrite splitHostPort_join.
  - by rewrite splitHostPort_plain.
  - by rewrite splitHostPort_ipv6.
Qed.

Lemma JoinHostPort_bytes host port :
  str_forallb host_byte host = true -> str_forallb host_byte port = true -> str_forallb host_byte (JoinHostPort host port) = true.
Proof.
  intros Hh Hp. unfold JoinHostPort. case_match; unfold str_forallb in *; simpl;
    rewrite list_ascii_app, forallb_app, Hh; simpl; by rewrite Hp.
Qed.

Lemma eqb_0_empty s (x y : string) : (if Nat.eqb (slen s) 0 then x else y) = if bool_decide (s = "") then x else y.
Proof.
  destruct (Nat.eqb_spec (slen s) 0) as [H|H]; rewrite slen_zero in H; [by rewrite bool_decide_true|by rewrite bool_decide_false].
Qed.

(** The URL that [RedirectToHTTPSPort] redirects to. *)
Lemma https_target u authority :
  origin_form u -> authority <> "" -> str_forallb host_byte authority = true ->
  URL_String (set_Scheme (set_Host u authority) "https") =
    "https://" +:+ authority +:+ EscapedPath u +:+ (if u_ForceQuery u || nonempty (u_RawQuery u) then "?" +:+ u_RawQuery u else "").
Proof.
  intros (Ho & Hu & Hf & Hp) Ha Hb. rewrite URL_String_host by done. simpl. by rewrite escape_host.
Qed.

Lemma absolute_location ip oldpath sch authority path q :
  str_forallb letter sch = true -> sch <> "" -> str_forallb ascii_byte sch = true ->
  str_forallb ascii_byte authority = true -> str_forallb ascii_byte path = true ->
  hexEscapeNonASCII (redirect_target ip oldpath (sch +:+ "://" +:+ authority +:+ path +:+ q)) =
    sch +:+ "://" +:+ authority +:+ path +:+ hexEscapeNonASCII q.
Proof.
  intros Hl Hne Hs Ha Hp. pose proof (redirect_absolute ip oldpath sch ("//" +:+ authority +:+ path +:+ q) Hl Hne) as HR.
  change (String COLON ("//" +:+ authority +:+ path +:+ q)) with ("://" +:+ authority +:+ path +:+ q) in HR. rewrite HR.
  by rewrite !hexEscape_app, (hexEscape_ascii sch), (hexEscape_ascii authority), (hexEscape_ascii path) by done.
Qed.

(** The escaped path of an origin form starts with the slash of its path. *)
Lemma rooted_path u : HasPrefix (EscapedPath u) "/" = true -> HasPrefix (u_Path u) "/" = true.
Proof.
  intros [t Ht]%HasPrefix_spec. pose proof (EscapedPath_unescape u) as HE. rewrite Ht in HE.
  change ("/" +:+ t) with (String "/" t) in HE. cbn [unescape] in HE.
  rewrite bool_decide_false in HE by done. rewrite bool_decide_false in HE by done. cbn [andb] in HE.
  rewrite (bool_decide_false (encodePath ∈ _)) in HE by set_solver. cbn [andb] in HE.
  destruct (unescape t encodePath) as [p|]; [|done]. injection HE as <-. done.
Qed.

(** Challenges: 307, to the same path on the host of the ACME client, with
    neither the port nor the query of the request. *)
Lemma RedirectAcmeHTTP01_target ip host req w :
  host <> "" -> str_forallb host_byte host = true -> HasPrefix (r_Path req) "/" = true -> fresh w ->
  exists path w' record,
    Redirect_Handler ip (RedirectAcmeHTTP01 host) w req = Ret (w', Some record) /\
    final_status w' = StatusTemporaryRedirect /\
    Header_Get (final_header w') "Location" = "http://" +:+ host +:+ path /\ unescape path encodePath = Ok (r_Path req).
Proof.
  intros Hne Hb Hp Hf. set (u := mkURL "http" "" None host (r_Path req) "" false "" "" "" false).
  assert (Hu : URL_String u = "http" +:+ "://" +:+ host +:+ EscapedPath u +:+ "").
  { rewrite URL_String_host; [|done..|].
    - unfold u at 2 3. cbn [u_Scheme u_Host u_ForceQuery u_RawQuery nonempty orb]. by rewrite escape_host.
    - unfold u, EscapedPath. cbn [u_Path u_RawPath]. change (escaped _ "" encodePath) with (@None string).
      apply HasPrefix_spec in Hp as [t ->]. by rewrite bool_decide_false. }
  unfold Redirect_Handler. cbn [Target RedirectAcmeHTTP01 mbind go_bind Log]. unfold challengeRewrite. fold u.
  eexists (EscapedPath u), _, _. split; [done|].
  destruct (http_Redirect_fresh ip w req (URL_String u) StatusTemporaryRedirect Hf ltac:(done)) as [Hs Hl].
  split_and!; [exact Hs| |apply EscapedPath_unescape]. rewrite Hl, Hu.
  rewrite absolute_location by (done || apply EscapedPath_ascii || by apply host_byte_ascii).
  change (hexEscapeNonASCII "") with "". by rewrite app_empty_r.
Qed.

(** Redirects to HTTPS: a request addressed to a host, with or without a port
    and in brackets when it is an IPv6 address, is answered 301 with the URL of
    scheme https whose authority parses back to that host and to the configured
    port (443 if none is configured), whose path unescapes to the path of the
    request, and whose query is that of the request; the host of the configured
    address is only used for a request without host. *)
Lemma RedirectToHTTPSPort_target ip ahost aport addr host req w :
  no_brackets ahost -> no_brackets aport -> has_byte aport COLON = false -> no_brackets host ->
  str_forallb host_byte ahost = true -> str_forallb host_byte aport = true -> str_forallb host_byte host = true ->
  (addr = JoinHostPort ahost aport \/ addr = ahost /\ aport = "" /\ has_byte ahost COLON = false) ->
  names_host (r_Host req) host -> origin_form (r_URL req) -> fresh w ->
  exists authority path w',
    Redirect_Handler ip (RedirectToHTTPSPort addr) w req = Ret (w', None) /\
    final_status w' = StatusMovedPermanently /\
    Header_Get (final_header w') "Location" = "https://" +:+ authority +:+ path +:+
      hexEscapeNonASCII (if u_ForceQuery (r_URL req) || nonempty (r_Query req) then "?" +:+ r_Query req else "") /\
    SplitHostPort authority = Ok (if bool_decide (host = "") then ahost else host,
                                  if bool_decide (aport = "") then "443" else aport) /\
    unescape path encodePath = Ok (r_Path req).
Proof.
  intros Ha Hp Hpc Hh Hab Hpb Hhb Haddr Hreq Hu Hf.
  assert (HA : splitHostPort addr = (ahost, aport)).
  { destruct Haddr as [->|(-> & -> & Hc)]; [by apply splitHostPort_join|by apply splitHostPort_plain]. }
  pose proof (splitHostPort_names _ _ Hh Hreq) as HR. unfold Redirect_Handler, RedirectToHTTPSPort. rewrite HA. simpl.
  destruct (splitHostPort (r_Host req)) as [h p]. simpl in HR. subst h. rewrite !eqb_0_empty.
  set (name := if bool_decide (host = "") then ahost else host). set (port := if bool_decide (aport = "") then "443" else aport).
  assert (Hj : SplitHostPort (JoinHostPort name port) = Ok (name, port)).
  { apply Split_JoinHostPort; unfold name, port; repeat case_bool_decide; done. }
  assert (Hb : str_forallb host_byte (JoinHostPort name port) = true).
  { apply JoinHostPort_bytes; unfold name, port; repeat case_bool_decide; done. }
  rewrite https_target by (done || (intros He; by rewrite He in Hj)).
  eexists (JoinHostPort name port), (EscapedPath (r_URL req)), _. split; [done|].
  match goal with |- context [http_Redirect ip w req ?t _] => destruct (http_Redirect_fresh ip w req t StatusMovedPermanently Hf ltac:(done)) as [Hs Hl] end.
  split_and!; [exact Hs| |done|apply EscapedPath_unescape]. rewrite Hl.
  change ("https://" +:+ ?x) with ("https" +:+ "://" +:+ x).
  by rewrite absolute_location by (done || apply EscapedPath_ascii || by apply host_byte_ascii).
Qed.
