(* ===== verification/IPACL.v ===== *)
(** * ipacl: access control by client address

Models [allow.go] and [private.go].  Addresses and prefixes of net/netip, the
parser of [cloudeng.io/net/netutil] and the prefix table of
[github.com/gaissmai/bart] are the interface [Netip] with the laws
[TableLaws]. *)

From S2P Require Import Prelude GoStrings GoErrors GoHTTP GoNet.

Class Netip (Addr Prefix Table : Type) := {
  ParseAddr : string -> res Addr;
  ParseAddrPort : string -> res (Addr * N);
  ParsePrefix : string -> res Prefix;
  prefix_Addr : Prefix -> Addr;
  IsPrivate : Addr -> bool;
  IsLoopback : Addr -> bool;
  ParseAddrOrPrefix : string -> res Prefix;
  table_empty : Table;
  table_Insert : Table -> Prefix -> Table;
  table_Contains : Table -> Addr -> bool
}.

(** Documented behaviour of the table: an address is contained when one of the
    inserted prefixes contains it. *)
Class TableLaws `{Netip} (prefix_contains : Prefix -> Addr -> bool) := {
  contains_empty : forall ip, table_Contains table_empty ip = false;
  contains_insert : forall t p ip, table_Contains (table_Insert t p) ip = prefix_contains p ip || table_Contains t ip
}.

(** A counter that may be nil; calling it appends its name to the log. *)
Abbreviation counter := (option string).

Definition inc (c : counter) (log : list string) : go (list string) :=
  match c with None => Panic NilDereference | Some n => Ret (log ++ [n]) end.

Definition noopCounter : counter := Some "noop".

Section ipacl.
Context {Addr Prefix Table : Type} `{NI : !Netip Addr Prefix Table}.

Record ACL := mkACL { acl : Table }.

(** The loop of [NewACL]. *)
Fixpoint insert_all (addrs : list string) (t : Table) : res Table :=
  match addrs with
  | [] => Ok t
  | addr :: addrs' =>
      match ParseAddrOrPrefix addr with
      | Err e => Err e
      | Ok p => insert_all addrs' (table_Insert t p)
      end
  end.

Definition NewACL (addrs : list string) : res ACL :=
  if Nat.eqb (length addrs) 0 then Err (errors_New "no addresses provided")
  else match insert_all addrs table_empty with
       | Err e => Err e
       | Ok t => Ok (mkACL t)
       end.

Definition ACL_Contains (a : ACL) (ip : Addr) : bool := table_Contains (acl a) ip.

(** An [AddressExtractor] returns the text it looked at and the address. *)
Abbreviation AddressExtractor := (Request -> string * res Addr).

Definition parseOptionalPort (addr : string) : res Addr :=
  match ParseAddrPort addr with
  | Ok (a, _) => Ok a
  | Err _ => ParseAddr addr
  end.

Definition RemoteAddrExtractor : AddressExtractor := fun r =>
  (r_RemoteAddr r, parseOptionalPort (r_RemoteAddr r)).

Definition XForwardedForExtractor : AddressExtractor := fun r =>
  let xf := Header_Get (r_Header r) "X-Forwarded-For" in
  if bool_decide (xf = "") then ("", Err (errors_New "X-Forwarded-For header is empty"))
  else
    let parts := Split xf "," in
    let clientIP := TrimSpace (match parts with p :: _ => p | [] => "" end) in
    (clientIP, parseOptionalPort clientIP).

Record options := mkOptions {
  o_extractor : option AddressExtractor;
  o_deniedCounter : counter;
  o_notAllowedCounter : counter;
  o_errorCounter : counter
}.

Definition WithAddressExtractor (e : option AddressExtractor) : options -> options := fun o =>
  mkOptions e (o_deniedCounter o) (o_notAllowedCounter o) (o_errorCounter o).

Definition WithCounters (denied notAllowed error : counter) : options -> options := fun o =>
  mkOptions (o_extractor o) denied notAllowed error.

(** [aclHandler] and [SkipHandler]: the extractor is set. *)
Record aclHandler := mkHandler {
  h_extractor : AddressExtractor;
  h_opts : options;
  h_allowed : Addr -> bool;
  h_denied : Addr -> bool
}.

Definition apply_options (opts : list (options -> options)) : options :=
  fold_left (fun o opt => opt o) opts (mkOptions None noopCounter noopCounter noopCounter).

Definition NewHandler (allow deny : option (Addr -> bool)) (opts : list (options -> options)) : aclHandler :=
  let allow := match allow with None => fun _ => true | Some f => f end in
  let deny := match deny with None => fun _ => false | Some f => f end in
  let o := apply_options opts in
  mkHandler (match o_extractor o with None => RemoteAddrExtractor | Some e => e end) o allow deny.

(** [NewSkipHandler] has the same body for a [SkipHandler]. *)
Definition NewSkipHandler (allow deny : option (Addr -> bool)) (opts : list (options -> options)) : aclHandler :=
  let allow := match allow with None => fun _ => true | Some f => f end in
  let deny := match deny with None => fun _ => false | Some f => f end in
  let o := apply_options opts in
  mkHandler (match o_extractor o with None => RemoteAddrExtractor | Some e => e end) o allow deny.

(** [handler] is the wrapped handler. *)
Definition ServeHTTP (h : aclHandler) (handler : rw -> rw) (r : Request) (w : rw) (log : list string)
  : go (rw * list string) :=
  let '(clientIP, ip) := h_extractor h r in
  match ip with
  | Err _ =>
      log ← inc (o_errorCounter (h_opts h)) log;
      Ret (http_Error "forbidden" StatusForbidden w, log)
  | Ok ip =>
      let forbidden := false in
      st ← (if h_denied h ip then
              log ← inc (o_deniedCounter (h_opts h)) log; Ret (true, log)
            else Ret (forbidden, log));
      let '(forbidden, log) := st in
      st ← (if negb forbidden && negb (h_allowed h ip) then
              log ← inc (o_notAllowedCounter (h_opts h)) log; Ret (true, log)
            else Ret (forbidden, log));
      let '(forbidden, log) := st in
      if (forbidden : bool) then Ret (http_Error "forbidden" StatusForbidden w, log)
      else Ret (handler w, log)
  end.

Definition Skip (h : aclHandler) (r : Request) (log : list string) : go (bool * list string) :=
  let '(clientIP, ip) := h_extractor h r in
  match ip with
  | Err _ => log ← inc (o_errorCounter (h_opts h)) log; Ret (false, log)
  | Ok ip =>
      if h_denied h ip then log ← inc (o_deniedCounter (h_opts h)) log; Ret (true, log)
      else if negb (h_allowed h ip) then log ← inc (o_notAllowedCounter (h_opts h)) log; Ret (true, log)
      else Ret (false, log)
  end.

Record Config := mkConfig { Addresses : list string; Direct : bool; Proxy : bool }.

Definition Config_NewACL (c : Config) : res ACL := NewACL (Addresses c).

Definition Config_AddressExtractor (c : Config) : res AddressExtractor :=
  if Direct c && Proxy c then Err (errors_New "both direct and proxy are set")
  else if Direct c then Ok RemoteAddrExtractor
  else if Proxy c then Ok XForwardedForExtractor
  else Err (errors_New "neither direct nor proxy is set").

(** ** private.go *)

Definition IsPrivateIP (ipStr : string) : bool :=
  let cleaned :=
    if Nat.ltb 1 (slen ipStr) && bool_decide (String.get 0 ipStr = Some LBRACK)
       && bool_decide (String.get (slen ipStr - 1) ipStr = Some RBRACK)
    then slice ipStr 1 (slen ipStr - 1) else ipStr in
  let cleaned := match SplitHostPort cleaned with Ok (host, _) => host | Err _ => cleaned end in
  match ParsePrefix cleaned with
  | Ok prefix => IsPrivate (prefix_Addr prefix) || IsLoopback (prefix_Addr prefix)
  | Err _ =>
      match ParseAddr cleaned with
      | Err _ => false
      | Ok addr => IsPrivate addr || IsLoopback addr
      end
  end.

Fixpoint private_loop (addrs : list string) (t : Table) : res Table :=
  match addrs with
  | [] => Ok t
  | addr :: addrs' =>
      if negb (IsPrivateIP addr) then Err (Errorf "address %q is not a private IP address" [addr] [])
      else match ParseAddrOrPrefix addr with
           | Err e => Err e
           | Ok p => private_loop addrs' (table_Insert t p)
           end
  end.

Definition NewPrivateSubnet (addrs : list string) : res ACL :=
  match private_loop addrs table_empty with Err e => Err e | Ok t => Ok (mkACL t) end.

Definition PrivateSubnet_Contains (ps : ACL) (addr : string) : bool :=
  match parseOptionalPort addr with
  | Err _ => false
  | Ok ip => table_Contains (acl ps) ip
  end.

(** ** Lemmas *)
Context (prefix_contains : Prefix -> Addr -> bool) `{TL : !TableLaws prefix_contains}.

(** The prefixes that the addresses of a list denote. *)
Definition denoted (addrs : list string) (ps : list Prefix) : Prop :=
  Forall2 (fun a p => ParseAddrOrPrefix a = Ok p) addrs ps.

Lemma insert_all_Ok addrs t t' :
  insert_all addrs t = Ok t' <->
  exists ps, denoted addrs ps /\ t' = fold_left table_Insert ps t.
Proof.
  revert t. induction addrs as [|a addrs IH]; intros t; simpl.
  - split; [intros [= <-]; exists []; by split; [constructor|]|]. intros (ps & HF & ->). by inversion HF.
  - destruct (ParseAddrOrPrefix a) as [p|] eqn:E.
    + rewrite IH. split.
      * intros (ps & HF & ->). exists (p :: ps). split; [by constructor|done].
      * intros (ps & HF & ->). inversion HF as [|?? p' ps' Hp HF']; subst. rewrite E in Hp. injection Hp as ->.
        by exists ps'.
    + split; [done|]. intros (ps & HF & _). inversion HF. congruence.
Qed.

Lemma Contains_fold ps t ip :
  table_Contains (fold_left table_Insert ps t) ip = existsb (fun p => prefix_contains p ip) ps || table_Contains t ip.
Proof.
  revert t. induction ps as [|p ps IH]; intros t; simpl; [done|]. rewrite IH, contains_insert.
  by destruct (prefix_contains p ip), (existsb _ ps).
Qed.

Lemma private_loop_Ok addrs t t' :
  private_loop addrs t = Ok t' <->
  Forall (fun a => IsPrivateIP a = true) addrs /\ insert_all addrs t = Ok t'.
Proof.
  revert t. induction addrs as [|a addrs IH]; intros t; simpl; [by split; [intros ?|intros [_ ?]]|].
  destruct (IsPrivateIP a) eqn:E; simpl.
  - destruct (ParseAddrOrPrefix a) as [p|].
    + rewrite IH. split; [intros [HF ?]; split; [by constructor|done]|]. intros [HF ?]. by inversion HF.
    + split; [done|by intros [_ ?]].
  - split; [done|]. intros [HF _]. inversion HF. congruence.
Qed.

End ipacl.
#[global] Arguments options Addr : clear implicits.
#[global] Arguments aclHandler Addr : clear implicits.
#[global] Arguments ACL Table : clear implicits.

(** ** Properties *)

(** C34 Access control: for a handler built from two lists of addresses, with
    any extractor and counters, a request reaches the wrapped handler exactly
    when its address can be extracted, none of the denied prefixes contains it
    and one of the allowed ones does. Otherwise it is answered 403 and exactly
    one counter is called: the error, the denied or the not-allowed one, the
    deny list taking precedence; and a skip handler skips exactly the requests
    with an address that the handler refuses. *)
Theorem acl_handler_decides {Addr Prefix Table} `{NI : !Netip Addr Prefix Table}
    (prefix_contains : Prefix -> Addr -> bool) `{TL : !TableLaws prefix_contains}
    allow_addrs deny_addrs (allow deny : ACL Table) extractor denied notAllowed error handler r w log :
  NewACL allow_addrs = Ok allow -> NewACL deny_addrs = Ok deny ->
  let opts := [WithAddressExtractor (Some extractor);
               WithCounters (Some denied) (Some notAllowed) (Some error)] in
  let h := NewHandler (Some (ACL_Contains allow)) (Some (ACL_Contains deny)) opts in
  let sh := NewSkipHandler (Some (ACL_Contains allow)) (Some (ACL_Contains deny)) opts in
  let forbidden := http_Error "forbidden" StatusForbidden w in
  exists allow_ps deny_ps, denoted allow_addrs allow_ps /\ denoted deny_addrs deny_ps /\
    match (extractor r).2 with
    | Err _ =>
        ServeHTTP h handler r w log = Ret (forbidden, log ++ [error]) /\
        Skip sh r log = Ret (false, log ++ [error])
    | Ok ip =>
        let in_deny := existsb (fun p => prefix_contains p ip) deny_ps in
        let in_allow := existsb (fun p => prefix_contains p ip) allow_ps in
        let log' := if in_deny then log ++ [denied] else if in_allow then log else log ++ [notAllowed] in
        ServeHTTP h handler r w log
          = Ret (if negb in_deny && in_allow then handler w else forbidden, log') /\
        Skip sh r log = Ret (negb (negb in_deny && in_allow), log')
    end.
Proof.
  unfold NewACL. intros HA HD. destruct (Nat.eqb (length allow_addrs) 0); [done|].
  destruct (Nat.eqb (length deny_addrs) 0); [done|].
  destruct (insert_all allow_addrs table_empty) as [ta|] eqn:EA; [|done].
  destruct (insert_all deny_addrs table_empty) as [td|] eqn:ED; [|done]. simplify_eq.
  apply insert_all_Ok in EA as (pa & HFA & ->). apply insert_all_Ok in ED as (pd & HFD & ->).
  exists pa, pd. split; [done|]. split; [done|]. unfold ServeHTTP, Skip. simpl.
  destruct (extractor r) as [text [ip|]]; simpl; [|done]. unfold ACL_Contains. simpl.
  rewrite !(Contains_fold prefix_contains), !contains_empty, !orb_false_r.
  destruct (existsb _ pd), (existsb _ pa); done.
Qed.

(** ** A model of the interface: an address is its text and a prefix the leading
    characters of the addresses it contains. *)
Module ToyNetip.

#[global] Instance toy : Netip string string (list string) := {|
  ParseAddr := fun s => if bool_decide (s = "") then Err (errors_New "unable to parse IP") else Ok s;
  ParseAddrPort := fun s => match SplitHostPort s with Ok (h, _) => Ok (h, 80%N) | Err e => Err e end;
  ParsePrefix := fun s => match Cut s "/" with Some (a, _) => Ok a | None => Err (errors_New "no '/'") end;
  prefix_Addr := fun p => p;
  IsPrivate := fun a => HasPrefix a "10.";
  IsLoopback := fun a => HasPrefix a "127.";
  ParseAddrOrPrefix := fun s => match Cut s "/" with Some (a, _) => Ok a | None => Ok s end;
  table_empty := [];
  table_Insert := fun t p => p :: t;
  table_Contains := fun t ip => existsb (fun p => HasPrefix ip p) t
|}.

#[global] Instance toy_laws : TableLaws (H := toy) (fun p ip => HasPrefix ip p).
Proof. by constructor. Qed.

Definition request (addr : string) : Request :=
  mkRequest "GET" "/" "" "" "localhost" ∅ [] addr 0 None None.

End ToyNetip.

Lemma acl_handler_decides_witness :
  NewACL ["10.1./16"] = Ok (mkACL ["10.1."]) /\
  Skip (NewSkipHandler (Some (ACL_Contains (mkACL ["10.1."]))) (Some (ACL_Contains (mkACL ["10.1.2."])))
      [WithAddressExtractor (Some RemoteAddrExtractor); WithCounters (Some "denied") (Some "not_allowed") (Some "error")])
    (ToyNetip.request "10.1.2.3:80") [] = Ret (true, ["denied"]).
Proof.
  split; [reflexivity|].
  destruct (acl_handler_decides (NI := ToyNetip.toy) (fun p ip => HasPrefix ip p) ["10.1./16"] ["10.1.2./24"] (mkACL ["10.1."])
    (mkACL ["10.1.2."]) RemoteAddrExtractor "denied" "not_allowed" "error" id (ToyNetip.request "10.1.2.3:80")
    new_rw [] eq_refl eq_refl) as (pa & pd & HFA & HFD & H).
  inversion HFA as [|? a ? ? Ha HFA']; subst. inversion HFA'; subst.
  inversion HFD as [|? d ? ? Hd HFD']; subst. inversion HFD'; subst.
  injection Ha as <-. injection Hd as <-. exact (proj2 H).
Defined.
