(* ===== verification/PrivateNets.v ===== *)
(** * IPv4 addresses, private subnets and mapped addresses

The interface of [IPACL] for IPv4: the parsers of [net/netip] for dotted
addresses and prefixes, and for the IPv6 form that IPv4 addresses are mapped to
(other IPv6 addresses are left out), with the blocks that are private.  What
[ipacl/private.go] accepts as a private subnet, and what access lists make of a
mapped address, is stated for them. *)

From S2P Require Import Prelude GoStrings GoErrors GoHTTP GoNet GoURL GoEncoding IPACL.

Local Open Scope N_scope.

(** ** net/netip *)

(** An address, and one that is mapped to IPv6. *)
Inductive addr := V4 (ip : N) | V4In6 (ip : N).

(** An address and the number of leading bits. *)
Record prefix := mkPrefix { p_addr : N; p_bits : N }.

(** A field of a dotted address: no leading zeros, at most 255. *)
Definition octet (s : string) : option N :=
  if Nat.ltb 1 (slen s) && HasPrefix s "0" then None else ParseUint s 10 8.

Definition parse4 (s : string) : option N :=
  match map octet (split_byte "."%char s) with
  | [Some a; Some b; Some c; Some d] => Some (((a * 256 + b) * 256 + c) * 256 + d)
  | _ => None
  end.

Definition parse_addr (s : string) : res addr :=
  match parse4 s with
  | Some ip => Ok (V4 ip)
  | None =>
      match CutPrefix s "::ffff:" with
      | Some s' => match parse4 s' with Some ip => Ok (V4In6 ip) | None => Err (errors_New "unable to parse IP") end
      | None => Err (errors_New "unable to parse IP")
      end
  end.

(** The bits after the slash: no leading zeros, at most 32. *)
Definition parse_bits (s : string) : option N :=
  if Nat.ltb 1 (slen s) && HasPrefix s "0" then None
  else match ParseUint s 10 8 with Some b => if b <=? 32 then Some b else None | None => None end.

Definition parse_prefix (s : string) : res prefix :=
  match Cut s "/" with
  | None => Err (errors_New "no '/'")
  | Some (a, b) =>
      match parse4 a, parse_bits b with
      | Some a, Some b => Ok (mkPrefix a b)
      | _, _ => Err (errors_New "bad prefix")
      end
  end.

(** The same leading bits. A mapped address is in no IPv4 prefix. *)
Definition in_prefix (p : prefix) (a : addr) : bool :=
  match a with
  | V4 ip => N.shiftr ip (32 - p_bits p) =? N.shiftr (p_addr p) (32 - p_bits p)
  | V4In6 _ => false
  end.

(** 10.0.0.0/8, 172.16.0.0/12, 192.168.0.0/16; and 127.0.0.0/8. *)
Definition private4 (ip : N) : bool :=
  (N.shiftr ip 24 =? 10) || (N.shiftr ip 20 =? 2753) || (N.shiftr ip 16 =? 49320).
Definition loopback4 (ip : N) : bool := N.shiftr ip 24 =? 127.

(** The methods unmap an address. *)
Definition unmapped (a : addr) : N := match a with V4 ip | V4In6 ip => ip end.

#[global] Instance netip4 : Netip addr prefix (list prefix) := {|
  ParseAddr := parse_addr;
  ParseAddrPort := fun s =>
    match SplitHostPort s with
    | Err e => Err e
    | Ok (h, port) =>
        match parse_addr h, ParseUint port 10 16 with
        | Ok (V4 ip), Some p => if HasPrefix s "[" then Err (errors_New "brackets") else Ok (V4 ip, p)
        | Ok (V4In6 ip), Some p => Ok (V4In6 ip, p)
        | _, _ => Err (errors_New "invalid ip:port")
        end
    end;
  ParsePrefix := parse_prefix;
  prefix_Addr := fun p => V4 (p_addr p);
  IsPrivate := fun a => private4 (unmapped a);
  IsLoopback := fun a => loopback4 (unmapped a);
  ParseAddrOrPrefix := fun s =>
    match parse_prefix s with
    | Ok p => Ok p
    | Err _ => match parse4 s with Some a => Ok (mkPrefix a 32) | None => Err (errors_New "neither an address nor a prefix") end
    end;
  table_empty := [];
  table_Insert := fun t p => p :: t;
  table_Contains := fun t ip => existsb (fun p => in_prefix p ip) t
|}.

#[global] Instance netip4_laws : TableLaws (H := netip4) in_prefix.
Proof. by constructor. Qed.

(** ** What is written in an address *)

Definition dotted (c : ascii) : bool := ((48 <=? N_of_ascii c) && (N_of_ascii c <=? 57)) || bool_decide (c ∈ ["."; "/"]%char).

Lemma parse_digits_dotted s acc v : parse_digits 10 s acc = Some v -> str_forallb dotted s = true.
Proof.
  unfold str_forallb. revert acc. induction s as [|c s IH]; intros acc; [done|]. cbn [parse_digits String.list_ascii_of_string forallb].
  destruct (digit_val c) as [d|] eqn:E; [|done]. destruct (N.ltb_spec d 10) as [Hd|]; [|done]. intros H%IH. rewrite H, andb_true_r.
  unfold digit_val in E. unfold dotted. destruct ((48 <=? N_of_ascii c) && (N_of_ascii c <=? 57)) eqn:Ed; [done|].
  repeat case_match; simplify_eq;
    repeat match goal with H : (_ && _) = true |- _ => apply andb_true_iff in H as [?%N.leb_le ?%N.leb_le] end; lia.
Qed.

Lemma ParseUint_dotted s bits v : ParseUint s 10 bits = Some v -> str_forallb dotted s = true.
Proof.
  unfold ParseUint. case_bool_decide; [done|]. destruct (parse_digits 10 s 0) eqn:E; [|done]. intros _.
  by eapply parse_digits_dotted.
Qed.

Lemma octet_dotted s v : octet s = Some v -> str_forallb dotted s = true.
Proof. unfold octet. case_match; [done|]. apply ParseUint_dotted. Qed.

Lemma split_dotted s : Forall (fun e => str_forallb dotted e = true) (split_byte "."%char s) -> str_forallb dotted s = true.
Proof.
  rewrite <- Split_split_byte. rewrite <- (Join_Split s ".") at 2 by done. generalize (Split s "."). intros l.
  induction 1 as [|e l He HF IH]; [done|]. destruct l as [|e' l]; [done|].
  rewrite Join_cons by done. by rewrite !str_forallb_app, He, IH.
Qed.

Lemma parse4_dotted s v : parse4 s = Some v -> str_forallb dotted s = true.
Proof.
  intros H. apply split_dotted. unfold parse4 in H. destruct (split_byte "."%char s) as [|a [|b [|c [|d [|]]]]]; try done; simpl in H.
  - by destruct (octet a).
  - by destruct (octet a), (octet b).
  - by destruct (octet a), (octet b), (octet c).
  - destruct (octet a) eqn:Ea, (octet b) eqn:Eb, (octet c) eqn:Ec, (octet d) eqn:Ed; try done.
    repeat constructor; by eapply octet_dotted.
  - by destruct (octet a), (octet b), (octet c), (octet d).
Qed.

(** The value of a dotted address has 32 bits. *)
Lemma octet_bound s v : octet s = Some v -> v < 256.
Proof.
  unfold octet, ParseUint. case_match; [done|]. case_bool_decide; [done|]. destruct (parse_digits _ _ _); [|done].
  destruct (N.ltb_spec n (2 ^ 8)); [|done]. by intros [= <-].
Qed.

Lemma dotted_without s c : str_forallb dotted s = true -> dotted c = false -> has_byte s c = false.
Proof.
  intros Hd Hc. unfold has_byte. induction s as [|x s IH]; [done|]. unfold str_forallb in Hd. simpl in Hd.
  apply andb_true_iff in Hd as [Hx Hd]. simpl. rewrite bool_decide_false by (intros ->; congruence).
  specialize (IH Hd). by destruct (IndexByte s c).
Qed.

(** [IsPrivateIP] looks at the address of a prefix only. *)
Lemma IsPrivateIP_prefix s p :
  ParseAddrOrPrefix (Netip := netip4) s = Ok p ->
  IsPrivateIP (NI := netip4) s = private4 (p_addr p) || loopback4 (p_addr p).
Proof.
  intros Hp. unfold ParseAddrOrPrefix, netip4 in Hp. assert (Hd : str_forallb dotted s = true).
  { unfold parse_prefix in Hp. destruct (Cut s "/") as [[a b]|] eqn:Ec.
    - apply Cut_Some in Ec. subst s. destruct (parse4 a) as [va|] eqn:Ea.
      + destruct (parse_bits b) as [vb|] eqn:Eb.
        * rewrite !str_forallb_app, (parse4_dotted _ _ Ea). unfold parse_bits in Eb. case_match; [done|].
          destruct (ParseUint b 10 8) eqn:E; [|done]. by rewrite (ParseUint_dotted _ _ _ E).
        * destruct (parse4 (a +:+ "/" +:+ b)) eqn:E; [|done]. by eapply parse4_dotted.
      + destruct (parse4 (a +:+ "/" +:+ b)) eqn:E; [|done]. by eapply parse4_dotted.
    - destruct (parse4 s) eqn:E; [|done]. by eapply parse4_dotted. }
  unfold IsPrivateIP. rewrite (bool_decide_false (String.get 0 s = Some LBRACK)), andb_false_r.
  2:{ destruct s as [|c s]; [done|]. intros [= ->]. by vm_compute in Hd. }
  cbn [andb]. destruct (SplitHostPort_no_colon s (dotted_without s COLON Hd eq_refl)) as [e ->].
  change (ParsePrefix s) with (parse_prefix s). change (ParseAddr s) with (parse_addr s).
  destruct (parse_prefix s) as [p'|]; [by injection Hp as ->|].
  unfold parse_addr. destruct (parse4 s) as [v|]; [|done]. by injection Hp as <-.
Qed.

Lemma parsed_bits s p : ParseAddrOrPrefix (Netip := netip4) s = Ok p -> p_bits p <= 32.
Proof.
  unfold ParseAddrOrPrefix, netip4, parse_prefix, parse_bits. intros H.
  repeat (case_match; simplify_eq/=); try lia.
  all: repeat match goal with H : (_ <=? _) = true |- _ => apply N.leb_le in H end; lia.
Qed.

(** ** Blocks of private addresses *)

(** The bits of the block that a private or loopback address is in. *)
Definition block_bits (ip : N) : N :=
  if N.shiftr ip 24 =? 10 then 8 else if N.shiftr ip 24 =? 127 then 8
  else if N.shiftr ip 20 =? 2753 then 12 else 16.

Definition local4 (ip : N) : bool := private4 ip || loopback4 ip.

Lemma local4_cases ip :
  local4 ip = true <-> N.shiftr ip 24 = 10 \/ N.shiftr ip 24 = 127 \/ N.shiftr ip 20 = 2753 \/ N.shiftr ip 16 = 49320.
Proof. unfold local4, private4, loopback4. rewrite !orb_true_iff, !N.eqb_eq. tauto. Qed.

(** Fewer bits are those of more bits. *)
Lemma shiftr_fewer a b m n : m <= n -> N.shiftr a m = N.shiftr b m -> N.shiftr a n = N.shiftr b n.
Proof. intros Hmn H. replace n with (m + (n - m)) by lia. by rewrite <- !N.shiftr_shiftr, H. Qed.

(** A prefix that is not shorter than the block has local addresses only. *)
Lemma long_prefix_local p ip :
  p_bits p <= 32 -> local4 (p_addr p) = true -> block_bits (p_addr p) <= p_bits p -> in_prefix p (V4 ip) = true -> local4 ip = true.
Proof.
  intros H32 Hl Hb Hin%N.eqb_eq. apply local4_cases in Hl. apply local4_cases. unfold block_bits in Hb.
  pose proof (fun n H => shiftr_fewer _ _ _ n H Hin) as Hs.
  destruct (N.eqb_spec (N.shiftr (p_addr p) 24) 10) as [E|N1]; [rewrite (Hs 24) by lia; tauto|].
  destruct (N.eqb_spec (N.shiftr (p_addr p) 24) 127) as [E|N2]; [rewrite (Hs 24) by lia; tauto|].
  destruct (N.eqb_spec (N.shiftr (p_addr p) 20) 2753) as [E|N3]; [rewrite (Hs 20) by lia; tauto|].
  rewrite (Hs 16) by lia. tauto.
Qed.

(** The address with the last bit of the block flipped. *)
Definition flipped (ip : N) : N := N.lxor ip (N.shiftl 1 (32 - block_bits ip)).

Lemma flipped_in_prefix p : p_bits p < block_bits (p_addr p) -> in_prefix p (V4 (flipped (p_addr p))) = true.
Proof.
  intros Hb. apply N.eqb_eq. unfold flipped. rewrite N.shiftr_lxor.
  assert (Hle : block_bits (p_addr p) <= 16) by (unfold block_bits; repeat case_match; lia).
  rewrite N.shiftr_shiftl_r by lia. replace (N.shiftr 1 _) with 0; [apply N.lxor_0_r|].
  symmetry. apply N.shiftr_eq_0. simpl. lia.
Qed.

Lemma flipped_high ip : let b := block_bits ip in N.shiftr (flipped ip) (32 - b) = N.lxor (N.shiftr ip (32 - b)) 1.
Proof. intros b. unfold flipped. fold b. rewrite N.shiftr_lxor, N.shiftr_shiftl_l by lia. by rewrite N.sub_diag. Qed.

Lemma shiftr_of a v m n : m <= n -> N.shiftr a m = v -> N.shiftr a n = N.shiftr v (n - m).
Proof. intros Hmn <-. rewrite N.shiftr_shiftr. f_equal. lia. Qed.

Lemma flipped_not_local ip : local4 ip = true -> local4 (flipped ip) = false.
Proof.
  intros Hl%local4_cases. apply not_true_iff_false. intros Hf%local4_cases. pose proof (flipped_high ip) as Hh. cbv zeta in Hh.
  set (f := flipped ip) in *. clearbody f. unfold block_bits in Hh.
  destruct (N.eqb_spec (N.shiftr ip 24) 10) as [E|N1]; [|destruct (N.eqb_spec (N.shiftr ip 24) 127) as [E|N2];
    [|destruct (N.eqb_spec (N.shiftr ip 20) 2753) as [E|N3]; [|destruct Hl as [E|[E|[E|E]]]; [done..|]]]].
  all: change (32 - 8) with 24 in Hh; change (32 - 12) with 20 in Hh; change (32 - 16) with 16 in Hh; rewrite E in Hh.
  all: pose proof (fun m n H => shiftr_of f _ m n H eq_refl) as Hs; destruct Hf as [F|[F|[F|F]]]; try (by rewrite F in Hh).
  all: try (specialize (Hs 20 24 ltac:(lia)); by rewrite F, Hh in Hs).
  all: try (specialize (Hs 16 24 ltac:(lia)); by rewrite F, Hh in Hs).
  all: specialize (Hs 16 20 ltac:(lia)); by rewrite F, Hh in Hs.
Qed.

(** ** Private subnets *)

(** C40 Private subnets of IPv4 addresses. [NewPrivateSubnet] looks only at the
    address of a prefix, not at its length: a subnet that it accepts contains
    private and loopback addresses only exactly when no prefix is shorter than the
    block its address is in; a shorter one, such as 10.0.0.0/7, is accepted and
    contains public addresses. *)
Theorem private_subnet_exact addrs ps :
  NewPrivateSubnet (NI := netip4) addrs = Ok ps ->
  exists prefixes, denoted (NI := netip4) addrs prefixes /\
    Forall (fun p => local4 (p_addr p) = true) prefixes /\
    (forall s ip, parseOptionalPort (NI := netip4) s = Ok ip ->
       PrivateSubnet_Contains ps s = existsb (fun p => in_prefix p ip) prefixes) /\
    ((forall ip, table_Contains (acl ps) (V4 ip) = true -> local4 ip = true) <->
     Forall (fun p => block_bits (p_addr p) <= p_bits p) prefixes).
Proof.
  unfold NewPrivateSubnet. destruct (private_loop addrs table_empty) as [t|] eqn:El; [|done]. intros [= <-].
  apply private_loop_Ok in El as [Hp (prefixes & Hd & ->)%insert_all_Ok].
  assert (Hc : forall ip, table_Contains (fold_left table_Insert prefixes table_empty) ip = existsb (fun p => in_prefix p ip) prefixes).
  { intros ip. rewrite (Contains_fold in_prefix). by rewrite orb_false_r. }
  assert (Hl : Forall (fun p => local4 (p_addr p) = true /\ p_bits p <= 32) prefixes).
  { clear Hc. revert Hp. induction Hd as [|a p addrs prefixes Ha Hd IH]; [constructor|]. intros [Hpa Hp]%Forall_cons.
    constructor; [|by apply IH]. split; [by rewrite (IsPrivateIP_prefix a p Ha) in Hpa|by eapply parsed_bits]. }
  exists prefixes. split; [done|]. split; [by eapply Forall_impl; [exact Hl|intros ? []]|].
  split; [intros s ip Hs; unfold PrivateSubnet_Contains; by rewrite Hs|].
  cbn [acl]. split.
  - intros H. apply Forall_forall. intros p Hin. destruct (N.le_gt_cases (block_bits (p_addr p)) (p_bits p)) as [|Hlt]; [done|].
    exfalso. rewrite Forall_forall in Hl. destruct (Hl p Hin) as [Hlo _].
    assert (local4 (flipped (p_addr p)) = true); [|by rewrite flipped_not_local in *].
    apply H. rewrite Hc. apply existsb_exists. exists p. split; [by apply list_elem_of_In|by apply flipped_in_prefix].
  - intros HF ip. rewrite Hc. intros (p & Hin%list_elem_of_In & Hip)%existsb_exists.
    rewrite Forall_forall in HF, Hl. destruct (Hl p Hin). eapply long_prefix_local; eauto.
Qed.

(** A prefix of seven bits, and an address that is in it and public. *)
Lemma private_subnet_exact_witness :
  exists ps, NewPrivateSubnet (NI := netip4) ["10.0.0.0/7"; "192.168.1.0/24"] = Ok ps /\
    PrivateSubnet_Contains ps "11.1.2.3:80" = true /\ local4 184615427 = false /\
    ~ (forall ip, table_Contains (acl ps) (V4 ip) = true -> local4 ip = true).
Proof.
  eexists. split; [vm_compute; reflexivity|]. split; [vm_compute; reflexivity|]. split; [vm_compute; reflexivity|].
  match goal with |- context [mkACL ?t] => destruct (private_subnet_exact ["10.0.0.0/7"; "192.168.1.0/24"] (mkACL t) ltac:(vm_compute; reflexivity))
    as (prefixes & Hd & _ & _ & Hiff) end.
  rewrite Hiff. inversion Hd as [|? p ? ? Hp _]; subst. vm_compute in Hp. injection Hp as <-.
  intros [H _]%Forall_cons. by vm_compute in H.
Defined.

(** ** Mapped addresses *)

(** An address list of IPv4 addresses and prefixes contains no mapped address,
    so that a denied client is not refused when the address it is known by, for
    example in the X-Forwarded-For header, is written in the mapped form. *)
Lemma mapped_not_denied allow_addrs deny_addrs (allow deny : ACL (list prefix)) denied notAllowed error handler r w log ip :
  NewACL (NI := netip4) allow_addrs = Ok allow -> NewACL (NI := netip4) deny_addrs = Ok deny ->
  (XForwardedForExtractor (NI := netip4) r).2 = Ok (V4In6 ip) ->
  let h allow := NewHandler allow (Some (ACL_Contains (NI := netip4) deny))
             [WithAddressExtractor (Some (XForwardedForExtractor (NI := netip4))); WithCounters (Some denied) (Some notAllowed) (Some error)] in
  ServeHTTP (h None) handler r w log = Ret (handler w, log) /\
  ServeHTTP (h (Some (ACL_Contains (NI := netip4) allow))) handler r w log = Ret (http_Error "forbidden" StatusForbidden w, log ++ [notAllowed]).
Proof.
  intros Ha Hd Hx h.
  assert (Hno : forall (a : ACL (list prefix)) addrs, NewACL (NI := netip4) addrs = Ok a -> ACL_Contains (NI := netip4) a (V4In6 ip) = false).
  { intros a addrs H. unfold NewACL in H. destruct (Nat.eqb _ 0); [done|]. destruct (insert_all addrs table_empty) as [t|] eqn:E; [|done].
    injection H as <-. apply insert_all_Ok in E as (ps & _ & ->). unfold ACL_Contains. cbn [acl].
    rewrite (Contains_fold in_prefix), contains_empty, orb_false_r. apply not_true_iff_false.
    by intros (p & _ & Hp)%existsb_exists. }
  unfold h, ServeHTTP. simpl. destruct (XForwardedForExtractor r) as [text [a|]]; simpl in Hx; [|done]. injection Hx as ->.
  pose proof (Hno deny deny_addrs Hd) as Hnd. pose proof (Hno allow allow_addrs Ha) as Hna. simpl in Hnd, Hna |- *.
  split; by rewrite Hnd, ?Hna.
Qed.
