(* ===== verification/TLSValidate.v ===== *)
(** * tlsvalidate: checking the TLS configuration of a host

Models [tls_validate.go].  The resolver, the dial and the handshake, regular expressions and
the reading of a PEM file are parameters; the handshakes run concurrently, so
the order in which they complete is an argument. *)

From S2P Require Import Prelude GoStrings GoEncoding Certs GoErrors GoNet.

(** The parts of [x509.Certificate] and [tls.ConnectionState] that are
    checked. *)
Record Certificate := mkCertificate {
  SerialNumber : option Z; SignatureAlgorithm : N; NotAfter : Z; Issuer : string
}.
Record ConnectionState := mkConnState { PeerCertificates : list Certificate; CipherSuite : N }.

Record tlsState := mkState { ts_host : string; ts_addr : string; ts_port : string; ts_state : ConnectionState }.

Record ErrValidator := mkErrValidator {
  ev_Host : string; ev_Addr : string; ev_Port : string; ev_Certificate : option Certificate; ev_Err : option error
}.

Definition ErrValidator_Error (e : ErrValidator) (text : error -> string) : string :=
  match ev_Err e with Some err => text err | None => "certificate validation failed" end.

Definition ErrValidator_Unwrap (e : ErrValidator) : option error := ev_Err e.

Section validate.
Context {Pool : Type}.

Record options := mkOptions {
  ipv4Only : bool;
  validFor : Z;
  issuerREs : list (string -> bool);
  expand : bool;
  rootCAs : option Pool;
  pemFile : string;
  checkSerial : bool;
  checkSignature : bool;
  checkCipherSuite : bool;
  tlsMinVer : N;
  ciphersuites : list N;
  allowedSignatureAlgorithms : list N;
  deniedSignatureAlgorithms : list N;
  deniedCipherSuites : list N;
  customDNSServer : string;
  logCertificateInfo : bool;
  checkZeroSerialNumbers : bool
}.

(** Setting one field, as each option does. *)
Definition WithIPv4Only (b : bool) (o : options) : options :=
  mkOptions b (validFor o) (issuerREs o) (expand o) (rootCAs o) (pemFile o) (checkSerial o) (checkSignature o)
    (checkCipherSuite o) (tlsMinVer o) (ciphersuites o) (allowedSignatureAlgorithms o)
    (deniedSignatureAlgorithms o) (deniedCipherSuites o) (customDNSServer o) (logCertificateInfo o)
    (checkZeroSerialNumbers o).
Definition WithValidForAtLeast (d : Z) (o : options) : options :=
  mkOptions (ipv4Only o) d (issuerREs o) (expand o) (rootCAs o) (pemFile o) (checkSerial o) (checkSignature o)
    (checkCipherSuite o) (tlsMinVer o) (ciphersuites o) (allowedSignatureAlgorithms o)
    (deniedSignatureAlgorithms o) (deniedCipherSuites o) (customDNSServer o) (logCertificateInfo o)
    (checkZeroSerialNumbers o).
Definition WithIssuerRegexps (exprs : list (string -> bool)) (o : options) : options :=
  mkOptions (ipv4Only o) (validFor o) exprs (expand o) (rootCAs o) (pemFile o) (checkSerial o) (checkSignature o)
    (checkCipherSuite o) (tlsMinVer o) (ciphersuites o) (allowedSignatureAlgorithms o)
    (deniedSignatureAlgorithms o) (deniedCipherSuites o) (customDNSServer o) (logCertificateInfo o)
    (checkZeroSerialNumbers o).
Definition WithExpandDNSNames (b : bool) (o : options) : options :=
  mkOptions (ipv4Only o) (validFor o) (issuerREs o) b (rootCAs o) (pemFile o) (checkSerial o) (checkSignature o)
    (checkCipherSuite o) (tlsMinVer o) (ciphersuites o) (allowedSignatureAlgorithms o)
    (deniedSignatureAlgorithms o) (deniedCipherSuites o) (customDNSServer o) (logCertificateInfo o)
    (checkZeroSerialNumbers o).
Definition WithRootCAs (p : option Pool) (o : options) : options :=
  mkOptions (ipv4Only o) (validFor o) (issuerREs o) (expand o) p (pemFile o) (checkSerial o) (checkSignature o)
    (checkCipherSuite o) (tlsMinVer o) (ciphersuites o) (allowedSignatureAlgorithms o)
    (deniedSignatureAlgorithms o) (deniedCipherSuites o) (customDNSServer o) (logCertificateInfo o)
    (checkZeroSerialNumbers o).
Definition WithCustomRootCAPEM (f : string) (o : options) : options :=
  mkOptions (ipv4Only o) (validFor o) (issuerREs o) (expand o) (rootCAs o) f (checkSerial o) (checkSignature o)
    (checkCipherSuite o) (tlsMinVer o) (ciphersuites o) (allowedSignatureAlgorithms o)
    (deniedSignatureAlgorithms o) (deniedCipherSuites o) (customDNSServer o) (logCertificateInfo o)
    (checkZeroSerialNumbers o).
Definition WithCheckSerialNumbers (b : bool) (o : options) : options :=
  mkOptions (ipv4Only o) (validFor o) (issuerREs o) (expand o) (rootCAs o) (pemFile o) b (checkSignature o)
    (checkCipherSuite o) (tlsMinVer o) (ciphersuites o) (allowedSignatureAlgorithms o)
    (deniedSignatureAlgorithms o) (deniedCipherSuites o) (customDNSServer o) (logCertificateInfo o)
    (checkZeroSerialNumbers o).
Definition WithCheckSignatureAlgorithm (b : bool) (o : options) : options :=
  mkOptions (ipv4Only o) (validFor o) (issuerREs o) (expand o) (rootCAs o) (pemFile o) (checkSerial o) b
    (checkCipherSuite o) (tlsMinVer o) (ciphersuites o) (allowedSignatureAlgorithms o)
    (deniedSignatureAlgorithms o) (deniedCipherSuites o) (customDNSServer o) (logCertificateInfo o)
    (checkZeroSerialNumbers o).
Definition WithCheckCipherSuites (b : bool) (o : options) : options :=
  mkOptions (ipv4Only o) (validFor o) (issuerREs o) (expand o) (rootCAs o) (pemFile o) (checkSerial o)
    (checkSignature o) b (tlsMinVer o) (ciphersuites o) (allowedSignatureAlgorithms o)
    (deniedSignatureAlgorithms o) (deniedCipherSuites o) (customDNSServer o) (logCertificateInfo o)
    (checkZeroSerialNumbers o).
Definition WithTLSMinVersion (v : N) (o : options) : options :=
  mkOptions (ipv4Only o) (validFor o) (issuerREs o) (expand o) (rootCAs o) (pemFile o) (checkSerial o)
    (checkSignature o) (checkCipherSuite o) v (ciphersuites o) (allowedSignatureAlgorithms o)
    (deniedSignatureAlgorithms o) (deniedCipherSuites o) (customDNSServer o) (logCertificateInfo o)
    (checkZeroSerialNumbers o).
Definition WithCiphersuites (l : list N) (o : options) : options :=
  mkOptions (ipv4Only o) (validFor o) (issuerREs o) (expand o) (rootCAs o) (pemFile o) (checkSerial o)
    (checkSignature o) (checkCipherSuite o) (tlsMinVer o) l (allowedSignatureAlgorithms o)
    (deniedSignatureAlgorithms o) (deniedCipherSuites o) (customDNSServer o) (logCertificateInfo o)
    (checkZeroSerialNumbers o).
Definition WithAllowedSignatureAlgorithms (l : list N) (o : options) : options :=
  mkOptions (ipv4Only o) (validFor o) (issuerREs o) (expand o) (rootCAs o) (pemFile o) (checkSerial o)
    (checkSignature o) (checkCipherSuite o) (tlsMinVer o) (ciphersuites o) l
    (deniedSignatureAlgorithms o) (deniedCipherSuites o) (customDNSServer o) (logCertificateInfo o)
    (checkZeroSerialNumbers o).
Definition WithDeniedSignatureAlgorithms (l : list N) (o : options) : options :=
  mkOptions (ipv4Only o) (validFor o) (issuerREs o) (expand o) (rootCAs o) (pemFile o) (checkSerial o)
    (checkSignature o) (checkCipherSuite o) (tlsMinVer o) (ciphersuites o) (allowedSignatureAlgorithms o)
    l (deniedCipherSuites o) (customDNSServer o) (logCertificateInfo o) (checkZeroSerialNumbers o).
Definition WithDeniedCipherSuites (l : list N) (o : options) : options :=
  mkOptions (ipv4Only o) (validFor o) (issuerREs o) (expand o) (rootCAs o) (pemFile o) (checkSerial o)
    (checkSignature o) (checkCipherSuite o) (tlsMinVer o) (ciphersuites o) (allowedSignatureAlgorithms o)
    (deniedSignatureAlgorithms o) l (customDNSServer o) (logCertificateInfo o) (checkZeroSerialNumbers o).
Definition WithCustomDNSServer (a : string) (o : options) : options :=
  mkOptions (ipv4Only o) (validFor o) (issuerREs o) (expand o) (rootCAs o) (pemFile o) (checkSerial o)
    (checkSignature o) (checkCipherSuite o) (tlsMinVer o) (ciphersuites o) (allowedSignatureAlgorithms o)
    (deniedSignatureAlgorithms o) (deniedCipherSuites o) a (logCertificateInfo o) (checkZeroSerialNumbers o).
Definition WithLogCertificateInfo (b : bool) (o : options) : options :=
  mkOptions (ipv4Only o) (validFor o) (issuerREs o) (expand o) (rootCAs o) (pemFile o) (checkSerial o)
    (checkSignature o) (checkCipherSuite o) (tlsMinVer o) (ciphersuites o) (allowedSignatureAlgorithms o)
    (deniedSignatureAlgorithms o) (deniedCipherSuites o) (customDNSServer o) b (checkZeroSerialNumbers o).
Definition WithCheckZeroSerialNumbers (b : bool) (o : options) : options :=
  mkOptions (ipv4Only o) (validFor o) (issuerREs o) (expand o) (rootCAs o) (pemFile o) (checkSerial o)
    (checkSignature o) (checkCipherSuite o) (tlsMinVer o) (ciphersuites o) (allowedSignatureAlgorithms o)
    (deniedSignatureAlgorithms o) (deniedCipherSuites o) (customDNSServer o) (logCertificateInfo o) b.

Definition zero_options : options :=
  mkOptions false 0 [] false None "" false false false 0 [] [] [] [] "" false false.

(** [EnsureHostPort] of cloudeng.io/net/netutil is a parameter; the resolver is
    a custom one exactly when a DNS server is set. *)
Definition NewValidator (EnsureHostPort : string -> string -> string) (opts : list (options -> options))
  : options * bool :=
  let o := fold_left (fun o opt => opt o) opts (WithCheckZeroSerialNumbers true zero_options) in
  if bool_decide (customDNSServer o <> "")
  then (WithCustomDNSServer (EnsureHostPort (customDNSServer o) "53") o, true)
  else (o, false).

(** [ReadFile] and [AppendCertsFromPEM] of an empty pool, [None] if nothing was
    appended. *)
Definition certPool (ReadFile : string -> res string) (append : string -> option Pool) (file : string) : res Pool :=
  match ReadFile file with
  | Err e => Err (Errorf "failed to read CA file %q: %w" [file] [e])
  | Ok certs => match append certs with
                | None => Err (Errorf "no certs appended from %q" [file] [])
                | Some pool => Ok pool
                end
  end.

(** The [tls.Config] of a handshake. *)
Record Config := mkConfig {
  cfg_ServerName : string; cfg_RootCAs : option Pool; cfg_MinVersion : N; cfg_CipherSuites : list N
}.

Definition state_error (s : tlsState) (cert : option Certificate) (err : error) : ErrValidator :=
  mkErrValidator (ts_host s) (ts_addr s) (ts_port s) cert (Some err).

(** [tlsStates.add], under its lock. *)
Definition add (states : list tlsState) (state : tlsState) : list tlsState := states ++ [state].

(** One goroutine per address; [done_] lists the addresses in the order in
    which their handshakes complete. *)
Fixpoint collect (v : options) (getTLSState : Config -> string -> string -> res ConnectionState)
    (host port : string) (done_ : list string) (states : list tlsState) (errs : list error)
  : list tlsState * list error :=
  match done_ with
  | [] => (states, errs)
  | addr :: done' =>
      match getTLSState (mkConfig host (rootCAs v) (tlsMinVer v) (ciphersuites v)) addr port with
      | Err e => collect v getTLSState host port done' states (errs ++ [e])
      | Ok s => collect v getTLSState host port done' (add states (mkState host addr port s)) errs
      end
  end.

Definition getStates (v : options) (getTLSState : Config -> string -> string -> res ConnectionState)
    (order : list string -> list string) (addrs : list string) (host port : string) : res (list tlsState) :=
  let '(states, errs) := collect v getTLSState host port (order addrs) [] [] in
  match errs with [] => Ok states | _ => Err (Joined errs) end.

(** The loop over the other states: [serial], [alg] and [suite] are those of the
    first. A nil [serial] has no [Cmp]. *)
Fixpoint compare_states (v : options) (host : string) (serial : option Z) (alg suite : N)
    (states : list tlsState) (errs : list ErrValidator) : go (list ErrValidator) :=
  match states with
  | [] => Ret errs
  | cs :: states' =>
      match PeerCertificates (ts_state cs) with
      | [] => compare_states v host serial alg suite states'
                (errs ++ [state_error cs None (Errorf "%v: %v no peer certificates found" [host; ts_addr cs] [])])
      | cert :: _ =>
          match SerialNumber cert with
          | None => compare_states v host serial alg suite states'
                      (errs ++ [state_error cs (Some cert)
                                  (Errorf "%v: %v no serial number found" [host; ts_addr cs] [])])
          | Some other =>
              mismatch ← (if checkSerial v then
                            match serial with
                            | None => Panic NilDereference
                            | Some serial => Ret (negb (serial =? other)%Z)
                            end
                          else Ret false);
              let errs := if mismatch : bool then
                            errs ++ [state_error cs (Some cert)
                                       (Errorf "%v: %v mismatched serial numbers: (%v) != (%v)" [host; ts_addr cs] [])]
                          else errs in
              let errs := if checkSignature v && negb (alg =? SignatureAlgorithm cert)%N then
                            errs ++ [state_error cs (Some cert)
                                       (Errorf "%v: %v mismatched signature algorithms: (%v) != (%v)" [host; ts_addr cs] [])]
                          else errs in
              let errs := if checkCipherSuite v && negb (suite =? CipherSuite (ts_state cs))%N then
                            errs ++ [state_error cs (Some cert)
                                       (Errorf "%v: %v mismatched cipher suites: (%v) != (%v)" [host; ts_addr cs] [])]
                          else errs in
              compare_states v host serial alg suite states' errs
          end
      end
  end.

Definition verifyAcrossHosts (v : options) (errs : list ErrValidator) (host : string) (states : list tlsState)
  : go (list ErrValidator) :=
  match states with
  | [] => Ret errs
  | first :: others =>
      match PeerCertificates (ts_state first) with
      | [] => Ret errs
      | cert :: _ =>
          compare_states v host (SerialNumber cert) (SignatureAlgorithm cert) (CipherSuite (ts_state first)) others errs
      end
  end.

(** The first certificate whose serial number is missing or zero. *)
Fixpoint find_zero_serial (certs : list Certificate) : option Certificate :=
  match certs with
  | [] => None
  | cert :: certs' =>
      if match SerialNumber cert with None => true | Some n => (n =? 0)%Z end then Some cert
      else find_zero_serial certs'
  end.

Definition ensureNonZeroSerialNumbers (v : options) (cs : tlsState) : option ErrValidator :=
  if negb (checkZeroSerialNumbers v) then None
  else match find_zero_serial (PeerCertificates (ts_state cs)) with
       | None => None
       | Some cert => Some (state_error cs (Some cert)
                              (Errorf "%v: %v zero serial number" [ts_host cs; ts_addr cs] []))
       end.

(** [logCertificateInfo]: the attributes of each record. [describe] prints the
    subject, the dates and the signature algorithm of a certificate. *)
Definition certificate_info (describe : Certificate -> list (string * string)) (CipherSuiteName : N -> string)
    (v : options) (cs : tlsState) : list (list (string * string)) :=
  if logCertificateInfo v then
    imap (fun i cert =>
      [("index", fmt_int (Z.of_nat i)); ("isleaf", if Nat.eqb i 0 then "true" else "false");
       ("host", ts_host cs); ("addr", ts_addr cs); ("port", ts_port cs);
       ("serial", SerialNumberOpenSSL (SerialNumber cert)); ("issuer", Issuer cert)] ++ describe cert ++
      [("cipher_suite", CipherSuiteName (CipherSuite (ts_state cs)))])
      (PeerCertificates (ts_state cs))
  else [].

(** [logCertificateInfo] is called first, for a state that has certificates. *)
Definition validateConnectionState (v : options) (now : Z) (cs : tlsState) : option ErrValidator :=
  let state := ts_state cs in
  match PeerCertificates state with
  | [] => Some (mkErrValidator "" "" "" None (Some (errors_New "no peer certificates found")))
  | leaf :: _ =>
      if Nat.ltb 0 (length (issuerREs v)) && negb (existsb (fun re => re (Issuer leaf)) (issuerREs v))
      then Some (state_error cs (Some leaf)
                   (Errorf "certificate issuer %q does not match any of the specified patterns" [Issuer leaf] []))
      else if ((0 <? validFor v) && (NotAfter leaf - now <? validFor v))%Z
      then Some (state_error cs (Some leaf)
                   (errors_New "certificate is valid for %v which is less than the required %v"))
      else if Nat.ltb 0 (length (allowedSignatureAlgorithms v))
              && negb (contains (allowedSignatureAlgorithms v) (SignatureAlgorithm leaf))
      then Some (state_error cs (Some leaf)
                   (errors_New "certificate signature algorithm %v is not one of the allowed algorithms %v"))
      else if Nat.ltb 0 (length (deniedSignatureAlgorithms v))
              && contains (deniedSignatureAlgorithms v) (SignatureAlgorithm leaf)
      then Some (state_error cs (Some leaf)
                   (errors_New "certificate signature algorithm %v is one of the denied algorithms %v"))
      else if Nat.ltb 0 (length (deniedCipherSuites v)) && contains (deniedCipherSuites v) (CipherSuite state)
      then Some (state_error cs (Some leaf)
                   (errors_New "negotiated cipher suite %v is one of the denied ciphersuites %v"))
      else None
  end.

Definition ignoreIPv6 (v : options) (isIPv4 : string -> bool) (addrs : list string) : list string :=
  if negb (ipv4Only v) then addrs else List.filter isIPv4 addrs.

Definition expandHost (v : options) (LookupHost : string -> res (list string)) (host : string)
  : res (list string) :=
  if expand v then LookupHost host else Ok [host].

Definition option_list {A} (o : option A) : list A := match o with Some a => [a] | None => [] end.

(** The result of [Validate]: an error that ends it early, or the collected
    validation errors; and the validator, which keeps a pool it loaded. *)
Definition Validate (certPool : string -> res Pool) (LookupHost : string -> res (list string))
    (isIPv4 : string -> bool) (getTLSState : Config -> string -> string -> res ConnectionState)
    (order : list string -> list string) (now : Z) (v : options) (host port : string)
  : go (res (list ErrValidator)) * options :=
  let pool := match rootCAs v with
              | None => if Nat.ltb 0 (slen (pemFile v))
                        then match certPool (pemFile v) with Err e => Err e | Ok p => Ok (WithRootCAs (Some p) v) end
                        else Ok v
              | Some _ => Ok v
              end in
  match pool with
  | Err e => (Ret (Err e), v)
  | Ok v =>
      (match expandHost v LookupHost host with
       | Err e => Ret (Err e)
       | Ok addrs =>
           match getStates v getTLSState order (ignoreIPv6 v isIPv4 addrs) host port with
           | Err e => Ret (Err e)
           | Ok states =>
               let errs := concat (map (fun cs => option_list (validateConnectionState v now cs)) states) in
               first ← index states 0;
               let errs := errs ++ option_list (ensureNonZeroSerialNumbers v first) in
               errs ← verifyAcrossHosts v errs host states;
               Ret (Ok errs)
           end
       end, v)
  end.

End validate.
#[global] Arguments options : clear implicits.
#[global] Arguments Config : clear implicits.

(** ** One handshake *)
Section dial.
Context {Pool Conn : Type}.
(** [Dial resolver addr] dials with the custom resolver or the default one. *)
Variable Dial : bool -> string -> res Conn.
Variable Handshake : Conn -> Config Pool -> res ConnectionState.

Definition getTLSState (resolver : bool) (cfg : Config Pool) (addr port : string) : res ConnectionState :=
  match Dial resolver (JoinHostPort addr port) with
  | Err e => Err e
  | Ok conn => Handshake conn cfg
  end.

(** [tls.CipherSuiteName] of every suite. *)
Definition cipherSuiteNames (CipherSuiteName : N -> string) (suites : list N) : list string := map CipherSuiteName suites.

End dial.

(** ** What an accepted host satisfies *)
Section spec.
Context {Pool : Type} (v : options Pool) (now : Z).

(** The checks on the leaf certificate of one address. *)
Definition leaf_ok (cs : tlsState) : Prop :=
  exists leaf rest, PeerCertificates (ts_state cs) = leaf :: rest /\
    (issuerREs v = [] \/ exists re, re ∈ issuerREs v /\ re (Issuer leaf) = true) /\
    ((0 < validFor v)%Z -> (now + validFor v <= NotAfter leaf)%Z) /\
    (allowedSignatureAlgorithms v = [] \/ SignatureAlgorithm leaf ∈ allowedSignatureAlgorithms v) /\
    (SignatureAlgorithm leaf ∉ deniedSignatureAlgorithms v) /\
    (CipherSuite (ts_state cs) ∉ deniedCipherSuites v).

(** No certificate without a serial number, or with serial number zero. *)
Definition serials_ok (cs : tlsState) : Prop :=
  Forall (fun c => exists n, SerialNumber c = Some n /\ n <> 0%Z) (PeerCertificates (ts_state cs)).

(** Agreement with the first address on the attributes that are compared. *)
Definition agrees (first cs : tlsState) : Prop :=
  exists c1 r1 c2 r2 n, PeerCertificates (ts_state first) = c1 :: r1 /\
    PeerCertificates (ts_state cs) = c2 :: r2 /\ SerialNumber c2 = Some n /\
    (checkSerial v = true -> SerialNumber c1 = Some n) /\
    (checkSignature v = true -> SignatureAlgorithm c1 = SignatureAlgorithm c2) /\
    (checkCipherSuite v = true -> CipherSuite (ts_state first) = CipherSuite (ts_state cs)).

Lemma guarded_contains (l : list N) x : Nat.ltb 0 (length l) && contains l x = contains l x.
Proof. by destruct l. Qed.

Lemma validateConnectionState_None cs : validateConnectionState v now cs = None <-> leaf_ok cs.
Proof.
  unfold validateConnectionState, leaf_ok. destruct (PeerCertificates (ts_state cs)) as [|leaf rest].
  { split; [done|]. by intros (l & r & ? & _). }
  rewrite !guarded_contains.
  assert (H1 : Nat.ltb 0 (length (issuerREs v)) && negb (existsb (fun re => re (Issuer leaf)) (issuerREs v)) = false
    <-> (issuerREs v = [] \/ exists re, re ∈ issuerREs v /\ re (Issuer leaf) = true)).
  { rewrite andb_false_iff, negb_false_iff, existsb_Exists. destruct (issuerREs v); [naive_solver|].
    split; [intros [?|?]; [done|by right]|]. intros [?|?]; [done|by right]. }
  assert (H2 : ((0 <? validFor v) && (NotAfter leaf - now <? validFor v))%Z = false
    <-> (((0 < validFor v)%Z) -> (now + validFor v <= NotAfter leaf)%Z)).
  { rewrite andb_false_iff, !Z.ltb_ge. lia. }
  assert (H3 : Nat.ltb 0 (length (allowedSignatureAlgorithms v))
      && negb (contains (allowedSignatureAlgorithms v) (SignatureAlgorithm leaf)) = false
    <-> (allowedSignatureAlgorithms v = [] \/ SignatureAlgorithm leaf ∈ allowedSignatureAlgorithms v)).
  { rewrite andb_false_iff, negb_false_iff, contains_true. destruct (allowedSignatureAlgorithms v); [naive_solver|].
    split; [intros [?|?]; [done|by right]|]. intros [?|?]; [done|by right]. }
  split.
  - do 5 (case_match; [done|]). intros _. exists leaf, rest.
    split_and!; [done|by apply H1|by apply H2|by apply H3|by apply contains_false..].
  - intros (l & r & [= <- <-] & HA & HB & HC & HD%contains_false & HE%contains_false). rewrite HD, HE.
    apply H1 in HA as ->. apply H2 in HB as ->. apply H3 in HC as ->. done.
Qed.

Lemma find_zero_serial_None certs :
  find_zero_serial certs = None <-> Forall (fun c => exists n, SerialNumber c = Some n /\ n <> 0%Z) certs.
Proof.
  induction certs as [|c certs IH]; simpl; [done|]. rewrite Forall_cons, <- IH.
  destruct (SerialNumber c) as [n|].
  - destruct (Z.eqb_spec n 0); split; try done.
    + by intros [(m & [= <-] & ?) _].
    + intros. split; [eauto|done].
    + by intros [_ ?].
  - split; [done|]. by intros [(m & ? & _) _].
Qed.

Lemma ensureNonZero_None cs :
  ensureNonZeroSerialNumbers v cs = None <-> (checkZeroSerialNumbers v = true -> serials_ok cs).
Proof.
  unfold ensureNonZeroSerialNumbers, serials_ok. rewrite <- find_zero_serial_None.
  destruct (checkZeroSerialNumbers v); simpl; [|by split]. destruct (find_zero_serial _); naive_solver.
Qed.

Lemma compare_states_nil host serial alg suite states errs :
  compare_states v host serial alg suite states errs = Ret [] <->
  errs = [] /\ Forall (fun cs => exists c r n, PeerCertificates (ts_state cs) = c :: r /\ SerialNumber c = Some n /\
    (checkSerial v = true -> serial = Some n) /\ (checkSignature v = true -> alg = SignatureAlgorithm c) /\
    (checkCipherSuite v = true -> suite = CipherSuite (ts_state cs))) states.
Proof.
  assert (Hne : forall (l : list ErrValidator) e, l ++ [e] <> []) by (by intros [|??] ?).
  revert errs. induction states as [|cs states IH]; intros errs; simpl.
  { split; [by intros [= ->]|]. by intros [-> _]. }
  rewrite Forall_cons. destruct (PeerCertificates (ts_state cs)) as [|c r].
  { rewrite IH. split; [by intros [?%Hne _]|]. by intros (_ & (?&?&?&?&_) & _). }
  destruct (SerialNumber c) as [n|] eqn:Hn.
  2:{ rewrite IH. split; [by intros [?%Hne _]|]. intros (_ & (?&?&?&[= <- <-]&?&_) & _). congruence. }
  assert (Hchk : forall b, (exists c' r' n', c :: r = c' :: r' /\ SerialNumber c' = Some n' /\
    (b = true -> serial = Some n') /\ (checkSignature v = true -> alg = SignatureAlgorithm c') /\
    (checkCipherSuite v = true -> suite = CipherSuite (ts_state cs))) <->
    (b = true -> serial = Some n) /\ (checkSignature v = true -> alg = SignatureAlgorithm c) /\
    (checkCipherSuite v = true -> suite = CipherSuite (ts_state cs))).
  { intros b. split; [intros (?&?&?&[= <- <-]&?&?&?&?)|intros (?&?&?); exists c, r, n]; simplify_eq; auto. }
  rewrite Hchk. clear Hchk.
  destruct (checkSerial v); [destruct serial as [m|]; [destruct (Z.eqb_spec m n)|]|]; simpl.
  all: try (split; [done|]; intros (_ & (H & _) & _); specialize (H eq_refl); congruence).
  all: rewrite IH; destruct (checkSignature v), (N.eqb_spec alg (SignatureAlgorithm c)),
    (checkCipherSuite v), (N.eqb_spec suite (CipherSuite (ts_state cs))); simpl.
  all: split; [intros [HE HF]; repeat (apply app_eq_nil in HE as [HE ?]); try done; split_and!; try done; congruence|].
  all: intros (HE & (H1 & H2 & H3) & HF); try (specialize (H1 eq_refl)); try (specialize (H2 eq_refl));
    try (specialize (H3 eq_refl)); try done; try congruence.
Qed.

Lemma collect_states getTLSState host port done_ states errs :
  (collect v getTLSState host port done_ states errs).2 = [] <->
  errs = [] /\ Forall (fun a => exists s, getTLSState
    (mkConfig host (rootCAs v) (tlsMinVer v) (ciphersuites v)) a port = Ok s) done_.
Proof.
  revert states errs. induction done_ as [|a done_ IH]; intros states errs; simpl; [naive_solver|].
  rewrite Forall_cons. destruct (getTLSState _ a port) as [s|e]; rewrite IH.
  - split; [intros [-> ?]; eauto|naive_solver].
  - split; [by intros [?%app_eq_nil _]; naive_solver|]. by intros (_ & (s & ?) & _).
Qed.

Lemma collect_Ok getTLSState host port done_ states errs (f : string -> ConnectionState) :
  Forall (fun a => getTLSState (mkConfig host (rootCAs v) (tlsMinVer v) (ciphersuites v)) a port = Ok (f a)) done_ ->
  collect v getTLSState host port done_ states errs
    = (states ++ map (fun a => mkState host a port (f a)) done_, errs).
Proof.
  intros HF. revert states. induction HF as [|a done_ Ha _ IH]; intros states; simpl; [by rewrite app_nil_r|].
  unfold add. rewrite Ha, IH, <- app_assoc. done.
Qed.

Lemma option_list_nil (l : list (option ErrValidator)) :
  concat (map option_list l) = [] <-> Forall (fun o => o = None) l.
Proof. induction l as [|[e|] l IH]; simpl; [done| |]; rewrite Forall_cons; naive_solver. Qed.

(** No error is collected when the three groups of checks pass. *)
Lemma checks_nil host first others :
  verifyAcrossHosts v
    (concat (map (fun cs => option_list (validateConnectionState v now cs)) (first :: others))
     ++ option_list (ensureNonZeroSerialNumbers v first)) host (first :: others) = Ret [] <->
  Forall leaf_ok (first :: others) /\ (checkZeroSerialNumbers v = true -> serials_ok first) /\
  Forall (agrees first) others.
Proof.
  assert (Hleaf : concat (map (fun cs => option_list (validateConnectionState v now cs)) (first :: others)) = []
    <-> Forall leaf_ok (first :: others)).
  { rewrite <- (map_map (validateConnectionState v now) option_list), option_list_nil, Forall_map.
    apply Forall_iff. intros cs. apply validateConnectionState_None. }
  assert (Hzero : option_list (ensureNonZeroSerialNumbers v first) = [] <->
    (checkZeroSerialNumbers v = true -> serials_ok first)).
  { rewrite <- ensureNonZero_None. by destruct (ensureNonZeroSerialNumbers v first). }
  unfold verifyAcrossHosts. destruct (PeerCertificates (ts_state first)) as [|c r] eqn:Hc.
  - split.
    + intros [= HE]. apply app_eq_nil in HE as [HE _]. apply Hleaf in HE. inversion HE as [|?? (l & ? & ? & _)].
      congruence.
    + intros (HL & _). inversion HL as [|?? (l & ? & ? & _)]. congruence.
  - rewrite compare_states_nil.
    assert (Hag : Forall (fun cs => exists c0 r0 n, PeerCertificates (ts_state cs) = c0 :: r0 /\ SerialNumber c0 = Some n /\
      (checkSerial v = true -> SerialNumber c = Some n) /\
      (checkSignature v = true -> SignatureAlgorithm c = SignatureAlgorithm c0) /\
      (checkCipherSuite v = true -> CipherSuite (ts_state first) = CipherSuite (ts_state cs))) others
      <-> Forall (agrees first) others).
    { apply Forall_iff. intros cs. unfold agrees. rewrite Hc. split.
      - intros (c0 & r0 & n & H). by exists c, r, c0, r0, n.
      - intros (c1 & r1 & c2 & r2 & n & [= <- <-] & H). by exists c2, r2, n. }
    rewrite Hag, <- Hleaf, <- Hzero. split.
    + intros [HE HA]. by apply app_eq_nil in HE as [-> ->].
    + intros (-> & -> & HA). done.
Qed.

(** [Validate] once the addresses are known and all handshakes succeed. *)
Lemma Validate_run certPool LookupHost isIPv4 getTLSState order host port addrs f :
  (rootCAs v <> None \/ pemFile v = "") -> expandHost v LookupHost host = Ok addrs ->
  Forall (fun a => getTLSState (mkConfig host (rootCAs v) (tlsMinVer v) (ciphersuites v)) a port = Ok (f a))
    (order (ignoreIPv6 v isIPv4 addrs)) ->
  (Validate certPool LookupHost isIPv4 getTLSState order now v host port).1 =
    match map (fun a => mkState host a port (f a)) (order (ignoreIPv6 v isIPv4 addrs)) with
    | [] => Panic IndexOutOfRange
    | first :: others =>
        errs ← verifyAcrossHosts v
          (concat (map (fun cs => option_list (validateConnectionState v now cs)) (first :: others))
           ++ option_list (ensureNonZeroSerialNumbers v first)) host (first :: others);
        Ret (Ok errs)
    end.
Proof.
  intros Hpool Hexp HF. unfold Validate.
  assert (Hv : match rootCAs v with
    | None => if Nat.ltb 0 (slen (pemFile v))
              then match certPool (pemFile v) with Err e => Err e | Ok p => Ok (WithRootCAs (Some p) v) end
              else Ok v
    | Some _ => Ok v end = Ok v).
  { destruct Hpool as [Hp| ->]; [by destruct (rootCAs v)|by destruct (rootCAs v)]. }
  rewrite Hv. cbn [fst]. rewrite Hexp. unfold getStates. rewrite (collect_Ok getTLSState host port _ [] [] f HF).
  rewrite app_nil_l. by destruct (map _ (order _)) as [|first others].
Qed.

End spec.

(** ** Properties *)

(** C35 Validation: with the addresses a host expands to and their handshakes
    in whatever order they complete, [Validate] reports no error exactly when
    every leaf certificate passes all configured checks, every certificate of
    the address that completed first has a non-zero serial number (when that
    is checked), and all other addresses agree with it on the attributes that
    are to be compared. When no address remains it panics. *)
Theorem Validate_accepts {Pool} certPool LookupHost isIPv4 getTLSState order now (v : options Pool) host port
    addrs (f : string -> ConnectionState) :
  (forall l, order l ≡ₚ l) -> (rootCAs v <> None \/ pemFile v = "") ->
  expandHost v LookupHost host = Ok addrs ->
  Forall (fun a => getTLSState (mkConfig host (rootCAs v) (tlsMinVer v) (ciphersuites v)) a port = Ok (f a))
    (ignoreIPv6 v isIPv4 addrs) ->
  let run := (Validate certPool LookupHost isIPv4 getTLSState order now v host port).1 in
  match map (fun a => mkState host a port (f a)) (order (ignoreIPv6 v isIPv4 addrs)) with
  | [] => run = Panic IndexOutOfRange
  | first :: others =>
      run = Ret (Ok []) <->
        Forall (leaf_ok v now) (first :: others) /\
        (checkZeroSerialNumbers v = true -> serials_ok first) /\ Forall (agrees v first) others
  end.
Proof.
  intros Horder Hpool Hexp HF run. unfold run. erewrite Validate_run; [|done..|by rewrite Horder].
  destruct (map _ (order _)) as [|first others]; [done|]. rewrite <- (checks_nil v now host).
  destruct (verifyAcrossHosts _ _ _ _) as [[|]|]; simpl; split; congruence.
Qed.

Definition example_state (serial : Z) : ConnectionState :=
  mkConnState [mkCertificate (Some serial) 10 1000 "CN=ca"] 0x1301.

Lemma Validate_accepts_witness :
  (Validate (Pool := unit) (fun _ => Ok tt) (fun _ => Ok ["10.0.0.1"; "10.0.0.2"]) (fun _ => true)
     (fun _ _ _ => Ok (example_state 7)) (@rev string) 100
     (WithCheckSerialNumbers true (WithExpandDNSNames true (WithCheckZeroSerialNumbers true zero_options)))
     "example.com" "443").1 = Ret (Ok []).
Proof.
  refine (proj2 (Validate_accepts (Pool := unit) (fun _ => Ok tt) (fun _ => Ok ["10.0.0.1"; "10.0.0.2"])
    (fun _ => true) (fun _ _ _ => Ok (example_state 7)) (@rev string) 100
    (WithCheckSerialNumbers true (WithExpandDNSNames true (WithCheckZeroSerialNumbers true zero_options)))
    "example.com" "443" ["10.0.0.1"; "10.0.0.2"] (fun _ => example_state 7) _ _ _ _) _).
  - intros l. symmetry. apply Permutation_rev.
  - right. reflexivity.
  - reflexivity.
  - repeat constructor.
  - assert (Hl : forall a, leaf_ok
      (WithCheckSerialNumbers true (WithExpandDNSNames true (WithCheckZeroSerialNumbers (Pool:=unit) true zero_options)))
      100 (mkState "example.com" a "443" (example_state 7))).
    { intros a. exists (mkCertificate (Some 7%Z) 10 1000 "CN=ca"), []. simpl.
      split_and!; [done|by left|lia|by left|apply not_elem_of_nil..]. }
    split_and!.
    + repeat constructor; apply Hl.
    + intros _. repeat constructor. by exists 7%Z.
    + repeat constructor. exists (mkCertificate (Some 7%Z) 10 1000 "CN=ca"), [],
        (mkCertificate (Some 7%Z) 10 1000 "CN=ca"), [], 7%Z. done.
Defined.

(** Only the address that completed first has its serial numbers checked: a zero
    serial number elsewhere is not reported. *)
Example zero_serial_missed :
  (Validate (Pool := unit) (fun _ => Ok tt) (fun _ => Ok ["10.0.0.1"; "10.0.0.2"]) (fun _ => true)
     (fun _ addr _ => Ok (example_state (if bool_decide (addr = "10.0.0.2") then 0 else 7))) id 100
     (WithExpandDNSNames true (WithCheckZeroSerialNumbers true zero_options)) "example.com" "443").1 = Ret (Ok []).
Proof. vm_compute. reflexivity. Qed.
