(* ===== verification/ServerConfig.v ===== *)
(** * TLS settings of servers and clients

Models [flags.go] and the configuration part of [client.go]. Loading a key pair,
reading files and building certificate pools are parameters. *)

From S2P Require Import Prelude GoStrings GoErrors GoNet TLSNames ServingCache.

(** Cipher suite IDs of crypto/tls. *)
Definition TLS_ECDHE_ECDSA_WITH_RC4_128_SHA : N := 0xc007.
Definition TLS_ECDHE_ECDSA_WITH_AES_128_CBC_SHA : N := 0xc009.
Definition TLS_ECDHE_ECDSA_WITH_AES_256_CBC_SHA : N := 0xc00a.
Definition TLS_ECDHE_ECDSA_WITH_AES_128_CBC_SHA256 : N := 0xc023.
Definition TLS_ECDHE_ECDSA_WITH_AES_128_GCM_SHA256 : N := 0xc02b.
Definition TLS_ECDHE_RSA_WITH_AES_128_GCM_SHA256 : N := 0xc02f.
Definition TLS_ECDHE_ECDSA_WITH_AES_256_GCM_SHA384 : N := 0xc02c.
Definition TLS_ECDHE_RSA_WITH_AES_256_GCM_SHA384 : N := 0xc030.
Definition TLS_ECDHE_RSA_WITH_CHACHA20_POLY1305 : N := 0xcca8.
Definition TLS_ECDHE_ECDSA_WITH_CHACHA20_POLY1305 : N := 0xcca9.

Definition PreferredCipherSuites : list N :=
  [TLS_ECDHE_ECDSA_WITH_AES_256_GCM_SHA384; TLS_ECDHE_RSA_WITH_AES_256_GCM_SHA384;
   TLS_ECDHE_ECDSA_WITH_CHACHA20_POLY1305; TLS_ECDHE_RSA_WITH_CHACHA20_POLY1305;
   TLS_ECDHE_ECDSA_WITH_AES_128_GCM_SHA256; TLS_ECDHE_RSA_WITH_AES_128_GCM_SHA256].

Definition PreferredCurves : list N := [X25519; CurveP256].
Definition PreferredTLSMinVersion : N := VersionTLS13.
Definition PreferredSignatureSchemes : list N :=
  [ECDSAWithP256AndSHA256; ECDSAWithP384AndSHA384; ECDSAWithP521AndSHA512].

(** Where a [tls.Config] gets its certificates from. *)
Inductive cert_source (Cert TLSCert : Type) :=
| FromCache (cache : CertServingCache Cert * gmap string (entry TLSCert))
| Fixed (certs : list TLSCert).
Arguments FromCache {Cert TLSCert}. Arguments Fixed {Cert TLSCert}.

Record TLSConfig (Cert TLSCert : Type) := mkTLSConfig {
  tc_source : cert_source Cert TLSCert; tc_MinVersion : N; tc_CipherSuites : list N; tc_CurvePreferences : list N
}.
Arguments mkTLSConfig {Cert TLSCert}. Arguments tc_source {Cert TLSCert}. Arguments tc_MinVersion {Cert TLSCert}.
Arguments tc_CipherSuites {Cert TLSCert}. Arguments tc_CurvePreferences {Cert TLSCert}.

Section flags.
Context {Cert TLSCert : Type}.
Variable LoadX509KeyPair : string -> string -> res TLSCert.
Variable X509KeyPair : string -> string -> res TLSCert.

Record TLSCertFlags := mkCertFlags { f_CertFile : string; f_KeyFile : string }.
Record TLSCertConfig := mkCertConfig { cc_CertFile : string; cc_KeyFile : string }.
Record HTTPServerFlags := mkServerFlags { f_Address : string; f_Certs : TLSCertFlags }.
Record HTTPServerConfig := mkServerConfig { sc_Address : string; sc_TLSCerts : TLSCertConfig }.

Definition TLSCertFlags_TLSCertConfig (cl : TLSCertFlags) : TLSCertConfig :=
  mkCertConfig (f_CertFile cl) (f_KeyFile cl).

Definition HTTPServerFlags_HTTPServerConfig (cl : HTTPServerFlags) : HTTPServerConfig :=
  mkServerConfig (f_Address cl) (TLSCertFlags_TLSCertConfig (f_Certs cl)).

Definition TLSConfigUsingCertStore (cacheOpts : list (CertServingCache Cert -> CertServingCache Cert))
  : res (TLSConfig Cert TLSCert) :=
  Ok (mkTLSConfig (FromCache (NewCertServingCache cacheOpts)) PreferredTLSMinVersion PreferredCipherSuites
        PreferredCurves).

Definition TLSConfigUsingCertFiles (certFile keyFile : string) : res (TLSConfig Cert TLSCert) :=
  if Nat.eqb (slen certFile) 0 || Nat.eqb (slen keyFile) 0
  then Err (errors_New "both the crt and key files must be specified")
  else match LoadX509KeyPair certFile keyFile with
       | Err e => Err (Errorf "failed to load key pair from cert file %q and key file %q: %w" [certFile; keyFile] [e])
       | Ok cert => Ok (mkTLSConfig (Fixed [cert]) PreferredTLSMinVersion PreferredCipherSuites PreferredCurves)
       end.

Definition TLSConfigUsingCertFilesFS (read : string -> res string) (certFile keyFile : string)
  : res (TLSConfig Cert TLSCert) :=
  if Nat.eqb (slen certFile) 0 || Nat.eqb (slen keyFile) 0
  then Err (errors_New "both the crt and key files must be specified")
  else match read certFile with
       | Err e => Err (Errorf "failed to read cert file %q: %w" [certFile] [e])
       | Ok certFileData =>
           match read keyFile with
           | Err e => Err (Errorf "failed to read key file %q: %w" [keyFile] [e])
           | Ok keyFileData =>
               match X509KeyPair certFileData keyFileData with
               | Err e => Err (Errorf "failed to create key pair from cert file %q and key file %q: %w"
                                 [certFile; keyFile] [e])
               | Ok cert => Ok (mkTLSConfig (Fixed [cert]) PreferredTLSMinVersion PreferredCipherSuites PreferredCurves)
               end
           end
       end.

Definition TLSCertConfig_TLSConfig (tc : TLSCertConfig) : res (TLSConfig Cert TLSCert) :=
  TLSConfigUsingCertFiles (cc_CertFile tc) (cc_KeyFile tc).

Definition HTTPServerConfig_TLSConfig (hc : HTTPServerConfig) : res (TLSConfig Cert TLSCert) :=
  TLSCertConfig_TLSConfig (sc_TLSCerts hc).

End flags.

(** ** client.go *)
Section client.
Context {Pool TraceOpt : Type}.
Variable ReadFile : string -> res string.
Variable AppendCertsFromPEM : string -> option Pool.

Record httpClientOptions := mkClientOptions {
  caPEMFile : string; caPool : option Pool; tracingOpts : list TraceOpt; dnsResolverAddr : string
}.

Definition WithCustomCAPEMFile (f : string) (o : httpClientOptions) : httpClientOptions :=
  mkClientOptions f (caPool o) (tracingOpts o) (dnsResolverAddr o).
Definition WithCustomCAPool (p : option Pool) (o : httpClientOptions) : httpClientOptions :=
  mkClientOptions (caPEMFile o) p (tracingOpts o) (dnsResolverAddr o).
Definition WithTracingTransport (t : list TraceOpt) (o : httpClientOptions) : httpClientOptions :=
  mkClientOptions (caPEMFile o) (caPool o) t (dnsResolverAddr o).
Definition WithDNSServer (a : string) (o : httpClientOptions) : httpClientOptions :=
  mkClientOptions (caPEMFile o) (caPool o) (tracingOpts o) a.

Definition certPool (pemFile : string) : res Pool :=
  match ReadFile pemFile with
  | Err e => Err (Errorf "failed to read CA file %q: %w" [pemFile] [e])
  | Ok certs => match AppendCertsFromPEM certs with
                | None => Err (Errorf "no certs appended from %q" [pemFile] [])
                | Some pool => Ok pool
                end
  end.

(** The settings of the client that is built: its TLS configuration, the DNS
    server of its dialer if it has a custom one, and the tracing options of its
    transport if it is wrapped. *)
Record HTTPClient := mkClient {
  hc_MinVersion : N; hc_CipherSuites : list N; hc_RootCAs : option Pool;
  hc_DNSServer : option string; hc_tracing : list TraceOpt
}.

Definition NewHTTPClient (opts : list (httpClientOptions -> httpClientOptions)) : res HTTPClient :=
  let o := fold_left (fun o opt => opt o) opts (mkClientOptions "" None [] "") in
  let roots :=
    match caPool o with
    | Some p => Ok (Some p)
    | None =>
        if bool_decide (caPEMFile o <> "") then
          match certPool (caPEMFile o) with
          | Err e => Err (Errorf "failed to obtain cert pool containing %v: %w" [caPEMFile o] [e])
          | Ok p => Ok (Some p)
          end
        else Ok None
    end in
  match roots with
  | Err e => Err e
  | Ok roots =>
      let dns :=
        if bool_decide (dnsResolverAddr o <> "") then
          Some (match SplitHostPort (dnsResolverAddr o) with
                | Ok _ => dnsResolverAddr o
                | Err _ => JoinHostPort (dnsResolverAddr o) "53"
                end)
        else None in
      Ok (mkClient VersionTLS12 PreferredCipherSuites roots dns (tracingOpts o))
  end.

End client.
#[global] Arguments httpClientOptions : clear implicits.

(** A DNS server given as a bare host or IPv6 address gets port 53. *)
Lemma NewHTTPClient_dns {Pool TraceOpt} rf ap host :
  no_brackets host -> host <> "" ->
  (has_byte host COLON = false \/ exists e, SplitHostPort host = Err e) ->
  exists c, NewHTTPClient (Pool := Pool) (TraceOpt := TraceOpt) rf ap [WithDNSServer host] = Ok c /\
    exists addr, hc_DNSServer c = Some addr /\ SplitHostPort addr = Ok (host, "53").
Proof.
  intros Hb Hne Hc. unfold NewHTTPClient. simpl. rewrite bool_decide_true by done. eexists. split; [done|].
  assert (He : exists e, SplitHostPort host = Err e).
  { destruct Hc as [Hc|He]; [by apply SplitHostPort_no_colon|done]. }
  destruct He as [e He]. exists (JoinHostPort host "53"). simpl. rewrite He. split; [done|].
  by apply Split_JoinHostPort.
Qed.
