(* ===== verification/Acme.v ===== *)
(** * webauth/acme: the autocert manager and the refresh client

Models [mgr_config.go], the options, [stop] and [refreshHost] of
[acme_client.go], and the helpers of [certcache/util.go].  The autocert manager
of golang.org/x/crypto is a parameter. *)

From S2P Require Import Prelude GoStrings GoErrors GoNet TLSNames ServerConfig GoURL.

Definition LetsEncryptStaging : string := "https://acme-staging-v02.api.letsencrypt.org/directory".
(** [acme.LetsEncryptURL] *)
Definition LetsEncryptProduction : string := "https://acme-v02.api.letsencrypt.org/directory".

Record AutocertConfig := mkAutocert {
  ac_Email : string; ac_UserAgent : string; ac_Provider : string; ac_RenewBefore : Z;
  ac_AllowRSACertificates : bool
}.

Record ServiceFlags := mkServiceFlags {
  sf_Provider : string; sf_RenewBefore : Z; sf_Email : string; sf_UserAgent : string
}.

Definition ServiceFlags_AutocertConfig (f : ServiceFlags) : AutocertConfig :=
  mkAutocert (sf_Email f) (sf_UserAgent f) (sf_Provider f) (sf_RenewBefore f) false.

Definition DirectoryURL (ac : AutocertConfig) : string :=
  if bool_decide (ac_Provider ac = "letsencrypt") then LetsEncryptProduction
  else if bool_decide (ac_Provider ac = "letsencrypt-staging") then LetsEncryptStaging
  else if Nat.eqb (slen (ac_Provider ac)) 0 then LetsEncryptStaging
  else ac_Provider ac.

(** ** ECDSA support *)

(** The fields of [tls.ClientHelloInfo] that are looked at; [None] is nil. *)
Record Hello := mkHello {
  ServerName : string;
  SignatureSchemes : option (list N);
  SupportedCurves : option (list N);
  CipherSuites : list N
}.

Definition ecdsa_schemes : list N :=
  [0x0203%N; ECDSAWithP256AndSHA256; ECDSAWithP384AndSHA384; ECDSAWithP521AndSHA512].

Definition ecdsa_suites : list N :=
  [TLS_ECDHE_ECDSA_WITH_RC4_128_SHA; TLS_ECDHE_ECDSA_WITH_AES_128_CBC_SHA;
   TLS_ECDHE_ECDSA_WITH_AES_256_CBC_SHA; TLS_ECDHE_ECDSA_WITH_AES_128_CBC_SHA256;
   TLS_ECDHE_ECDSA_WITH_AES_128_GCM_SHA256; TLS_ECDHE_ECDSA_WITH_AES_256_GCM_SHA384;
   TLS_ECDHE_ECDSA_WITH_CHACHA20_POLY1305].

(** A loop that stops at the first element in [l]. *)
Fixpoint any_in (xs l : list N) : bool :=
  match xs with
  | [] => false
  | x :: xs' => if contains l x then true else any_in xs' l
  end.

Definition SupportsECDSA (hello : option Hello) : bool :=
  match hello with
  | None => false
  | Some hello =>
      if match SignatureSchemes hello with Some schemes => negb (any_in schemes ecdsa_schemes) | None => false end
      then false
      else if match SupportedCurves hello with Some curves => negb (contains curves CurveP256) | None => false end
      then false
      else any_in (CipherSuites hello) ecdsa_suites
  end.

Section manager.
Context {TLSCert : Type}.

Definition GetCertificateECDSAOnly (getCert : option Hello -> res TLSCert) (hello : option Hello) : res TLSCert :=
  match hello with
  | Some h =>
      if negb (SupportsECDSA hello)
      then Err (Errorf "hello for %s from %s does not support ECDSA certificates" [ServerName h] [])
      else getCert hello
  | None => getCert hello
  end.

(** The settings of the [autocert.Manager] and its [acme.Client]. *)
Record AutocertManager := mkAutocertManager {
  am_DirectoryURL : string; am_UserAgent : string; am_Email : string;
  am_HostWhitelist : list string; am_RenewBefore : Z
}.

Record Manager := mkManager {
  m_manager : AutocertManager;
  m_getCertificate : option Hello -> res TLSCert
}.

Definition Manager_GetCertificate (m : Manager) (hello : option Hello) : res TLSCert := m_getCertificate m hello.

(** The [tls.Config] of the embedded manager, with [GetCertificate] replaced. *)
Record tlsConfig := mkTLS { t_GetCertificate : option Hello -> res TLSCert; t_NextProtos : list string }.
Definition Manager_TLSConfig (m : Manager) (autocert_TLSConfig : AutocertManager -> tlsConfig) : tlsConfig :=
  mkTLS (Manager_GetCertificate m) (t_NextProtos (autocert_TLSConfig (m_manager m))).

(** [autocert_GetCertificate] is the method of the embedded manager; [cache] tells whether a cache was given. *)
Definition NewAutocertManager (ip_literal : string -> bool)
    (autocert_GetCertificate : AutocertManager -> option Hello -> res TLSCert)
    (cache : bool) (cl : AutocertConfig) (allowedHosts : list string) : res Manager :=
  if negb cache then Err (errors_New "no cache provided")
  else
    let provider :=
      if bool_decide (ac_Provider cl = "letsencrypt") then Ok LetsEncryptProduction
      else if bool_decide (ac_Provider cl = "letsencrypt-staging") then Ok LetsEncryptStaging
      else if Nat.eqb (slen (ac_Provider cl)) 0 then Ok LetsEncryptStaging
      else match Parse ip_literal (ac_Provider cl) with
           | Err _ => Err (Errorf "invalid url: %v: %v" [ac_Provider cl] [])
           | Ok _ => Ok (ac_Provider cl)
           end in
    match provider with
    | Err e => Err e
    | Ok provider =>
        let mgr := mkAutocertManager provider (ac_UserAgent cl) (ac_Email cl) allowedHosts (ac_RenewBefore cl) in
        Ok (mkManager mgr
              (if ac_AllowRSACertificates cl then autocert_GetCertificate mgr
               else GetCertificateECDSAOnly (autocert_GetCertificate mgr)))
    end.

(** ** acme_client.go *)

Record clientOptions := mkClientOptions {
  refreshInterval : Z; refreshMetric : option string; refreshOnFailure : Z
}.

Definition RefreshMetricsColumns : list string := ["host"; "status"].
Definition RefreshMetricStatusValues : list string := ["failed"; "expired"; "ok"].

Definition WithRefreshInterval (interval : Z) (o : clientOptions) : clientOptions :=
  mkClientOptions interval (refreshMetric o) (refreshOnFailure o).
Definition WithRefreshMetric (m : option string) (o : clientOptions) : clientOptions :=
  mkClientOptions (refreshInterval o) m (refreshOnFailure o).
Definition WithRefreshOnFailure (interval : Z) (o : clientOptions) : clientOptions :=
  mkClientOptions (refreshInterval o) (refreshMetric o) interval.

Definition hour : Z := 3600000000000.
Definition minute : Z := 60000000000.

Record Client := mkClient { cl_mgr : Manager; cl_opts : clientOptions }.

Definition NewClient (mgr : Manager) (opts : list (clientOptions -> clientOptions)) : Client :=
  let o := fold_left (fun o opt => opt o) opts (mkClientOptions 0 None 0) in
  let o := if (refreshInterval o <=? 0)%Z then WithRefreshInterval hour o else o in
  let o := if (refreshOnFailure o <=? 0)%Z then WithRefreshOnFailure minute o else o in
  let o := match refreshMetric o with None => WithRefreshMetric (Some "noop") o | Some _ => o end in
  mkClient mgr o.

(** The time after which a certificate's leaf is expired; [None] when the leaf
    was not parsed. *)
Variable Leaf_NotAfter : TLSCert -> option Z.

Definition refresh_hello (host : string) : Hello :=
  mkHello host (Some PreferredSignatureSchemes) None PreferredCipherSuites.

(** One refresh: its error, and the labels the metric was called with. *)
Definition refreshHost (s : Client) (now : Z) (host : string) (metrics : list (string * string))
  : go (option error * list (string * string)) :=
  match Manager_GetCertificate (cl_mgr s) (Some (refresh_hello host)) with
  | Err e => Ret (Some e, metrics ++ [(host, "failed")])
  | Ok cert =>
      match Leaf_NotAfter cert with
      | None => Panic NilDereference
      | Some notAfter =>
          Ret (None, if (notAfter <? now)%Z then metrics else metrics ++ [(host, "ok")])
      end
  end.

(** certcache/util.go: the manager is asked with the hello of a refresh. *)
Definition RefreshCertificate (mgr_GetCertificate : option Hello -> res TLSCert) (host : string) : res TLSCert :=
  mgr_GetCertificate (Some (refresh_hello host)).

(** certcache/util.go: a host policy that sees hosts without their port. *)
Definition WrapHostPolicyNoPort (existing : string -> option error) (host : string) : option error :=
  existing (match SplitHostPort host with Ok (h, _) => h | Err _ => host end).

(** What the [select] of a refresh loop sees. *)
Inductive tick := Tick | Cancelled.

(** [getCertificate]: retries until a refresh succeeds. [s n] and
    [now n] are the client and the clock at attempt [n], [script] the events between attempts;
    [None]: the script ends while the loop still runs. *)
Fixpoint getCertificate (s : nat -> Client) (n : nat) (now : nat -> Z) (host : string) (script : list tick)
    (metrics : list (string * string)) : go (option (nat * list (string * string))) :=
  r ← refreshHost (s n) (now n) host metrics;
  let '(err, metrics) := r in
  match err with
  | None => Ret (Some (S n, metrics))
  | Some _ =>
      match script with
      | [] => Ret None
      | Cancelled :: _ => Ret (Some (S n, metrics))
      | Tick :: script' => getCertificate s (S n) now host script' metrics
      end
  end.

(** [stop]: the error of the refresh loops, or a timeout. *)
Definition stop (errCh : option (option error)) : option error :=
  match errCh with
  | Some err => err
  | None => Some (errors_New "timeout waiting for acme server to stop")
  end.

End manager.
#[global] Arguments Manager : clear implicits.
#[global] Arguments Client : clear implicits.

(** ** Lemmas *)

Lemma any_in_true xs l : any_in xs l = true <-> exists x, x ∈ xs /\ x ∈ l.
Proof.
  induction xs as [|x xs IH]; simpl; [split; [done|intros (x & Hx & _); by apply elem_of_nil in Hx]|].
  destruct (contains l x) eqn:E.
  - apply contains_true in E. split; [|done]. intros _. exists x. split; [by left|done].
  - apply contains_false in E. rewrite IH. split; intros (y & Hy & Hl); exists y; (split; [|done]); [by right|].
    apply elem_of_cons in Hy as [->|]; [done|done].
Qed.

Lemma SupportsECDSA_iff hello :
  SupportsECDSA (Some hello) = true <->
  (forall schemes, SignatureSchemes hello = Some schemes -> exists x, x ∈ schemes /\ x ∈ ecdsa_schemes) /\
  (forall curves, SupportedCurves hello = Some curves -> CurveP256 ∈ curves) /\
  exists suite, suite ∈ CipherSuites hello /\ suite ∈ ecdsa_suites.
Proof.
  unfold SupportsECDSA. rewrite <- any_in_true.
  assert (H1 : match SignatureSchemes hello with Some schemes => negb (any_in schemes ecdsa_schemes) | None => false end
      = false <-> forall schemes, SignatureSchemes hello = Some schemes -> exists x, x ∈ schemes /\ x ∈ ecdsa_schemes).
  { destruct (SignatureSchemes hello) as [l|]; [|by split]. rewrite negb_false_iff, any_in_true.
    split; [by intros ? ? [= <-]|intros H; by apply H]. }
  assert (H2 : match SupportedCurves hello with Some curves => negb (contains curves CurveP256) | None => false end
      = false <-> forall curves, SupportedCurves hello = Some curves -> CurveP256 ∈ curves).
  { destruct (SupportedCurves hello) as [l|]; [|by split]. rewrite negb_false_iff, contains_true.
    split; [by intros ? ? [= <-]|intros H; by apply H]. }
  rewrite <- H1, <- H2. clear H1 H2. destruct (match SignatureSchemes hello with Some _ => _ | None => _ end).
  { split; [done|by intros [? _]]. }
  destruct (match SupportedCurves hello with Some _ => _ | None => _ end).
  { split; [done|by intros (_ & ? & _)]. }
  split; [done|by intros (_ & _ & ?)].
Qed.

(** The hello of a refresh supports ECDSA, so no manager refuses it. *)
Lemma refresh_hello_supported host : SupportsECDSA (Some (refresh_hello host)) = true.
Proof. done. Qed.

(** A loop of failed attempts: every attempt is recorded, and only the last can
    have succeeded. *)
Lemma getCertificate_trace {TLSCert} (notAfter : TLSCert -> option Z) s now host script n metrics k metrics' :
  getCertificate notAfter s n now host script metrics = Ret (Some (k, metrics')) ->
  (n < k)%nat /\ exists last, metrics' = metrics ++ replicate (k - S n) (host, "failed") ++ last /\
    (last = [(host, "failed")] \/ last = [(host, "ok")] \/ last = []) /\
    (last <> [(host, "failed")] -> exists cert,
       Manager_GetCertificate (cl_mgr (s (k - 1)%nat)) (Some (refresh_hello host)) = Ok cert).
Proof.
  revert n metrics. induction script as [|ev script IH]; intros n metrics; simpl; unfold refreshHost;
    destruct (Manager_GetCertificate (cl_mgr (s n)) _) as [cert|e] eqn:E; simpl.
  - destruct (notAfter cert) as [t|]; [|done]. simpl. intros [= <- <-]. split; [lia|].
    replace (S n - S n)%nat with 0%nat by lia. simpl. replace (n - 0)%nat with n by lia.
    destruct (t <? now n)%Z; [exists []; rewrite !app_nil_r|exists [(host, "ok")]]; split_and!; eauto.
  - done.
  - destruct (notAfter cert) as [t|]; [|done]. simpl. intros [= <- <-]. split; [lia|].
    replace (S n - S n)%nat with 0%nat by lia. simpl. replace (n - 0)%nat with n by lia.
    destruct (t <? now n)%Z; [exists []; rewrite !app_nil_r|exists [(host, "ok")]]; split_and!; eauto.
  - destruct ev.
    + intros (Hk & last & -> & HL)%IH. split; [lia|]. exists last. split; [|done].
      replace (k - S n)%nat with (S (k - S (S n))) by lia. simpl. by rewrite <- app_assoc.
    + intros [= <- <-]. split; [lia|]. exists [(host, "failed")].
      replace (S n - S n)%nat with 0%nat by lia. split_and!; [done|by left|done].
Qed.

(** ** Properties *)

(** A hello that an ECDSA P-256 certificate can be sent to, by the numbers that
    IANA has assigned: an ECDSA signature scheme (with SHA-1 or on P-256, P-384 or
    P-521) unless it lists no schemes, the curve secp256r1 unless it lists no curves,
    and one of the ECDHE_ECDSA cipher suites. *)
Definition accepts_ecdsa (hello : Hello) : Prop :=
  (forall schemes, SignatureSchemes hello = Some schemes ->
     exists x, x ∈ schemes /\ (x = 0x0203 \/ x = 0x0403 \/ x = 0x0503 \/ x = 0x0603)%N) /\
  (forall curves, SupportedCurves hello = Some curves -> 23%N ∈ curves) /\
  exists suite, suite ∈ CipherSuites hello /\
    (suite = 0xc007 \/ suite = 0xc009 \/ suite = 0xc00a \/ suite = 0xc023 \/ suite = 0xc02b \/ suite = 0xc02c \/ suite = 0xcca9)%N.

Lemma in_ecdsa_schemes x : x ∈ ecdsa_schemes <-> (x = 0x0203 \/ x = 0x0403 \/ x = 0x0503 \/ x = 0x0603)%N.
Proof.
  unfold ecdsa_schemes, ECDSAWithP256AndSHA256, ECDSAWithP384AndSHA384, ECDSAWithP521AndSHA512.
  rewrite !elem_of_cons, elem_of_nil. tauto.
Qed.

Lemma in_ecdsa_suites x :
  x ∈ ecdsa_suites <->
  (x = 0xc007 \/ x = 0xc009 \/ x = 0xc00a \/ x = 0xc023 \/ x = 0xc02b \/ x = 0xc02c \/ x = 0xcca9)%N.
Proof. unfold ecdsa_suites. rewrite !elem_of_cons, elem_of_nil. tauto. Qed.

Lemma SupportsECDSA_accepts hello : SupportsECDSA (Some hello) = true <-> accepts_ecdsa hello.
Proof.
  rewrite SupportsECDSA_iff. unfold accepts_ecdsa. setoid_rewrite in_ecdsa_schemes. by setoid_rewrite in_ecdsa_suites.
Qed.

(** C36 ECDSA only: a manager configured without RSA certificates asks autocert
    for a certificate exactly for the hellos that an ECDSA certificate can be sent
    to, by the assigned numbers of their schemes, curves and cipher suites, and
    refuses all others whatever autocert would do; it uses the directory URL and the
    host whitelist of the configuration; and the client's own refresh requests are
    never refused by it. *)
Theorem ecdsa_only_manager {TLSCert} ip_literal (autocert : AutocertManager -> option Hello -> res TLSCert)
    cl hosts m hello host :
  NewAutocertManager ip_literal autocert true cl hosts = Ok m -> ac_AllowRSACertificates cl = false ->
  am_DirectoryURL (m_manager m) = DirectoryURL cl /\ am_HostWhitelist (m_manager m) = hosts /\
  (accepts_ecdsa hello -> Manager_GetCertificate m (Some hello) = autocert (m_manager m) (Some hello)) /\
  (~ accepts_ecdsa hello -> exists e, Manager_GetCertificate m (Some hello) = Err e) /\
  Manager_GetCertificate m (Some (refresh_hello host)) = autocert (m_manager m) (Some (refresh_hello host)).
Proof.
  intros Hm Hrsa. unfold NewAutocertManager in Hm. simpl in Hm.
  assert (HU : exists u, u = DirectoryURL cl /\ m = mkManager
    (mkAutocertManager u (ac_UserAgent cl) (ac_Email cl) hosts (ac_RenewBefore cl))
    (GetCertificateECDSAOnly (autocert (mkAutocertManager u (ac_UserAgent cl) (ac_Email cl) hosts (ac_RenewBefore cl))))).
  { rewrite Hrsa in Hm. unfold DirectoryURL. repeat case_bool_decide; [by injection Hm as <-; eauto..|].
    destruct (Nat.eqb _ _); [by injection Hm as <-; eauto|].
    destruct (Parse _ _); [|done]. injection Hm as <-. eauto. }
  destruct HU as (u & -> & ->). unfold Manager_GetCertificate. cbn [m_getCertificate m_manager].
  split_and!; [done|done| | |].
  - rewrite <- SupportsECDSA_accepts. intros HS. unfold GetCertificateECDSAOnly. by rewrite HS.
  - rewrite <- SupportsECDSA_accepts, not_true_iff_false. intros HS. unfold GetCertificateECDSAOnly. rewrite HS. eauto.
  - done.
Qed.

Definition example_config : AutocertConfig := mkAutocert "a@b.c" "ua" "letsencrypt" 0 false.

Lemma ecdsa_only_manager_witness :
  exists m, NewAutocertManager (TLSCert := string) (fun _ => true) (fun _ _ => Ok "cert") true example_config ["h"] = Ok m /\
    am_DirectoryURL (m_manager m) = LetsEncryptProduction /\
    exists e, Manager_GetCertificate m (Some (mkHello "h" (Some [Ed25519]) None ecdsa_suites)) = Err e.
Proof.
  eexists. split; [reflexivity|].
  match goal with |- am_DirectoryURL (m_manager ?m) = _ /\ _ =>
    pose proof (ecdsa_only_manager (TLSCert := string) (fun _ => true) (fun _ _ => Ok "cert") example_config ["h"] m
      (mkHello "h" (Some [Ed25519]) None ecdsa_suites) "h" eq_refl eq_refl) as (HD & _ & _ & HE & _) end.
  split; [exact HD|]. apply HE. intros [Hs _]. destruct (Hs _ eq_refl) as (x & ->%list_elem_of_singleton & Hx).
  vm_compute in Hx. naive_solver.
Defined.
