(* ===== verification/AcmeLoop.v ===== *)
(** * The refresh loops of the ACME client

Models [Start] and [refresh] of [webauth/acme/acme_client.go] and the loop of
[getCertificate] as a transition system: one goroutine per host, each with a
ticker for its refresh interval and, while it asks for a certificate, a ticker
for its retries; the goroutine that waits for all of them; and the channel of
capacity one that [stop] reads.  The environment decides when an attempt
returns and whether it failed, when tickers fire and when the context is
cancelled. *)

From S2P Require Import Prelude GoStrings GoErrors GoNet TLSNames ServerConfig Acme.

(** ** State *)

(** Where the loop of a host is: in [refreshHost], in the [select] of
    [getCertificate] after a failure, in the [select] of [refresh], or ended. *)
Inductive hphase := Attempting | WaitRetry | WaitInterval | HostDone.

#[global] Instance hphase_eq_dec : EqDecision hphase.
Proof. solve_decision. Defined.

(** A ticker's channel holds at most one tick. *)
Record hstate := mkH { h_phase : hphase; h_retry : bool; h_interval : bool }.

(** [c_errCh] is what [refresh] has sent. *)
Record cstate := mkC { c_hosts : list hstate; c_cancelled : bool; c_errCh : option (option error) }.

(** [Start]: every loop begins with an attempt. *)
Definition Start (hosts : list string) : cstate :=
  mkC (map (fun _ => mkH Attempting false false) hosts) false None.

(** ** Steps *)

(** One step of a host's loop. The retry ticker exists from the call of
    [getCertificate] to its return. *)
Inductive loop_step (cancelled : bool) : hstate -> hstate -> Prop :=
| attempt_ok rt it : loop_step cancelled (mkH Attempting rt it) (mkH WaitInterval false it)
| attempt_failed rt it : loop_step cancelled (mkH Attempting rt it) (mkH WaitRetry rt it)
| retry it : loop_step cancelled (mkH WaitRetry true it) (mkH Attempting false it)
| retry_cancelled rt it : cancelled = true -> loop_step cancelled (mkH WaitRetry rt it) (mkH WaitInterval false it)
| interval rt : loop_step cancelled (mkH WaitInterval rt true) (mkH Attempting false false)
| interval_cancelled rt it : cancelled = true -> loop_step cancelled (mkH WaitInterval rt it) (mkH HostDone false it).

(** A ticker fires. *)
Inductive tick_step : hstate -> hstate -> Prop :=
| retry_ticks p rt it : p = Attempting \/ p = WaitRetry -> tick_step (mkH p rt it) (mkH p true it)
| interval_ticks p rt it : p <> HostDone -> tick_step (mkH p rt it) (mkH p rt true).

(** A step of the client's own goroutines. Every loop returns nil, so that is
    what waiting for all of them yields. *)
Inductive cstep : cstate -> cstate -> Prop :=
| host_moves i s s' hs c ch :
    hs !! i = Some s -> loop_step c s s' -> cstep (mkC hs c ch) (mkC (<[i := s']> hs) c ch)
| all_done hs c :
    Forall (fun s => h_phase s = HostDone) hs -> cstep (mkC hs c None) (mkC hs c (Some None)).

Inductive env_step : cstate -> cstate -> Prop :=
| ticker_fires i s s' hs c ch :
    hs !! i = Some s -> tick_step s s' -> env_step (mkC hs c ch) (mkC (<[i := s']> hs) c ch)
| context_done hs ch : env_step (mkC hs false ch) (mkC hs true ch).

Inductive creach (hosts : list string) : cstate -> Prop :=
| creach_start : creach hosts (Start hosts)
| creach_cstep s s' : creach hosts s -> cstep s s' -> creach hosts s'
| creach_env s s' : creach hosts s -> env_step s s' -> creach hosts s'.

(** [eventually k P s]: whatever the goroutines do and however their steps are
    ordered with at most [k] ticks of the tickers, [P] comes to hold, and until
    then there is a step. *)
Inductive eventually (P : cstate -> Prop) : nat -> cstate -> Prop :=
| ev_now k s : P s -> eventually P k s
| ev_step k s :
    (exists s', cstep s s') -> (forall s', cstep s s' -> eventually P k s') ->
    (forall k' s', k = S k' -> env_step s s' -> eventually P k' s') -> eventually P k s.

(** ** Lemmas *)

Definition weight (s : hstate) : nat :=
  match h_phase s with
  | HostDone => 0
  | WaitInterval => 1 + (if h_interval s then 3 else 0)
  | WaitRetry => 2 + (if h_retry s then 2 else 0) + (if h_interval s then 3 else 0)
  | Attempting => 3 + (if h_retry s then 2 else 0) + (if h_interval s then 3 else 0)
  end.

Definition cweight (s : cstate) : nat :=
  list_sum (map weight (c_hosts s)) + match c_errCh s with None => 1 | Some _ => 0 end.

Lemma list_sum_insert (hs : list hstate) i s s' :
  hs !! i = Some s ->
  (list_sum (map weight (<[i := s']> hs)) + weight s = list_sum (map weight hs) + weight s')%nat.
Proof.
  revert i. induction hs as [|x hs IH]; intros [|i] Hi; simplify_eq/=; [lia|].
  pose proof (IH _ Hi). lia.
Qed.

Lemma loop_step_weight c s s' : loop_step c s s' -> (weight s' < weight s)%nat.
Proof. destruct 1; unfold weight; simpl; repeat case_match; lia. Qed.

Lemma tick_step_weight s s' : tick_step s s' -> (weight s' <= weight s + 3)%nat.
Proof. destruct 1; unfold weight; simpl; repeat case_match; simplify_eq/=; lia. Qed.

Lemma cstep_weight s s' : cstep s s' -> (cweight s' < cweight s)%nat.
Proof.
  destruct 1 as [i s s' hs c ch Hi Hs|hs c Hd]; unfold cweight; simpl; [|lia].
  pose proof (list_sum_insert _ _ _ s' Hi). apply loop_step_weight in Hs. lia.
Qed.

Lemma env_step_weight s s' : env_step s s' -> (cweight s' <= cweight s + 3)%nat.
Proof.
  destruct 1 as [i s s' hs c ch Hi Hs|hs ch]; unfold cweight; simpl; [|lia].
  pose proof (list_sum_insert _ _ _ s' Hi). apply tick_step_weight in Hs. lia.
Qed.

(** What the channel holds is nil, and it is sent after the last loop has
    ended, which takes a cancellation unless there are no hosts. *)
Definition cinv (s : cstate) : Prop :=
  (forall r, c_errCh s = Some r -> r = None /\ Forall (fun h => h_phase h = HostDone) (c_hosts s)) /\
  (Exists (fun h => h_phase h = HostDone) (c_hosts s) -> c_cancelled s = true).

Lemma done_insert (hs : list hstate) i s :
  hs !! i = Some s -> h_phase s <> HostDone -> ~ Forall (fun h => h_phase h = HostDone) hs.
Proof. intros Hi Hp HF. apply Hp. by eapply Forall_lookup_1 in HF. Qed.

Lemma loop_step_alive c s s' : loop_step c s s' -> h_phase s <> HostDone /\ (h_phase s' = HostDone -> c = true).
Proof. by destruct 1. Qed.

Lemma exists_insert (hs : list hstate) i s' :
  Exists (fun h => h_phase h = HostDone) (<[i := s']> hs) ->
  h_phase s' = HostDone \/ Exists (fun h => h_phase h = HostDone) hs.
Proof.
  rewrite !Exists_exists. intros (x & Hx & Hp). apply list_elem_of_lookup in Hx as [j Hj].
  apply list_lookup_insert_Some in Hj as [(_ & <- & _)|(_ & Hj)]; [by left|].
  right. exists x. split; [by eapply list_elem_of_lookup_2|done].
Qed.

Lemma cstep_inv s s' : cinv s -> cstep s s' -> cinv s'.
Proof.
  intros [H1 H2] Hs. destruct Hs as [i s s' hs c ch Hi Hs|hs c Hd]; simpl in *.
  - apply loop_step_alive in Hs as [Ha Hd]. split; simpl.
    + intros r Hr. destruct (H1 r Hr) as [_ HF]. by destruct (done_insert hs i s Hi Ha).
    + intros [Hp|HE]%exists_insert; auto.
  - split; [|done]. by intros r [= <-].
Qed.

Lemma env_step_inv s s' : cinv s -> env_step s s' -> cinv s'.
Proof.
  intros [H1 H2] Hs. destruct Hs as [i s s' hs c ch Hi Hs|hs ch]; simpl in *; [|by split].
  assert (Hp : h_phase s' = h_phase s /\ h_phase s <> HostDone).
  { destruct Hs as [p ?? [->| ->]|p ???]; by split. }
  destruct Hp as [Hp Ha]. split; simpl.
  - intros r Hr. destruct (H1 r Hr) as [_ HF]. by destruct (done_insert hs i s Hi Ha).
  - intros [Hd|HE]%exists_insert; [congruence|auto].
Qed.

Lemma creach_inv hosts s : creach hosts s -> cinv s.
Proof.
  induction 1; eauto using cstep_inv, env_step_inv. split; [done|]. simpl.
  rewrite Exists_exists. intros (h & Hh & Hp). apply list_elem_of_fmap in Hh as (? & -> & _). done.
Qed.

(** After the cancellation the client can always move until it has reported. *)
Lemma cancelled_moves hs : exists s', cstep (mkC hs true None) s'.
Proof.
  destruct (decide (Forall (fun s => h_phase s = HostDone) hs)) as [Hd|Hn].
  { eexists. by apply all_done. }
  apply not_Forall_Exists in Hn; [|apply _]. apply Exists_exists in Hn as (s & Hs & Hp).
  apply list_elem_of_lookup in Hs as [i Hi].
  destruct s as [[] rt it]; simpl in Hp; [..|done]; eexists; eapply host_moves; try exact Hi;
    eauto using attempt_ok, retry_cancelled, interval_cancelled.
Qed.

Lemma cancelled_stays s s' : cstep s s' -> c_cancelled s = true -> c_cancelled s' = true.
Proof. by destruct 1. Qed.

Lemma env_cancelled_stays s s' : env_step s s' -> c_cancelled s = true -> c_cancelled s' = true.
Proof. by destruct 1. Qed.

Lemma finishes k s :
  c_cancelled s = true -> (forall r, c_errCh s = Some r -> r = None) ->
  eventually (fun s => c_errCh s = Some None) k s.
Proof.
  remember (cweight s + 4 * k)%nat as n eqn:Hn. revert k s Hn.
  induction n as [n IH] using lt_wf_ind. intros k s -> Hc He.
  destruct (c_errCh s) as [r|] eqn:E; [apply ev_now; rewrite E; f_equal; by apply He|].
  apply ev_step.
  - destruct s as [hs c ch]. simpl in *. subst. apply cancelled_moves.
  - intros s' Hs. pose proof (cstep_weight _ _ Hs). eapply IH; [|reflexivity|by eapply cancelled_stays|]; [lia|].
    intros r Hr. destruct Hs; simpl in *; congruence.
  - intros k' s' -> Hs. pose proof (env_step_weight _ _ Hs).
    eapply IH; [|reflexivity|by eapply env_cancelled_stays|]; [lia|].
    intros r Hr. destruct Hs; simpl in *; congruence.
Qed.

(** ** Properties *)

(** C30 Stopping the ACME client: once the context is cancelled, from any state
    that the client can be in, whatever the attempts still under way return
    and however the goroutines are scheduled, the refresh loops of all hosts
    end and report, provided the tickers fire only finitely often (any number
    [k] of times) before that; [stop] then returns nil.  Conversely, [stop]
    receives a value only after the loops of all hosts have ended, and no loop
    ends unless the context was cancelled. *)
Theorem refresh_stops hosts s k :
  creach hosts s ->
  (c_cancelled s = true ->
     eventually (fun s' => exists r, c_errCh s' = Some r /\ stop (Some r) = None) k s) /\
  (forall r, c_errCh s = Some r -> stop (Some r) = None /\ Forall (fun h => h_phase h = HostDone) (c_hosts s)) /\
  (Exists (fun h => h_phase h = HostDone) (c_hosts s) -> c_cancelled s = true).
Proof.
  intros Hr%creach_inv. destruct Hr as [H1 H2]. split_and!.
  - intros Hc. pose proof (finishes k s Hc (fun r Hr => proj1 (H1 r Hr))) as HE.
    clear -HE. induction HE as [k s HP|k s HM _ IH1 _ IH2]; [apply ev_now; eauto|]. by apply ev_step.
  - intros r Hr. destruct (H1 r Hr) as [-> HF]. by split.
  - exact H2.
Qed.

Lemma refresh_stops_witness :
  eventually (fun s' => exists r, c_errCh s' = Some r /\ stop (Some r) = None) 3
    (mkC [mkH WaitRetry true false; mkH Attempting false true] true None).
Proof.
  apply (refresh_stops ["a"; "b"] (mkC [mkH WaitRetry true false; mkH Attempting false true] true None) 3);
    [|reflexivity].
  eapply creach_env; [|apply context_done].
  eapply creach_env; [|apply (ticker_fires 1 (mkH Attempting false false) (mkH Attempting false true)
                                [mkH WaitRetry true false; mkH Attempting false false]); [done|by constructor]].
  eapply creach_env; [|apply (ticker_fires 0 (mkH WaitRetry false false) (mkH WaitRetry true false)
                                [mkH WaitRetry false false; mkH Attempting false false]); [done|by constructor; right]].
  eapply creach_cstep; [apply creach_start|].
  apply (host_moves 0 (mkH Attempting false false) (mkH WaitRetry false false)
           [mkH Attempting false false; mkH Attempting false false]); [done|constructor].
Defined.
