(* ===== verification/Shutdown.v ===== *)
(** * Running and stopping HTTP servers

Models [shutdown.go].  [serveWithShutdown] is a transition system: the goroutine
that serves, the channel of capacity one through which it reports, and the two
[select] statements of the caller.  What the code does and what its environment
does are two relations: the environment decides when the server function and
[Shutdown] return, when the context is cancelled and when the grace period ends;
going on once that has happened is up to the code. *)

From S2P Require Import Prelude GoStrings GoErrors.

(** ** serveWithShutdown *)

(** Where the caller is. *)
Inductive phase :=
| FirstSelect
| CallingShutdown
| SecondSelect
| Returned (err : option error).

(** What the server function returned, whether the goroutine has sent its report,
    what is in the channel, whether the context is done, what [Shutdown] returned,
    and whether the grace period has ended. *)
Record sstate := mkS {
  s_phase : phase;
  s_served : option (option error);
  s_sent : bool;
  s_chan : option (option error);
  s_cancelled : bool;
  s_shutdown : option (option error);
  s_grace : bool
}.

Definition s_init : sstate := mkS FirstSelect None false None false None false.

(** What the goroutine sends for the error of the server function. *)
Definition report (err : option error) : option error :=
  match err with
  | Some e => if negb (errors_is e http_ErrServerClosed) then Some e else None
  | None => None
  end.

Definition unexpected (addr : string) (e : error) : error :=
  Errorf "server %v, unexpected error %w" [addr] [e].
Definition shutdown_failed (addr : string) (e : error) : error :=
  Errorf "server running on %v, shutdown failed %s: %w" [addr] [e].

Section serve.
Variable addr : string.

(** The environment. The grace period begins with the call of [Shutdown]. *)
Inductive senv : sstate -> sstate -> Prop :=
| serve_returns p st ch c sh g err :
    senv (mkS p None st ch c sh g) (mkS p (Some err) st ch c sh g)
| context_cancelled p sv st ch sh g :
    senv (mkS p sv st ch false sh g) (mkS p sv st ch true sh g)
| shutdown_returns sv st ch c g err :
    senv (mkS CallingShutdown sv st ch c None g) (mkS CallingShutdown sv st ch c (Some err) g)
| grace_ends p sv st ch c sh :
    p = CallingShutdown \/ p = SecondSelect ->
    senv (mkS p sv st ch c sh false) (mkS p sv st ch c sh true).

(** The code: the goroutine and its caller. *)
Inductive sstep : sstate -> sstate -> Prop :=
| goroutine_sends p err c sh g :
    sstep (mkS p (Some err) false None c sh g) (mkS p (Some err) true (Some (report err)) c sh g)
| first_receives sv st v c sh g :
    sstep (mkS FirstSelect sv st (Some v) c sh g)
          (mkS (Returned (match v with Some e => Some (unexpected addr e) | None => None end)) sv st None c sh g)
| first_done sv st ch sh g :
    sstep (mkS FirstSelect sv st ch true sh g) (mkS CallingShutdown sv st ch true sh g)
| shutdown_checked sv st ch c err g :
    sstep (mkS CallingShutdown sv st ch c (Some err) g)
          (mkS (match err with
                | Some e => if negb (errors_is e context_Canceled) then Returned (Some (shutdown_failed addr e))
                            else SecondSelect
                | None => SecondSelect
                end) sv st ch c (Some err) g)
| second_receives sv st v c sh g :
    sstep (mkS SecondSelect sv st (Some v) c sh g)
          (mkS (Returned (match v with
                          | Some e => if errors_is e context_Canceled then None else Some e
                          | None => None
                          end)) sv st None c sh g)
| second_done sv st ch c sh :
    (** the shutdown context only ends by its deadline *)
    sstep (mkS SecondSelect sv st ch c sh true) (mkS (Returned (Some (Sentinel context_DeadlineExceeded))) sv st ch c sh true).

Definition sany (s s' : sstate) : Prop := senv s s' \/ sstep s s'.

Inductive sreach : sstate -> Prop :=
| sreach_init : sreach s_init
| sreach_step s s' : sreach s -> sany s s' -> sreach s'.

(** Runs of exactly [n] steps of a relation. *)
Inductive sruns (R : sstate -> sstate -> Prop) : nat -> sstate -> sstate -> Prop :=
| sruns_0 s : sruns R 0 s s
| sruns_S n s s' s'' : R s s' -> sruns R n s' s'' -> sruns R (S n) s s''.

(** The steps left, at most. *)
Definition phase_measure (p : phase) : nat :=
  match p with FirstSelect => 3 | CallingShutdown => 2 | SecondSelect => 1 | Returned _ => 0 end.
Definition unset {A} (o : option A) : nat := match o with None => 1 | Some _ => 0 end.
Definition unset_b (b : bool) : nat := if b then 0 else 1.
Definition measure (s : sstate) : nat :=
  phase_measure (s_phase s) + unset (s_served s) + unset_b (s_sent s) + unset_b (s_cancelled s)
  + unset (s_shutdown s) + unset_b (s_grace s).

(** What the caller waits for: the code can only go on when the environment does. *)
Definition waiting (s : sstate) : Prop :=
  match s_phase s with
  | FirstSelect => s_served s = None /\ s_cancelled s = false
  | CallingShutdown => s_shutdown s = None
  | SecondSelect => s_served s = None /\ s_grace s = false
  | Returned _ => False
  end.

(** *** Lemmas *)

Lemma sany_measure s s' : sany s s' -> (measure s' < measure s)%nat.
Proof.
  unfold measure. intros [H|H]; destruct H; simpl; try lia.
  destruct err as [e|]; [destruct (errors_is e context_Canceled)|]; simpl; lia.
Qed.

Lemma sruns_measure R n s s' : (forall s s', R s s' -> sany s s') -> sruns R n s s' -> (n + measure s' <= measure s)%nat.
Proof. intros HR. induction 1 as [|n s s' s'' Hs _ IH]; [lia|]. apply HR, sany_measure in Hs. lia. Qed.

(** How an outcome came about. *)
Definition accounted (s : sstate) (out : option error) : Prop :=
  (exists r, s_served s = Some r /\
     (out = (match report r with Some e => Some (unexpected addr e) | None => None end) \/
      s_cancelled s = true /\
        out = match report r with Some e => if errors_is e context_Canceled then None else Some e | None => None end)) \/
  s_cancelled s = true /\
    (s_grace s = true /\ out = Some (Sentinel context_DeadlineExceeded) \/
     exists e, s_shutdown s = Some (Some e) /\ errors_is e context_Canceled = false /\ out = Some (shutdown_failed addr e)).

(** What holds of every reachable state: the channel holds what the server
    function returned from when it is sent until it is received, [Shutdown] is only
    called once the context is cancelled, and the outcome is accounted for. *)
Definition sinv (s : sstate) : Prop :=
  (s_sent s = false -> s_chan s = None) /\
  (forall v, s_chan s = Some v -> exists r, s_served s = Some r /\ v = report r) /\
  (s_sent s = true -> (exists out, s_phase s = Returned out) \/ s_chan s <> None) /\
  (s_phase s <> FirstSelect -> (forall out, s_phase s <> Returned out) -> s_cancelled s = true) /\
  (forall out, s_phase s = Returned out -> accounted s out).

Ltac known_outcome Ho :=
  let out := fresh "out" in
  intros out ->; destruct (Ho out eq_refl) as [(r & Hr & [Hx|[Hc Hx]])|[Hc [[Hg Hx]|(e & He & Hn & Hx)]]];
  unfold accounted; simpl in *; simplify_eq; naive_solver.

Lemma senv_inv s s' : sinv s -> senv s s' -> sinv s'.
Proof.
  intros (H1 & H2 & H3 & H4 & Ho) Hs. destruct Hs; unfold sinv; simpl in *.
  - split_and!; [done| |done|done|known_outcome Ho]. intros v Hv. by destruct (H2 v Hv) as (r & ? & _).
  - split_and!; [done|done|done|done|known_outcome Ho].
  - by split_and!.
  - split_and!; [done|done|done|done|]. intros out ->. by destruct H as [?|?].
Qed.

Lemma sstep_inv s s' : sinv s -> sstep s s' -> sinv s'.
Proof.
  intros (H1 & H2 & H3 & H4 & Ho) Hs. destruct Hs; unfold sinv; simpl in *.
  - split_and!; [done| |by right|done|known_outcome Ho]. intros v [= <-]. eauto.
  - destruct (H2 v eq_refl) as (r & -> & ->). split_and!; [done|done|eauto|naive_solver|].
    intros out [= <-]. left. exists r. auto.
  - split_and!; [done|done| |done|done]. intros Hst. destruct (H3 Hst) as [[? ?]|]; [done|by right].
  - assert (Hc : c = true) by (by apply H4). subst c.
    destruct err as [e|]; [destruct (errors_is e context_Canceled) eqn:Ee|]; simpl.
    + split_and!; [done|done| |done|done]. intros Hst. destruct (H3 Hst) as [[? ?]|]; [done|by right].
    + split_and!; [done|done|eauto|naive_solver|]. intros out [= <-]. right. simpl. eauto 10.
    + split_and!; [done|done| |done|done]. intros Hst. destruct (H3 Hst) as [[? ?]|]; [done|by right].
  - destruct (H2 v eq_refl) as (r & -> & ->). assert (Hc : c = true) by (by apply H4). subst c.
    split_and!; [done|done|eauto|naive_solver|]. intros out [= <-]. left. exists r. auto.
  - assert (Hc : c = true) by (by apply H4). subst c.
    split_and!; [done|done|eauto|naive_solver|]. intros out [= <-]. right. simpl. auto.
Qed.

Lemma sreach_inv s : sreach s -> sinv s.
Proof.
  induction 1 as [|s s' _ IH [Hs|Hs]]; [|by eapply senv_inv|by eapply sstep_inv].
  split_and!; simpl; done.
Qed.

(** The code goes on by itself unless the caller waits for the environment. *)
Lemma sreach_progress s :
  sreach s -> (exists out, s_phase s = Returned out) \/ waiting s \/ exists s', sstep s s'.
Proof.
  intros (H1 & H2 & H3 & _)%sreach_inv. destruct s as [p sv st ch c sh g]. unfold waiting. simpl in *.
  assert (Hsent : forall err, sv = Some err -> st = false -> exists s', sstep (mkS p sv st ch c sh g) s').
  { intros err -> ->. rewrite (H1 eq_refl). eexists. apply goroutine_sends. }
  assert (Hserved : forall err, sv = Some err -> st = true -> (forall out, p <> Returned out) -> exists v, ch = Some v).
  { intros err _ Hst Hp. destruct (H3 Hst) as [[out ->]|]; [by destruct (Hp out)|]. destruct ch; eauto. done. }
  destruct p as [| | |out]; [right..|left; eauto].
  - destruct c; [right; eexists; apply first_done|]. destruct sv as [err|]; [right|by left].
    destruct st; [|by eapply Hsent]. destruct (Hserved err) as [v ->]; [done..|]. eexists. apply first_receives.
  - destruct sh as [err|]; [right; eexists; apply shutdown_checked|by left].
  - destruct g; [right; eexists; apply second_done|]. destruct sv as [err|]; [right|by left].
    destruct st; [|by eapply Hsent]. destruct (Hserved err) as [v ->]; [done..|]. eexists. apply second_receives.
Qed.

(** Nothing the environment has done is undone. *)
Lemma sstep_environment s s' :
  sstep s s' -> s_served s' = s_served s /\ s_cancelled s' = s_cancelled s /\ s_shutdown s' = s_shutdown s /\ s_grace s' = s_grace s.
Proof. by destruct 1. Qed.

(** When the context is cancelled, [Shutdown] has returned and the grace period
    has ended, or [Shutdown] has returned and so has the server function, the code
    returns by itself. *)
Definition must_return (s : sstate) : Prop :=
  s_cancelled s = true /\ s_shutdown s <> None /\ (s_served s <> None \/ s_grace s = true).

Lemma must_return_runs k s :
  (measure s <= k)%nat -> sreach s -> must_return s -> exists n s', sruns sstep n s s' /\ exists out, s_phase s' = Returned out.
Proof.
  revert s. induction k as [|k IH]; intros s Hk HR (Hc & Hs & Hw).
  { exists 0%nat, s. split; [constructor|]. unfold measure in Hk. destruct s as [[| | |out] sv st ch c sh g]; simpl in *; try lia. eauto. }
  destruct (sreach_progress s HR) as [Hout|[Hwait|[s' Hs']]].
  - exists 0%nat, s. split; [constructor|done].
  - exfalso. unfold waiting in Hwait. destruct (s_phase s); [destruct Hwait; congruence|done| |done].
    destruct Hwait. destruct Hw; congruence.
  - destruct (sstep_environment _ _ Hs') as (E1 & E2 & E3 & E4).
    destruct (IH s') as (n & s'' & Hruns & Hout).
    + pose proof (sany_measure _ _ (or_intror Hs')). lia.
    + eapply sreach_step; [done|by right].
    + unfold must_return. by rewrite E1, E2, E3, E4.
    + exists (S n), s''. split; [by econstructor|done].
Qed.

End serve.

(** ** ServeTLSWithShutdown: the guard on the TLS configuration *)
Definition ServeTLSWithShutdown {A} (TLSConfig : bool) (serve : res A) : res A :=
  if negb TLSConfig
  then Err (errors_New "ServeTLSWithShutdown requires a non-nil TLSConfig in the http.Server")
  else serve.

(** ** Creating servers *)
Section servers.
Context {Handler Cfg Listener AddrPort Ctx : Type}.

Record Server := mkServer {
  srv_Addr : string; srv_Handler : Handler; srv_ReadHeaderTimeout : Z; srv_TLSConfig : option Cfg;
  srv_BaseContext : option Ctx
}.

(** The default for [BaseContext] that [serveWithShutdown] sets. *)
Definition set_base_context (ctx : Ctx) (srv : Server) : Server :=
  match srv_BaseContext srv with
  | None => mkServer (srv_Addr srv) (srv_Handler srv) (srv_ReadHeaderTimeout srv) (srv_TLSConfig srv) (Some ctx)
  | Some _ => srv
  end.

Definition NewHTTPServerOnly (ctx : Ctx) (addr : string) (handler : Handler) : Server :=
  mkServer addr handler 60000000000 None (Some ctx).

Definition NewTLSServerOnly (ctx : Ctx) (addr : string) (handler : Handler) (cfg : option Cfg) : Server :=
  let hs := NewHTTPServerOnly ctx addr handler in
  mkServer (srv_Addr hs) (srv_Handler hs) (srv_ReadHeaderTimeout hs) cfg (srv_BaseContext hs).

Variable ParseAddrDefaultPort : string -> string -> res AddrPort.
Variable HTTPServerAddr : AddrPort -> string.
Variable Listen : string -> string -> res Listener.

Definition newServer (ctx : Ctx) (addr port : string) (handler : Handler) (cfg : option Cfg)
  : res (Listener * Server) :=
  match ParseAddrDefaultPort addr port with
  | Err e => Err e
  | Ok ap =>
      match Listen "tcp" (HTTPServerAddr ap) with
      | Err e => Err e
      | Ok ln =>
          match cfg with
          | None => Ok (ln, NewHTTPServerOnly ctx addr handler)
          | Some _ => Ok (ln, NewTLSServerOnly ctx addr handler cfg)
          end
      end
  end.

Definition NewHTTPServer (ctx : Ctx) (addr : string) (handler : Handler) : res (Listener * Server) :=
  newServer ctx addr "http" handler None.
Definition NewTLSServer (ctx : Ctx) (addr : string) (handler : Handler) (cfg : option Cfg)
  : res (Listener * Server) :=
  newServer ctx addr "https" handler cfg.

End servers.

(** ** Waiting for servers *)

(** What follows a failed attempt: the ticker fires or the context ends. *)
Inductive wait_event := WTick | WDone (ctxErr : error).

(** [ping]: the outcome of each dial and the event after it, [None] for an
    outcome without error; the result is [None] while the loop still runs. *)
Fixpoint ping (script : list (option error * wait_event)) : option (option error) :=
  match script with
  | [] => None
  | (err, ev) :: script' =>
      match err with
      | None => Some None
      | Some e =>
          if errors_is e context_Canceled then Some (Some e)
          else match ev with
               | WDone ctxErr => Some (Some ctxErr)
               | WTick => ping script'
               end
      end
  end.

(** An HTTP attempt: the request could not be built, the client failed, or a
    status came back. *)
Inductive attempt := BadRequest (e : error) | Failed (e : error) | Status (code : Z).

Definition available (code : Z) : bool := ((200 <=? code) && (code <? 400))%Z.

Fixpoint pingURL (url : string) (script : list (attempt * wait_event)) : option (option error) :=
  match script with
  | [] => None
  | (a, ev) :: script' =>
      let next := match ev with WDone ctxErr => Some (Some ctxErr) | WTick => pingURL url script' end in
      match a with
      | BadRequest e => Some (Some (Errorf "failed to create request for %s: %w" [url] [e]))
      | Failed e => if errors_is e context_Canceled then Some (Some e) else next
      | Status code => if available code then Some None else next
      end
  end.

(** [WaitForServers] over the results of the pings; [None] in the list is a
    ping that has not returned. *)
Definition wait_for_all (rs : list (option (option error))) : option (option error) :=
  match rs with
  | [] => Some None
  | [r] => r
  | _ => match mapM id rs with Some rs => Some (group_Wait rs) | None => None end
  end.

Definition WaitForServers (scripts : list (list (option error * wait_event))) : option (option error) :=
  wait_for_all (map ping scripts).

Definition WaitForURLs (urls : list (string * list (attempt * wait_event))) : option (option error) :=
  wait_for_all (map (fun '(url, script) => pingURL url script) urls).

(** Waiting succeeds exactly when every server was reached. *)
Lemma wait_for_all_nil rs : wait_for_all rs = Some None <-> Forall (fun r => r = Some None) rs.
Proof.
  unfold wait_for_all. destruct rs as [|r [|r2 rs]]; [done|by rewrite Forall_singleton|].
  generalize (r :: r2 :: rs). clear. intros rs.
  assert (HM : forall l, mapM id rs = Some l -> (group_Wait l = None <-> Forall (fun r => r = Some None) rs)).
  { intros l HM. apply mapM_Some in HM. unfold group_Wait. induction HM as [|x y rs l Hxy HM IH]; [done|].
    simpl in Hxy. unfold id in Hxy. subst x. rewrite Forall_cons, <- IH. destruct y; simpl; [|naive_solver].
    split; [done|]. by intros [? _]. }
  destruct (mapM id rs) as [l|] eqn:E.
  - rewrite <- (HM l eq_refl). split; congruence.
  - split; [done|]. intros HF. exfalso. apply mapM_None_1 in E. apply Exists_exists in E as (x & Hx & Hn).
    rewrite Forall_forall in HF. apply HF in Hx. subst. done.
Qed.

(** An attempt after which [ping] goes on. *)
Definition retried (a : option error * wait_event) : Prop :=
  exists x, a.1 = Some x /\ errors_is x context_Canceled = false /\ a.2 = WTick.

(** [ping] succeeds exactly when a dial succeeds after failures that are each
    followed by a tick. *)
Lemma ping_nil script :
  ping script = Some None <->
  exists before ev after, script = before ++ (None, ev) :: after /\ Forall retried before.
Proof.
  induction script as [|[[e|] ev] script IH]; simpl.
  - split; [done|]. by intros ([|??] & ? & ? & ? & _).
  - assert (Hcons : (exists before ev' after, (Some e, ev) :: script = before ++ (None, ev') :: after /\ Forall retried before)
      <-> retried (Some e, ev) /\ exists before ev' after, script = before ++ (None, ev') :: after /\ Forall retried before).
    { split.
      - intros ([|? b] & ev' & a & ? & HF); simplify_eq/=. apply Forall_cons in HF as [H1 H2]. eauto 10.
      - intros [H1 (b & ev' & a & -> & HF)]. exists ((Some e, ev) :: b), ev', a. split; [done|by constructor]. }
    rewrite Hcons, <- IH. unfold retried. simpl.
    destruct (errors_is e context_Canceled) eqn:Hc; [|destruct ev as [|ce]].
    + split; [done|]. intros [(x & [= <-] & ? & _) _]. congruence.
    + split; [eauto|]. by intros [_ ?].
    + split; [done|]. by intros [(x & _ & _ & ?) _].
  - split; [|done]. intros _. exists [], ev, script. done.
Qed.

(** ** Properties *)

(** C37 Serving and shutting down. Every run of [serveWithShutdown] and its
    environment makes at most eight steps. The code never stops of its own accord:
    in every reachable state it has returned, can make a step, or waits, in the
    first [select] for the server function to return or the context to be
    cancelled, for [Shutdown], or in the second [select] for the server function or
    the end of the grace period. In particular, once the context is cancelled the
    caller can go on to call [Shutdown], and when that has returned and so has the
    server function, or the grace period has ended, the code returns without any
    further event. When it returns, either the server function has returned and its
    error is the outcome (wrapped, with [ErrServerClosed] taken as success; after a
    shutdown unwrapped, with a cancellation taken as success), or the context was
    cancelled and the grace period has ended or [Shutdown] failed with the error
    reported; so nil means that the server function has returned. *)
Theorem serve_outcomes addr s n s' :
  sreach addr s -> sruns (sany addr) n s_init s' ->
  (n <= 8)%nat /\
  ((exists out, s_phase s = Returned out) \/ (exists s1, sstep addr s s1) \/ waiting s) /\
  (s_phase s = FirstSelect -> s_cancelled s = true ->
   exists s1, sstep addr s s1 /\ s_phase s1 = CallingShutdown) /\
  (s_cancelled s = true -> s_shutdown s <> None -> s_served s <> None \/ s_grace s = true ->
   exists k s1 out, sruns (sstep addr) k s s1 /\ s_phase s1 = Returned out) /\
  forall out, s_phase s = Returned out ->
    ((exists r, s_served s = Some r /\
        (out = (match report r with Some e => Some (unexpected addr e) | None => None end) \/
         s_cancelled s = true /\
           out = match report r with Some e => if errors_is e context_Canceled then None else Some e | None => None end)) \/
     s_cancelled s = true /\
       (s_grace s = true /\ out = Some (Sentinel context_DeadlineExceeded) \/
        exists e, s_shutdown s = Some (Some e) /\ errors_is e context_Canceled = false /\ out = Some (shutdown_failed addr e))) /\
    (out = None -> exists r, s_served s = Some r /\
       (report r = None \/ exists e, report r = Some e /\ errors_is e context_Canceled = true /\ s_cancelled s = true)).
Proof.
  intros HR Hruns. split_and!.
  - apply (sruns_measure addr) in Hruns; [|done]. unfold measure in Hruns. simpl in Hruns. lia.
  - destruct (sreach_progress addr s HR) as [?|[?|?]]; auto.
  - destruct s as [p sv st ch c sh g]. simpl. intros -> ->. eexists. split; [apply first_done|done].
  - intros Hc Hs Hw. destruct (must_return_runs addr (measure s) s) as (k & s1 & Hk & out & Hout); [lia|done|done|eauto].
  - intros out Hout. destruct (sreach_inv addr s HR) as (_ & _ & _ & _ & Ho). specialize (Ho out Hout). split; [done|].
    intros ->. destruct Ho as [(r & Hr & Hx)|[_ [[_ ?]|(e & _ & _ & ?)]]]; [|done..]. exists r. split; [done|].
    destruct (report r) as [e|]; [right; exists e|by left].
    destruct Hx as [?|[? Hx]]; [done|]. by destruct (errors_is e context_Canceled).
Qed.

(** A server that is cancelled while it runs, shuts down and reports that it was
    closed. *)
Lemma serve_outcomes_witness :
  exists s k s1 out, sreach ":80" s /\ s_phase s = FirstSelect /\ sruns (sstep ":80") k s s1 /\ s_phase s1 = Returned out /\
  exists q, sreach ":80" q /\ s_phase q = FirstSelect /\ exists q', sstep ":80" q q' /\ s_phase q' = CallingShutdown.
Proof.
  set (q0 := mkS FirstSelect None false None true None false).
  set (q1 := mkS CallingShutdown None false None true None false).
  assert (R0 : sreach ":80" q0) by (eapply sreach_step; [apply sreach_init|left; apply context_cancelled]).
  set (s := mkS FirstSelect (Some (Some (Sentinel http_ErrServerClosed))) true (Some None) false None false).
  assert (Rs : sreach ":80" s).
  { eapply sreach_step; [eapply sreach_step; [apply sreach_init|left; apply (serve_returns FirstSelect false None false None false (Some (Sentinel http_ErrServerClosed)))]
      |right; apply goroutine_sends]. }
  assert (Hs : sstep ":80" s (mkS (Returned None) (s_served s) true None false None false)) by apply first_receives.
  exists s, 1%nat, (mkS (Returned None) (s_served s) true None false None false), None.
  split; [exact Rs|]. split; [reflexivity|]. split; [eapply sruns_S; [exact Hs|apply sruns_0]|]. split; [reflexivity|].
  exists q0. split; [exact R0|]. split; [reflexivity|].
  apply (serve_outcomes ":80" q0 0%nat s_init R0 (sruns_0 _ _)); reflexivity.
Defined.
