(* ===== verification/WebUtil.v ===== *)
(** * Small HTTP handlers and checks of package webapp

Models [healthz.go], [body.go], [http_server_errors.go], [serve_file.go] and
[filename.go].  The file system and [http.ServeFileFS] are parameters, as are
the text of a status code and the random source. *)

From S2P Require Import Prelude GoStrings GoErrors GoHTTP GoEncoding GoRedirect.

(** ** healthz.go *)
Definition HealthzHandler (w : rw) : rw := Write ("ok" +:+ LF) (WriteHeader StatusOK w).

(** ** body.go *)

(** The request's body after the call is part of the result: a reader that has
    been read to its end yields no more bytes, and keeps its error. *)
Definition ReadBodyLimit (r : Request) (replace : bool) (limit : Z) : go (res string * Request) :=
  match r_Body r with
  | None => Panic NilDereference
  | Some body =>
      let limited := MaxBytesReader body limit in
      let r := with_body r (Some (mkBody "" (b_err limited))) in
      Ret (match ReadAll limited with
           | Err err =>
               if errors_is err MaxBytesError then (Err err, r)
               else (Err (Errorf "reading request body: %w" [] [err]), r)
           | Ok data => if replace then (Ok data, with_body r (Some (mkBody data None))) else (Ok data, r)
           end)
  end.

(** With [replace] the body can be read again and yields the same bytes; without
    it a second read yields nothing. A body over the limit is always an error
    that handlers recognise. *)
Lemma ReadBodyLimit_spec r replace limit body :
  r_Body r = Some body -> b_err body = None ->
  exists out r', ReadBodyLimit r replace limit = Ret (out, r') /\
    (if (Z.max limit 0 <? Z.of_nat (slen (b_data body)))%Z
    then exists e, out = Err e /\ errors_is e MaxBytesError = true
    else out = Ok (b_data body) /\
      exists b', r_Body r' = Some b' /\ ReadAll b' = Ok (if replace then b_data body else "")).
Proof.
  intros Hr Hb. unfold ReadBodyLimit. rewrite Hr. match goal with |- exists o q, Ret ?p = _ /\ _ => exists p.1, p.2; split; [by rewrite <- surjective_pairing|] end.
  destruct (Z.ltb_spec (Z.max limit 0) (Z.of_nat (slen (b_data body)))) as [Hl|Hl].
  - rewrite MaxBytesReader_over by done. simpl. eauto.
  - unfold MaxBytesReader, ReadAll. destruct (Nat.ltb_spec (Z.to_nat limit) (slen (b_data body))); [lia|].
    rewrite Hb. simpl. destruct replace; simpl; eauto.
Qed.

(** ** http_server_errors.go *)
Inductive level := LevelInfo | LevelError.

(** A log record: its level, message and the attributes the code adds. *)
Record log_record := mkLog { l_level : level; l_msg : string; l_attrs : list (string * string) }.

(** [rnd] is the random 64-bit number, or [None] when reading it failed and
    [nanos], the time, is used. *)
Definition SendAndLog (e : string) (rnd : option N) (nanos : N) (w : rw) (r : Request) (status : Z) (m : string)
    (args : list (string * string)) : rw * log_record :=
  let eid := match rnd with Some n => n | None => (nanos mod 2 ^ 64)%N end in
  let w := http_Error (StatusText status +:+ " (" +:+ pad0 16 (fmt_uint false 16 eid) +:+ ")") status w in
  let attrs := [("error_src", e); ("error_id", fmt_uint false 10 eid); ("status", fmt_int status);
                ("src", r_RemoteAddr r); ("method", r_Method r); ("path", r_Path r)] ++ args in
  (w, mkLog (if (StatusInternalServerError <=? status)%Z then LevelError else LevelInfo) m attrs).

Definition Unauthorized e rnd nanos w r m args := SendAndLog e rnd nanos w r StatusUnauthorized m args.
Definition Forbidden e rnd nanos w r m args := SendAndLog e rnd nanos w r StatusForbidden m args.
Definition NotFound e rnd nanos w r m args := SendAndLog e rnd nanos w r StatusNotFound m args.
Definition Internal e rnd nanos w r m args := SendAndLog e rnd nanos w r StatusInternalServerError m args.
Definition BadRequest e rnd nanos w r m args := SendAndLog e rnd nanos w r StatusBadRequest m args.

(** ** serve_file.go *)

(** The entries of a header map in the order in which [range] visits them. *)
Abbreviation entries := (list (string * list string)).

Definition set_header (h : Header) (kv : string * list string) : Header :=
  fold_left (fun h v => Header_Add h kv.1 v) kv.2 (Header_Del h kv.1).

Definition set_headers (es : entries) (w : rw) : rw := on_header (fun h => fold_left set_header es h) w.

Record ServeWithHeaders := mkSWH { swh_headers : entries; swh_data : string; swh_urlpath : string }.

Definition NewServeWithHeaders (headers : entries) (data urlpath : string) : ServeWithHeaders :=
  mkSWH headers data urlpath.
Definition URLPath (s : ServeWithHeaders) : string := swh_urlpath s.

Definition ServeWithHeaders_ServeHTTP (s : ServeWithHeaders) (w : rw) (r : Request) : rw :=
  if bool_decide (r_Method r <> "GET") then http_Error "method not allowed" StatusMethodNotAllowed w
  else if bool_decide (r_Path r <> swh_urlpath s) then http_NotFound w
  else
    let w := set_headers (swh_headers s) w in
    let w := rw_Set "Content-Length" (Itoa (slen (swh_data s))) w in
    Write (swh_data s) (WriteHeader StatusOK w).

Record fsEntry := mkFSEntry { fe_headers : entries; fe_fsPath : string }.

(** The configuration; the map of entries is the state. *)
Record ServeFSWithHeaders := mkSFS { sfs_next : option (rw -> rw); sfs_rewrite : option (string -> string) }.

Definition NewServeFSWithHeaders (next : option (rw -> rw)) (rewrite : option (string -> string))
  : ServeFSWithHeaders * gmap string fsEntry := (mkSFS next rewrite, ∅).

Definition fs_path (s : ServeFSWithHeaders) (urlpath : string) : string :=
  TrimPrefix (match sfs_rewrite s with Some f => f urlpath | None => urlpath end) "/".

(** The loop of [SetHeaders], which holds the mutex. *)
Definition SetHeaders (s : ServeFSWithHeaders) (headers : entries) (urlpaths : list string)
    (m : gmap string fsEntry) : gmap string fsEntry :=
  fold_left (fun m urlpath => <[urlpath := mkFSEntry headers (fs_path s urlpath)]> m) urlpaths m.

(** [ReadFile] is [fs.ReadFile] and [ServeFileFS] the standard handler; the
    second result lists the paths of the file system that were opened. *)
Definition ServeFS_ServeHTTP (ReadFile : string -> res string) (ServeFileFS : string -> rw -> rw)
    (s : ServeFSWithHeaders) (m : gmap string fsEntry) (w : rw) (r : Request) : rw * list string :=
  match m !! r_Path r with
  | None => match sfs_next s with
            | Some next => (next w, [])
            | None => (http_NotFound w, [])
            end
  | Some entry =>
      match fe_headers entry with
      | [] => (ServeFileFS (fe_fsPath entry) w, [fe_fsPath entry])
      | _ =>
          let w := set_headers (fe_headers entry) w in
          (match ReadFile (fe_fsPath entry) with
           | Err _ => http_NotFound w
           | Ok data =>
               let w := rw_Set "Content-Length" (Itoa (slen data)) w in
               Write data (WriteHeader StatusOK w)
           end, [fe_fsPath entry])
      end
  end.

(** ** filename.go *)

(** [[\u0000-\u001f\u0080-\u009f]] *)
Definition reControl (path : string) : bool :=
  existsb (fun r => ((r.1 <=? 31) || (128 <=? r.1) && (r.1 <=? 159))%N) (runes path).

(** One or more dots and a slash, or three or more dots: a match exists exactly
    when one dot precedes a slash or three dots are adjacent. *)
Definition reRelativeComponets (path : string) : bool := Contains path "./" || Contains path "...".

(** The reserved characters, by code. *)
Definition reserved : list N := [60; 62; 58; 34; 47; 92; 124; 63; 42]%N.
Definition reFilenameLinux (path : string) : bool :=
  existsb (fun r => bool_decide (r.1 ∈ reserved) || (r.1 <=? 31)%N) (runes path).

Definition lower (s : string) : string :=
  String.string_of_list_ascii (map to_lower (String.list_ascii_of_string s)).

Definition device_names : list string :=
  ["con"; "prn"; "aux"; "nul"] ++
  map (fun d => "com" +:+ d) ["0"; "1"; "2"; "3"; "4"; "5"; "6"; "7"; "8"; "9"] ++
  map (fun d => "lpt" +:+ d) ["0"; "1"; "2"; "3"; "4"; "5"; "6"; "7"; "8"; "9"].

(** The whole name, in any letter case. *)
Definition reFilenameWindows (path : string) : bool := contains device_names (lower path).

Definition rules : list ((string -> bool) * string) :=
  [(reControl, "contains control characters"); (reRelativeComponets, "contains relative path components");
   (reFilenameLinux, "contains unix reserved characters"); (reFilenameWindows, "contains windows reserved characters")].

Fixpoint first_rule (rs : list ((string -> bool) * string)) (path : string) : option error :=
  match rs with
  | [] => None
  | (m, err) :: rs' => if m path then Some (errors_New err) else first_rule rs' path
  end.

Definition SafePath (path : string) : option error := first_rule rules path.

(** ** Lemmas *)

(** The registration that the map of entries holds for a path: the last one. *)
Fixpoint last_registration (regs : list (entries * list string)) (p : string) : option entries :=
  match regs with
  | [] => None
  | (h, ps) :: regs' =>
      match last_registration regs' p with
      | Some h' => Some h'
      | None => if contains ps p then Some h else None
      end
  end.

Lemma SetHeaders_lookup s h ps m p :
  SetHeaders s h ps m !! p = if contains ps p then Some (mkFSEntry h (fs_path s p)) else m !! p.
Proof.
  unfold SetHeaders. revert m. induction ps as [|q ps IH]; intros m; [done|]. simpl. rewrite IH.
  destruct (contains ps p) eqn:E.
  - apply contains_true in E. rewrite (proj2 (contains_true (q :: ps) p)); [done|by right].
  - apply contains_false in E. destruct (decide (q = p)) as [->|Hne].
    + rewrite (proj2 (contains_true (p :: ps) p)) by (by left). by rewrite lookup_insert_eq.
    + rewrite (proj2 (contains_false (q :: ps) p)) by (by rewrite not_elem_of_cons). by rewrite lookup_insert_ne.
Qed.

Lemma registrations_lookup s regs m p :
  fold_left (fun m '(h, ps) => SetHeaders s h ps m) regs m !! p =
    match last_registration regs p with Some h => Some (mkFSEntry h (fs_path s p)) | None => m !! p end.
Proof.
  revert m. induction regs as [|[h ps] regs IH]; intros m; [done|]. simpl. rewrite IH.
  destruct (last_registration regs p); [done|]. rewrite SetHeaders_lookup. by destruct (contains ps p).
Qed.

(** The values that a list of headers gives to a key: those of the last entry
    with the same canonical key. *)
Fixpoint last_entry (h : entries) (k : string) : option (list string) :=
  match h with
  | [] => None
  | (k', vs) :: h' =>
      match last_entry h' k with
      | Some vs => Some vs
      | None => if decide (CanonicalHeaderKey k' = CanonicalHeaderKey k) then Some vs else None
      end
  end.

Lemma fold_Add_values k vs h k' :
  Header_Values (fold_left (fun h v => Header_Add h k v) vs h) k' =
    if decide (CanonicalHeaderKey k = CanonicalHeaderKey k') then Header_Values h k' ++ vs else Header_Values h k'.
Proof.
  revert h. induction vs as [|v vs IH]; intros h; simpl; [case_decide; by rewrite ?app_nil_r|].
  rewrite IH. unfold Header_Add, Header_Values. case_decide as Hk.
  - rewrite Hk, lookup_insert_eq. simpl. by rewrite <- app_assoc.
  - by rewrite lookup_insert_ne.
Qed.

Lemma set_header_values h k vs k' :
  Header_Values (set_header h (k, vs)) k' =
    if decide (CanonicalHeaderKey k = CanonicalHeaderKey k') then vs else Header_Values h k'.
Proof.
  unfold set_header. cbn [fst snd]. rewrite fold_Add_values. unfold Header_Del, Header_Values. case_decide as Hk.
  - by rewrite Hk, lookup_delete_eq.
  - by rewrite lookup_delete_ne.
Qed.

Lemma set_headers_values es h k :
  Header_Values (fold_left set_header es h) k = default (Header_Values h k) (last_entry es k).
Proof.
  revert h. induction es as [|[k' vs] es IH]; intros h; [done|]. cbn [fold_left last_entry]. rewrite IH, set_header_values.
  destruct (last_entry es k); [done|]. by case_decide.
Qed.

Lemma String_get_mid x y c : String.get (slen x) (x +:+ String c y) = Some c.
Proof. induction x as [|d x IH]; simpl; [done|]. exact IH. Qed.

(** A reserved ASCII byte inside a path is found by the rune rules. *)
Lemma reserved_byte path x c y :
  path = x +:+ String c y -> N_of_ascii c ∈ reserved -> reFilenameLinux path = true.
Proof.
  intros -> Hc. assert (Hl : (N_of_ascii c < 128)%N).
  { assert (HF : Forall (fun n => n < 128)%N reserved) by repeat constructor.
    rewrite Forall_forall in HF. by apply HF. }
  destruct (ascii_rune _ _ _ _ (Nat.le_refl _) (String_get_mid x y c) Hl) as [e He].
  apply existsb_Exists. exists (N_of_ascii c, e). split; [done|]. simpl. by rewrite bool_decide_true.
Qed.

(** ** Properties *)

(** A rune that may be part of a safe file name. *)
Definition rune_ok (r : N) : Prop := (31 < r)%N /\ ~ (128 <= r <= 159)%N /\ (r ∉ reserved).

(** C38 Registered files only: whatever was registered, in whatever order, a
    request opens no file unless its exact path was registered, and then only
    the file-system path computed at registration (rewritten, without one
    leading slash); it is answered 200 with the file's bytes and their length,
    or 404 if the file cannot be read, and every header of the last registration
    has exactly the values registered for it when the header is written, the others
    those they had before. Other requests go to the next handler, or get 404. *)
Theorem ServeFS_registered_only ReadFile ServeFileFS next rewrite regs w r :
  fresh w ->
  let '(s, m0) := NewServeFSWithHeaders next rewrite in
  let m := fold_left (fun m '(h, ps) => SetHeaders s h ps m) regs m0 in
  let '(w', opened) := ServeFS_ServeHTTP ReadFile ServeFileFS s m w r in
  let fsPath := TrimPrefix (match rewrite with Some f => f (r_Path r) | None => r_Path r end) "/" in
  match last_registration regs (r_Path r) with
  | None => opened = [] /\ w' = match next with Some f => f w | None => http_NotFound w end
  | Some [] => opened = [fsPath] /\ w' = ServeFileFS fsPath w
  | Some h =>
      opened = [fsPath] /\
      match ReadFile fsPath with
      | Ok data => final_status w' = StatusOK /\ rw_body w' = data /\
          forall k, Header_Values (final_header w') k =
            if decide (CanonicalHeaderKey k = "Content-Length") then [Itoa (slen data)]
            else default (Header_Values (rw_header w) k) (last_entry h k)
      | Err _ => final_status w' = StatusNotFound
      end
  end.
Proof.
  intros Hf. cbn [NewServeFSWithHeaders]. unfold ServeFS_ServeHTTP. rewrite registrations_lookup, lookup_empty.
  destruct (last_registration regs (r_Path r)) as [[|kv h]|]; cbn [fe_headers fe_fsPath sfs_next]; [done| |by destruct next].
  unfold fs_path. cbn [sfs_rewrite].
  set (p := TrimPrefix (match rewrite with Some f => f (r_Path r) | None => r_Path r end) "/").
  split; [done|]. destruct (ReadFile p) as [data|].
  - rewrite WriteHeader_fresh by (done || by apply on_header_fresh, on_header_fresh).
    erewrite Write_committed; [|done..]. simpl. destruct Hf as (_ & _ & ->). split_and!; [done..|]. intros k.
    pose proof (set_headers_values (kv :: h) (rw_header w) k) as Hv. simpl in Hv. rewrite <- Hv. unfold final_header, Header_Set, Header_Values. simpl.
    case_decide as Hk; [by rewrite Hk, lookup_insert_eq|rewrite lookup_insert_ne; [done|]; intros He; apply Hk; by rewrite <- He].
  - unfold final_status, http_NotFound. match goal with |- context [http_Error ?m ?c ?w'] =>
      destruct (http_Error_fresh m c w') as [-> _]; [by apply on_header_fresh|done..] end.
Qed.

Lemma ServeFS_registered_only_witness :
  let '(w', opened) := ServeFS_ServeHTTP (fun p => Ok p) (fun _ w => w) (mkSFS None None)
     (SetHeaders (mkSFS None None) [("X-A", ["1"; "2"])] ["/a.js"] ∅) new_rw
     (mkRequest "GET" "/a.js" "" "" "h" ∅ [] "" 0 None None) in
  opened = ["a.js"] /\ Header_Values (final_header w') "x-a" = ["1"; "2"].
Proof.
  pose proof (ServeFS_registered_only (fun p => Ok p) (fun _ w => w) None None [([("X-A", ["1"; "2"])], ["/a.js"])] new_rw
    (mkRequest "GET" "/a.js" "" "" "h" ∅ [] "" 0 None None) new_rw_fresh) as H.
  split; [exact (proj1 H)|]. exact (proj2 (proj2 (proj2 H)) "x-a").
Defined.

(** C39 Safe file names: [SafePath] accepts a name exactly when none of its
    runes is a control character or one of the reserved characters (the path
    separators among them), it does not contain three dots in a row and it is
    not a Windows device name in any letter case; an accepted name is a single
    path component. *)
Theorem SafePath_spec path :
  (SafePath path = None <->
     Forall (fun r => rune_ok r.1) (runes path) /\ Contains path "..." = false /\ (lower path ∉ device_names)) /\
  (SafePath path = None -> Split path "/" = [path]).
Proof.
  assert (Hrunes : reControl path = false /\ reFilenameLinux path = false <-> Forall (fun r => rune_ok r.1) (runes path)).
  { unfold reControl, reFilenameLinux. rewrite <- !not_true_iff_false, !existsb_Exists, Forall_forall. split.
    - intros [H1 H2] r Hr. unfold rune_ok. split_and!.
      + destruct (decide (31 < r.1)%N); [done|]. exfalso. apply H2. exists r. split; [done|].
        apply orb_true_iff. right. apply N.leb_le. lia.
      + intros Hc. apply H1. exists r. split; [done|]. apply orb_true_iff. right. apply andb_true_iff.
        rewrite !N.leb_le. lia.
      + intros Hc. apply H2. exists r. split; [done|]. apply orb_true_iff. left. by apply bool_decide_eq_true.
    - intros HF. split; intros (r & Hr & Ht); destruct (HF r Hr) as (H1 & H2 & H3); revert Ht;
        rewrite ?orb_true_iff, ?andb_true_iff, ?bool_decide_eq_true, ?N.leb_le; [lia|]. intros [?|?]; [done|lia]. }
  assert (Hiff : SafePath path = None <->
    Forall (fun r => rune_ok r.1) (runes path) /\ Contains path "..." = false /\ (lower path ∉ device_names)).
  { rewrite <- Hrunes, <- contains_false. unfold SafePath, rules, first_rule, reRelativeComponets.
    fold (reFilenameWindows path). destruct (reControl path); [split; [done|by intros [[? _] _]]|].
    destruct (Contains path "...") eqn:E3; [rewrite orb_true_r; split; [done|by intros (_ & ? & _)]|].
    rewrite orb_false_r. destruct (reFilenameLinux path) eqn:EL.
    - split; [by destruct (Contains path "./")|by intros [[_ ?] _]].
    - destruct (Contains path "./") eqn:E1.
      { apply Contains_spec in E1 as (x & y & ->). exfalso. rewrite <- not_true_iff_false in EL. apply EL.
        apply (reserved_byte _ (x +:+ ".") "/"%char y); [|by vm_compute; set_solver].
        by rewrite app_str_assoc. }
      destruct (reFilenameWindows path); naive_solver. }
  split; [done|]. rewrite Hiff. intros (HF & _ & _). apply Hrunes in HF as [_ HL].
  unfold Split. simpl. destruct (slen path) as [|n]; [done|]. simpl.
  destruct (Cut path "/") as [[b a]|] eqn:E; [|done]. apply Cut_Some in E as ->. exfalso.
  rewrite (reserved_byte (b +:+ "/" +:+ a) b "/"%char a eq_refl) in HL; [done|]. vm_compute. set_solver.
Qed.

(** The two relative names that are a single component are accepted. *)
Example SafePath_dots : SafePath "." = None /\ SafePath ".." = None.
Proof. split; vm_compute; reflexivity. Qed.
