(* ===== verification/CssUtil.v ===== *)
(** * cssutil: CSS classes of HTML documents

Models [cssutil.go].  The HTML parser of golang.org/x/net is a parameter that
yields a tree of nodes. *)

From stdpp Require Import sorting.
From S2P Require Import Prelude GoStrings GoErrors.

(** [html.Node]: whether it is an element, its attributes and its children. *)
Inductive node := Node (is_element : bool) (attrs : list (string * string)) (children : list node).

Definition n_element (n : node) : bool := let 'Node e _ _ := n in e.
Definition n_attrs (n : node) : list (string * string) := let 'Node _ a _ := n in a.
Definition n_children (n : node) : list node := let 'Node _ _ c := n in c.

Fixpoint node_size (n : node) : nat :=
  let 'Node _ _ cs := n in S (list_sum (map node_size cs)).

Definition stack_size (l : list node) : nat := list_sum (map node_size l).

(** [strings.Fields]: the words between white space. *)
Fixpoint fields_loop (rs : list (N * string)) (word : string) : list string :=
  match rs with
  | [] => if bool_decide (word = "") then [] else [word]
  | (r, enc) :: rs' =>
      if is_space r then (if bool_decide (word = "") then [] else [word]) ++ fields_loop rs' ""
      else fields_loop rs' (word +:+ enc)
  end.

Definition Fields (s : string) : list string := fields_loop (runes s) "".

(** The classes that a node itself adds. *)
Definition own_classes (n : node) : list string :=
  if n_element n then
    concat (map (fun '(k, v) => if bool_decide (k = "class") then Fields v else []) (n_attrs n))
  else [].

(** The loop over the stack: the last element is taken off, and the children
    are pushed in order. *)
Fixpoint walk (fuel : nat) (stack : list node) (seen : gset string) : gset string :=
  match fuel with
  | O => seen
  | S f =>
      match last stack with
      | None => seen
      | Some n =>
          let stack := take (length stack - 1) stack in
          let seen := seen ∪ list_to_set (own_classes n) in
          walk f (stack ++ n_children n) seen
      end
  end.

Definition walk_doc (doc : node) (seen : gset string) : gset string :=
  walk (S (stack_size [doc])) [doc] seen.

Section css.
Variable html_Parse : string -> res node.

Fixpoint parse_all (readers : list string) (seen : gset string) : res (gset string) :=
  match readers with
  | [] => Ok seen
  | r :: readers' =>
      match html_Parse r with
      | Err e => Err e
      | Ok doc => parse_all readers' (walk_doc doc seen)
      end
  end.

Definition ParseHTMLClasses (readers : list string) : res (list string) :=
  match parse_all readers ∅ with
  | Err e => Err e
  | Ok seen => Ok (Sort (elements seen))
  end.

(** [Open] gives the contents of a file; the files opened are closed on every
    path. *)
Fixpoint open_all (Open : string -> res string) (names : list string) : res (list string) :=
  match names with
  | [] => Ok []
  | name :: names' =>
      match Open name with
      | Err e => Err e
      | Ok f => match open_all Open names' with Err e => Err e | Ok fs => Ok (f :: fs) end
      end
  end.

Definition ParseHTMLClassesFS (Open : string -> res string) (names : list string) : res (list string) :=
  match open_all Open names with Err e => Err e | Ok readers => ParseHTMLClasses readers end.

End css.

Definition unsafe_chars : list ascii := ["034"%char; ")"%char; "092"%char].
Definition inline_open : string := "@source inline(" +:+ String "034"%char "".
Definition inline_close : string := String "034"%char ");".

Definition TailwindSourceInline (classes : list string) : string :=
  let safe := List.filter (fun cls => negb (ContainsAny cls unsafe_chars)) classes in
  inline_open +:+ Join safe " " +:+ inline_close.

(** ** Lemmas *)

(** Reference: the classes of a tree. *)
Inductive has_class (c : string) : node -> Prop :=
| class_here n : c ∈ own_classes n -> has_class c n
| class_below n child : child ∈ n_children n -> has_class c child -> has_class c n.

Lemma has_class_iff c n :
  has_class c n <-> c ∈ own_classes n \/ exists child, child ∈ n_children n /\ has_class c child.
Proof.
  split.
  - intros [n' H|n' child Hc H]; eauto.
  - intros [H|(child & Hc & H)]; [by apply class_here|by eapply class_below].
Qed.

Lemma stack_size_app l1 l2 : stack_size (l1 ++ l2) = (stack_size l1 + stack_size l2)%nat.
Proof. unfold stack_size. rewrite map_app. induction l1; simpl; lia. Qed.

Lemma node_size_children n : node_size n = S (stack_size (n_children n)).
Proof. by destruct n. Qed.

(** The loop empties its stack within its fuel and collects exactly the classes
    of the trees on it. *)
Lemma walk_spec fuel stack seen c :
  (stack_size stack < fuel)%nat ->
  c ∈ walk fuel stack seen <-> c ∈ seen \/ exists n, n ∈ stack /\ has_class c n.
Proof.
  revert stack seen. induction fuel as [|f IH]; intros stack seen Hf; [lia|].
  destruct stack as [|n stack _] using rev_ind.
  { simpl. split; [auto|]. intros [?|(n & Hn & _)]; [done|]. by apply elem_of_nil in Hn. }
  cbn [walk]. rewrite last_snoc, length_app. simpl length. rewrite Nat.add_sub, take_app_length.
  rewrite stack_size_app in Hf. unfold stack_size at 2 in Hf. simpl in Hf. rewrite node_size_children in Hf.
  rewrite IH by (rewrite stack_size_app; lia).
  rewrite elem_of_union, elem_of_list_to_set. split.
  - intros [[?|?]|(m & Hm & Hc)]; [auto| |].
    + right. exists n. split; [set_solver|by apply class_here].
    + apply elem_of_app in Hm as [Hm|Hm]; right.
      * exists m. split; [set_solver|done].
      * exists n. split; [set_solver|by eapply class_below].
  - intros [?|(m & Hm & Hc)]; [auto|]. apply elem_of_app in Hm as [Hm| ->%list_elem_of_singleton].
    + right. exists m. split; [set_solver|done].
    + apply has_class_iff in Hc as [?|(ch & Hch & Hc)]; [auto|]. right. exists ch. split; [set_solver|done].
Qed.

Lemma parse_all_spec html_Parse readers seen seen' :
  parse_all html_Parse readers seen = Ok seen' ->
  exists docs, Forall2 (fun r d => html_Parse r = Ok d) readers docs /\
    forall c, c ∈ seen' <-> c ∈ seen \/ exists d, d ∈ docs /\ has_class c d.
Proof.
  revert seen. induction readers as [|r readers IH]; intros seen; simpl.
  - intros [= ->]. exists []. split; [constructor|]. intros c. split; [auto|].
    intros [?|(d & Hd & _)]; [done|]. by apply elem_of_nil in Hd.
  - destruct (html_Parse r) as [doc|] eqn:E; [|done]. intros (docs & HF & Hc)%IH.
    exists (doc :: docs). split; [by constructor|]. intros c. rewrite Hc. unfold walk_doc.
    rewrite walk_spec by lia. split.
    + intros [[?|(n & ->%list_elem_of_singleton & ?)]|(d & ? & ?)]; [auto|right; exists doc; split; [by left|done]|].
      right. exists d. split; [by right|done].
    + intros [?|(d & [->|Hd]%elem_of_cons & ?)]; [auto| |right; eauto].
      left. right. exists doc. split; [by apply list_elem_of_singleton|done].
Qed.

(** Sorting a set gives its elements in strictly increasing order. *)
Lemma Sort_set (s : gset string) :
  let l := Sort (elements s) in
  (forall c, c ∈ l <-> c ∈ s) /\ NoDup l /\ StronglySorted str_le l.
Proof.
  simpl. unfold Sort. assert (HP : merge_sort str_le (elements s) ≡ₚ elements s) by apply merge_sort_Permutation.
  split_and!.
  - intros c. rewrite HP. apply elem_of_elements.
  - rewrite HP. apply NoDup_elements.
  - apply StronglySorted_merge_sort; apply _.
Qed.

Lemma ContainsAny_Join l sep cs :
  ContainsAny sep cs = false -> Forall (fun s => ContainsAny s cs = false) l -> ContainsAny (Join l sep) cs = false.
Proof.
  intros Hs HF. assert (Happ : forall a b, ContainsAny (a +:+ b) cs = ContainsAny a cs || ContainsAny b cs).
  { intros a b. unfold ContainsAny. induction a as [|x a IH]; simpl; [done|]. rewrite IH. by rewrite orb_assoc. }
  induction HF as [|x l Hx _ IH]; [done|]. destruct l as [|y l]; [done|].
  rewrite Join_cons, !Happ, Hx, Hs by done. exact IH.
Qed.

(** ** Properties *)

(** CSS classes: [ParseHTMLClasses] ends on every document, and its result
    is the classes that the class attributes of the elements of all documents
    name, each once and in increasing order; and the directive built from any
    class names keeps them inside its quotes: what is between the opening and
    the closing quote has no quote, bracket or backslash. *)
Lemma ParseHTMLClasses_spec html_Parse readers classes any :
  ParseHTMLClasses html_Parse readers = Ok classes ->
  (exists docs, Forall2 (fun r d => html_Parse r = Ok d) readers docs /\
     (forall c, c ∈ classes <-> exists d, d ∈ docs /\ has_class c d)) /\
  NoDup classes /\ StronglySorted str_le classes /\
  exists body, TailwindSourceInline any = inline_open +:+ body +:+ inline_close /\
    ContainsAny body unsafe_chars = false.
Proof.
  unfold ParseHTMLClasses. destruct (parse_all html_Parse readers ∅) as [seen|] eqn:E; [|done]. intros [= <-].
  destruct (Sort_set seen) as (HS & HN & HSS). destruct (parse_all_spec _ _ _ _ E) as (docs & HF & Hc).
  split_and!; [|done|done|].
  - exists docs. split; [done|]. intros c. rewrite HS, Hc. set_solver.
  - eexists. split; [done|]. apply ContainsAny_Join; [done|]. apply Forall_forall. intros s Hs.
    apply list_elem_of_In, filter_In in Hs as [_ Hs]. by apply negb_true_iff.
Qed.

Definition example_doc : node :=
  Node false [] [Node true [("class", "b a")] [Node true [("class", "c  b")] []]; Node true [("id", "d")] []].

Lemma ParseHTMLClasses_spec_witness :
  ParseHTMLClasses (fun _ => Ok example_doc) ["<p>"] = Ok ["a"; "b"; "c"] /\ NoDup ["a"; "b"; "c"].
Proof.
  assert (H : ParseHTMLClasses (fun _ => Ok example_doc) ["<p>"] = Ok ["a"; "b"; "c"]) by (vm_compute; reflexivity).
  split; [exact H|]. apply (ParseHTMLClasses_spec (fun _ => Ok example_doc) ["<p>"] ["a"; "b"; "c"] [] H).
Defined.
