(* ===== verification/WebAssets.v ===== *)
(** * webassets: file systems for the assets of a web application

Models [relative.go], [reloadable.go] and [servefile.go].  A file system is the
function that opens a name; the one that reloads files from disk
(cloudeng.io/io/reloadfs) and the expansion of environment variables are
parameters. *)

From S2P Require Import Prelude GoStrings GoErrors GoPath.

Section assets.
(** [File] is an open file. *)
Context {File : Type}.

(** [fs.FS] *)
Definition FS : Type := string -> res File.

(** ** relative.go *)

Record relative := mkRelative { r_prefix : string; r_fs : FS; r_logger : string }.

Definition relative_Open (r : relative) (name : string) : res File :=
  let full := path_Join [r_prefix r; name] in
  match r_fs r full with
  | Err e => Err e
  | Ok f => Ok f
  end.

Definition relativeFS (prefix : string) (fsys : FS) (logger : option string) : relative :=
  mkRelative prefix fsys (default "default" logger +:+ " webapp/webassets.relativeFS").

Definition RelativeFS (prefix : string) (fsys : FS) : FS := relative_Open (relativeFS prefix fsys None).

(** ** reloadable.go *)

Record AssetsFlags := mkFlags {
  f_ReloadEnable : bool; f_ReloadNew : bool; f_ReloadRoot : string;
  f_ReloadLogging : bool; f_ReloadDebugging : bool
}.

Record Config := mkConfig { ReloadEnable : bool; ReloadNew : bool; ReloadRoot : string }.

Definition AssetsFlags_Config (f : AssetsFlags) : Config :=
  mkConfig (f_ReloadEnable f) (f_ReloadNew f) (f_ReloadRoot f).

(** What the options set. *)
Record assets := mkAssets {
  a_logger : option string; a_reloadAfter : Z; a_reloadFrom : string; a_loadNew : bool
}.

Definition WithReloading (location : string) (after : Z) (loadNew : bool) (a : assets) : assets :=
  mkAssets (a_logger a) after location loadNew.

Definition WithLogger (logger : option string) (a : assets) : assets :=
  mkAssets logger (a_reloadAfter a) (a_reloadFrom a) (a_loadNew a).

(** [Getwd] is the working directory, empty when it is not known. *)
Definition Config_Options (Getwd : string) (ExpandEnv : string -> string) (now : Z) (c : Config)
  : list (assets -> assets) :=
  if negb (ReloadEnable c) then []
  else
    let root := if Nat.eqb (slen (ReloadRoot c)) 0 then Getwd else ExpandEnv (ReloadRoot c) in
    [WithReloading root now (ReloadNew c)].

Definition OptionsFromFlags (Getwd : string) (ExpandEnv : string -> string) (now : Z) (rf : AssetsFlags)
  : list (assets -> assets) := Config_Options Getwd ExpandEnv now (AssetsFlags_Config rf).

(** [reloadfs.New] of a directory, a prefix, a file system, a time and whether
    new files are used. *)
Variable reloadfs_New : string -> string -> FS -> Z -> bool -> FS.

Definition NewAssets (prefix : string) (fsys : FS) (opts : list (assets -> assets)) : FS :=
  let a := fold_left (fun a fn => fn a) opts (mkAssets None 0 "" false) in
  let a := match a_logger a with None => WithLogger (Some "discard") a | Some _ => a end in
  if Nat.eqb (slen (a_reloadFrom a)) 0 then relative_Open (relativeFS prefix fsys (a_logger a))
  else reloadfs_New (a_reloadFrom a) prefix fsys (a_reloadAfter a) (a_loadNew a).

(** ** servefile.go *)

Record SameFileHTTPFilesystem := mkSame { sff_filename : string; sff_fs : FS }.

(** [http.FS] opens a name without its leading slash, and the root as a dot. *)
Definition http_FS (fsys : FS) : FS := fun name =>
  fsys (if bool_decide (name = "/") then "." else TrimPrefix name "/").

Definition NewSameFileHTTPFilesystem (fsys : FS) (filename : string) : SameFileHTTPFilesystem := mkSame filename (http_FS fsys).

Definition SameFile_Open (sff : SameFileHTTPFilesystem) (_ : string) : res File := sff_fs sff (sff_filename sff).

End assets.
#[global] Arguments FS : clear implicits.

(** ** Lemmas *)

(** The elements that a prefix contributes: a trailing slash adds none. *)
Definition base_elems (prefix : string) : list string :=
  List.filter (fun e => negb (bool_decide (e = ""))) (Split prefix "/").

(** A prefix such as those given to [go:embed] directories: some plain
    elements, with or without a trailing slash, not starting at the root. *)
Definition prefix_ok (prefix : string) : Prop :=
  HasPrefix prefix "/" = false /\ base_elems prefix <> [] /\
  Forall (fun e => plain e = true) (base_elems prefix).

Lemma prefix_join prefix name :
  prefix_ok prefix ->
  path_Join [prefix; name] =
    let es := rev (fold_left (clean_step false) (Split name "/") (rev (base_elems prefix))) in
    if bool_decide (Join es "/" = "") then "." else Join es "/".
Proof.
  intros (Hr & Hb & HF). assert (Hp : prefix <> "") by (intros ->; by apply Hb).
  unfold path_Join. cbn [drop_while]. rewrite bool_decide_false by done.
  change (Join [prefix; name] "/") with (prefix +:+ "/" +:+ name).
  assert (Hr' : HasPrefix (prefix +:+ "/" +:+ name) "/" = false) by (by destruct prefix as [|c [|??]]).
  rewrite Clean_elems; [|by destruct prefix|done]. cbv zeta. unfold clean_elems.
  rewrite Split_slash, fold_left_app, (clean_nonempty _ (Split prefix "/")).
  fold (base_elems prefix). by rewrite (clean_plain _ _ [] HF), app_nil_r.
Qed.

(** A valid name is opened below the prefix. *)
Lemma join_below prefix name :
  prefix_ok prefix -> ValidPath name = true ->
  path_Join [prefix; name] = Join (base_elems prefix ++ path_elems name) "/".
Proof.
  intros HP HV. rewrite prefix_join by done. cbv zeta. destruct HP as (_ & Hb & HF).
  assert (Forall (fun e => plain e = true) (path_elems name) /\
    fold_left (clean_step false) (Split name "/") (rev (base_elems prefix))
      = rev (path_elems name) ++ rev (base_elems prefix)) as [HN ->].
  { unfold path_elems, ValidPath in *. case_bool_decide as Hd; [subst; by split|].
    simpl in HV. apply forallb_Forall in HV. split; [done|]. by apply clean_plain. }
  rewrite <- rev_app_distr, rev_involutive. rewrite bool_decide_false; [done|].
  apply Join_plain_ne; [|by apply Forall_app]. by destruct (base_elems prefix).
Qed.

(** As many double dots as the prefix has elements undo it. *)
Lemma join_above prefix name :
  prefix_ok prefix -> ValidPath name = true -> name <> "." ->
  path_Join [prefix; Join (replicate (length (base_elems prefix)) "..") "/" +:+ "/" +:+ name] = name.
Proof.
  intros HP HV Hd. rewrite prefix_join by done. cbv zeta. destruct HP as (_ & Hb & HF).
  set (n := length (base_elems prefix)).
  assert (HS : Split (Join (replicate n "..") "/") "/" = replicate n "..").
  { assert (Hn : (0 < n)%nat) by (unfold n; destruct (base_elems prefix); simpl; [done|lia]).
    clear -Hn. induction n as [|[|n] IH]; [lia|done|].
    change (Join (replicate (S (S n)) "..") "/") with (".." +:+ "/" +:+ Join (replicate (S n) "..") "/").
    rewrite Split_slash, IH by lia. done. }
  rewrite Split_slash, HS, fold_left_app.
  rewrite clean_dotdots; [|by rewrite length_rev|by apply Forall_rev].
  rewrite drop_ge by (by rewrite length_rev). pose proof HV as HV'.
  unfold ValidPath in HV. rewrite bool_decide_false in HV by done. simpl in HV. apply forallb_Forall in HV.
  rewrite clean_plain by done. rewrite app_nil_r, rev_involutive, Join_Split by done.
  rewrite bool_decide_false; [done|]. intros ->. by vm_compute in HV'.
Qed.

(** ** Properties *)

(** C11 Confinement: the assets built from a configuration without reloading
    open, for a valid name, exactly the file at that name below the prefix; but a name that climbs out of
    it is not refused: as many double dots as the prefix has elements open any
    file of the embedded file system.  A file system that always serves one
    file opens that file below the prefix whatever name is asked for. *)
Theorem assets_confined {File} reloadfs_New Getwd ExpandEnv now (fl : AssetsFlags) prefix (fsys : FS File)
    filename name asked :
  prefix_ok prefix -> f_ReloadEnable fl = false -> ValidPath name = true -> ValidPath filename = true ->
  let below n := Join (base_elems prefix ++ path_elems n) "/" in
  let fs := NewAssets reloadfs_New prefix fsys (OptionsFromFlags Getwd ExpandEnv now fl) in
  let climb := Join (replicate (length (base_elems prefix)) "..") "/" +:+ "/" in
  fs name = fsys (below name) /\ HasPrefix (below name) (Join (base_elems prefix) "/") = true /\
  SameFile_Open (NewSameFileHTTPFilesystem fs filename) asked = fsys (below filename) /\
  (name <> "." -> fs (climb +:+ name) = fsys name).
Proof.
  intros HP Hf HV HFn below fs climb.
  assert (Hfs : forall n, fs n = fsys (path_Join [prefix; n])).
  { intros n. unfold fs, OptionsFromFlags, Config_Options. simpl. rewrite Hf. simpl.
    change (relative_Open (mkRelative prefix fsys "discard webapp/webassets.relativeFS") n
      = fsys (path_Join [prefix; n])).
    unfold relative_Open. cbn [r_fs r_prefix]. by destruct (fsys (path_Join [prefix; n])). }
  split_and!.
  - by rewrite Hfs, join_below.
  - unfold below. destruct HP as (_ & Hb & _). destruct (path_elems name) as [|e es] eqn:E.
    + rewrite app_nil_r. rewrite <- (app_empty_r (Join _ _)) at 1. apply HasPrefix_app.
    + rewrite Join_app by done. apply HasPrefix_app.
  - unfold SameFile_Open, NewSameFileHTTPFilesystem. cbn [sff_fs sff_filename]. unfold http_FS.
    pose proof (ValidPath_not_rooted _ HFn) as Hr. unfold TrimPrefix. rewrite Hr, Hfs.
    rewrite bool_decide_false by (by intros ->). by rewrite join_below.
  - intros Hd. unfold climb. by rewrite Hfs, app_str_assoc, join_above.
Qed.

Lemma assets_confined_witness :
  NewAssets (fun _ _ f _ _ => f) "webapp-sample/build/" (fun n => Ok n)
    (OptionsFromFlags "/" id 0 (mkFlags false true "" false false)) "static/js/a.js"
    = Ok "webapp-sample/build/static/js/a.js" /\
  NewAssets (fun _ _ f _ _ => f) "webapp-sample/build/" (fun n => Ok n)
    (OptionsFromFlags "/" id 0 (mkFlags false true "" false false)) "../../secret.txt" = Ok "secret.txt".
Proof.
  assert (HP : prefix_ok "webapp-sample/build/") by (repeat constructor; done).
  split.
  - pose proof (assets_confined (fun _ _ f _ _ => f) "/" id 0 (mkFlags false true "" false false)
      "webapp-sample/build/" (fun n => Ok n) "index.html" "static/js/a.js" "x" HP eq_refl eq_refl eq_refl) as (H & _).
    etransitivity; [exact H|reflexivity].
  - pose proof (assets_confined (fun _ _ f _ _ => f) "/" id 0 (mkFlags false true "" false false)
      "webapp-sample/build/" (fun n => Ok n) "index.html" "secret.txt" "x" HP eq_refl eq_refl eq_refl)
      as (_ & _ & _ & H). apply H. done.
Defined.
