(* ===== verification/GoClient.v ===== *)
(** * The HTTP client of net/http

[http.Client.Do] for GET requests: the transport answers a request, and a
redirect response is followed as long as the client's redirect policy allows
it.  A transport may answer differently every time, so it is given the URLs of
the requests made before. *)

From S2P Require Import Prelude GoStrings GoErrors GoHTTP.

Record Response := mkResponse { resp_StatusCode : Z; resp_Header : Header; resp_Body : Body }.

(** What a client receives from a handler that wrote to [w]. *)
Definition response_of (w : rw) : Response :=
  mkResponse (final_status w) (final_header w) (mkBody (rw_body w) None).

Definition http_ErrUseLastResponse : string := "http.ErrUseLastResponse".

(** The redirect policy; it sees the URLs requested so far. *)
Record Client := mkClient { CheckRedirect : option (list string -> option error) }.

Definition DefaultClient : Client := mkClient None.

Definition defaultCheckRedirect (via : list string) : option error :=
  if Nat.leb 10 (length via) then Some (errors_New "stopped after 10 redirects") else None.

(** A GET request is redirected for these status codes. *)
Definition redirectBehavior (code : Z) : bool := bool_decide (code ∈ [301; 302; 303; 307; 308]%Z).

Section client.
Variable transport : list string -> string -> res Response.
(** [URL.Parse] of a location relative to a URL. *)
Variable url_Parse : string -> string -> res string.
Variable c : Client.

(** Where a response redirects to; [None] when it does not. *)
Definition redirect_of (resp : Response) : option string :=
  if redirectBehavior (resp_StatusCode resp)
  then let loc := Header_Get (resp_Header resp) "Location" in
       if bool_decide (loc = "") then None else Some loc
  else None.

(** The loop of [Do]: [via] are the requests of this call, [hist] all requests.
    [None] when the fuel is used up. *)
Fixpoint do_loop (fuel : nat) (url : string) (via hist : list string) : option (res Response * list string) :=
  match fuel with
  | O => None
  | S f =>
      let reply := transport hist url in
      let hist := hist ++ [url] in
      let via := via ++ [url] in
      match reply with
      | Err e => Some (Err e, hist)
      | Ok resp =>
          match redirect_of resp with
          | None => Some (Ok resp, hist)
          | Some loc =>
              match url_Parse url loc with
              | Err e => Some (Err (Errorf "failed to parse Location header %q: %v" [loc] []), hist)
              | Ok next =>
                  match default defaultCheckRedirect (CheckRedirect c) via with
                  | Some e => Some (if is_sentinel e http_ErrUseLastResponse then Ok resp else Err e, hist)
                  | None => do_loop f next via hist
                  end
              end
          end
      end
  end.

Definition Do (fuel : nat) (url : string) (hist : list string) : option (res Response * list string) :=
  do_loop fuel url [] hist.

End client.

(** ** Following a number of redirects *)
Section follow.
Variable transport : list string -> string -> res Response.
Variable url_Parse : string -> string -> res string.

(** The response after at most [n] redirects, and all the requests made. *)
Fixpoint follow (n : nat) (url : string) (hist : list string) : res Response * list string :=
  let hist' := hist ++ [url] in
  match transport hist url with
  | Err e => (Err e, hist')
  | Ok resp =>
      match redirect_of resp with
      | None => (Ok resp, hist')
      | Some loc =>
          match url_Parse url loc with
          | Err e => (Err (Errorf "failed to parse Location header %q: %v" [loc] []), hist')
          | Ok next => match n with O => (Ok resp, hist') | S n' => follow n' next hist' end
          end
      end
  end.

(** At most one request more than the redirects allowed, and at least one. *)
Lemma follow_requests n url hist :
  exists urls, (follow n url hist).2 = hist ++ url :: urls /\ (length urls <= n)%nat.
Proof.
  revert url hist. induction n as [|n IH]; intros url hist; simpl;
    repeat case_match; simpl; try by (exists []; split; [reflexivity|simpl; lia]).
  match goal with |- context [follow n ?a ?b] => destruct (IH a b) as (us & -> & Hl) end.
  eexists. rewrite <- app_assoc. split; [reflexivity|]. simpl. lia.
Qed.

End follow.
