(* ===== verification/GoFileServer.v ===== *)
(** * http.FileServer

The file server of net/http with the conditions and ranges of [ServeContent].
The headers that describe a file's type and modification time are left out; the
listing of a directory, the parser of HTTP dates and the body of an answer with
several ranges, which has a random boundary, are parameters. *)

From S2P Require Import Prelude GoStrings GoErrors GoPath GoHTTP GoURL GoEncoding.

Definition fs_ErrPermission : string := "fs.ErrPermission".

(** An open file: whether it is a directory, its contents and its modification
    time in nanoseconds, if it has one (embedded files have not). *)
Record hfile := mkHFile { f_IsDir : bool; f_data : string; f_ModTime : option Z }.

Definition StatusPartialContent : Z := 206.
Definition StatusNotModified : Z := 304.
Definition StatusPreconditionFailed : Z := 412.
Definition StatusRequestedRangeNotSatisfiable : Z := 416.

(** [serveError] *)
Definition serveError (text : string) (code : Z) (w : rw) : rw :=
  http_Error text code
    (fold_left (fun w k => rw_Del k w) ["Cache-Control"; "Content-Encoding"; "Etag"; "Last-Modified"] w).

(** [textproto.TrimString] *)
Definition ascii_space (c : ascii) : bool := bool_decide (N_of_ascii c ∈ [32; 9; 10; 13]%N).
Fixpoint trim_left (s : string) : string :=
  match s with String c s' => if ascii_space c then trim_left s' else s | EmptyString => "" end.
Fixpoint str_rev (s acc : string) : string :=
  match s with EmptyString => acc | String c s' => str_rev s' (String c acc) end.
Definition TrimString (s : string) : string := str_rev (trim_left (str_rev (trim_left s) "")) "".

(** ** Conditions *)
Inductive cond := condNone | condTrue | condFalse.

Definition QUOTE_byte : ascii := "034"%char.

(** The rest of an entity tag after its opening quote: what belongs to it, and what
    follows. *)
Fixpoint scan_tag (s : string) : option (string * string) :=
  match s with
  | EmptyString => None
  | String c s' =>
      let n := N_of_ascii c in
      if bool_decide (c = QUOTE_byte) then Some (String c "", s')
      else if ((n =? 33) || (35 <=? n) && (n <=? 126) || (128 <=? n))%N
      then match scan_tag s' with Some (t, rest) => Some (String c t, rest) | None => None end
      else None
  end.

Definition scanETag (s : string) : option (string * string) :=
  let s := TrimString s in
  let '(weak, body) := match CutPrefix s "W/" with Some b => ("W/", b) | None => ("", s) end in
  match body with
  | String c s' =>
      if bool_decide (c = QUOTE_byte)
      then match scan_tag s' with Some (t, rest) => Some (weak +:+ String c t, rest) | None => None end
      else None
  | EmptyString => None
  end.

Definition etagStrongMatch (a b : string) : bool :=
  bool_decide (a = b) && match a with String c _ => bool_decide (c = QUOTE_byte) | EmptyString => false end.
Definition etagWeakMatch (a b : string) : bool := bool_decide (TrimPrefix a "W/" = TrimPrefix b "W/").

(** The loop of If-Match and If-None-Match over a list of tags: whether it has a
    star or a tag that [match_tag] accepts. Every round consumes a byte. *)
Fixpoint tag_list (fuel : nat) (match_tag : string -> bool) (s : string) : bool :=
  match fuel with
  | O => false
  | S f =>
      match TrimString s with
      | EmptyString => false
      | String c s' =>
          if bool_decide (c = ","%char) then tag_list f match_tag s'
          else if bool_decide (c = "*"%char) then true
          else match scanETag (String c s') with
               | None => false
               | Some (tag, rest) => if match_tag tag then true else tag_list f match_tag rest
               end
      end
  end.

Definition checkIfMatch (w : rw) (req : Request) : cond :=
  let im := Header_Get (r_Header req) "If-Match" in
  if bool_decide (im = "") then condNone
  else if tag_list (S (slen im)) (fun t => etagStrongMatch t (Header_Get (rw_header w) "Etag")) im then condTrue else condFalse.

Definition checkIfNoneMatch (w : rw) (req : Request) : cond :=
  let inm := Header_Get (r_Header req) "If-None-Match" in
  if bool_decide (inm = "") then condNone
  else if tag_list (S (slen inm)) (fun t => etagWeakMatch t (Header_Get (rw_header w) "Etag")) inm then condFalse else condTrue.

Definition get_or_head (req : Request) : bool := bool_decide (r_Method req = "GET" \/ r_Method req = "HEAD").

Section conditions.
(** [http.ParseTime] *)
Variable ParseTime : string -> option Z.

Definition seconds (z : Z) : Z := (z / 1000000000)%Z.

Definition checkIfUnmodifiedSince (req : Request) (modtime : option Z) : cond :=
  match modtime, ParseTime (Header_Get (r_Header req) "If-Unmodified-Since") with
  | Some m, Some t => if (seconds m * 1000000000 <=? t)%Z then condTrue else condFalse
  | _, _ => condNone
  end.

Definition checkIfModifiedSince (req : Request) (modtime : option Z) : cond :=
  if negb (get_or_head req) then condNone
  else match modtime, ParseTime (Header_Get (r_Header req) "If-Modified-Since") with
       | Some m, Some t => if (seconds m * 1000000000 <=? t)%Z then condFalse else condTrue
       | _, _ => condNone
       end.

Definition checkIfRange (w : rw) (req : Request) (modtime : option Z) : cond :=
  let ir := Header_Get (r_Header req) "If-Range" in
  if negb (get_or_head req) || bool_decide (ir = "") then condNone
  else match scanETag ir with
       | Some (tag, _) => if etagStrongMatch tag (Header_Get (rw_header w) "Etag") then condTrue else condFalse
       | None =>
           match modtime, ParseTime ir with
           | Some m, Some t => if (seconds t =? seconds m)%Z then condTrue else condFalse
           | _, _ => condFalse
           end
       end.

Definition writeNotModified (w : rw) : rw :=
  let w := rw_Del "Content-Encoding" (rw_Del "Content-Length" (rw_Del "Content-Type" w)) in
  let w := if bool_decide (Header_Get (rw_header w) "Etag" <> "") then rw_Del "Last-Modified" w else w in
  WriteHeader StatusNotModified w.

(** The answer when a condition has failed, or the range that is asked for. *)
Definition checkPreconditions (w : rw) (req : Request) (modtime : option Z) : rw + string :=
  let ch := match checkIfMatch w req with condNone => checkIfUnmodifiedSince req modtime | ch => ch end in
  match ch with
  | condFalse => inl (WriteHeader StatusPreconditionFailed w)
  | _ =>
      let range :=
        let range := Header_Get (r_Header req) "Range" in
        if bool_decide (range <> "")
        then match checkIfRange w req modtime with condFalse => "" | _ => range end
        else range in
      match checkIfNoneMatch w req with
      | condFalse => inl (if get_or_head req then writeNotModified w else WriteHeader StatusPreconditionFailed w)
      | condNone =>
          match checkIfModifiedSince req modtime with
          | condFalse => inl (writeNotModified w)
          | _ => inr range
          end
      | condTrue => inr range
      end
  end.

End conditions.

(** ** Ranges *)
Record httpRange := mkRange { rg_start : Z; rg_length : Z }.

(** [strconv.ParseInt(s, 10, 64)] *)
Definition ParseInt64 (s : string) : option Z :=
  let '(neg, digits) := match s with
                        | String c s' => if bool_decide (c = "-"%char) then (true, s')
                                         else if bool_decide (c = "+"%char) then (false, s') else (false, s)
                        | EmptyString => (false, s)
                        end in
  match ParseUint digits 10 64 with
  | Some n =>
      if (neg : bool) then (if (n <=? 2 ^ 63)%N then Some (- Z.of_N n)%Z else None)
      else if (n <? 2 ^ 63)%N then Some (Z.of_N n) else None
  | None => None
  end.

Inductive range_result := InvalidRange | NoRange | OneRange (r : httpRange).

(** One range of the list, after trimming. *)
Definition parse_one (ra : string) (size : Z) : range_result :=
  match Cut ra "-" with
  | None => InvalidRange
  | Some (start, end_) =>
      let start := TrimString start in
      let end_ := TrimString end_ in
      if bool_decide (start = "") then
        if bool_decide (end_ = "") || HasPrefix end_ "-" then InvalidRange
        else match ParseInt64 end_ with
             | Some i => if (i <? 0)%Z then InvalidRange
                         else let i := Z.min i size in OneRange (mkRange (size - i) (size - (size - i)))
             | None => InvalidRange
             end
      else match ParseInt64 start with
           | None => InvalidRange
           | Some i =>
               if (i <? 0)%Z then InvalidRange
               else if (size <=? i)%Z then NoRange
               else if bool_decide (end_ = "") then OneRange (mkRange i (size - i))
               else match ParseInt64 end_ with
                    | Some j => if (j <? i)%Z then InvalidRange
                                else let j := if (size <=? j)%Z then (size - 1)%Z else j in OneRange (mkRange i (j - i + 1))
                    | None => InvalidRange
                    end
           end
  end.

(** The loop; [noOverlap] says whether a range began after the end. *)
Fixpoint parse_ranges (l : list string) (size : Z) (noOverlap : bool) (ranges : list httpRange) : res (list httpRange) :=
  match l with
  | [] => if noOverlap && bool_decide (ranges = []) then Err (Sentinel "invalid range: failed to overlap") else Ok ranges
  | ra :: l' =>
      let ra := TrimString ra in
      if bool_decide (ra = "") then parse_ranges l' size noOverlap ranges
      else match parse_one ra size with
           | InvalidRange => Err (errors_New "invalid range")
           | NoRange => parse_ranges l' size true ranges
           | OneRange r => parse_ranges l' size noOverlap (ranges ++ [r])
           end
  end.

Definition parseRange (s : string) (size : Z) : res (list httpRange) :=
  if bool_decide (s = "") then Ok []
  else match CutPrefix s "bytes=" with
       | None => Err (errors_New "invalid range")
       | Some s => parse_ranges (Split s ",") size false []
       end.

(** [path.Base]: the last element that is not empty. *)
Definition path_Base (path : string) : string :=
  if bool_decide (path = "") then "."
  else default "/" (last (filter (fun e => e <> "") (Split path "/"))).

Definition indexPage : string := "/index.html".

(** [toHTTPError] *)
Definition toHTTPError (e : error) : string * Z :=
  if errors_is e fs_ErrNotExist then ("404 page not found", StatusNotFound)
  else if errors_is e fs_ErrPermission then ("403 Forbidden", StatusForbidden)
  else ("500 Internal Server Error", StatusInternalServerError).

Definition localRedirect (req : Request) (newPath : string) (w : rw) : rw :=
  let newPath := if bool_decide (r_Query req = "") then newPath else newPath +:+ "?" +:+ r_Query req in
  WriteHeader StatusMovedPermanently (rw_Set "Location" newPath w).

Section serve.
(** [http.FileSystem.Open], [dirList] and [http.ParseTime]; [multipart] adds the
    type and the body of an answer with several ranges. *)
Variable Open : string -> res hfile.
Variable dirList : hfile -> rw -> rw.
Variable ParseTime : string -> option Z.
Variable multipart : list httpRange -> string -> string.

(** [http.ServeContent]: the answer with the contents of a file, or the parts of it
    that are asked for. *)
Definition ServeContent (req : Request) (f : hfile) (w : rw) : rw :=
  match checkPreconditions ParseTime w req (f_ModTime f) with
  | inl w => w
  | inr rangeReq =>
      let size := Z.of_nat (slen (f_data f)) in
      let send code body w :=
        let w := rw_Set "Content-Length" (Itoa (slen body)) (rw_Set "Accept-Ranges" "bytes" w) in
        let w := WriteHeader code w in
        if bool_decide (r_Method req = "HEAD") then w else Write body w in
      let whole w :=
        let w := rw_Set "Accept-Ranges" "bytes" w in
        let w := if bool_decide (Header_Get (rw_header w) "Content-Encoding" = "")
                 then rw_Set "Content-Length" (Itoa (slen (f_data f))) w else w in
        let w := WriteHeader StatusOK w in
        if bool_decide (r_Method req = "HEAD") then w else Write (f_data f) w in
      match parseRange rangeReq size with
      | Err e =>
          if is_sentinel e "invalid range: failed to overlap" then
            if (size =? 0)%Z then whole w
            else serveError "invalid range: failed to overlap" StatusRequestedRangeNotSatisfiable
                   (rw_Set "Content-Range" ("bytes */" +:+ fmt_int size) w)
          else serveError "invalid range" StatusRequestedRangeNotSatisfiable w
      | Ok ranges =>
          if (size <? foldr Z.add 0 (map rg_length ranges))%Z then whole w
          else match ranges with
          | [] => whole w
          | [ra] =>
              send StatusPartialContent
                (str_take (Z.to_nat (rg_length ra)) (str_drop (Z.to_nat (rg_start ra)) (f_data f)))
                (rw_Set "Content-Range" ("bytes " +:+ fmt_int (rg_start ra) +:+ "-" +:+
                   fmt_int (rg_start ra + rg_length ra - 1) +:+ "/" +:+ fmt_int size) w)
          | _ => send StatusPartialContent (multipart ranges (f_data f)) w
          end
      end
  end.

(** [serveFile] with redirects, for a path that begins with a slash. *)
Definition serveFile (name : string) (req : Request) (w : rw) : rw :=
  let url := r_Path req in
  if HasSuffix url indexPage then localRedirect req "./" w
  else match Open name with
  | Err e => let '(msg, code) := toHTTPError e in serveError msg code w
  | Ok f =>
      if f_IsDir f then
        if negb (HasSuffix url "/") then localRedirect req (path_Base url +:+ "/") w
        else
          let f := match Open (TrimSuffix name "/" +:+ indexPage) with Ok ff => ff | Err _ => f end in
          if f_IsDir f then
            match checkIfModifiedSince ParseTime req (f_ModTime f) with
            | condFalse => writeNotModified w
            | _ => dirList f w
            end
          else ServeContent req f w
      else if HasSuffix url "/" then
        let base := path_Base url in
        if bool_decide (base = "/" \/ base = ".")
        then serveError "http: attempting to traverse a non-directory" StatusInternalServerError w
        else localRedirect req ("../" +:+ base) w
      else ServeContent req f w
  end.

Definition with_path (r : Request) (path : string) : Request :=
  mkReq (r_Method r) (set_Path (r_URL r) path) (r_Host r) (r_Header r) (r_Cookies r)
    (r_RemoteAddr r) (r_ContentLength r) (r_Body r) (r_CtxErr r).

Lemma r_Path_with_path r path : r_Path (with_path r path) = path.
Proof. done. Qed.

(** [FileServer(fs).ServeHTTP] *)
Definition FileServer (req : Request) (w : rw) : rw :=
  let upath := if HasPrefix (r_Path req) "/" then r_Path req else "/" +:+ r_Path req in
  let req := with_path req upath in
  serveFile (Clean upath) req w.

End serve.

(** ** Lemmas *)

(** A request that asks for the whole file whatever its state. *)
Definition unconditional (req : Request) : Prop :=
  Forall (fun k => Header_Get (r_Header req) k = "")
    ["If-Match"; "If-None-Match"; "If-Modified-Since"; "If-Unmodified-Since"; "Range"].

Lemma ServeContent_whole ParseTime multipart req f w :
  unconditional req -> ParseTime "" = None -> fresh w ->
  let w' := ServeContent ParseTime multipart req f w in
  final_status w' = StatusOK /\ rw_body w' = (if bool_decide (r_Method req = "HEAD") then "" else f_data f).
Proof.
  intros Hu Hp Hf w'. unfold unconditional in Hu. rewrite !Forall_cons in Hu. destruct Hu as (H1 & H2 & H3 & H4 & H5 & _).
  assert (Hpre : checkPreconditions ParseTime w req (f_ModTime f) = inr "").
  { unfold checkPreconditions, checkIfMatch, checkIfUnmodifiedSince, checkIfNoneMatch, checkIfModifiedSince.
    rewrite H1, H2, H3, H4, H5, Hp. by destruct (f_ModTime f), (get_or_head req). }
  unfold w', ServeContent. rewrite Hpre. simpl.
  destruct (Z.ltb_spec (Z.of_nat (slen (f_data f))) 0); [lia|].
  rewrite WriteHeader_fresh by (done || by repeat case_match; auto using on_header_fresh).
  case_bool_decide; [split; [done|]|]; [by repeat case_match; apply Hf|].
  erewrite Write_committed by done. simpl. split; [done|]. repeat case_match; simpl; by destruct Hf as (_ & _ & ->).
Qed.

Lemma serveError_final msg code w :
  fresh w -> (200 <= code <= 999)%Z -> bodyAllowedForStatus code = true -> final_status (serveError msg code w) = code.
Proof.
  intros Hf Hc Hb. unfold final_status, serveError.
  match goal with |- context [http_Error msg code ?w'] => destruct (http_Error_fresh msg code w') as [-> _] end; [|done..].
  simpl. auto using on_header_fresh.
Qed.
