(* ===== verification/GoGet.v ===== *)
(** * goget: serving go-import meta tags

Models [goget.go].  The template is the escaping of [GoHTML] in its literal
text. *)

From S2P Require Import Prelude GoStrings GoErrors GoURL GoHTTP GoEncoding GoHTML.

Record Spec := mkSpec { ImportPath : string; Content : string; s_hostname : string; s_path : string }.

Definition Hostname (s : Spec) : string := s_hostname s.
Definition Path (s : Spec) : string := s_path s.

Record handler := mkHandler { h_host : string; h_path : string; h_content : string; h_counter : option string }.

Definition meta_open : string := "<meta name=" +:+ QUOTE +:+ "go-import" +:+ QUOTE +:+ " content=" +:+ QUOTE.

Definition meta_page (content : string) : string :=
  "<html><head>" +:+ meta_open +:+ attrEscaper content +:+ QUOTE +:+ "></head><body>" +:+
    htmlEscaper content +:+ "</body></html>".

(** [metaTemplate.Execute] into a string builder, which does not fail. *)
Definition metaTemplate (content : string) : res string := Ok (meta_page content).

Section goget.
Variable ip_literal : string -> bool.
(** [%q] *)
Variable quote : string -> string.

Definition SplitHostnamePath (s : Spec) : res Spec :=
  let importPath := if negb (Contains (ImportPath s) "://") then "https://" +:+ ImportPath s else ImportPath s in
  match Parse ip_literal importPath with
  | Err e => Err e
  | Ok u => Ok (mkSpec (ImportPath s) (Content s) (URL_Hostname (u_Host u)) (TrimSuffix (u_Path u) "/"))
  end.

(** [decoded] is the outcome of decoding the YAML node. *)
Definition Spec_UnmarshalYAML (decoded : res Spec) : res Spec :=
  match decoded with Err e => Err e | Ok s => SplitHostnamePath s end.

Definition Spec_String (s : Spec) : string :=
  ImportPath s +:+ "?go-get=1 content=" +:+ quote (Content s).

(** [fb] is the handler that other requests fall back to; [log] lists the calls
    of the counter. *)
Definition ServeHTTP (h : handler) (fb : rw -> rw) (r : Request) (w : rw) (log : list string) : rw * list string :=
  if bool_decide (Values_Get (Query (r_URL r)) "go-get" <> "1") then (fb w, log)
  else if bool_decide (TrimSuffix (r_Path r) "/" <> h_path h) then (fb w, log)
  else
    let hn := URL_Hostname (u_Host (r_URL r)) in
    if negb (Nat.eqb (slen hn) 0) && bool_decide (hn <> h_host h) then (fb w, log)
    else
      let w := rw_Set "Content-Type" "text/html; charset=utf-8" w in
      (Write (h_content h) w, match h_counter h with Some c => log ++ [c] | None => log end).

Definition WithCounter (c : option string) (_ : option string) : option string := c.

(** The handler, and the fallback in use. *)
Definition NewHandler (s : Spec) (next : option (rw -> rw)) (opts : list (option string -> option string))
  : res (handler * (rw -> rw)) :=
  let next := match next with None => http_NotFound | Some n => n end in
  let counter := fold_left (fun o opt => opt o) opts None in
  match metaTemplate (Content s) with
  | Err e => Err e
  | Ok out => Ok (mkHandler (s_hostname s) (s_path s) out counter, next)
  end.

(** The handler answers exactly the go-get requests for its import path, with
    or without a trailing slash and on its own host if the URL has one; all
    others go to the fallback untouched. *)
Lemma goget_decides s next opts h fb r w log :
  NewHandler s next opts = Ok (h, fb) -> fresh w ->
  let served := Values_Get (Query (r_URL r)) "go-get" = "1" /\ TrimSuffix (r_Path r) "/" = Path s /\
    (URL_Hostname (u_Host (r_URL r)) = "" \/ URL_Hostname (u_Host (r_URL r)) = Hostname s) in
  (served -> exists content, metaTemplate (Content s) = Ok content /\
     let w' := (ServeHTTP h fb r w log).1 in
     final_status w' = StatusOK /\ rw_body w' = content /\
     Header_Get (final_header w') "Content-Type" = "text/html; charset=utf-8") /\
  (~ served -> ServeHTTP h fb r w log = (fb w, log)).
Proof.
  intros HN Hf served. unfold NewHandler in HN. destruct (metaTemplate (Content s)) as [out|]; [|done].
  injection HN as <- <-. unfold ServeHTTP. simpl. unfold Path, Hostname in *.
  assert (Hhost : negb (Nat.eqb (slen (URL_Hostname (u_Host (r_URL r)))) 0) && bool_decide (URL_Hostname (u_Host (r_URL r)) <> s_hostname s) = false
    <-> URL_Hostname (u_Host (r_URL r)) = "" \/ URL_Hostname (u_Host (r_URL r)) = s_hostname s).
  { rewrite andb_false_iff, negb_false_iff, Nat.eqb_eq, slen_zero, bool_decide_eq_false.
    split; intros [?|H]; auto. right. by apply dec_stable in H. }
  split.
  - intros (Hq & Hp & Hh%Hhost). exists out. split; [done|]. rewrite !bool_decide_false by auto. rewrite Hh. simpl.
    rewrite Write_fresh by (by apply on_header_fresh). simpl. split_and!; [done|done|]. apply Header_Get_Set.
  - intros Hns. destruct (decide (Values_Get (Query (r_URL r)) "go-get" = "1")) as [Hq|Hq]; [|by rewrite bool_decide_true].
    rewrite bool_decide_false by auto.
    destruct (decide (TrimSuffix (r_Path r) "/" = s_path s)) as [Hp|Hp]; [|by rewrite bool_decide_true].
    rewrite bool_decide_false by auto. destruct (negb _ && _) eqn:E; [done|].
    exfalso. apply Hns. pose proof (proj1 Hhost eq_refl). by split_and!.
Qed.

End goget.
