(* ===== verification/WebChecks.v ===== *)
(** * testwebapp: checks of a deployed web application

Models [test_healthz.go], [test_status.go], [test_redirect.go],
[test_goget.go], [test_metrics.go] and [test_webhooks.go].  The servers that
are checked are the transport of the client; the endpoints of
cloudeng.io/webapi/operations, the metrics reporter and the YAML printer of
specs are parameters.  The checks of different specs run concurrently and
independently of each other; a group returns no error exactly when none of its
functions does. *)

From S2P Require Import Prelude GoStrings GoTime GoErrors GoHTTP GoClient GoEncoding GoHTML WebUtil GoGet.

(** ** Clients *)

Definition newClient (client : option Client) : Client := default DefaultClient client.

Definition ClientNoRedirect (client : option Client) : Client :=
  mkClient (Some (fun _ => Some (Sentinel http_ErrUseLastResponse))).

Definition ClientMaxRedirects (client : option Client) (maxRedirects : Z) : Client :=
  mkClient (Some (fun via => if (maxRedirects <? Z.of_nat (length via))%Z
                             then Some (Sentinel http_ErrUseLastResponse) else None)).


Record HealthzSpec := mkHealthz { hz_URL : string; hz_Interval : Z; hz_Timeout : Z; hz_NumHealthChecks : Z }.
Record CheckStatusSpec := mkStatus { cs_URL : string; cs_Code : Z; cs_Redirects : Z }.
Record RedirectSpec := mkRedirect { rs_URL : string; rs_Target : string; rs_Code : Z }.

Definition MetricsSpec : Type := string * list string.
Record WebhookRoundTripSpec := mkWebhookSpec { ws_DeliveryURL : string; ws_RelayURL : string }.

Definition HealthzSpec_String := yaml_String (A := HealthzSpec).
Definition CheckStatusSpec_String := yaml_String (A := CheckStatusSpec).
Definition RedirectSpec_String := yaml_String (A := RedirectSpec).
Definition MetricsSpec_String := yaml_String (A := MetricsSpec).
Definition WebhookRoundTripSpec_String := yaml_String (A := WebhookRoundTripSpec).

Definition ErrCheckStatusUnexpectedError : string := "check status unexpected error".
Definition ErrCheckStatusCodeMismatch : string := "check status code mismatch".
Definition ErrRedirectUnexpectedError : string := "redirect unexpected error".
Definition ErrRedirectTargetMismatch : string := "redirect target mismatch".
Definition ErrRedirectStatusCodeMismatch : string := "redirect status code mismatch".
Definition ErrGoGetUnexpectedError : string := "go-get unexpected error".
Definition ErrGoGetPathNotFound : string := "go-get path not found".
Definition ErrGoGetNotFound : string := "go-get meta tag not found".
Definition ErrGoGetContentMismatch : string := "go-get meta tag content mismatch".

Section checks.
Variable transport : list string -> string -> res Response.
Variable url_Parse : string -> string -> res string.
(** The error of [http.NewRequestWithContext] for a URL. *)
Variable NewRequest : string -> option error.
Variable fuel : nat.
(** [%q] *)
Variable quote : string -> string.

Definition do (c : Client) (url : string) (hist : list string) : option (res Response * list string) :=
  Do transport url_Parse c fuel url hist.

(** *** test_healthz.go *)

(** One iteration of the loop: the error that ends it, and the requests. *)
Definition healthz_check (client : Client) (url : string) (hist : list string)
  : option (option error * list string) :=
  match NewRequest url with
  | Some e => Some (Some (Errorf "healthz: creating request: %w" [] [e]), hist)
  | None =>
      match do client url hist with
      | None => None
      | Some (Err e, hist) => Some (Some (Errorf "healthz: performing request: %w" [] [e]), hist)
      | Some (Ok resp, hist) =>
          Some (match ReadAll (resp_Body resp) with
                | Err e => Some (Errorf "healthz: reading response body: %w" [] [e])
                | Ok body =>
                    if negb (resp_StatusCode resp =? StatusOK)%Z
                    then Some (Errorf "healthz: unexpected status code: %d, body: %s"
                                 [fmt_int (resp_StatusCode resp); body] [])
                    else if bool_decide (body <> "ok" +:+ LF)
                    then Some (Errorf "healthz: unexpected body: %q" [quote body] [])
                    else None
                end, hist)
      end
  end.

(** The loop with [left] checks to go; [wait n] is the context's error when it
    is cancelled while waiting with [n] checks to go. *)
Fixpoint healthz_loop (wait : nat -> option error) (client : Client) (url : string) (left : nat)
    (hist : list string) : option (option error * list string) :=
  match left with
  | O => Some (None, hist)
  | S left' =>
      match healthz_check client url hist with
      | None => None
      | Some (Some e, hist) => Some (Some e, hist)
      | Some (None, hist) =>
          if Nat.eqb left' 0 then Some (None, hist)
          else match wait left' with
               | Some e => Some (Some (Errorf "healthz: %v: %w" [url] [e]), hist)
               | None => healthz_loop wait client url left' hist
               end
      end
  end.

Definition healthz_run (wait : nat -> option error) (client : option Client) (spec : HealthzSpec)
    (hist : list string) : option (option error * list string) :=
  healthz_loop wait (newClient client) (hz_URL spec) (Z.to_nat (hz_NumHealthChecks spec)) hist.

Definition healthz_defaults (spec : HealthzSpec) : HealthzSpec :=
  mkHealthz (hz_URL spec)
    (if (hz_Interval spec =? 0)%Z then Second else hz_Interval spec)
    (if (hz_Timeout spec =? 0)%Z then (Second * 10)%Z else hz_Timeout spec)
    (if (hz_NumHealthChecks spec =? 0)%Z then 1%Z else hz_NumHealthChecks spec).

(** Each spec is checked on its own, from the requests [hist] on. *)
Definition HealthzTest_Run (wait : nat -> option error) (client : option Client) (specs : list HealthzSpec)
    (hist : list string) : option (option error * list (list string)) :=
  match specs with
  | [] => Some (None, [])
  | _ =>
      rs ← mapM (fun spec => healthz_run wait client (healthz_defaults spec) hist) specs;
      Some (group_Wait (map fst rs), map snd rs)
  end.

(** *** test_status.go *)

Definition status_verify (client : option Client) (spec : CheckStatusSpec) (hist : list string)
  : option (option error * list string) :=
  let client := ClientMaxRedirects client (cs_Redirects spec) in
  match NewRequest (cs_URL spec) with
  | Some e => Some (Some (Errorf "error: %v: %w" [] [Sentinel ErrCheckStatusUnexpectedError]), hist)
  | None =>
      match do client (cs_URL spec) hist with
      | None => None
      | Some (Err e, hist) => Some (Some (Errorf "error: %v: %w" [] [Sentinel ErrCheckStatusUnexpectedError]), hist)
      | Some (Ok resp, hist) =>
          Some (if negb (resp_StatusCode resp =? cs_Code spec)%Z
                then Some (Errorf "status code: %v, want: %v: %w"
                             [fmt_int (resp_StatusCode resp); fmt_int (cs_Code spec)]
                             [Sentinel ErrCheckStatusCodeMismatch])
                else None, hist)
      end
  end.

Definition CheckStatus_Run (fmt_spec : CheckStatusSpec -> string) (client : option Client)
    (specs : list CheckStatusSpec) (hist : list string) : option (option error * list (list string)) :=
  rs ← mapM (fun spec =>
         r ← status_verify client spec hist;
         Some (match r.1 with Some e => Some (Errorf "%v: %w" [fmt_spec spec] [e]) | None => None end, r.2)) specs;
  Some (group_Wait (map fst rs), map snd rs).

Definition GenerateCheckStatusSpecs (urls : list string) (code redirects : Z) : list CheckStatusSpec :=
  map (fun url => mkStatus url code redirects) urls.

(** *** test_redirect.go *)

Definition redirect_verify (client : Client) (spec : RedirectSpec) (hist : list string)
  : option (option error * list string) :=
  match NewRequest (rs_URL spec) with
  | Some e => Some (Some (Errorf "error: %v: %w" [] [Sentinel ErrRedirectUnexpectedError]), hist)
  | None =>
      match do client (rs_URL spec) hist with
      | None => None
      | Some (Err e, hist) => Some (Some (Errorf "error: %v: %w" [] [Sentinel ErrRedirectUnexpectedError]), hist)
      | Some (Ok resp, hist) =>
          let location := Header_Get (resp_Header resp) "Location" in
          Some (if negb (resp_StatusCode resp =? rs_Code spec)%Z
                then Some (Errorf "redirect code: %v, want: %v: %w"
                             [fmt_int (resp_StatusCode resp); fmt_int (rs_Code spec)]
                             [Sentinel ErrRedirectStatusCodeMismatch])
                else if bool_decide (location <> rs_Target spec)
                then Some (Errorf "location: %v, want: %v: %w" [location; rs_Target spec]
                             [Sentinel ErrRedirectTargetMismatch])
                else None, hist)
      end
  end.

Definition RedirectTest_Run (fmt_spec : RedirectSpec -> string) (client : option Client)
    (specs : list RedirectSpec) (hist : list string) : option (option error * list (list string)) :=
  let client := ClientNoRedirect client in
  rs ← mapM (fun spec =>
         r ← redirect_verify client spec hist;
         Some (match r.1 with Some e => Some (Errorf "%v: %w" [fmt_spec spec] [e]) | None => None end, r.2)) specs;
  Some (group_Wait (map fst rs), map snd rs).

(** *** test_goget.go *)


Definition goget_verify (client : Client) (expected : Spec) (hist : list string)
  : option (option error * list string) :=
  let url := "https://" +:+ ImportPath expected +:+ "?go-get=1" in
  let content := Content expected in
  match NewRequest url with
  | Some _ => Some (Some (Sentinel ErrGoGetUnexpectedError), hist)
  | None =>
      match do client url hist with
      | None => None
      | Some (Err e, hist) => Some (Some (Errorf "error: %v: %w" [] [Sentinel ErrGoGetUnexpectedError]), hist)
      | Some (Ok resp, hist) =>
          Some (if negb (resp_StatusCode resp =? StatusOK)%Z
                then if (resp_StatusCode resp =? StatusNotFound)%Z then Some (Sentinel ErrGoGetPathNotFound)
                     else Some (Sentinel ErrGoGetUnexpectedError)
                else match ReadAll (resp_Body resp) with
                | Err e => Some (Errorf "error: %v: %w" [] [Sentinel ErrGoGetUnexpectedError])
                | Ok body =>
                    if negb (Contains body meta_open)
                    then Some (Errorf "%v: %w" [body] [Sentinel ErrGoGetNotFound])
                    else if negb (Contains body (meta_open +:+ content +:+ QUOTE +:+ "/>"))
                            && negb (Contains body (meta_open +:+ content +:+ QUOTE +:+ ">"))
                    then Some (Errorf "%v: %w" [] [Sentinel ErrGoGetContentMismatch])
                    else None
                end, hist)
      end
  end.

(** The specs are checked one after the other. *)
Fixpoint goget_loop (client : Client) (specs : list Spec) (errs : list (option error))
    (hist : list string) : option (list (option error) * list string) :=
  match specs with
  | [] => Some (errs, hist)
  | spec :: specs' =>
      match goget_verify client spec hist with
      | None => None
      | Some (Some e, hist) => goget_loop client specs' (errs ++ [Some (Errorf "%v: %w" [Spec_String quote spec] [e])]) hist
      | Some (None, hist) => goget_loop client specs' errs hist
      end
  end.

Definition GoGetTest_Run (client : option Client) (specs : list Spec) (hist : list string)
  : option (option error * list string) :=
  r ← goget_loop (newClient client) specs [] hist;
  Some (group_Wait r.1, r.2).

(** *** test_metrics.go *)

(** [reporter] gives the metrics found and missing at a URL. *)
Definition MetricsTest_Run (reporter : option (string -> list string -> res (list string * list string)))
    (specs : list MetricsSpec) : option error :=
  match specs with
  | [] => None
  | _ =>
      match reporter with
      | None => Some (errors_New "metrics reporter is nil")
      | Some report =>
          group_Wait (map (fun spec =>
            match report spec.1 spec.2 with
            | Err e => Some (Errorf "error checking metrics existence at %v: %v" [spec.1] [])
            | Ok (found, missing) =>
                match missing with
                | [] => None
                | _ => Some (Errorf "some expected metrics for url %v were missing: %v" (spec.1 :: missing) [])
                end
            end) specs)
      end
  end.

End checks.

(** ** test_webhooks.go *)
Section webhooks.
Context {T : Type} `{EqDecision T}.

(** [DrainRelayURL]: what the loop sees at every iteration: the context is done
    already, or the outcome of the poll together with whether the context or
    the idle deadline ended it. *)
Inductive drain_event :=
| CtxDone (e : error)
| Polled (got : T)
| PollFailed (ctx : option error) (idle : bool) (e : error).

(** [None]: the events end while the loop still runs. *)
Fixpoint drain_loop (events : list drain_event) (results : list T) : option (list T * option error) :=
  match events with
  | [] => None
  | CtxDone e :: _ => Some (results, Some e)
  | Polled got :: events' => drain_loop events' (results ++ [got])
  | PollFailed (Some e) _ _ :: _ => Some (results, Some e)
  | PollFailed None idle e :: _ => Some (results, if (idle : bool) then None else Some e)
  end.

Definition DrainRelayURL (events : list drain_event) : option (list T * option error) := drain_loop events [].

(** [wait]: polls until the payload arrives; other payloads are skipped. *)
Fixpoint webhook_wait (polls : list (res T)) (want : T) : option (option error) :=
  match polls with
  | [] => None
  | Err e :: _ => Some (Some (Errorf "waiting for relay: %w" [] [e]))
  | Ok got :: polls' => if bool_decide (got = want) then Some None else webhook_wait polls' want
  end.

(** [deliver] and [runOne]: [post] is the outcome of posting the payload, signed
    when there is a signer for the delivery URL. *)
Definition webhook_deliver (post : option string -> T -> option error) (signer : option string) (payload : T)
  : option error :=
  match post signer payload with
  | Some e => Some (Errorf "delivering webhook: %w" [] [e])
  | None => None
  end.

Definition webhook_runOne (post : option string -> T -> option error) (signers : gmap string string)
    (deliveryURL : string) (payload : T) (polls : list (res T)) : option (option error) :=
  match webhook_deliver post (signers !! deliveryURL) payload with
  | Some e => Some (Some e)
  | None => webhook_wait polls payload
  end.

(** [payload], [post] and [polls] of every spec are its own. *)
Definition WebhookRoundTrip_Run (fmt_spec : WebhookRoundTripSpec -> string)
    (post : WebhookRoundTripSpec -> option string -> T -> option error) (signers : gmap string string)
    (payload : WebhookRoundTripSpec -> T) (polls : WebhookRoundTripSpec -> list (res T))
    (specs : list WebhookRoundTripSpec) : option (option error) :=
  errs ← mapM (fun spec =>
           r ← webhook_runOne (post spec) signers (ws_DeliveryURL spec) (payload spec) (polls spec);
           Some (match r with Some e => Some (Errorf "%v: %w" [fmt_spec spec] [e]) | None => None end)) specs;
  Some (group_Wait errs).

End webhooks.

(** ** The client's redirect limit *)

Section theorems.
Variable transport : list string -> string -> res Response.
Variable url_Parse : string -> string -> res string.

(** A client limited to [m] redirects follows [Z.to_nat m] of them. *)
Lemma max_redirects_follow c m fuel url via hist :
  (length via <= Z.to_nat m)%nat -> (Z.to_nat m - length via < fuel)%nat ->
  do_loop transport url_Parse (ClientMaxRedirects c m) fuel url via hist =
    Some (follow transport url_Parse (Z.to_nat m - length via) url hist).
Proof.
  revert url via hist. induction fuel as [|f IH]; intros url via hist Hv Hf; [lia|]. simpl.
  destruct (Z.to_nat m - length via)%nat as [|k] eqn:Hk; simpl.
  all: destruct (transport hist url) as [resp|e]; [|done].
  all: destruct (redirect_of resp) as [loc|]; [|done].
  all: destruct (url_Parse url loc) as [next|e]; [|done].
  all: rewrite length_app; simpl; destruct (Z.ltb_spec m (Z.of_nat (length via + 1))) as [Hlt|Hge];
    try lia; try done.
  rewrite IH; rewrite ?length_app; simpl; try lia. do 2 f_equal. lia.
Qed.

(** A client without redirects makes one request. *)
Lemma no_redirect_follow c fuel url hist :
  (0 < fuel)%nat ->
  do_loop transport url_Parse (ClientNoRedirect c) fuel url [] hist =
    Some (follow transport url_Parse 0 url hist).
Proof.
  intros Hf. destruct fuel; [lia|]. simpl.
  repeat case_match; done.
Qed.

Variable NewRequest : string -> option error.
Variable fuel : nat.
Variable quote : string -> string.

(** The response that a status check looks at. *)
Definition status_final (spec : CheckStatusSpec) (hist : list string) : res Response * list string :=
  follow transport url_Parse (Z.to_nat (cs_Redirects spec)) (cs_URL spec) hist.

Definition status_ok (hist : list string) (spec : CheckStatusSpec) : Prop :=
  NewRequest (cs_URL spec) = None /\
  exists resp, (status_final spec hist).1 = Ok resp /\ resp_StatusCode resp = cs_Code spec.

Lemma status_verify_spec client spec hist :
  (Z.to_nat (cs_Redirects spec) < fuel)%nat ->
  exists err hist', status_verify transport url_Parse NewRequest fuel client spec hist = Some (err, hist') /\
    (err = None <-> status_ok hist spec) /\
    hist' = (if NewRequest (cs_URL spec) is Some _ then hist else (status_final spec hist).2) /\
    (forall e, err = Some e -> errors_is e ErrCheckStatusUnexpectedError = true \/
                               errors_is e ErrCheckStatusCodeMismatch = true).
Proof.
  intros Hf. unfold status_verify, status_ok. destruct (NewRequest (cs_URL spec)) as [e0|].
  { eexists _, _. split; [done|]. split_and!; [naive_solver|done|]. intros e [= <-]. by left. }
  unfold do, Do. rewrite max_redirects_follow by (simpl; lia). simpl. rewrite Nat.sub_0_r.
  change (follow _ _ _ _ _) with (status_final spec hist).
  destruct (status_final spec hist) as [[resp|e0] h]; simpl.
  - eexists _, _. split; [done|]. destruct (Z.eqb_spec (resp_StatusCode resp) (cs_Code spec)) as [E|E]; simpl.
    + split_and!; [|done|done]. split; [|done]. intros _. split; [done|]. by exists resp.
    + split_and!; [|done|intros e [= <-]; by right].
      split; [done|]. intros (_ & r & [= <-] & Hr). by destruct E.
  - eexists _, _. split; [done|]. split_and!; [naive_solver|done|]. intros e [= <-]. by left.
Qed.

(** A redirect check makes one request, whatever the answer. *)
Lemma redirect_verify_requests client spec hist err hist' :
  redirect_verify transport url_Parse NewRequest fuel (ClientNoRedirect client) spec hist = Some (err, hist') ->
  hist' = (if NewRequest (rs_URL spec) is Some _ then hist else hist ++ [rs_URL spec]).
Proof.
  unfold redirect_verify. destruct (NewRequest (rs_URL spec)); [naive_solver|]. unfold do, Do.
  destruct (decide (0 < fuel)%nat) as [Hf|Hf]; [|by replace fuel with 0%nat by lia].
  rewrite no_redirect_follow by done.
  destruct (follow_requests transport url_Parse 0 (rs_URL spec) hist) as ([|u us] & Hu & Hl); simpl in Hl; [|lia].
  destruct (follow _ _ _ _ _) as [[resp|e] h]; simpl in Hu; subst; intros [= _ <-]; done.
Qed.

(** C13 A status check ends: with fuel for the redirects that its specs allow,
    [CheckStatus.Run] reports on every spec. It returns nil exactly when for
    every spec the response after at most [Redirects] redirects has the wanted
    code; and a check makes at least one and at most [max(Redirects, 0) + 1]
    requests (none when the URL is invalid). *)
Theorem status_checks_bounded fmt_spec client specs hist :
  Forall (fun spec => (Z.to_nat (cs_Redirects spec) < fuel)%nat) specs ->
  exists err hists,
    CheckStatus_Run transport url_Parse NewRequest fuel fmt_spec client specs hist = Some (err, hists) /\
    (err = None <-> Forall (status_ok hist) specs) /\
    Forall2 (fun spec h => if NewRequest (cs_URL spec) is Some _ then h = hist
      else exists urls, h = hist ++ cs_URL spec :: urls /\
             (Z.of_nat (length (cs_URL spec :: urls)) <= Z.max (cs_Redirects spec) 0 + 1)%Z) specs hists.
Proof.
  intros Hf. unfold CheckStatus_Run.
  assert (exists rs, mapM (fun spec => r ← status_verify transport url_Parse NewRequest fuel client spec hist;
            Some (match r.1 with Some e => Some (Errorf "%v: %w" [fmt_spec spec] [e]) | None => None end, r.2)) specs = Some rs /\
     Forall2 (fun spec r => (r.1 = None <-> status_ok hist spec) /\
        r.2 = (if NewRequest (cs_URL spec) is Some _ then hist else (status_final spec hist).2)) specs rs) as (rs & -> & Hrs).
  { induction Hf as [|spec specs Hs _ (rs & IH & IH2)]; [by exists []|].
    destruct (status_verify_spec client spec hist Hs) as (e & h & Hv & Hok & Hh & _).
    simpl. rewrite Hv. simpl. rewrite IH. simpl. eexists. split; [done|]. constructor; [|done]. simpl.
    split; [|done]. rewrite <- Hok. by destruct e. }
  eexists _, _. split; [done|]. clear Hf. split.
  - rewrite group_Wait_None. induction Hrs as [|spec r specs rs [H1 _] _ IH]; [done|].
    simpl. by rewrite !Forall_cons, H1, IH.
  - induction Hrs as [|spec r specs rs [_ H2] _ IH]; simpl; constructor; [|done].
    destruct (NewRequest (cs_URL spec)); [done|]. rewrite H2.
    destruct (follow_requests transport url_Parse (Z.to_nat (cs_Redirects spec)) (cs_URL spec) hist) as (us & Hu & Hl).
    exists us. split; [done|]. simpl. lia.
Qed.

(** ** Health checks *)

Definition healthz_passed (r : option (option error * list string)) : Prop := exists hist, r = Some (None, hist).

(** One healthy answer: status 200 and the body of the health handler. *)
Definition healthy (client : Client) (url : string) (hist hist' : list string) : Prop :=
  exists resp, do transport url_Parse fuel client url hist = Some (Ok resp, hist') /\
    resp_StatusCode resp = StatusOK /\ ReadAll (resp_Body resp) = Ok ("ok" +:+ LF).

Lemma healthz_check_iff client url hist hist' :
  NewRequest url = None ->
  healthz_check transport url_Parse NewRequest fuel quote client url hist = Some (None, hist') <->
  healthy client url hist hist'.
Proof.
  intros HN. unfold healthz_check, healthy. rewrite HN.
  destruct (do _ _ _ _ _ _) as [[[resp|e] h]|]; [|naive_solver|naive_solver].
  destruct (ReadAll (resp_Body resp)) as [body|e] eqn:Eb.
  - destruct (Z.eqb_spec (resp_StatusCode resp) StatusOK) as [Es|Es]; simpl.
    + destruct (decide (body = "ok" +:+ LF)) as [Ho|Ho].
      * rewrite bool_decide_false by auto. subst body.
        split; [intros [= <-]; by exists resp|]. by intros (r & [= <- <-] & _).
      * rewrite bool_decide_true by done. split; [done|]. intros (r & [= <- <-] & _ & Hr).
        rewrite Eb in Hr. by injection Hr.
    + split; [done|]. intros (r & [= <- <-] & Hr & _). by destruct Es.
  - split; [done|]. intros (r & [= <- <-] & _ & Hr). congruence.
Qed.

(** The loop passes exactly when all its checks do. *)
Lemma healthz_loop_iff wait client url left hist hist' :
  NewRequest url = None -> (forall n, wait n = None) ->
  healthz_loop transport url_Parse NewRequest fuel quote wait client url left hist = Some (None, hist') <->
  nsteps (healthy client url) left hist hist'.
Proof.
  intros HN HW. revert hist. induction left as [|n IH]; intros hist; simpl.
  { split; [intros [= <-]; constructor|]. by inversion 1. }
  destruct (healthz_check _ _ _ _ _ _ _ _) as [[[e|] h]|] eqn:E.
  - split; [done|]. inversion 1 as [|? ? y ? Hy]; subst.
    apply healthz_check_iff in Hy; [congruence|done].
  - assert (Hh := E). apply healthz_check_iff in Hh; [|done].
    transitivity (nsteps (healthy client url) n h hist').
    + rewrite HW. destruct (Nat.eqb_spec n 0) as [->|_]; [|apply IH].
      split; [intros [= <-]; constructor|]. by inversion 1.
    + split; [by econstructor|]. inversion 1 as [|? ? y ? Hy]; subst.
      apply healthz_check_iff in Hy; [|done]. congruence.
  - split; [done|]. inversion 1 as [|? ? y ? Hy]; subst.
    apply healthz_check_iff in Hy; [congruence|done].
Qed.

Lemma healthz_handler_healthy client url hist :
  (0 < fuel)%nat -> (forall h, transport h url = Ok (response_of (HealthzHandler new_rw))) ->
  forall hist', healthy client url hist hist' <-> hist' = hist ++ [url].
Proof.
  intros Hf HT hist'. unfold healthy, do, Do. destruct fuel as [|f]; [lia|]. simpl. rewrite HT.
  change (redirect_of _) with (@None string). simpl.
  split; [by intros (r & [= _ <-] & _)|]. intros ->. eexists. split; [done|]. by split.
Qed.

(** [Run] passes exactly when every spec does on its own. *)
Lemma HealthzTest_Run_None wait client specs hist hists :
  HealthzTest_Run transport url_Parse NewRequest fuel quote wait client specs hist = Some (None, hists) <->
  Forall2 (fun spec h => healthz_run transport url_Parse NewRequest fuel quote wait client
                           (healthz_defaults spec) hist = Some (None, h)) specs hists.
Proof.
  transitivity (mapM (fun spec => healthz_run transport url_Parse NewRequest fuel quote wait client
                                    (healthz_defaults spec) hist) specs = Some (map (pair None) hists)).
  - unfold HealthzTest_Run. destruct specs as [|spec specs']; [destruct hists; simpl; naive_solver|].
    destruct (mapM _ _) as [rs|]; simpl; [|done]. split.
    + intros [= Hg%group_Wait_None <-]. f_equal. rewrite map_map. clear -Hg.
      induction rs as [|[o h] rs IH]; [done|]. apply Forall_cons in Hg as [Ho Hg]. simpl in Ho. subst o.
      simpl. f_equal. auto.
    + intros [= ->]. rewrite !map_map. simpl. rewrite map_id. do 2 f_equal. apply group_Wait_None.
      apply Forall_forall. by intros x (? & ? & _)%list_elem_of_fmap.
  - rewrite mapM_Some. apply Forall2_fmap_r.
Qed.

(** The health check and the health handler fit together. Against a server
    whose URLs are served by [HealthzHandler], [HealthzTest.Run] passes and makes
    exactly [NumHealthChecks] requests for every spec (one for the default 0, and
    none for a negative count). Against any server, a spec passes exactly when
    each of its checks, in sequence, gets status 200 and the handler's body. *)
Lemma healthz_checks_handler wait client specs hist :
  (0 < fuel)%nat ->
  (forall n, wait n = None) -> Forall (fun spec => NewRequest (hz_URL spec) = None) specs ->
  ((forall spec h, spec ∈ specs -> transport h (hz_URL spec) = Ok (response_of (HealthzHandler new_rw))) ->
   HealthzTest_Run transport url_Parse NewRequest fuel quote wait client specs hist =
     Some (None, map (fun spec => hist ++ replicate (Z.to_nat (if (hz_NumHealthChecks spec =? 0)%Z then 1%Z
                                                     else hz_NumHealthChecks spec)) (hz_URL spec)) specs)) /\
  (forall hists,
   HealthzTest_Run transport url_Parse NewRequest fuel quote wait client specs hist = Some (None, hists) <->
   Forall2 (fun spec h => nsteps (healthy (newClient client) (hz_URL spec))
                            (Z.to_nat (hz_NumHealthChecks (healthz_defaults spec))) hist h) specs hists).
Proof.
  intros Hfuel HW HN.
  assert (Hiff : forall spec h, spec ∈ specs ->
    healthz_run transport url_Parse NewRequest fuel quote wait client (healthz_defaults spec) hist = Some (None, h)
    <-> nsteps (healthy (newClient client) (hz_URL spec)) (Z.to_nat (hz_NumHealthChecks (healthz_defaults spec))) hist h).
  { intros spec h Hin. apply healthz_loop_iff; [|done]. rewrite Forall_forall in HN. by apply HN. }
  split.
  - intros HT. apply HealthzTest_Run_None, Forall2_fmap_r, Forall_Forall2_diag, Forall_forall.
    intros spec Hin. apply Hiff; [done|]. simpl. generalize (Z.to_nat (if (hz_NumHealthChecks spec =? 0)%Z then 1%Z
      else hz_NumHealthChecks spec)). intros n. clear -HT Hin Hfuel. revert hist.
    induction n as [|n IH]; intros hist; simpl; [rewrite app_nil_r; constructor|].
    econstructor; [by apply healthz_handler_healthy; eauto|].
    replace (hist ++ _ :: replicate n _) with ((hist ++ [hz_URL spec]) ++ replicate n (hz_URL spec))
      by (by rewrite <- app_assoc). apply IH.
  - intros hists. rewrite HealthzTest_Run_None, !Forall2_same_length_lookup.
    split; intros [Hl H]; split; try done; intros i spec h Hs Hh;
      apply Hiff; eauto using list_elem_of_lookup_2.
Qed.

End theorems.

(** A server of three pages, with a redirect between the first two. *)
Definition demo_transport (hist : list string) (url : string) : res Response :=
  if bool_decide (url = "https://a/") then Ok (mkResponse 302 {["Location" := ["https://b/"]]} (mkBody "" None))
  else if bool_decide (url = "https://b/") then Ok (mkResponse StatusOK ∅ (mkBody "page" None))
  else Ok (response_of (HealthzHandler new_rw)).

Definition demo_Parse (base loc : string) : res string := Ok loc.

(** With no redirect allowed the check sees the redirect itself. *)
Lemma status_checks_bounded_witness :
  let specs := [mkStatus "https://a/" StatusOK 1; mkStatus "https://a/" 302 (-1)] in
  CheckStatus_Run demo_transport demo_Parse (fun _ => None) 3 (fun _ => "") None specs [] =
    Some (None, [["https://a/"; "https://b/"]; ["https://a/"]]) /\
  Forall (status_ok demo_transport demo_Parse (fun _ => None) []) specs.
Proof.
  intros specs. split; [by vm_compute|].
  destruct (status_checks_bounded demo_transport demo_Parse (fun _ => None) 3 (fun _ => "") None specs [])
    as (err & hists & Hrun & Hok & _); [repeat constructor|].
  apply Hok. assert (Hc : CheckStatus_Run demo_transport demo_Parse (fun _ => None) 3 (fun _ => "") None specs []
    = Some (None, [["https://a/"; "https://b/"]; ["https://a/"]])) by (by vm_compute).
  rewrite Hc in Hrun. by injection Hrun.
Defined.

Lemma healthz_checks_handler_witness :
  let specs := [mkHealthz "https://c/healthz" 0 0 3; mkHealthz "https://c/healthz" 0 0 0; mkHealthz "https://c/healthz" 0 0 (-2)] in
  HealthzTest_Run demo_transport demo_Parse (fun _ => None) 1 id (fun _ => None) None specs [] =
    Some (None, [["https://c/healthz"; "https://c/healthz"; "https://c/healthz"]; ["https://c/healthz"]; []]).
Proof.
  intros specs.
  refine (proj1 (healthz_checks_handler demo_transport demo_Parse (fun _ => None) 1 id (fun _ => None) None
                   specs [] _ _ _) _).
  - lia.
  - done.
  - repeat constructor.
  - intros spec h Hin. unfold specs in Hin. rewrite !elem_of_cons in Hin.
    destruct Hin as [->|[->|[->|Hin]]]; [by vm_compute..|]. by apply not_elem_of_nil in Hin.
Defined.
