(* ===== verification/EndToEnd.v ===== *)
(** * Checks of a deployed application against the handlers of the library

The checks of testwebapp ([WebChecks]) are written independently of the packages
that serve what they check.  Here the two sides meet: the transport of the
client is the handler of [GoGet], with the request that a server receives for the
URL that the check makes. *)

From S2P Require Import Prelude GoStrings GoErrors GoURL GoHTTP GoClient GoEncoding GoHTML WebUtil GoGet WebChecks.

(** ** Occurrences in a string *)

Lemma split_byte_prefix c p x : without c p -> exists y l, split_byte c (p +:+ x) = (p +:+ y) :: l.
Proof.
  unfold without. induction p as [|d p IH]; simpl.
  - intros _. destruct (split_byte c x) as [|y l] eqn:E; [by apply split_byte_ne in E|]. by exists y, l.
  - intros [Hd Hp]%Forall_cons. destruct (IH Hp) as (y & l & ->). rewrite bool_decide_false by done. by exists y, l.
Qed.

Lemma app_str_inj_l (a b c : string) : a +:+ b = a +:+ c -> b = c.
Proof. induction a as [|d a IH]; [done|]. simpl. intros [= H]. auto. Qed.

(** A longer string without a quote does not begin with a quoted shorter one. *)
Lemma no_quoted_prefix q e c r t :
  without q e -> (slen c < slen e)%nat -> e +:+ r <> c +:+ String q t.
Proof.
  unfold without. revert e. induction c as [|d c IH]; intros [|x e]; simpl; try lia.
  - intros [Hx _]%Forall_cons _. congruence.
  - intros [_ He]%Forall_cons Hl [= _ Heq]. by apply (IH e) in Heq; [|done|lia].
Qed.

(** ** The go-get check against the go-get handler *)

(** The tag of a content in the page served for another one: only where the page
    has its tag, so that the escaped content begins with the quoted content. *)
Lemma page_tag content c t :
  Contains (meta_page content) (meta_open +:+ c +:+ QUOTE +:+ t) = true ->
  exists r r', attrEscaper content +:+ QUOTE +:+ r = c +:+ String quote_char r'.
Proof.
  intros (a & b & Hab)%Contains_spec.
  destruct (htmlReplacer_spec false content) as (Hlt & _ & _). destruct (htmlReplacer_spec true content) as (Hlt' & _ & _).
  fold (attrEscaper content) in Hlt. fold (htmlEscaper content) in Hlt'.
  set (tag := "meta name=" +:+ QUOTE +:+ "go-import" +:+ QUOTE +:+ " content=" +:+ QUOTE).
  assert (Htag : without lt_char tag) by (apply (bool_decide_unpack _); by vm_compute).
  set (page := meta_page content) in Hab.
  assert (Hsplit : split_byte lt_char page =
    [""; "html>"; "head>"; tag +:+ attrEscaper content +:+ QUOTE +:+ ">"; "/head>"; "body>" +:+ htmlEscaper content; "/body>"; "/html>"]).
  { assert (Hp : page = "" +:+ String lt_char ("html>" +:+ String lt_char ("head>" +:+ String lt_char
      ((tag +:+ attrEscaper content +:+ QUOTE +:+ ">") +:+ String lt_char ("/head>" +:+ String lt_char
        (("body>" +:+ htmlEscaper content) +:+ String lt_char ("/body>" +:+ String lt_char "/html>"))))))).
    { unfold page, meta_page, tag, meta_open. rewrite !app_str_assoc. simpl. do 2 f_equal. }
    rewrite Hp. rewrite !split_byte_cons; [done|..]; rewrite ?without_app; split_and?; try done;
      apply (bool_decide_unpack _); by vm_compute. }
  assert (Hab' : page = a +:+ String lt_char (tag +:+ c +:+ QUOTE +:+ t +:+ b)).
  { rewrite Hab. unfold meta_open, tag. rewrite !app_str_assoc. simpl. done. }
  assert (Hs : split_byte lt_char page = split_byte lt_char a ++ split_byte lt_char (tag +:+ c +:+ QUOTE +:+ t +:+ b)).
  { by rewrite Hab', split_byte_app. }
  destruct (split_byte_prefix lt_char tag (c +:+ QUOTE +:+ t +:+ b) Htag) as (y & l & Hy).
  rewrite Hsplit, Hy in Hs.
  assert (Ha : split_byte lt_char a = [""; "html>"; "head>"]).
  { destruct (split_byte lt_char a) as [|x0 [|x1 [|x2 [|x3 [|x4 [|x5 [|x6 [|x7 [|x8 l']]]]]]]]]; try done;
      injection Hs; intros; simplify_eq/=; done. }
  assert (Ha' : a = "<html><head>").
  { rewrite <- (Join_Split a "<") by done. rewrite Split_split_byte. unfold lt_char in Ha. by rewrite Ha. }
  subst a. exists ("></head><body>" +:+ htmlEscaper content +:+ "</body></html>"), (t +:+ b).
  unfold page, meta_page in Hab. rewrite <- !app_str_assoc in Hab. rewrite !app_str_assoc in Hab.
  apply app_str_inj_l in Hab. unfold meta_open in Hab. by apply app_str_inj_l in Hab.
Qed.

Section goget_check.
Variable transport : list string -> string -> res Response.
Variable url_Parse : string -> string -> res string.
Variable NewRequest : string -> option error.
Variable fuel : nat.
Variable quote : string -> string.
Variable ip_literal : string -> bool.

Definition goget_url (spec : Spec) : string := "https://" +:+ ImportPath spec +:+ "?go-get=1".

(** The request that a server receives from a client for a URL: its path, the root if
    it is empty, and its query; the host is a header. *)
Definition received (u : URL) : Request :=
  let p := if nonempty (EscapedPath u) then EscapedPath u else "/" in
  let '(path, raw) := match decoded p encodePath with Ok x => x | Err _ => (p, "") end in
  mkReq "GET" (mkURL "" "" None "" path raw (u_ForceQuery u) (u_RawQuery u) "" "" false) (u_Host u) ∅ [] "" 0 None None.

(** A spec as [UnmarshalYAML] makes it, from an import path without scheme, query and
    fragment, that is served at its URL by its handler. *)
Definition served (next : option (rw -> rw)) (opts : list (option string -> option string)) (spec : Spec) : Prop :=
  Contains (ImportPath spec) "://" = false /\ without "?" (ImportPath spec) /\ without "#" (ImportPath spec) /\
  SplitHostnamePath ip_literal spec = Ok spec /\
  NewRequest (goget_url spec) = None /\
  exists h fb, NewHandler spec next opts = Ok (h, fb) /\
    forall hist u, Parse ip_literal (goget_url spec) = Ok u ->
      transport hist (goget_url spec) = Ok (response_of (ServeHTTP h fb (received u) new_rw []).1).

(** The request for the URL of a spec is a go-get request for its path. *)
Lemma goget_received spec :
  Contains (ImportPath spec) "://" = false -> without "?" (ImportPath spec) -> without "#" (ImportPath spec) ->
  SplitHostnamePath ip_literal spec = Ok spec ->
  exists u, Parse ip_literal (goget_url spec) = Ok u /\
    Values_Get (Query (r_URL (received u))) "go-get" = "1" /\ TrimSuffix (r_Path (received u)) "/" = Path spec /\
    URL_Hostname (u_Host (r_URL (received u))) = "".
Proof.
  intros Hs Hq Hh HS. unfold SplitHostnamePath in HS. rewrite Hs in HS. cbn [negb] in HS.
  destruct (Parse ip_literal ("https://" +:+ ImportPath spec)) as [u|] eqn:EP; [|done]. injection HS as HS.
  assert (Hp : Path spec = TrimSuffix (u_Path u) "/") by (rewrite <- HS; done). clear HS.
  exists (set_RawQuery u "go-get=1"). split.
  - assert (Hlit : forall c s, bool_decide (without c s) = true -> without c s) by (intros c t; apply bool_decide_eq_true_1).
    apply (Parse_add_query ip_literal ("//" +:+ ImportPath spec) u "go-get=1" EP); try done; try (by apply Hlit);
      apply without_app; by split; [apply Hlit|].
  - assert (Hd : EscapedPath (set_RawQuery u "go-get=1") = EscapedPath u) by done.
    pose proof (EscapedPath_unescape u) as Hu. unfold received. rewrite Hd. rewrite Hp.
    destruct (nonempty (EscapedPath u)) eqn:E.
    + unfold decoded. rewrite Hu. cbn. split_and!; by vm_compute.
    + apply bool_decide_eq_false, dec_stable in E. rewrite E in Hu. injection Hu as <-. split_and!; by vm_compute.
Qed.

(** A content that the template leaves as it is. *)
Definition plain (spec : Spec) : Prop := attrEscaper (Content spec) = Content spec.

#[global] Instance plain_dec spec : Decision (plain spec) := decide (_ = _).

Lemma served_page next opts spec hist :
  served next opts spec ->
  exists resp, transport hist (goget_url spec) = Ok resp /\ resp_StatusCode resp = StatusOK /\
    resp_Body resp = mkBody (meta_page (Content spec)) None.
Proof.
  intros (Hs & Hq & Hh & HS & _ & h & fb & HN & HT). destruct (goget_received spec Hs Hq Hh HS) as (u & Hu & H1 & H2 & H3).
  rewrite (HT hist u Hu). eexists. split; [done|].
  destruct (goget_decides spec next opts h fb (received u) new_rw [] HN new_rw_fresh) as [HD _].
  destruct (HD (conj H1 (conj H2 (or_introl H3)))) as (content & [= <-] & Hst & Hb & _). unfold response_of. simpl. by rewrite Hst, Hb.
Qed.

(** The outcome of the check of one spec. *)
Definition goget_outcome (spec : Spec) : option error :=
  if decide (plain spec) then None else Some (Errorf "%v: %w" [] [Sentinel ErrGoGetContentMismatch]).

Lemma page_checks spec t :
  Contains (meta_page (Content spec)) (meta_open +:+ Content spec +:+ QUOTE +:+ t) = true -> plain spec.
Proof.
  intros (r & r' & Hr)%page_tag. unfold plain. destruct (htmlReplacer_spec false (Content spec)) as (_ & Hq & [He|Hl]); [done|].
  by apply (no_quoted_prefix quote_char) in Hr.
Qed.

Lemma goget_verify_served client next opts spec hist :
  (0 < fuel)%nat -> served next opts spec ->
  goget_verify transport url_Parse NewRequest fuel client spec hist =
    Some (goget_outcome spec, hist ++ [goget_url spec]).
Proof.
  intros Hf Hs. destruct (served_page next opts spec hist Hs) as (resp & HT & Hst & Hb). destruct Hs as (_ & _ & _ & _ & HN & _).
  unfold goget_verify. fold (goget_url spec). rewrite HN. unfold do, Do. destruct fuel as [|f]; [lia|]. cbn [do_loop].
  rewrite HT. unfold redirect_of. rewrite Hst. change (redirectBehavior StatusOK) with false. cbv beta iota zeta.
  rewrite Hst, Hb. change (StatusOK =? StatusOK)%Z with true. cbn [negb].
  change (ReadAll (mkBody (meta_page (Content spec)) None)) with (@Ok error string (meta_page (Content spec))). cbv beta iota zeta.
  assert (Ho : Contains (meta_page (Content spec)) meta_open = true).
  { apply Contains_spec. eexists "<html><head>", _. reflexivity. }
  rewrite Ho. cbn [negb]. unfold goget_outcome. destruct (decide (plain spec)) as [Hp|Hp].
  - assert (Ht : Contains (meta_page (Content spec)) (meta_open +:+ Content spec +:+ QUOTE +:+ ">") = true).
    { apply Contains_spec. eexists "<html><head>", _. unfold meta_page. rewrite Hp, !app_str_assoc. reflexivity. }
    rewrite Ht. cbn [negb]. by rewrite andb_false_r.
  - destruct (Contains _ (_ +:+ _ +:+ _ +:+ "/>")) eqn:E1; [by apply page_checks in E1|].
    destruct (Contains _ (_ +:+ _ +:+ _ +:+ ">")) eqn:E2; [by apply page_checks in E2|]. done.
Qed.

(** The loop over specs that are served. *)
Lemma goget_loop_served client next opts specs errs hist :
  (0 < fuel)%nat -> Forall (served next opts) specs ->
  goget_loop transport url_Parse NewRequest fuel quote client specs errs hist =
    Some (errs ++ omap (fun spec => match goget_outcome spec with
                                   | Some e => Some (Some (Errorf "%v: %w" [Spec_String quote spec] [e]))
                                   | None => None
                                   end) specs, hist ++ map goget_url specs).
Proof.
  intros Hf HF. revert errs hist. induction HF as [|spec specs Hs HF IH]; intros errs hist; simpl.
  { by rewrite !app_nil_r. }
  rewrite (goget_verify_served client next opts spec hist Hf Hs).
  destruct (goget_outcome spec) as [e|]; rewrite IH; by rewrite <- ?app_assoc.
Qed.

(** C27 The check of go-get imports and the go-get handler fit together for the
    contents that need no escaping, and only for those: against the handlers of the
    specs, with import paths as YAML gives them, [GoGetTest.Run] makes one request for each and passes exactly when
    no content has a character that the template escapes (such as the ampersand or
    the plus sign of a repository URL); otherwise it reports a content mismatch,
    although the handlers serve what they were configured with. *)
Theorem goget_checks_handler client next opts specs hist :
  (0 < fuel)%nat -> Forall (served next opts) specs ->
  exists err,
    GoGetTest_Run transport url_Parse NewRequest fuel quote client specs hist = Some (err, hist ++ map goget_url specs) /\
    (err = None <-> Forall plain specs) /\
    (forall e, err = Some e -> errors_is e ErrGoGetContentMismatch = true).
Proof.
  intros Hf HF. unfold GoGetTest_Run. rewrite (goget_loop_served _ next opts) by done. simpl.
  eexists. split; [done|]. clear HF. split.
  - rewrite group_Wait_None. unfold goget_outcome. induction specs as [|spec specs IH]; simpl; [done|].
    rewrite Forall_cons. destruct (decide (plain spec)) as [Hp|Hp]; [by rewrite IH; naive_solver|].
    rewrite Forall_cons. naive_solver.
  - unfold group_Wait, goget_outcome. induction specs as [|spec specs IH]; simpl; [done|].
    destruct (decide (plain spec)) as [Hp|Hp]; [apply IH|]. simpl. by intros e [= <-].
Qed.

End goget_check.

(** ** Witness *)
Module GoGetDemo.

Definition spec_for (path content : string) : Spec :=
  match SplitHostnamePath (fun _ => true) (mkSpec path content "" "") with Ok s => s | Err _ => mkSpec path content "" "" end.
Definition specs : list Spec :=
  [spec_for "a.dev/m" "a.dev/m git https://git.dev/m"; spec_for "a.dev/n/" "a.dev/n git https://git.dev/?x=1&y=2"].

Definition transport (hist : list string) (url : string) : res Response :=
  match List.find (fun s => bool_decide (goget_url s = url)) specs, Parse (fun _ => true) url with
  | Some s, Ok u =>
      match NewHandler s None [] with
      | Err e => Err e
      | Ok (h, fb) => Ok (response_of (ServeHTTP h fb (received u) new_rw []).1)
      end
  | _, _ => Err (errors_New "unreachable")
  end.

End GoGetDemo.

Lemma goget_checks_handler_witness :
  exists err, GoGetTest_Run GoGetDemo.transport (fun _ l => Ok l) (fun _ => None) 1 id None GoGetDemo.specs [] =
    Some (err, map goget_url GoGetDemo.specs) /\ err <> None /\ Forall plain [GoGetDemo.spec_for "a.dev/m" "a.dev/m git https://git.dev/m"].
Proof.
  destruct (goget_checks_handler GoGetDemo.transport (fun _ l => Ok l) (fun _ => None) 1 id (fun _ => true)
    None None [] GoGetDemo.specs []) as (err & HR & Hok & _).
  - lia.
  - unfold GoGetDemo.specs. rewrite !Forall_cons, Forall_nil. split_and!; [| |done];
      (split_and!; [by vm_compute|apply (bool_decide_unpack _); by vm_compute|apply (bool_decide_unpack _); by vm_compute|
        by vm_compute|done|eexists _, _; split; [done|intros hist u Hu; vm_compute in Hu; injection Hu as <-; by vm_compute]]).
  - exists err. split_and!; [done| |apply (bool_decide_unpack _); by vm_compute].
    rewrite Hok. apply (bool_decide_unpack _). by vm_compute.
Defined.
