(* ===== verification/RelayCheck.v ===== *)
(** * The webhook round-trip check against the relay

[WebhookRoundTripTest] of testwebapp delivers a signed payload to a URL and polls
another one until the payload comes back.  Here both URLs are served by one relay
of the package webhooks, through its [Handler].  The endpoints of
cloudeng.io/webapi/operations, which encode a payload, post it and decode what a
GET returns, are parameters, with what the check relies on as their laws. *)

From S2P Require Import Prelude GoStrings GoErrors GoHTTP GoEncoding GoClient WebChecks Webhooks.

Section relay_check.
Context {F : Type} `{!FIFO F} (capacity : F -> Z) (contents : F -> list delivery).
Context `{LAWS : !FIFOLaws F capacity contents}.
Context {T : Type} `{EqDecision T}.

(** The payload codec of the endpoints. *)
Variable encode : T -> string.
Variable decode : string -> res T.
Variable hmac : string -> string -> string.
Variable headerName : string.

(** A server: [None] when its handler panics, or while it blocks. *)
Definition server : Type := Request -> rstate F -> option (rw * rstate F).

(** [ep.Post] of a payload to a URL, signed by the signer if there is one, and
    [ep.Get] of a URL; [None] while the server blocks. *)
Variable ep_Post : server -> string -> option string -> T -> rstate F -> option error * rstate F.
Variable ep_Get : server -> string -> rstate F -> option (res T * rstate F).

(** The relay and the paths it is registered at. *)
Variable r : Relay.
Variable deliveryPath relayPath : string.
Variable now : Z.

Definition relay_server : server := fun req st =>
  Handler deliveryPath relayPath
    (match ServeWebhook r Sent now req new_rw st with Ret x => Some x | Panic _ => None end)
    (WaitForWebhook r Received req new_rw st)
    (Some (http_NotFound new_rw, st)) req.

(** The polls of [wait], at most [n]: until one fails or gets the payload, or the
    server blocks. *)
Fixpoint polls (n : nat) (url : string) (want : T) (st : rstate F) : list (res T) * rstate F :=
  match n with
  | O => ([], st)
  | S n' =>
      match ep_Get relay_server url st with
      | None => ([], st)
      | Some (x, st') =>
          if match x with Ok got => bool_decide (got = want) | Err _ => true end then ([x], st')
          else let '(xs, st'') := polls n' url want st' in (x :: xs, st'')
      end
  end.

(** [runOne] with at most [n] polls, and the relay afterwards. *)
Definition check (signers : gmap string string) (spec : WebhookRoundTripSpec) (payload : T) (n : nat) (st : rstate F)
  : option (option error) * rstate F :=
  let url := ws_DeliveryURL spec in
  let '(e, st') := ep_Post relay_server url (signers !! url) payload st in
  let '(xs, st'') := match e with Some _ => ([], st') | None => polls n (ws_RelayURL spec) payload st' end in
  (webhook_runOne (fun signer p => (ep_Post relay_server url signer p st).1) signers url payload xs, st'').

(** The headers of a post of a body, after the signer has signed it. *)
Definition signed_by (secret body : string) (h : Header) : Prop :=
  exists h0, Header_Get h0 "Content-Type" = "application/json" /\ h = SignHTTPRequest hmac h0 body secret headerName.

(** What the endpoints are relied on for: a post sends one request with the encoded
    and signed payload; it succeeds if the answer is 200 or 202 and not if it is
    401. A get sends one request and decodes the body of an answer that is 200. *)
Class EndpointLaws (spec : WebhookRoundTripSpec) : Prop := {
  codec : forall p, decode (encode p) = Ok p;
  post_sends : forall (srv : server) secret p st, (Z.of_nat (slen (encode p)) <= o_payloadLimit (r_opts r))%Z ->
    exists req, admissible r req (encode p) /\ r_Path req = deliveryPath /\ signed_by secret (encode p) (r_Header req) /\
      forall w st', srv req st = Some (w, st') ->
        exists e, ep_Post srv (ws_DeliveryURL spec) (Some secret) p st = (e, st') /\
          (final_status w ∈ [StatusOK; StatusAccepted] -> e = None) /\ (final_status w = StatusUnauthorized -> is_Some e);
  get_sends : forall (srv : server) st,
    exists req, r_Method req = "GET" /\ r_Path req = relayPath /\
      forall w st', srv req st = Some (w, st') -> final_status w = StatusOK ->
        exists x, ep_Get srv (ws_RelayURL spec) st = Some (x, st') /\
          (forall p, decode (rw_body w) = Ok p -> x = Ok p) /\
          (forall e, decode (rw_body w) = Err e -> exists e', x = Err e')
}.

(** How the server is set up. *)
Record setup (tokens : list string) : Prop := {
  paths_differ : relayPath <> deliveryPath;
  validated : r_validator r = SignatureValidator hmac (SHA256SignatureFromHeader headerName) (fun _ => Ok tokens);
  header_free : CanonicalHeaderKey headerName <> "Content-Length" /\ CanonicalHeaderKey headerName <> "Content-Type"
}.

(** ** Lemmas *)

Section against_relay.
Context (spec : WebhookRoundTripSpec) `{ENDPOINT : !EndpointLaws spec} (tokens : list string) (HS : setup tokens).

(** What the endpoint makes of a body. *)
Definition reply (body : string) (x : res T) : Prop :=
  match decode body with Ok p => x = Ok p | Err _ => exists e, x = Err e end.

(** Polling takes the deliveries from the queue, one by one. *)
Lemma ep_Get_queue (st : rstate F) d rest :
  contents (fifo st) = d :: rest ->
  exists x st', ep_Get relay_server (ws_RelayURL spec) st = Some (x, st') /\ reply (d_body d) x /\ contents (fifo st') = rest.
Proof.
  intros Hq. destruct (get_sends relay_server st) as (req & Hm & Hp & Hget).
  assert (Hsrv : exists w st', relay_server req st = Some (w, st') /\ final_status w = StatusOK /\ rw_body w = d_body d /\
    contents (fifo st') = rest).
  { unfold relay_server, Handler. rewrite Hp, bool_decide_false by exact (paths_differ _ HS). rewrite bool_decide_true by done.
    unfold WaitForWebhook. rewrite bool_decide_false by auto.
    pose proof (recv_contents (fifo st)) as HC. destruct (fifo_recv (fifo st)) as [[d' f]|]; [|congruence].
    destruct HC as [HC _]. rewrite Hq in HC. injection HC as <- HC.
    rewrite Write_fresh by (by repeat apply on_header_fresh). by eexists _, _. }
  destruct Hsrv as (w & st' & Hw & Hs & Hb & Hrest). destruct (Hget w st' Hw Hs) as (x & Hx & Hok & Herr).
  exists x, st'. split_and!; [done| |done]. unfold reply. rewrite <- Hb. destruct (decode (rw_body w)); eauto.
Qed.

(** A queued payload that the check skips. *)
Definition skipped (want : T) (d : delivery) : Prop := exists p, decode (d_body d) = Ok p /\ p <> want.

Lemma polls_queue want q1 d q2 (st : rstate F) n :
  contents (fifo st) = q1 ++ d :: q2 -> Forall (skipped want) q1 -> ~ skipped want d -> (length q1 < n)%nat ->
  exists x st', polls n (ws_RelayURL spec) want st = (map (fun d => decode (d_body d)) q1 ++ [x], st') /\
    reply (d_body d) x /\ contents (fifo st') = q2.
Proof.
  revert st n. induction q1 as [|d1 q1 IH]; intros st [|n] Hq HF Hd Hn; simpl in Hn; try lia; simpl;
    destruct (ep_Get_queue _ _ _ Hq) as (x & st1 & -> & Hx & Hq1); pose proof Hx as Hr; unfold reply in Hr.
  - destruct (decode (d_body d)) as [got|e] eqn:E; [|destruct Hr as [e' ->]; by eexists _, _].
    subst x. rewrite bool_decide_true; [by exists (Ok got), st1|]. apply dec_stable. intros Hne. apply Hd. by exists got.
  - apply Forall_cons in HF as [(p & Hp & Hne) HF]. rewrite Hp in Hr. subst x. rewrite bool_decide_false by done.
    destruct (IH st1 n Hq1 HF Hd ltac:(lia)) as (y & st2 & -> & Hy & Hq2). exists y, st2. by rewrite Hp.
Qed.

(** The loop of [wait] on the replies of skipped payloads and a last one. *)
Lemma webhook_wait_last want q1 x :
  Forall (skipped want) q1 ->
  webhook_wait (map (fun d => decode (d_body d)) q1 ++ [x]) want = webhook_wait [x] want.
Proof.
  induction 1 as [|d q1 (p & Hp & Hne) HF IH]; [done|]. simpl. rewrite Hp. by rewrite bool_decide_false.
Qed.

(** A post that is signed with a token is queued, any other is refused. *)
Lemma ep_Post_signed secret payload (st : rstate F) :
  (Z.of_nat (slen (encode payload)) <= o_payloadLimit (r_opts r))%Z ->
  let '(e, st') := ep_Post relay_server (ws_DeliveryURL spec) (Some secret) payload st in
  (secret ∈ tokens -> e = None /\ relayed st' = (relayed st + 1)%Z /\
     exists d, d_body d = encode payload /\ contents (fifo st') = push (capacity (fifo st)) d (contents (fifo st))) /\
  (Forall (fun t => hmac t (encode payload) <> hmac secret (encode payload)) tokens ->
     is_Some e /\ st' = mkRState (fifo st) (denied st + 1) (relayed st) (read st)).
Proof.
  intros Hl. destruct (header_free _ HS) as [Hcl Hct].
  destruct (post_sends relay_server secret payload st Hl) as (req & Ha & Hp & (h0 & Hh0 & Hh) & Hpost).
  assert (Hty : Header_Get (r_Header req) "Content-Type" = "application/json").
  { rewrite Hh. unfold SignHTTPRequest. by rewrite !Header_Get_Set_ne by (done || auto). }
  assert (Hsig : SHA256SignatureFromHeader headerName (with_body req (Some (mkBody (encode payload) None))) =
    (hmac secret (encode payload), StatusOK)).
  { apply SHA256SignatureFromHeader_OK. simpl. rewrite Hh. eexists. split; [|apply hex_roundtrip].
    unfold SignHTTPRequest. rewrite Header_Get_Set_ne by auto. apply Header_Get_Set. }
  assert (Hsrv : exists w st', relay_server req st = Some (w, st') /\
    if bool_decide (Exists (fun t => hmac secret (encode payload) = hmac t (encode payload)) tokens)
    then final_status w = StatusAccepted /\ relayed st' = (relayed st + 1)%Z /\
      exists d, d_body d = encode payload /\ contents (fifo st') = push (capacity (fifo st)) d (contents (fifo st))
    else final_status w = StatusUnauthorized /\ st' = mkRState (fifo st) (denied st + 1) (relayed st) (read st)).
  { unfold relay_server, Handler. rewrite bool_decide_true by done.
    rewrite (ServeWebhook_admissible r Sent now req _ new_rw st Ha Hty), (validated _ HS).
    erewrite SignatureValidator_eval; [|reflexivity|reflexivity|exact Hsig].
    cbn [b_data]. destruct Ha as (_ & _ & _ & Hctx & _). case_bool_decide as Hex; simpl; rewrite ?Hctx; eexists _, _; (split; [reflexivity|]).
    - split_and!; [done..|]. eexists. split; [|apply send_contents]. done.
    - done. }
  destruct Hsrv as (w & st' & Hw & Hres). destruct (Hpost w st' Hw) as (e & -> & Hok & Hden). case_bool_decide as Hex.
  - destruct Hres as (Hs & Hrel & Hq). split.
    + intros _. split_and!; [|done..]. apply Hok. rewrite Hs. right. left.
    + intros HF. exfalso. apply Exists_exists in Hex as (t & Ht & He). rewrite Forall_forall in HF. by eapply HF.
  - destruct Hres as (Hs & Hst). split; [|auto]. intros Hin. exfalso. apply Hex, Exists_exists. eauto.
Qed.

(** C32 The round-trip check and the relay fit together. When the check signs with a
    token of the relay and all payloads that are queued ahead of its own can be
    decoded and differ from it, it passes within one poll for each of them and its
    own, and takes all of them from the queue: other clients do not get them any
    more. When a payload ahead cannot be decoded the check fails there, though the
    relay works. When it signs with a secret that gives another signature than
    every token, it fails without polling, and nothing is queued. *)
Theorem webhook_check_relay signers secret payload (st : rstate F) :
  (Z.of_nat (slen (encode payload)) <= o_payloadLimit (r_opts r))%Z ->
  signers !! ws_DeliveryURL spec = Some secret ->
  let q := contents (fifo st) in
  let ahead := if (Z.of_nat (length q) <? capacity (fifo st))%Z then q else tail q in
  (secret ∈ tokens -> Forall (skipped payload) ahead -> forall n, (length ahead < n)%nat ->
     exists st', check signers spec payload n st = (Some None, st') /\ contents (fifo st') = []) /\
  (secret ∈ tokens -> forall q1 d q2 e n, ahead = q1 ++ d :: q2 -> Forall (skipped payload) q1 ->
     decode (d_body d) = Err e -> (length q1 < n)%nat ->
     exists e' st' own, check signers spec payload n st = (Some (Some (Errorf "waiting for relay: %w" [] [e'])), st') /\
       d_body own = encode payload /\ contents (fifo st') = q2 ++ [own]) /\
  (Forall (fun t => hmac t (encode payload) <> hmac secret (encode payload)) tokens ->
     exists e, forall n, check signers spec payload n st =
       (Some (Some (Errorf "delivering webhook: %w" [] [e])), mkRState (fifo st) (denied st + 1) (relayed st) (read st))).
Proof.
  intros Hl Hsec q ahead. pose proof (ep_Post_signed secret payload st Hl) as HP.
  unfold check, webhook_runOne, webhook_deliver. rewrite Hsec.
  destruct (ep_Post relay_server (ws_DeliveryURL spec) (Some secret) payload st) as [e st1]. destruct HP as [HP1 HP2].
  split_and!.
  - intros Hin HF n Hn. destruct (HP1 Hin) as (-> & _ & own & Hown & Hq). unfold push in Hq. fold q ahead in Hq.
    destruct (polls_queue payload ahead own [] st1 n Hq HF) as (x & st2 & -> & Hx & Hq2); [|done|].
    { intros (p & Hp & Hne). rewrite Hown, codec in Hp. congruence. }
    exists st2. split; [|done]. rewrite webhook_wait_last by done. unfold reply in Hx. rewrite Hown, codec in Hx. subst x.
    simpl. by rewrite bool_decide_true.
  - intros Hin q1 d q2 e' n Hah HF He Hn. destruct (HP1 Hin) as (-> & _ & own & Hown & Hq). unfold push in Hq.
    fold q ahead in Hq. rewrite Hah, <- app_assoc in Hq. simpl in Hq.
    destruct (polls_queue payload q1 d (q2 ++ [own]) st1 n Hq HF) as (x & st2 & -> & Hx & Hq2); [|done|].
    { intros (p & Hp & _). congruence. }
    unfold reply in Hx. rewrite He in Hx. destruct Hx as [e2 ->]. exists e2, st2, own. split_and!; [|done|done].
    by rewrite webhook_wait_last by done.
  - intros HF. destruct (HP2 HF) as [[e' ->] ->]. by exists e'.
Qed.

End against_relay.

End relay_check.

(** ** Witness: payloads that are their own encoding *)
Module RelayDemo.

Definition spec : WebhookRoundTripSpec := mkWebhookSpec "https://a/hook" "https://a/wait".
Definition header : string := "X-Hub-Signature-256".
Definition decode (s : string) : res string := Ok s.
Definition relay : Relay := ListFIFO.relay.1.
(** One payload of another client is queued. *)
Definition start : rstate (Z * list delivery) := mkRState (2%Z, [mkDelivery ∅ "other" 0]) 0 1 0.

Definition Post (srv : server) (url : string) (signer : option string) (p : string) (st : rstate (Z * list delivery))
  : option error * rstate (Z * list delivery) :=
  let h := Header_Set ∅ "Content-Type" "application/json" in
  let h := match signer with Some secret => SignHTTPRequest ListFIFO.toy_hmac h p secret header | None => h end in
  match srv (ListFIFO.post h p) st with
  | None => (Some (errors_New "EOF"), st)
  | Some (w, st') => (if (final_status w <? 300)%Z then None else Some (errors_New "unexpected status"), st')
  end.

Definition Get (srv : server) (url : string) (st : rstate (Z * list delivery)) : option (res string * rstate (Z * list delivery)) :=
  match srv ListFIFO.get_request st with
  | None => None
  | Some (w, st') => Some (if (final_status w <? 300)%Z then decode (rw_body w) else Err (errors_New "unexpected status"), st')
  end.

#[global] Instance demo_laws :
  EndpointLaws (F := Z * list delivery) id decode ListFIFO.toy_hmac header Post Get relay "/hook" "/wait" spec.
Proof.
  constructor; [done|..].
  - intros srv secret p st Hl. eexists (ListFIFO.post _ p).
    split; [by split_and!|]. split; [done|]. split.
    { exists (Header_Set ∅ "Content-Type" "application/json"). split; [by vm_compute|reflexivity]. }
    intros w st' Hw. unfold Post. simpl in Hw |- *. rewrite Hw. eexists. split; [reflexivity|]. split.
    + rewrite !elem_of_cons, elem_of_nil. by intros [->|[->|[]]].
    + intros ->. by eexists.
  - intros srv st. exists ListFIFO.get_request. split_and!; [done..|]. intros w st' Hw Hs. unfold Get. rewrite Hw, Hs.
    eexists. split; [reflexivity|]. split; [by intros p|by intros e].
Qed.

Lemma demo_setup : setup ListFIFO.toy_hmac header relay "/hook" "/wait" ["key"].
Proof. by constructor. Qed.

End RelayDemo.

Lemma webhook_check_relay_witness :
  exists st', check (F := Z * list delivery) RelayDemo.Post RelayDemo.Get RelayDemo.relay "/hook" "/wait" 0
      {["https://a/hook" := "key"]} RelayDemo.spec "mine" 2 RelayDemo.start =
    (Some None, st') /\ (fifo st').2 = [].
Proof.
  refine (proj1 (webhook_check_relay fst snd id RelayDemo.decode ListFIFO.toy_hmac RelayDemo.header RelayDemo.Post RelayDemo.Get
    RelayDemo.relay "/hook" "/wait" 0 RelayDemo.spec ["key"] RelayDemo.demo_setup
    {["https://a/hook" := "key"]} "key" "mine" RelayDemo.start _ _) _ _ 2 _).
  - by vm_compute.
  - by vm_compute.
  - by left.
  - apply Forall_singleton. exists "other". by vm_compute.
  - simpl. lia.
Defined.
