(* ===== verification/GoX509.v ===== *)
(** * Certificate pools of crypto/x509

A pool is the list of the certificates added to it.  The blocks of PEM data are
what repeated calls of [pem.Decode] return. *)

From S2P Require Import Prelude GoStrings GoErrors Certs.

Section pools.
Context {Cert Key TLSCert : Type} `{X : !X509 Cert Key TLSCert}.

Fixpoint pem_blocks_fuel (fuel : nat) (data : string) : list Block :=
  match fuel with
  | O => []
  | S f => match pem_Decode data with None => [] | Some (b, rest) => b :: pem_blocks_fuel f rest end
  end.

(** Every block takes at least one byte of the data. *)
Definition pem_blocks (data : string) : list Block := pem_blocks_fuel (S (slen data)) data.

Definition block_cert (b : Block) : option Cert :=
  if bool_decide (b_Type b = "CERTIFICATE" /\ b_Headers b = ∅)
  then match ParseCertificate (b_Bytes b) with Ok c => Some c | Err _ => None end
  else None.

(** [CertPool.AppendCertsFromPEM]: the pool, and whether a certificate was
    added. Blocks that are not certificates, have headers or do not parse are
    skipped. *)
Definition AppendCertsFromPEM (pool : list Cert) (data : string) : list Cert * bool :=
  let certs := omap block_cert (pem_blocks data) in
  (pool ++ certs, negb (Nat.eqb (length certs) 0)).

Context `{!PEMLaws}.

Lemma pem_blocks_encoded bs :
  Forall block_ok bs ->
  pem_blocks (String.concat "" (map pem_EncodeToMemory bs)) = bs.
Proof.
  intros HF. unfold pem_blocks. generalize (Nat.lt_succ_diag_r (slen (String.concat "" (map pem_EncodeToMemory bs)))).
  generalize (S (slen (String.concat "" (map pem_EncodeToMemory bs)))).
  induction HF as [|b bs Hb _ IH]; intros [|f] Hf; [lia| |lia|].
  - simpl. destruct (pem_Decode "") as [[b r]|] eqn:E; [|done]. apply decode_shrinks in E. simpl in E. lia.
  - assert (Hc : String.concat "" (map pem_EncodeToMemory (b :: bs)) =
      pem_EncodeToMemory b +:+ String.concat "" (map pem_EncodeToMemory bs)).
    { destruct bs; simpl; [by rewrite app_empty_r|done]. }
    rewrite Hc in *. pose proof (decode_encode_block b (String.concat "" (map pem_EncodeToMemory bs)) Hb) as E.
    cbn [pem_blocks_fuel]. rewrite E. f_equal. apply IH. apply decode_shrinks in E. lia.
Qed.

End pools.
