(* ===== verification/Pebble.v ===== *)
(** * pebble: configuration and output of a pebble ACME server

Models [webauth/acme/pebble/pebble.go] and [pebbletest/pebble_run.go].  The
configuration is Go maps in a heap, so that a map which two values share is
shared; a range over a map visits it in an order that is a parameter.  Files are a map from names to contents;
the programs minica and pebble, the JSON printer and parser, and the outcome of
system calls are parameters. *)

From stdpp Require Import sorting.
From S2P Require Import Prelude GoStrings GoPath GoTime GoErrors GoHTTP GoEncoding GoClient Certs GoX509 GoURL.

Local Open Scope Z_scope.

(** ** Options *)

Record serverOptions := mkServerOptions { noSleep : bool }.
Record configOption := mkConfigOption { validityPeriod : Z; managementPort : Z; serverPort : Z }.

(** A duration in seconds, as an int64 of nanoseconds. *)
Definition WithValidityPeriod (secs : Z) (o : configOption) : configOption :=
  mkConfigOption (mul64 secs Second) (managementPort o) (serverPort o).

Definition WithAlternatePorts (managementPort serverPort : Z) (o : configOption) : configOption :=
  mkConfigOption (validityPeriod o) managementPort serverPort.

Definition WithNoSleep (o : serverOptions) : serverOptions := mkServerOptions true.

(** ** Output lines *)

(** [re.FindSubmatch] for a regular expression made of a literal, a group of one
    or more characters of a class, and a literal that starts with a character
    outside of the class: the group of the leftmost match. *)
Record group_re := mkRE { re_prefix : string; re_class : ascii -> bool; re_suffix : string }.

Fixpoint span (f : ascii -> bool) (s : string) : string * string :=
  match s with
  | String c s' => if f c then let '(a, b) := span f s' in (String c a, b) else ("", s)
  | "" => ("", "")
  end.

Definition match_here (re : group_re) (s : string) : option string :=
  match CutPrefix s (re_prefix re) with
  | None => None
  | Some rest =>
      let '(g, rest) := span (re_class re) rest in
      if negb (bool_decide (g = "")) && HasPrefix rest (re_suffix re) then Some g else None
  end.

Fixpoint FindSubmatch (re : group_re) (s : string) : option string :=
  match match_here re s with
  | Some g => Some g
  | None => match s with String _ s' => FindSubmatch re s' | "" => None end
  end.

Definition between (lo hi c : ascii) : bool :=
  (N_of_ascii lo <=? N_of_ascii c)%N && (N_of_ascii c <=? N_of_ascii hi)%N.

Definition issuedRE : group_re :=
  mkRE "Issued certificate serial " (fun c => between "a" "f" c || between "0" "9" c) " for order".
Definition orderAuthorizedRE : group_re :=
  mkRE "Order " (fun c => between "0" "9" c || between "A" "Z" c || between "a" "z" c
                          || bool_decide (c = "_"%char) || bool_decide (c = "-"%char))
       " is fully authorized. Processing finalization".
Definition acmeReadyRE (line : string) : bool := Contains line "ACME directory available at:".
Definition mgmtReadyRE (line : string) : bool := Contains line "Root CA certificate available at:".

(** What a [select] of the waiting loops receives. *)
Inductive event := Line (line : string) | Done (err : error).

(** The loop of [WaitForReady]; [None]: the events end while it waits. The
    events that are left belong to later calls: the lines of one channel. *)
Fixpoint ready_loop (events : list event) (seen : nat) : option (option error * list event) :=
  match events with
  | [] => None
  | Done err :: events' => Some (Some err, events')
  | Line line :: events' =>
      let seen := if acmeReadyRE line then S seen else seen in
      let seen := if mgmtReadyRE line then S seen else seen in
      if Nat.eqb seen 2 then Some (None, events') else ready_loop events' seen
  end.

Definition WaitForReady (events : list event) : option (option error * list event) := ready_loop events 0.

Fixpoint waitForRe (re : group_re) (events : list event) : option (res string * list event) :=
  match events with
  | [] => None
  | Done err :: events' => Some (Err err, events')
  | Line line :: events' =>
      match FindSubmatch re line with
      | Some g => Some (Ok g, events')
      | None => waitForRe re events'
      end
  end.

Definition WaitForIssuedCertificateSerial (events : list event) : option (res string * list event) :=
  waitForRe issuedRE events.
Definition WaitForOrderAuthorized (events : list event) : option (res string * list event) :=
  waitForRe orderAuthorizedRE events.

(** ** The server process *)

Record Cmd := mkCmd { c_Path : string; c_Args : list string; c_Dir : string; c_Env : option (list string) }.
Record T := mkT { t_binary : string; t_cmd : option Cmd; t_pid : option Z; t_opts : serverOptions }.

Definition New (binary : string) (opts : list (serverOptions -> serverOptions)) : T :=
  mkT binary None None (fold_left (fun o f => f o) opts (mkServerOptions false)).

(** [start] runs the command and gives its process ID. *)
Definition Start (LookPath : string -> res string) (environ : list string) (start : Cmd -> res Z)
    (p : T) (dir cfg : string) : option error * T :=
  match LookPath (t_binary p) with
  | Err e => (Some (Errorf "failed to find pebble binary in PATH: %w" [] [e]), p)
  | Ok pebblePath =>
      let cmd := mkCmd pebblePath ["-config"; cfg] dir
                   (if noSleep (t_opts p) then Some (environ ++ ["PEBBLE_VA_NOSLEEP=1"]) else None) in
      match start cmd with
      | Err e => (Some (Errorf "failed to start pebble: %w" [] [e]), mkT (t_binary p) (Some cmd) None (t_opts p))
      | Ok pid => (None, mkT (t_binary p) (Some cmd) (Some pid) (t_opts p))
      end
  end.

Definition PID (p : T) : Z := match t_cmd p, t_pid p with Some _, Some pid => pid | _, _ => 0 end.

(** [os.Interrupt] is [syscall.SIGINT]. *)
Definition SIGINT : Z := 2.
Definition SIGKILL : Z := 9.
Definition SIGTERM : Z := 15.
Definition os_Interrupt : Z := SIGINT.

(** [SignalAndWait] sends each of the signals in turn until the command ends,
    and waits for it to. *)
Definition EnsureStopped (SignalAndWait : Z -> option Cmd -> list Z -> option error) (p : T) (waitFor : Z) : option error :=
  SignalAndWait waitFor (t_cmd p) [os_Interrupt; SIGINT; SIGKILL].

(** ** The configuration *)

(** A value of type [any]: maps are references to the heap. (Slices are too, but
    none of them is assigned to.) *)
Inductive any :=
| ANil
| ABool (b : bool)
| AFloat (f : float64)
| AInt (z : Z)
| AStr (s : string)
| ASlice (l : list any)
| AMap (loc : nat).

(** The maps that were made, and the next reference. *)
Record heap := mkHeap { h_next : nat; h_maps : gmap nat (gmap string any) }.

(** [m[k]]: reading a nil map and a key that is not there give nil. *)
Definition index (h : heap) (m : any) (k : string) : any :=
  match m with AMap l => default ANil (mm ← h_maps h !! l; mm !! k) | _ => ANil end.

(** [m[k] = v]: assigning to a nil map panics. *)
Definition assign (m : any) (k : string) (v : any) (h : heap) : go heap :=
  match m with
  | AMap l => Ret (mkHeap (h_next h) (alter (insert k v) l (h_maps h)))
  | _ => Panic (OtherPanic "assignment to entry in nil map")
  end.

(** JSON trees; a number keeps the type that it has in Go, float64 for those of
    [json.Unmarshal] and int for those that the code stores. *)
Inductive json :=
| JNull
| JBool (b : bool)
| JFloat (f : float64)
| JInt (z : Z)
| JStr (s : string)
| JArr (l : list json)
| JObj (m : list (string * json)).

(** The entries of a map in the order of their keys. *)
Definition key_le (x y : string * any) : Prop := String.leb x.1 y.1 = true.
#[global] Instance key_le_dec : RelDecision key_le.
Proof. intros x y. unfold key_le. apply _. Defined.

Definition sorted_entries (m : gmap string any) : list (string * any) :=
  merge_sort key_le (map_to_list m).

(** The tree that [json.Marshal] prints for a value, with sorted keys; none if the maps are cyclic. A chain of maps that is not has at most as
    many as the heap. *)
Fixpoint to_json (depth : nat) (h : heap) (v : any) {struct depth} : option json :=
  (fix go v := match v with
   | ANil => Some JNull
   | ABool b => Some (JBool b)
   | AFloat f => Some (JFloat f)
   | AInt z => Some (JInt z)
   | AStr s => Some (JStr s)
   | ASlice l => JArr <$> mapM go l
   | AMap loc =>
       match depth, h_maps h !! loc with
       | S d, Some m => JObj <$> mapM (fun e => pair e.1 <$> to_json d h e.2) (sorted_entries m)
       | _, _ => None
       end
   end) v.

(** The value that [json.Unmarshal] makes: a new map for every object. *)
Fixpoint alloc (j : json) (h : heap) {struct j} : any * heap :=
  match j with
  | JNull => (ANil, h)
  | JBool b => (ABool b, h)
  | JFloat f => (AFloat f, h)
  | JInt z => (AInt z, h)
  | JStr s => (AStr s, h)
  | JArr l =>
      let '(vs, h) := (fix go l h := match l with
                       | [] => ([], h)
                       | j :: l => let '(v, h) := alloc j h in let '(vs, h) := go l h in (v :: vs, h)
                       end) l h in
      (ASlice vs, h)
  | JObj m =>
      let '(mm, h) := (fix go m h acc := match m with
                       | [] => (acc, h)
                       | (k, j) :: m => let '(v, h) := alloc j h in go m h (<[k := v]> acc)
                       end) m h ∅ in
      (AMap (h_next h), mkHeap (S (h_next h)) (<[h_next h := mm]> (h_maps h)))
  end.

Definition pebbleConfig : json :=
  JObj [("pebble", JObj
    [("listenAddress", JStr "0.0.0.0:18000");
     ("managementListenAddress", JStr "0.0.0.0:19000");
     ("certificate", JStr "test/certs/localhost/cert.pem");
     ("privateKey", JStr "test/certs/localhost/key.pem");
     ("httpPort", JFloat (float64_of_int 5002));
     ("tlsPort", JFloat (float64_of_int 5001));
     ("ocspResponderURL", JStr "");
     ("externalAccountBindingRequired", JBool false);
     ("domainBlocklist", JArr [JStr "blocked-domain.example"]);
     ("retryAfter", JObj [("authz", JFloat (float64_of_int 3)); ("order", JFloat (float64_of_int 5))]);
     ("keyAlgorithm", JStr "ecdsa");
     ("profiles", JObj
       [("default", JObj [("description", JStr "The profile you know and love");
                          ("validityPeriod", JFloat (float64_of_int 7776000))]);
        ("shortlived", JObj [("description", JStr "A short-lived cert profile, without actual enforcement");
                             ("validityPeriod", JFloat (float64_of_int 518400))])])])].

(** The package variable and the heap after [init]. *)
Definition parsedConfig : any := (alloc pebbleConfig (mkHeap 0 ∅)).1.
Definition init_heap : heap := (alloc pebbleConfig (mkHeap 0 ∅)).2.

Record Config (Cert : Type) := mkConfig {
  Address : string;
  ManagementAddress : string;
  HTTPPort : Z;
  TLSPort : Z;
  CertificateFile : string;
  CAFile : string;
  TestCertBase : string;
  RootCertURL : string;
  opts : configOption;
  originalConfig : any;
  pebbleCA : option (list Cert)
}.
Arguments mkConfig {Cert}. Arguments Address {Cert}. Arguments ManagementAddress {Cert}.
Arguments HTTPPort {Cert}. Arguments TLSPort {Cert}. Arguments CertificateFile {Cert}. Arguments CAFile {Cert}.
Arguments TestCertBase {Cert}. Arguments RootCertURL {Cert}. Arguments opts {Cert}.
Arguments originalConfig {Cert}. Arguments pebbleCA {Cert}.

Definition NewConfig {Cert} (opt : list (configOption -> configOption)) : Config Cert :=
  let o := fold_left (fun o co => co o) opt (mkConfigOption 0 0 0) in
  let addr := if negb (serverPort o =? 0) then "localhost:" +:+ fmt_int (serverPort o) else "localhost:18000" in
  let mgmt := if negb (managementPort o =? 0) then "localhost:" +:+ fmt_int (managementPort o)
              else "localhost:19000" in
  mkConfig addr mgmt 5002 5001 "" "" (path_Join ["test"; "certs"]) (URL_String (mkURL "https" "" None mgmt "/roots/0" "" false "" "" "" false)) o
    parsedConfig None.

Section update.
(** The order in which a [range] visits a map. *)
Variable order : gmap string any -> list (string * any).

(** The loop over the profiles. *)
Fixpoint set_validity (period : Z) (profiles : list (string * any)) (h : heap) : go heap :=
  match profiles with
  | [] => Ret h
  | (_, AMap loc) :: profiles' =>
      h ← assign (AMap loc) "validityPeriod" (AInt period) h;
      set_validity period profiles' h
  | _ => Panic (OtherPanic "interface conversion")
  end.

(** The assignments to [ncfg["pebble"]]. *)
Definition updated_config {Cert} (pc : Config Cert) (ncfg : any) (h : heap) : go heap :=
  h ← (if negb (validityPeriod (opts pc) =? 0) then
         match index h (index h ncfg "pebble") "profiles" with
         | AMap loc =>
             set_validity (int64_of_float64 (Duration_Seconds (validityPeriod (opts pc))))
               (order (default ∅ (h_maps h !! loc))) h
         | _ => Panic (OtherPanic "interface conversion")
         end
       else Ret h);
  h ← assign (index h ncfg "pebble") "certificate" (AStr (path_Join [TestCertBase pc; "localhost"; "cert.pem"])) h;
  h ← assign (index h ncfg "pebble") "privateKey" (AStr (path_Join [TestCertBase pc; "localhost"; "key.pem"])) h;
  h ← assign (index h ncfg "pebble") "httpPort" (AInt (HTTPPort pc)) h;
  h ← assign (index h ncfg "pebble") "tlsPort" (AInt (TLSPort pc)) h;
  h ← assign (index h ncfg "pebble") "listenAddress" (AStr (Address pc)) h;
  assign (index h ncfg "pebble") "managementListenAddress" (AStr (ManagementAddress pc)) h.

(** The periods in the order in which the profiles are visited. *)
Definition PossibleValidityPeriods {Cert} (pc : Config Cert) (h : heap) : list Z :=
  match index h (index h (originalConfig pc) "pebble") "profiles" with
  | AMap loc =>
      omap (fun profile => match profile.2 with
        | AMap details =>
            match index h (AMap details) "validityPeriod" with
            | AFloat validity => Some (mul64 (int64_of_float64 validity) Second)
            | _ => None
            end
        | _ => None
        end) (order (default ∅ (h_maps h !! loc)))
  | _ => []
  end.

End update.

Definition ensureScheme (scheme urlOrAddr path : string) : string :=
  if HasPrefix urlOrAddr (scheme +:+ "://") then urlOrAddr +:+ "/" +:+ path
  else scheme +:+ "://" +:+ urlOrAddr +:+ "/" +:+ path.

Section config.
Context {Cert Key TLSCert : Type} `{X : !X509 Cert Key TLSCert}.
Abbreviation files := (gmap string string).

(** The printers of [json.Marshal] and [json.MarshalIndent], and what
    [json.Unmarshal] parses for a map of maps. *)
Variable json_Marshal json_MarshalIndent : json -> res string.
Variable json_Unmarshal : string -> res json.
(** The order in which a [range] visits a map. *)
Variable order : gmap string any -> list (string * any).
(** System calls; [run] is a command that may write files. *)
Variable MkdirAll : string -> option error.
Variable LookPath : string -> res string.
Variable run : Cmd -> files -> option error * files.
Variable WriteFile_err : string -> option error.
Variable SystemCertPool : res (list Cert).

(** The encoders, on a value of the heap. *)
Definition marshal (print : json -> res string) (h : heap) (v : any) : res string :=
  match to_json (h_next h) h v with
  | None => Err (errors_New "json: unsupported value: encountered a cycle")
  | Some t => print t
  end.

Definition deepCopy (m : any) (h : heap) : res any * heap :=
  match marshal json_Marshal h m with
  | Err e => (Err (Errorf "failed to marshal original pebble config: %v" [] []), h)
  | Ok cfgData =>
      match json_Unmarshal cfgData with
      | Err e => (Err (Errorf "failed to unmarshal original pebble config: %v" [] []), h)
      | Ok t => let '(ncfg, h) := alloc t h in (Ok ncfg, h)
      end
  end.

Definition minica_cmd (minicaPath certDir : string) : Cmd :=
  mkCmd minicaPath ["-ca-cert"; "pebble.minica.pem"; "-ca-key"; "pebble.minica.key.pem";
                    "-domains"; "localhost,pebble"; "-ip-addresses"; "127.0.0.1"] certDir None.

(** From the written file on. *)
Definition load_ca (pc : Config Cert) (outputDir cfgFile : string) (fs : files) : res string * Config Cert :=
  match SystemCertPool with
  | Err e => (Err (Errorf "failed to load system cert pool: %v" [] []), pc)
  | Ok sysPool =>
      match fs !! path_Join [outputDir; TestCertBase pc; "pebble.minica.pem"] with
      | None => (Err (Errorf "failed to read pebble minica cert: %v" [] []), pc)
      | Some data =>
          let '(pool, ok) := AppendCertsFromPEM sysPool data in
          if negb ok then (Err (Errorf "failed to append pebble minica cert to cert pool" [] []), pc)
          else (Ok cfgFile,
                mkConfig (Address pc) (ManagementAddress pc) (HTTPPort pc) (TLSPort pc)
                  (path_Join [TestCertBase pc; "localhost"; "cert.pem"])
                  (path_Join [TestCertBase pc; "pebble.minica.pem"])
                  (TestCertBase pc) (RootCertURL pc) (opts pc) (originalConfig pc) (Some pool))
      end
  end.

Definition CreateCertsAndUpdateConfig (pc : Config Cert) (outputDir : string) (fs : files) (h : heap)
  : go (res string * Config Cert * files * heap) :=
  let certDir := path_Join [outputDir; TestCertBase pc] in
  match MkdirAll certDir with
  | Some e => Ret (Err (Errorf "failed to create cert dir: %v" [] []), pc, fs, h)
  | None =>
  match LookPath "minica" with
  | Err e => Ret (Err (Errorf "failed to find minica binary in PATH: %w" [] [e]), pc, fs, h)
  | Ok minicaPath =>
  match run (minica_cmd minicaPath certDir) fs with
  | (Some e, fs) => Ret (Err (Errorf "failed to run minica: %v: %s" [] []), pc, fs, h)
  | (None, fs) =>
  match deepCopy (originalConfig pc) h with
  | (Err e, h) => Ret (Err (Errorf "failed to deep copy original pebble config: %v" [] []), pc, fs, h)
  | (Ok ncfg, h) =>
      h ← updated_config order pc ncfg h;
      match marshal json_MarshalIndent h ncfg with
      | Err e => Ret (Err (Errorf "failed to marshal updated pebble config: %v" [] []), pc, fs, h)
      | Ok cfgData =>
          let cfgFile := path_Join [outputDir; "pebble-config.json"] in
          match WriteFile_err cfgFile with
          | Some e => Ret (Err (Errorf "failed to write updated pebble config to %q: %v" [cfgFile] []), pc, fs, h)
          | None => let fs := <[cfgFile := cfgData]> fs in Ret (load_ca pc outputDir cfgFile fs, fs, h)
          end
      end
  end end end end.

Definition DirectoryURL (pc : Config Cert) : string := ensureScheme "https" (Address pc) "dir".
Definition CARootsURL (pc : Config Cert) (id : Z) : string :=
  ensureScheme "https" (ManagementAddress pc) ("roots/" +:+ fmt_int id).

(** ** Retrieving certificates *)

Variable NewRequest : string -> option error.
(** The transport of a client that trusts a pool. *)
Variable transport : option (list Cert) -> list string -> string -> res Response.
Variable url_Parse : string -> string -> res string.
Variable fuel : nat.

(** [None]: more redirects than the fuel allows. *)
Definition GetIssuingCert (pc : Config Cert) (id : Z) (hist : list string) : option (res string) :=
  let u := CARootsURL pc id in
  match NewRequest u with
  | Some e => Some (Err e)
  | None =>
      match Do (transport (pebbleCA pc)) url_Parse (mkClient None) fuel u hist with
      | None => None
      | Some (Err e, _) => Some (Err e)
      | Some (Ok resp, _) => Some (ReadAll (resp_Body resp))
      end
  end.

Definition CA (pc : Config Cert) : option (list Cert) := pebbleCA pc.

Definition GetIssuingCA (pc : Config Cert) (id : Z) (hist : list string) : option (res (list Cert)) :=
  data ← GetIssuingCert pc id hist;
  Some (match data with
        | Err e => Err e
        | Ok data => let '(pool, ok) := AppendCertsFromPEM [] data in
                     if negb ok then Err (Errorf "failed to append issuing cert to pool" [] []) else Ok pool
        end).

Definition ValidateCertificate (pc : Config Cert) (cert : Cert) (intermediates : option (list Cert))
    (hist : list string) : option (option error) :=
  ca ← GetIssuingCA pc 0 hist;
  Some (match ca with
        | Err e => Some (Errorf "failed to get issuing CA: %v" [] [])
        | Ok issuingCA =>
            match cert_Verify cert (mkVO "" (Some issuingCA) intermediates None) with
            | Err e => Some (Errorf "failed to verify certificate: %v" [] [])
            | Ok _ => None
            end
        end).

End config.

(** [ServerURL] *)
Definition Enabled (p : string) : bool := negb (bool_decide (p = "")).
Definition RootURL (p : string) : string := p +:+ "/roots/0".
Definition IntermediateURL (p : string) : string := p +:+ "/intermediates/0".

(** ** pebbletest: running a server in a test *)
Module PebbleTest.

(** [Recorder]: the bytes written so far. *)
Definition Recorder := string.
Definition Write (o : Recorder) (p : string) : Recorder * Z := (o +:+ p, Z.of_nat (slen p)).
Definition Close (o : Recorder) : option error := None.
Definition String (o : Recorder) : string := o.

Record options := mkOptions {
  serverOpts : list (serverOptions -> serverOptions);
  configOpts : list (configOption -> configOption)
}.

Definition WithServerOptions (os : list (serverOptions -> serverOptions)) (o : options) : options :=
  mkOptions (serverOpts o ++ os) (configOpts o).
Definition WithConfigOptions (os : list (configOption -> configOption)) (o : options) : options :=
  mkOptions (serverOpts o) (configOpts o ++ os).

(** What a function of a test returns, or [Fatalf] with its format, which ends
    the test. *)
Inductive outcome (A : Type) := Returned (a : A) | Fatalf (format : string).
Arguments Returned {A}. Arguments Fatalf {A}.

Section certs.
Context {Cert Key TLSCert : Type} `{X : !X509 Cert Key TLSCert}.
Variable SerialNumber : Cert -> option Z.

(** The loop of [getCerts]. *)
Fixpoint getCerts_loop (fuel : nat) (certPEM : string) (leafCert : option Cert) (intermediates : list Cert)
  : option Cert * list Cert :=
  match fuel with
  | O => (leafCert, intermediates)
  | S f =>
      match pem_Decode certPEM with
      | None => (leafCert, intermediates)
      | Some (block, certPEM) =>
          if bool_decide (b_Type block <> "CERTIFICATE") then getCerts_loop f certPEM leafCert intermediates
          else match ParseCertificate (b_Bytes block) with
               | Err _ => getCerts_loop f certPEM leafCert intermediates
               | Ok cert =>
                   if negb (IsCA cert) then getCerts_loop f certPEM (Some cert) intermediates
                   else getCerts_loop f certPEM leafCert (intermediates ++ [cert])
               end
      end
  end.

(** [data] is what reading the file gives. *)
Definition getCerts (data : res string) : outcome (Cert * list Cert) :=
  match data with
  | Err _ => Fatalf "failed to read cert file %v: %v"
  | Ok certPEM =>
      match getCerts_loop (S (slen certPEM)) certPEM None [] with
      | (None, _) => Fatalf "failed to find leaf certificate in %v"
      | (Some leafCert, intermediates) => Returned (leafCert, intermediates)
      end
  end.

(** What a [select] receives: the end of the context, or a tick, with the
    outcomes of looking up and reading the file. *)
Inductive wait_event := Expired | Tick (stat : option error) (data : res string).

(** [None]: the events end while it waits. *)
Fixpoint WaitForNewCert (events : list wait_event) (previousSerial : string) : option (outcome (Cert * list Cert)) :=
  match events with
  | [] => None
  | Expired :: _ => Some (Fatalf "%v: timed out waiting for new cert %v: %v")
  | Tick (Some err) _ :: events' =>
      if errors_is err fs_ErrNotExist then WaitForNewCert events' previousSerial
      else Some (Fatalf "%v: failed to stat cert file %v: %v")
  | Tick None data :: events' =>
      match getCerts data with
      | Fatalf f => Some (Fatalf f)
      | Returned (leafCert, intermediates) =>
          let gotSerial := SerialNumberHex (SerialNumber leafCert) in
          if bool_decide (gotSerial <> previousSerial) then Some (Returned (leafCert, intermediates))
          else WaitForNewCert events' previousSerial
      end
  end.

(** A dial per tick; [None] for the end of the context. *)
Fixpoint WaitForConnection (dials : list (option (option error))) : option (outcome unit) :=
  match dials with
  | [] => None
  | None :: _ => Some (Fatalf "timed out waiting for connection to %v: %v")
  | Some (Some _) :: dials' => WaitForConnection dials'
  | Some None :: _ => Some (Returned tt)
  end.

(** [Start]: the server, its configuration and the two directories. The
    parameters are those of the functions it calls. *)
Definition Start (MkdirAll : string -> option error) (create : Config Cert -> string -> go (res string * Config Cert))
    (start : T -> string -> string -> option error * T) (events : list event)
    (dials : string -> list (option (option error))) (tmpDir : string) (opts : list (options -> options))
  : option (go (outcome (T * Config Cert * string * string))) :=
  let o := fold_left (fun o opt => opt o) opts (mkOptions [] []) in
  let pebbleCacheDir := path_Join [tmpDir; "certcache"] in
  match MkdirAll pebbleCacheDir with
  | Some _ => Some (Ret (Fatalf "failed to create pebble cache dir: %v"))
  | None =>
      let pebbleServer := New "pebble" (serverOpts o) in
      let pebbleTestDir := path_Join [tmpDir; "pebble-test"] in
      match create (NewConfig (configOpts o)) pebbleTestDir with
      | Panic p => Some (Panic p)
      | Ret (Err _, _) => Some (Ret (Fatalf "failed to create pebble certs: %v"))
      | Ret (Ok pebbleCfg, cfg) =>
          match start pebbleServer pebbleTestDir pebbleCfg with
          | (Some _, _) => Some (Ret (Fatalf "failed to start pebble: %v"))
          | (None, pebbleServer) =>
              ready ← WaitForReady events;
              match ready with
              | (Some _, _) => Some (Ret (Fatalf "pebble not ready: %v"))
              | (None, _) =>
                  conn ← WaitForConnection (dials (Address cfg));
                  Some (Ret (match conn with
                             | Fatalf f => Fatalf f
                             | Returned _ => Returned (pebbleServer, cfg, pebbleCacheDir, pebbleTestDir)
                             end))
              end
          end
      end
  end.

(** *** What the loops find *)

Context `{!PEMLaws}.

(** The certificate of a block of that type. *)
Definition typed_cert (b : Block) : option Cert :=
  if bool_decide (b_Type b = "CERTIFICATE")
  then match ParseCertificate (b_Bytes b) with Ok c => Some c | Err _ => None end
  else None.

(** Of an encoded file [getCerts] takes the last leaf, and all the authorities
    in order. *)
Lemma getCerts_loop_blocks f s leaf pool :
  getCerts_loop f s leaf pool =
    let certs := omap typed_cert (pem_blocks_fuel f s) in
    (match last (leaves certs) with Some c => Some c | None => leaf end, pool ++ CAs certs).
Proof.
  revert s leaf pool. induction f as [|f IH]; intros s leaf pool; simpl; [by rewrite app_nil_r|].
  destruct (pem_Decode s) as [[b rest]|]; simpl; [|by rewrite app_nil_r].
  assert (Hb : typed_cert b = if bool_decide (b_Type b <> "CERTIFICATE") then None
                              else match ParseCertificate (b_Bytes b) with Ok c => Some c | Err _ => None end).
  { unfold typed_cert. by repeat case_bool_decide. }
  rewrite Hb. clear Hb. destruct (bool_decide (b_Type b <> "CERTIFICATE")); [apply IH|].
  destruct (ParseCertificate (b_Bytes b)) as [c|e]; [|apply IH].
  unfold leaves, CAs. simpl. destruct (IsCA c); simpl; rewrite IH; simpl; [by rewrite <- app_assoc|].
  rewrite last_cons. by destruct (last _).
Qed.

(** A certificate that is returned was in the file at some tick and is new. *)
Lemma WaitForNewCert_new events prev c pool :
  WaitForNewCert events prev = Some (Returned (c, pool)) ->
  SerialNumberHex (SerialNumber c) <> prev /\ IsCA c = false /\
  exists data, Tick None (Ok data) ∈ events /\ getCerts (Ok data) = Returned (c, pool).
Proof.
  induction events as [|[|[err|] data] events IH]; simpl; [done|done| |].
  - destruct (errors_is err fs_ErrNotExist); [|done].
    intros Hw. destruct (IH Hw) as (? & ? & d & ? & ?). split_and!; try done. exists d. split; [by right|done].
  - destruct (getCerts data) as [[c' pool']|f] eqn:E; [|done]. case_bool_decide as Hs.
    + intros [= -> ->]. destruct data as [data|]; [|done]. split; [done|]. split.
      * unfold getCerts in E. rewrite getCerts_loop_blocks in E. cbv zeta in E.
        match type of E with context [last (leaves ?l)] => destruct (last (leaves l)) as [x|] eqn:El; [|done];
          simpl in E; injection E as -> <-; apply last_Some_elem_of in El end.
        unfold leaves in El. apply list_elem_of_In, List.filter_In in El as [_ El]. by destruct (IsCA c).
      * exists data. split; [by left|done].
    + intros Hw. destruct (IH Hw) as (? & ? & d & ? & ?). split_and!; try done. exists d. split; [by right|done].
Qed.

End certs.

End PebbleTest.

(** ** The written configuration *)


(** A member of an object. *)
Definition map_get {A} (m : list (string * A)) (k : string) : option A :=
  snd <$> List.find (fun e => bool_decide (e.1 = k)) m.

Lemma sorted_entries_perm m : sorted_entries m ≡ₚ map_to_list m.
Proof. apply merge_sort_Permutation. Qed.

Lemma map_get_entries (m : gmap string any) l k : l ≡ₚ map_to_list m -> map_get l k = m !! k.
Proof.
  intros Hl. unfold map_get. destruct (List.find _ l) as [[k' v]|] eqn:E; simpl.
  - apply List.find_some in E as [Hin Hk]. simpl in Hk. apply bool_decide_eq_true in Hk as ->.
    symmetry. apply elem_of_map_to_list. rewrite <- Hl. by apply list_elem_of_In.
  - destruct (m !! k) as [v|] eqn:Em; [|done]. exfalso. apply elem_of_map_to_list in Em. rewrite <- Hl in Em.
    apply list_elem_of_In in Em. eapply List.find_none in E; [|exact Em]. simpl in E. by rewrite bool_decide_true in E.
Qed.

(** The object that a map is printed as has the printed members of the map. *)
Lemma to_json_map d h loc m :
  h_maps h !! loc = Some m -> map_Forall (fun _ v => is_Some (to_json d h v)) m ->
  exists es, to_json (S d) h (AMap loc) = Some (JObj es) /\ (forall k, map_get es k = v ← m !! k; to_json d h v).
Proof.
  intros Hm HF. simpl. rewrite Hm.
  assert (Hes : is_Some (mapM (fun e => pair e.1 <$> to_json d h e.2) (sorted_entries m))).
  { apply mapM_is_Some_2. rewrite sorted_entries_perm. apply map_Forall_to_list in HF.
    eapply Forall_impl; [exact HF|]. intros [k v] [t Ht]. simpl in *. rewrite Ht. by eexists. }
  destruct Hes as [es Hes]. rewrite Hes. exists es. split; [done|]. intros k.
  rewrite <- (map_get_entries m (sorted_entries m) k) by apply sorted_entries_perm.
  apply mapM_Some in Hes. clear Hm HF. unfold map_get.
  induction Hes as [|[k1 v1] [k2 t] l es Hh _ IH]; [done|]. simpl in *.
  destruct (to_json d h v1) as [t'|] eqn:E; [|done]. injection Hh as <- <-. case_bool_decide; [by simpl|done].
Qed.

Lemma any_nested_ind (P : any -> Prop) :
  P ANil -> (forall b, P (ABool b)) -> (forall f, P (AFloat f)) -> (forall z, P (AInt z)) -> (forall s, P (AStr s)) ->
  (forall l, Forall P l -> P (ASlice l)) -> (forall loc, P (AMap loc)) -> forall v, P v.
Proof.
  intros H1 H2 H3 H4 H5 H6 H7. fix IH 1. intros [| | | | |l|]; [done..| |done].
  apply H6. induction l as [|v l IHl]; constructor; [apply IH|apply IHl].
Qed.

Lemma to_json_slice d h l : to_json d h (ASlice l) = JArr <$> mapM (to_json d h) l.
Proof. by destruct d. Qed.

(** What is printed for a value stays the same when maps are added. *)
Lemma to_json_extends d h d' h' v t :
  (d <= d')%nat -> h_maps h ⊆ h_maps h' -> to_json d h v = Some t -> to_json d' h' v = Some t.
Proof.
  intros Hd Hh. revert d' v t Hd. induction d as [|d IH]; intros d' v t Hd; revert t;
    induction v as [|b|f|z|s|l IHl|loc] using any_nested_ind; intros t; try (by destruct d').
  1, 2: rewrite !to_json_slice; intros Ht; apply fmap_Some in Ht as (ts & Hm & ->); apply mapM_Some in Hm;
    apply fmap_Some; exists ts; (split; [|done]); apply mapM_Some;
    induction Hm; inversion IHl; subst; constructor; auto.
  destruct d' as [|d']; [lia|]. simpl. destruct (h_maps h !! loc) as [m|] eqn:Em; [|done].
  rewrite (lookup_weaken _ _ _ _ Em Hh). intros Ht. apply fmap_Some in Ht as (ts & Hm & ->). apply mapM_Some in Hm.
  apply fmap_Some. exists ts. split; [|done]. apply mapM_Some. eapply Forall2_impl; [exact Hm|].
  intros e t He. apply fmap_Some in He as (t' & Ht' & ->). by rewrite (IH d' _ t') by (lia || done).
Qed.

(** The maps of the package variable are as [init] made them. *)
Definition intact (h : heap) : Prop :=
  h_maps init_heap ⊆ h_maps h /\ (forall l m, h_maps h !! l = Some m -> (l < h_next h)%nat).

(** ** The updated copy *)

(** The maps among the values of some entries. *)
Definition locs (l : list (string * any)) : list nat := omap (fun e => match e.2 with AMap loc => Some loc | _ => None end) l.

Lemma set_validity_all p l h :
  Forall (fun e => exists loc, e.2 = AMap loc) l ->
  exists h', set_validity p l h = Ret h' /\ h_next h' = h_next h /\
    (forall loc, loc ∈ locs l -> h_maps h' !! loc = insert "validityPeriod" (AInt p) <$> h_maps h !! loc) /\
    (forall loc, loc ∉ locs l -> h_maps h' !! loc = h_maps h !! loc).
Proof.
  intros HF. revert h. induction HF as [|[k v] l [x Hx] _ IH]; intros h; [by exists h; split_and!; set_solver|].
  simpl in Hx. subst v. destruct (IH (mkHeap (h_next h) (alter (insert "validityPeriod" (AInt p)) x (h_maps h))))
    as (h' & Hs & Hn & Hin & Hout).
  exists h'. split; [exact Hs|]. split; [exact Hn|]. change (locs ((k, AMap x) :: l)) with (x :: locs l). simpl in *.
  split; intros loc Hl; [apply elem_of_cons in Hl|apply not_elem_of_cons in Hl].
  - destruct (decide (loc ∈ locs l)) as [Hd|Hd]; [rewrite Hin by done|rewrite Hout by done].
    + destruct (decide (loc = x)) as [->|]; [|by rewrite lookup_alter_ne by done]. rewrite lookup_alter_eq.
      destruct (h_maps h !! x); simpl; [|done]. by rewrite insert_insert_eq.
    + destruct Hl as [->|]; [|done]. by rewrite lookup_alter_eq.
  - destruct Hl. rewrite Hout by done. by rewrite lookup_alter_ne by done.
Qed.

(** Values that are printed whatever the heap holds. *)
Definition printable (v : any) : Prop := forall d h, is_Some (to_json d h v).

Lemma printable_map (m : gmap string any) d h : map_Forall (fun _ => printable) m -> map_Forall (fun _ v => is_Some (to_json d h v)) m.
Proof. intros Hm k v Hk. exact (Hm k v Hk d h). Qed.

(** The maps of the two profiles. *)
Abbreviation two_profiles n := (<["shortlived" := AMap (1 + n)]> {["default" := AMap n]} : gmap string any).

(** The copy of the configuration, made when [n] maps are in use: the objects are
    at [n] and the references after it. *)
Lemma copy_made t n ms :
  to_json 6 init_heap parsedConfig = Some t ->
  exists m m3 m0 m1 h, alloc t (mkHeap n ms) = (AMap (5 + n), h) /\ h_next h = (6 + n)%nat /\
    (forall l, (l < n \/ 6 + n <= l)%nat -> h_maps h !! l = ms !! l) /\
    h_maps h !! (5 + n)%nat = Some {["pebble" := AMap (4 + n)]} /\
    h_maps h !! (4 + n)%nat = Some m /\ h_maps h !! (3 + n)%nat = Some m3 /\
    h_maps h !! (2 + n)%nat = Some (two_profiles n) /\
    h_maps h !! (1 + n)%nat = Some m1 /\ h_maps h !! n = Some m0 /\
    m !! "profiles" = Some (AMap (2 + n)) /\ m !! "retryAfter" = Some (AMap (3 + n)) /\
    map_Forall (fun k v => k ∈ ["profiles"; "retryAfter"] \/ printable v) m /\
    Forall (map_Forall (fun _ => printable)) [m3; m0; m1].
Proof.
  intros Ht. vm_compute in Ht. injection Ht as <-.
  eexists _, _, _, _, _. split; [cbn; reflexivity|]. cbn [h_next h_maps]. split; [done|]. split.
  { intros l Hl. by rewrite !lookup_insert_ne by lia. }
  split_and!; try (repeat first [rewrite lookup_insert_eq; reflexivity|rewrite lookup_insert_ne by lia]); try done.
  - repeat first [apply map_Forall_empty|apply map_Forall_insert_2];
      first [by left; set_solver|by right; intros [|d] h; eexists; reflexivity].
  - repeat constructor; repeat first [apply map_Forall_empty|apply map_Forall_insert_2]; by intros [|d] h; eexists.
Qed.

Lemma elem_of_locs x l : x ∈ locs l <-> exists k, (k, AMap x) ∈ l.
Proof.
  unfold locs. rewrite list_elem_of_omap. split.
  - intros ([k v] & Hin & Hv). simpl in Hv. destruct v; try done. injection Hv as ->. eauto.
  - intros [k Hk]. by exists (k, AMap x).
Qed.

Lemma assign_pebble r l h k v :
  r <> l -> index h (AMap r) "pebble" = AMap l ->
  exists h', assign (index h (AMap r) "pebble") k v h = Ret h' /\ h_next h' = h_next h /\
    h_maps h' = alter (insert k v) l (h_maps h) /\ index h' (AMap r) "pebble" = AMap l.
Proof.
  intros Hrl Hi. rewrite Hi. eexists. split; [reflexivity|]. split_and!; [done..|].
  rewrite <- Hi. unfold index. simpl. by rewrite lookup_alter_ne by done.
Qed.

Lemma profiles_locs l n :
  l ≡ₚ map_to_list (two_profiles n) ->
  Forall (fun e => exists loc, e.2 = AMap loc) l /\ (forall x, x ∈ locs l <-> (x = 1 + n \/ x = n)%nat).
Proof.
  intros Hl. split.
  - rewrite Hl. apply Forall_forall. intros [k v] Hk%elem_of_map_to_list.
    apply lookup_insert_Some in Hk as [[_ <-]|[_ [_ <-]%lookup_singleton_Some]]; by eexists.
  - intros x. rewrite elem_of_locs. setoid_rewrite Hl. setoid_rewrite elem_of_map_to_list. split.
    + intros [k [[<- [= <-]]|[_ [<- [= <-]]%lookup_singleton_Some]]%lookup_insert_Some]; lia.
    + intros [->| ->]; [by exists "shortlived"|by exists "default"].
Qed.

(** One of the assignments to the copy of the member pebble. *)
Ltac assign_step :=
  match goal with
  | H : index ?x (AMap ?r) "pebble" = AMap ?l |- context [assign (index ?x (AMap ?r) "pebble") ?k ?v ?x] =>
      let h' := fresh "h" in let Hx := fresh "Hx" in let Hm := fresh "Hm" in let Hnext := fresh "Hnext" in
      destruct (assign_pebble r l x k v ltac:(lia) H) as (h' & Hx & Hnext & Hm & ?);
      rewrite Hx; clear Hx; cbn [mbind go_bind]
  end.

(** The assignments reach the maps of the copy only. *)
Lemma update_maps {Cert} order (pc : Config Cert) h n m m0 m1 :
  (forall mm, order mm ≡ₚ map_to_list mm) -> validityPeriod (opts pc) <> 0 ->
  h_maps h !! (5 + n)%nat = Some {["pebble" := AMap (4 + n)]} -> h_maps h !! (4 + n)%nat = Some m ->
  h_maps h !! (2 + n)%nat = Some (two_profiles n) ->
  h_maps h !! (1 + n)%nat = Some m1 -> h_maps h !! n = Some m0 -> m !! "profiles" = Some (AMap (2 + n)) ->
  let period := AInt (int64_of_float64 (Duration_Seconds (validityPeriod (opts pc)))) in
  let cert f := AStr (path_Join [TestCertBase pc; "localhost"; f]) in
  exists h', updated_config order pc (AMap (5 + n)) h = Ret h' /\ h_next h' = h_next h /\
    h_maps h' !! (4 + n)%nat = Some
      (<["managementListenAddress" := AStr (ManagementAddress pc)]> (<["listenAddress" := AStr (Address pc)]>
      (<["tlsPort" := AInt (TLSPort pc)]> (<["httpPort" := AInt (HTTPPort pc)]>
      (<["privateKey" := cert "key.pem"]> (<["certificate" := cert "cert.pem"]> m)))))) /\
    h_maps h' !! (1 + n)%nat = Some (<["validityPeriod" := period]> m1) /\
    h_maps h' !! n = Some (<["validityPeriod" := period]> m0) /\
    (forall l, (l <> 4 + n /\ l <> 1 + n /\ l <> n)%nat -> h_maps h' !! l = h_maps h !! l).
Proof.
  intros Ho Hv H5 H4 H2 H1 H0 Hp period cert. unfold updated_config.
  assert (Hi : index h (AMap (5 + n)) "pebble" = AMap (4 + n)).
  { unfold index. rewrite H5. simpl. by rewrite lookup_singleton_eq. }
  destruct (profiles_locs _ n (Ho (two_profiles n))) as [HF Hl].
  destruct (set_validity_all (int64_of_float64 (Duration_Seconds (validityPeriod (opts pc)))) _ h HF) as (h1 & Hs & Hn & Hin & Hout).
  rewrite (proj2 (Z.eqb_neq _ _) Hv). cbn [negb]. rewrite Hi.
  assert (index h (AMap (4 + n)) "profiles" = AMap (2 + n)) as -> by (unfold index; rewrite H4; simpl; by rewrite Hp).
  rewrite H2. cbn [from_option id]. rewrite Hs. cbn [mbind go_bind].
  assert (Hsame : forall l, (l <> 1 + n /\ l <> n)%nat -> h_maps h1 !! l = h_maps h !! l).
  { intros l Hl'. apply Hout. rewrite Hl. lia. }
  assert (Hi1 : index h1 (AMap (5 + n)) "pebble" = AMap (4 + n)).
  { rewrite <- Hi. unfold index. by rewrite Hsame by lia. }
  do 6 assign_step. eexists. split; [reflexivity|]. split; [congruence|].
  repeat match goal with H : h_maps ?x = alter _ _ _ |- _ => rewrite H; clear H end.
  split_and!.
  - rewrite !lookup_alter_eq, Hsame, H4 by lia. done.
  - rewrite !lookup_alter_ne, Hin, H1 by (rewrite ?Hl; lia). done.
  - rewrite !lookup_alter_ne, Hin, H0 by (rewrite ?Hl; lia). done.
  - intros l Hne. rewrite !lookup_alter_ne by lia. apply Hsame. lia.
Qed.

(** Looks a member up among assignments to other members. *)
Ltac member := repeat first [rewrite lookup_insert_eq|rewrite lookup_insert_ne by discriminate].

(** What is printed for the updated copy. *)
Lemma copy_updated {Cert} order (pc : Config Cert) t n ms :
  (forall mm, order mm ≡ₚ map_to_list mm) -> validityPeriod (opts pc) <> 0 ->
  to_json 6 init_heap parsedConfig = Some t ->
  let period := JInt (int64_of_float64 (Duration_Seconds (validityPeriod (opts pc)))) in
  let cert f := JStr (path_Join [TestCertBase pc; "localhost"; f]) in
  exists h h' m profiles,
    alloc t (mkHeap n ms) = (AMap (5 + n), h) /\ updated_config order pc (AMap (5 + n)) h = Ret h' /\
    h_next h' = (6 + n)%nat /\ (forall l, (l < n \/ 6 + n <= l)%nat -> h_maps h' !! l = ms !! l) /\
    to_json (h_next h') h' (AMap (5 + n)) = Some (JObj [("pebble", JObj m)]) /\
    map_get m "listenAddress" = Some (JStr (Address pc)) /\
    map_get m "managementListenAddress" = Some (JStr (ManagementAddress pc)) /\
    map_get m "httpPort" = Some (JInt (HTTPPort pc)) /\ map_get m "tlsPort" = Some (JInt (TLSPort pc)) /\
    map_get m "certificate" = Some (cert "cert.pem") /\ map_get m "privateKey" = Some (cert "key.pem") /\
    map_get m "profiles" = Some (JObj profiles) /\
    (forall name, is_Some (map_get profiles name) <-> name ∈ ["default"; "shortlived"]) /\
    (forall name p, map_get profiles name = Some p -> exists d, p = JObj d /\ map_get d "validityPeriod" = Some period).
Proof.
  intros Ho Hv Ht period cert.
  destruct (copy_made t n ms Ht) as (m & m3 & m0 & m1 & h & Ha & Hn & Hf & H5 & H4 & H3 & H2 & H1 & H0 & Hp & Hr & Hm & Hpr).
  destruct (update_maps order pc h n m m0 m1 Ho Hv H5 H4 H2 H1 H0 Hp) as (h' & Hu & Hn' & U4 & U1 & U0 & Usame).
  rewrite <- (Usame (5 + n)%nat) in H5 by lia. rewrite <- (Usame (3 + n)%nat) in H3 by lia.
  rewrite <- (Usame (2 + n)%nat) in H2 by lia. rewrite !Forall_cons in Hpr. destruct Hpr as (P3 & P0 & P1 & _).
  assert (Hd : forall loc mm, h_maps h' !! loc = Some (<["validityPeriod" := AInt (int64_of_float64 (Duration_Seconds (validityPeriod (opts pc))))]> mm) ->
    map_Forall (fun _ => printable) mm -> exists d, to_json (3 + n) h' (AMap loc) = Some (JObj d) /\ map_get d "validityPeriod" = Some period).
  { intros loc mm Hloc Hmm. destruct (to_json_map (2 + n) h' loc _ Hloc) as (es & Hes & Hg).
    - apply map_Forall_insert_2; [by eexists|by apply printable_map].
    - exists es. split; [exact Hes|]. rewrite Hg, lookup_insert_eq. done. }
  destruct (Hd n m0 U0 P0) as (d0 & D0 & V0). destruct (Hd _ m1 U1 P1) as (d1 & D1 & V1).
  destruct (to_json_map (3 + n) h' (2 + n) _ H2) as (profiles & J2 & G2).
  { apply map_Forall_insert_2; [by eexists|]. intros k v [_ <-]%lookup_singleton_Some. by eexists. }
  destruct (to_json_map (3 + n) h' (3 + n) _ H3 (printable_map _ _ _ P3)) as (retry & J3 & _).
  destruct (to_json_map (4 + n) h' (4 + n) _ U4) as (es & J4 & G4).
  { repeat (apply map_Forall_insert_2; [by eexists|]). intros k v Hk. destruct (Hm k v Hk) as [Hin|Hq]; [|apply Hq].
    apply list_elem_of_In in Hin. destruct Hin as [<-|[<-|[]]]; [rewrite Hp in Hk|rewrite Hr in Hk]; injection Hk as <-; eauto. }
  exists h, h', es, profiles. split; [done|]. split; [done|]. split; [congruence|]. split.
  { intros l Hl. rewrite Usame by lia. by apply Hf. }
  split.
  { rewrite Hn', Hn. change (6 + n)%nat with (S (5 + n)). cbn [to_json]. rewrite H5.
    change (sorted_entries {["pebble" := AMap (4 + n)]}) with [("pebble", AMap (4 + n))]. cbn [mapM fst snd].
    change (5 + n)%nat with (S (4 + n)). by rewrite J4. }
  assert (Hnum : forall z, to_json (4 + n) h' (AInt z) = Some (JInt z)) by done.
  assert (Hstr : forall s, to_json (4 + n) h' (AStr s) = Some (JStr s)) by done.
  do 6 (split; [rewrite G4; member; cbn [mbind option_bind]; first [apply Hstr|apply Hnum]|]).
  split; [rewrite G4; member; rewrite Hp; exact J2|]. split; intros name; rewrite G2.
  - split.
    + intros [p Hp']. apply bind_Some in Hp' as (v & Hk & _).
      apply lookup_insert_Some in Hk as [[<- _]|[_ [<- _]%lookup_singleton_Some]]; [right|]; left.
    + rewrite !elem_of_cons, elem_of_nil. intros [->|[->|[]]]; [|rewrite lookup_insert_eq; eauto].
      rewrite lookup_insert_ne, lookup_singleton_eq by done. eauto.
  - intros p Hp'. apply bind_Some in Hp' as (v & Hk & Hv').
    apply lookup_insert_Some in Hk as [[_ <-]|[_ [_ <-]%lookup_singleton_Some]]; [rewrite D1 in Hv'|rewrite D0 in Hv'];
      injection Hv' as <-; eauto.
Qed.

(** A period of whole seconds that fits a duration is written exactly. *)
Lemma validity_exact secs :
  secs <> 0 -> Z.abs secs <= 9223372036 ->
  mul64 secs Second <> 0 /\ int64_of_float64 (Duration_Seconds (mul64 secs Second)) = secs.
Proof.
  intros H0 Hb. unfold mul64. rewrite wrap64_id by (unfold in_int64, Second; lia).
  split; [unfold Second; lia|]. apply Duration_Seconds_whole. lia.
Qed.

(** The periods of the built-in profiles, in some order. *)
Lemma built_in_periods {Cert} order (pc : Config Cert) h :
  (forall mm, order mm ≡ₚ map_to_list mm) -> originalConfig pc = parsedConfig -> intact h ->
  PossibleValidityPeriods order pc h ≡ₚ [7776000 * Second; 518400 * Second].
Proof.
  intros Ho Hc [Hi _]. unfold PossibleValidityPeriods. rewrite Hc.
  assert (Hm : forall l, is_Some (h_maps init_heap !! l) -> h_maps h !! l = h_maps init_heap !! l).
  { intros l [m Hl]. rewrite Hl. by eapply lookup_weaken. }
  assert (Hx : forall l k, is_Some (h_maps init_heap !! l) -> index h (AMap l) k = index init_heap (AMap l) k).
  { intros l k Hl. unfold index. by rewrite Hm. }
  change parsedConfig with (AMap 5). rewrite (Hx 5%nat) by (by eexists).
  change (index init_heap (AMap 5) "pebble") with (AMap 4). rewrite (Hx 4%nat) by (by eexists).
  change (index init_heap (AMap 4) "profiles") with (AMap 3). cbv beta iota. rewrite (Hm 3%nat) by (by eexists). rewrite Ho.
  change (map_to_list (default ∅ (h_maps init_heap !! 3%nat))) with [("shortlived", AMap 2); ("default", AMap 1)].
  cbn [omap list_omap snd]. rewrite !Hx by (by eexists).
  change (index init_heap (AMap 1) "validityPeriod") with (AFloat (float64_of_int 7776000)).
  change (index init_heap (AMap 2) "validityPeriod") with (AFloat (float64_of_int 518400)).
  apply Permutation_swap.
Qed.

(** The built-in maps are in use. *)
Lemma intact_next h : intact h -> (6 <= h_next h)%nat.
Proof.
  intros [Hi Hn]. destruct (h_maps init_heap !! 5%nat) as [m|] eqn:E; [|by vm_compute in E].
  pose proof (Hn 5%nat m (lookup_weaken _ _ _ _ E Hi)). lia.
Qed.

(** A heap in which the maps before the next one are kept. *)
Lemma intact_frame n ms h :
  intact (mkHeap n ms) -> h_next h = (6 + n)%nat -> (forall l, (l < n \/ 6 + n <= l)%nat -> h_maps h !! l = ms !! l) -> intact h.
Proof.
  intros [Hi Hn] Hh Hf. simpl in *. split.
  - apply map_subseteq_spec. intros l m Hl. pose proof (lookup_weaken _ _ _ _ Hl Hi) as Hm. rewrite Hf; [done|left; eauto].
  - intros l m Hl. rewrite Hh. destruct (Nat.lt_ge_cases l (6 + n)) as [|Hge]; [done|].
    rewrite Hf in Hl by lia. apply Hn in Hl. lia.
Qed.

Section written.
Context {Cert Key TLSCert : Type} `{X : !X509 Cert Key TLSCert}.
Variable json_Marshal json_MarshalIndent : json -> res string.
Variable json_Unmarshal : string -> res json.
Variable order : gmap string any -> list (string * any).
Variable MkdirAll : string -> option error.
Variable LookPath : string -> res string.
Variable run : Cmd -> gmap string string -> option error * gmap string string.
Variable WriteFile_err : string -> option error.
Variable SystemCertPool : res (list Cert).

Lemma load_ca_config pc dir cfg fs r pc' :
  load_ca SystemCertPool pc dir cfg fs = (r, pc') ->
  originalConfig pc' = originalConfig pc /\ (forall f, r = Ok f -> f = cfg).
Proof.
  unfold load_ca. destruct SystemCertPool; [|by intros [= <- <-]].
  destruct (fs !! _); [|by intros [= <- <-]]. destruct (AppendCertsFromPEM _ _) as [pool ok].
  destruct ok; intros [= <- <-]; simpl; split; try done. by intros f [= <-].
Qed.

(** A return before the configuration is written. *)
Ltac early Hp := by eexists _, _, _, _; split_and!; [reflexivity|..|by apply Hp|].

(** C18 The configuration that pebble is started with. For a configuration made
    by [NewConfig] nothing panics, and when [CreateCertsAndUpdateConfig] returns
    a file, that file holds the addresses and ports of the configuration and the
    paths of the certificate that was made, and both profiles have the validity
    period of [WithValidityPeriod]: exactly [secs], for up to 9223372036 seconds
    either way (the nanoseconds of more do not fit an int64). Only the maps of a
    copy are assigned to: the maps of the built-in configuration, which all
    configurations share, stay as they were, and [PossibleValidityPeriods] reports
    its periods, in the order in which the map is visited, whatever the option was. *)
Theorem config_written secs mgmt srv outputDir fs h :
  (forall m, order m ≡ₚ map_to_list m) ->
  (forall t data, to_json 6 init_heap parsedConfig = Some t -> json_Marshal t = Ok data -> json_Unmarshal data = Ok t) ->
  intact h -> secs <> 0 -> Z.abs secs <= 9223372036 ->
  let pc := NewConfig [WithValidityPeriod secs; WithAlternatePorts mgmt srv] in
  exists r pc' fs' h',
    CreateCertsAndUpdateConfig json_Marshal json_MarshalIndent json_Unmarshal order MkdirAll LookPath run WriteFile_err
      SystemCertPool pc outputDir fs h = Ret (r, pc', fs', h') /\
    intact h' /\ PossibleValidityPeriods order pc' h' ≡ₚ [7776000 * Second; 518400 * Second] /\
    forall cfgFile, r = Ok cfgFile ->
      exists m data profiles,
        fs' !! cfgFile = Some data /\ json_MarshalIndent (JObj [("pebble", JObj m)]) = Ok data /\
        map_get m "listenAddress" =
          Some (JStr (if srv =? 0 then "localhost:18000" else "localhost:" +:+ fmt_int srv)) /\
        map_get m "managementListenAddress" =
          Some (JStr (if mgmt =? 0 then "localhost:19000" else "localhost:" +:+ fmt_int mgmt)) /\
        map_get m "httpPort" = Some (JInt 5002) /\ map_get m "tlsPort" = Some (JInt 5001) /\
        map_get m "certificate" = Some (JStr "test/certs/localhost/cert.pem") /\
        map_get m "privateKey" = Some (JStr "test/certs/localhost/key.pem") /\
        map_get m "profiles" = Some (JObj profiles) /\
        (forall name, is_Some (map_get profiles name) <-> name ∈ ["default"; "shortlived"]) /\
        (forall name p, map_get profiles name = Some p ->
           exists d, p = JObj d /\ map_get d "validityPeriod" = Some (JInt secs)).
Proof.
  intros Ho Hcopy Hi H0 Hb pc.
  assert (Hv : validityPeriod (opts pc) = mul64 secs Second) by done.
  destruct (validity_exact secs H0 Hb) as [Hnz Hexact].
  assert (Hp : forall (pc' : Config Cert) h', originalConfig pc' = parsedConfig -> intact h' ->
     PossibleValidityPeriods order pc' h' ≡ₚ [7776000 * Second; 518400 * Second]).
  { intros pc' h' E Hi'. by apply built_in_periods. }
  unfold CreateCertsAndUpdateConfig.
  destruct (MkdirAll _); [early Hp|].
  destruct (LookPath _); [|early Hp].
  destruct (run _ _) as [[e|] fs1]; [early Hp|].
  unfold deepCopy, marshal at 1. change (originalConfig pc) with parsedConfig.
  destruct (to_json 6 init_heap parsedConfig) as [t|] eqn:Et; [|by vm_compute in Et].
  rewrite (to_json_extends 6 init_heap (h_next h) h _ t (intact_next h Hi) (proj1 Hi) Et).
  destruct (json_Marshal t) as [data|] eqn:EM; [|early Hp]. rewrite (Hcopy t data) by done.
  destruct h as [n ms].
  destruct (copy_updated order pc t n ms Ho Hnz Et) as (h1 & h2 & m & profiles & -> & Hu & Hn & Hf & Hj & H1 & H2 & H3 & H4 & H5 & H6 & H7 & H8 & H9).
  rewrite Hv, Hexact in H9.
  assert (Hi2 : intact h2) by (by eapply intact_frame).
  cbn [mbind go_bind]. rewrite Hu. cbn [mbind go_bind]. unfold marshal. rewrite Hj.
  destruct (json_MarshalIndent _) as [cfgData|] eqn:EI; [|early Hp].
  destruct (WriteFile_err _); [early Hp|].
  destruct (load_ca _ _ _ _ _) as [r pc'] eqn:EL. apply load_ca_config in EL as [EL1 EL2].
  eexists _, _, _, _. split; [reflexivity|]. split; [done|]. split; [by apply Hp|]. intros cfgFile Hr.
  rewrite (EL2 cfgFile Hr).
  exists m, cfgData, profiles.
  split; [apply lookup_insert_eq|].
  split; [exact EI|].
  split_and!; [rewrite H1|rewrite H2|exact H3|exact H4|exact H5|exact H6|exact H7|exact H8|exact H9].
  - unfold pc. simpl. by destruct (srv =? 0).
  - unfold pc. simpl. by destruct (mgmt =? 0).
Qed.

End written.

(** minica leaves a root certificate, and the printer prints the address. *)
Definition demo_run (c : Cmd) (fs : gmap string string) : option error * gmap string string :=
  (None, <[path_Join [c_Dir c; "pebble.minica.pem"] := pem_EncodeToMemory (mkBlock "CERTIFICATE" "CA0")]> fs).

Definition demo_print (c : json) : res string :=
  match c with
  | JObj [(_, JObj m)] => match map_get m "listenAddress" with Some (JStr a) => Ok a | _ => Err (errors_New "no address") end
  | _ => Err (errors_New "not a configuration")
  end.

Definition demo_parse (_ : string) : res json :=
  match to_json 6 init_heap parsedConfig with Some t => Ok t | None => Err (errors_New "cyclic") end.

Definition demo_create (secs : Z) : go (res string * Config string * gmap string string * heap) :=
  CreateCertsAndUpdateConfig demo_print demo_print demo_parse map_to_list (fun _ => None) (fun p => Ok p) demo_run
    (fun _ => None) (Ok ["CAsys"]) (NewConfig [WithValidityPeriod secs; WithAlternatePorts 0 14000]) "/tmp/p" ∅ init_heap.

(** One second more than fits becomes a negative period. *)
Lemma config_written_witness :
  (exists pc fs h m profiles d, demo_create 60 = Ret (Ok "/tmp/p/pebble-config.json", pc, fs, h) /\
     pebbleCA pc = Some ["CAsys"; "CA0"] /\ PossibleValidityPeriods map_to_list pc h ≡ₚ [7776000 * Second; 518400 * Second] /\
     fs !! "/tmp/p/pebble-config.json" = Some "localhost:14000" /\
     map_get m "profiles" = Some (JObj profiles) /\ map_get profiles "default" = Some (JObj d) /\
     map_get d "validityPeriod" = Some (JInt 60)) /\
  int64_of_float64 (Duration_Seconds (validityPeriod (WithValidityPeriod 9223372037 (mkConfigOption 0 0 0)))) = -9223372036.
Proof.
  split; [|by vm_compute].
  destruct (config_written demo_print demo_print demo_parse map_to_list (fun _ => None) (fun p => Ok p) demo_run
              (fun _ => None) (Ok ["CAsys"]) 60 0 14000 "/tmp/p" ∅ init_heap)
    as (r & pc & fs & h & Hc & _ & Hpv & Hf); [done|..].
  { intros t data Ht _. unfold demo_parse. by rewrite Ht. }
  { split; [done|]. change (map_Forall (fun l _ => (l < 6)%nat) (h_maps init_heap)).
    apply (bool_decide_unpack _). by vm_compute. }
  { done. }
  { lia. }
  assert (Hr : demo_create 60 = Ret (r, pc, fs, h)) by exact Hc.
  assert (Hok : r = Ok "/tmp/p/pebble-config.json" /\ pebbleCA pc = Some ["CAsys"; "CA0"] /\
                fs !! "/tmp/p/pebble-config.json" = Some "localhost:14000").
  { assert (Hsum : match demo_create 60 with
                   | Ret (r, pc, fs, _) => Some (r, pebbleCA pc, fs !! "/tmp/p/pebble-config.json")
                   | Panic _ => None
                   end = Some (Ok "/tmp/p/pebble-config.json", Some ["CAsys"; "CA0"], Some "localhost:14000")) by (by vm_compute).
    rewrite Hr in Hsum. injection Hsum as E1 E2 E3. exact (conj E1 (conj E2 E3)). }
  destruct Hok as (-> & Hca & Hd).
  destruct (Hf _ eq_refl) as (m & data & profiles & _ & _ & _ & _ & _ & _ & _ & _ & Hm & Hn & Hp).
  destruct (proj2 (Hn "default")) as [p Hdef]; [by left|]. destruct (Hp _ _ Hdef) as (d & -> & Hval).
  exists pc, fs, h, m, profiles, d.
  exact (conj Hr (conj Hca (conj Hpv (conj Hd (conj Hm (conj Hdef Hval)))))).
Defined.
