(* ===== verification/PebbleMock.v ===== *)
(** * pebble-mock: the stand-in for pebble and what is read of its output

Models [webauth/acme/pebble/testdata/pebble-mock/main.go], with the parsing of
its command line by the flag package, and what the regular expressions and the
waiting loops of pebble.go find in the output of a server.  The line filter of
cloudeng.io/os/executil, which turns output into lines, is a parameter. *)

From S2P Require Import Prelude GoStrings GoErrors GoHTTP Pebble.

Local Open Scope Z_scope.

(** ** flag.Parse for one string flag

The value of the flag and the other arguments; the help flags; or an error. *)
Inductive flag_result := Parsed (value : string) (rest : list string) | Help | BadFlags (msg : string).

(** The name of a flag argument, without its one or two dashes. *)
Definition flag_name (s : string) : string := str_drop (if HasPrefix s "--" then 2 else 1) s.

Fixpoint flag_Parse (name value : string) (args : list string) : flag_result :=
  match args with
  | [] => Parsed value []
  | s :: args' =>
      if Nat.ltb (slen s) 2 || negb (HasPrefix s "-") then Parsed value args
      else if bool_decide (s = "--") then Parsed value args'
      else
        let n := flag_name s in
        if bool_decide (n = "") || HasPrefix n "-" || HasPrefix n "=" then BadFlags ("bad flag syntax: " +:+ s)
        else
          let '(n, v) := match Cut n "=" with Some (n, v) => (n, Some v) | None => (n, None) end in
          if negb (bool_decide (n = name)) then
            if bool_decide (n = "help") || bool_decide (n = "h") then Help
            else BadFlags ("flag provided but not defined: -" +:+ n)
          else
            match v, args' with
            | Some v, _ => flag_Parse name v args'
            | None, v :: args'' => flag_Parse name v args''
            | None, [] => BadFlags ("flag needs an argument: -" +:+ n)
            end
  end.

(** ** The program *)

(** What the final [select] receives. *)
Inductive wake := Signalled | After10Minutes.

(** The signals that wake it. *)
Definition mock_Notify : list Z := [SIGINT; SIGTERM; os_Interrupt].

(** [ReadFile] is the error of reading a file and [text] its message; the result
    is what is printed, apart from the usage, and the exit status. *)
Definition mock_main (ReadFile : string -> option error) (text : error -> string) (args : list string) (w : wake)
  : string * Z :=
  match flag_Parse "config" "" args with
  | Help => ("", 0)
  | BadFlags msg => (msg +:+ LF, 2)
  | Parsed config _ =>
      match ReadFile config with
      | Some err => ("Failed to read config file: " +:+ text err +:+ LF, 1)
      | None =>
          let out := "ACME directory available at: https://0.0.0.0:14000/dir" +:+ LF
                 +:+ "Root CA certificate available at: https://0.0.0.0:15000/roots/0" +:+ LF
                 +:+ "Issued certificate serial 0123456789abcdef for order" +:+ LF in
          match w with
          | Signalled => (out +:+ "Received signal, exiting" +:+ LF, 0)
          | After10Minutes => (out +:+ "Timeout reached, exiting" +:+ LF, 1)
          end
      end
  end.

(** ** What the expressions find *)

(** An occurrence of the expression in [s], with the group [g]. *)
Definition re_match (re : group_re) (s x g y : string) : Prop :=
  s = x +:+ re_prefix re +:+ g +:+ re_suffix re +:+ y /\ g <> "" /\
  Forall (fun c => re_class re c = true) (String.list_ascii_of_string g).

(** The text after the group starts outside of its class. *)
Definition re_delimited (re : group_re) : Prop :=
  match re_suffix re with String c _ => re_class re c = false | "" => False end.

Lemma issuedRE_delimited : re_delimited issuedRE.
Proof. done. Qed.

Lemma orderAuthorizedRE_delimited : re_delimited orderAuthorizedRE.
Proof. done. Qed.

Lemma span_spec f s : let '(a, b) := span f s in
  s = a +:+ b /\ Forall (fun c => f c = true) (String.list_ascii_of_string a).
Proof.
  induction s as [|c s IH]; simpl; [by split; [|constructor]|].
  destruct (f c) eqn:E; [|by split; [|constructor]].
  destruct (span f s) as [a b]. destruct IH as [-> IH]. split; [done|by constructor].
Qed.

Lemma span_app f g c b :
  Forall (fun c => f c = true) (String.list_ascii_of_string g) -> f c = false ->
  span f (g +:+ String c b) = (g, String c b).
Proof.
  intros Hg Hc. induction g as [|d g IH]; simpl in *; [by rewrite Hc|].
  inversion_clear Hg as [|? ? H1 H2]. rewrite H1.
  change (String.append g (String c b)) with (g +:+ String c b). by rewrite IH.
Qed.

Lemma match_here_sound re s g : match_here re s = Some g -> exists y, re_match re s "" g y.
Proof.
  unfold match_here, CutPrefix. destruct (HasPrefix s (re_prefix re)) eqn:Hp; [|done].
  pose proof (span_spec (re_class re) (str_drop (slen (re_prefix re)) s)) as Hs.
  destruct (span _ _) as [a b]. destruct Hs as [Hs Hc].
  case_bool_decide as Ha; [done|]. simpl. destruct (HasPrefix b (re_suffix re)) eqn:Hb; [|done].
  intros [= <-]. apply HasPrefix_drop in Hp. apply HasPrefix_spec in Hb as [y ->].
  exists y. split_and!; [|done|done]. rewrite Hs in Hp. done.
Qed.

Lemma match_here_complete re s g y : re_delimited re -> re_match re s "" g y -> match_here re s = Some g.
Proof.
  intros Hd (-> & Hne & Hg). unfold match_here, CutPrefix.
  change (("" : string) +:+ ?x) with x. rewrite HasPrefix_app, str_drop_app.
  unfold re_delimited in Hd. destruct (re_suffix re) as [|c suf] eqn:Es; [done|].
  change (String c suf +:+ y) with (String c (suf +:+ y)). rewrite span_app by done.
  rewrite bool_decide_false by done. change (String c (suf +:+ y)) with (String c suf +:+ y).
  by rewrite HasPrefix_app.
Qed.

(** [FindSubmatch] gives the group of an occurrence, and of none when there is
    none. *)
Lemma FindSubmatch_sound re s g : FindSubmatch re s = Some g -> exists x y, re_match re s x g y.
Proof.
  induction s as [|c s IH]; simpl; destruct (match_here re _) as [g'|] eqn:E; try done.
  - intros [= <-]. apply match_here_sound in E as [y ?]. by exists "", y.
  - intros [= <-]. apply match_here_sound in E as [y ?]. by exists "", y.
  - intros H. destruct (IH H) as (x & y & -> & H2). by exists (String c x), y.
Qed.

Lemma FindSubmatch_complete re s x g y :
  re_delimited re -> re_match re s x g y -> exists g', FindSubmatch re s = Some g'.
Proof.
  intros Hd. revert x. induction s as [|c s IH]; intros x Hm.
  - destruct x; [|by destruct Hm]. exists g. simpl. by erewrite match_here_complete.
  - simpl. destruct (match_here re (String c s)) as [g'|] eqn:E; [by exists g'|].
    destruct x as [|c' x]; [by erewrite match_here_complete in E|].
    destruct Hm as (Hs & H2). injection Hs as -> ->. eapply (IH x). by split.
Qed.

Lemma FindSubmatch_None re s : re_delimited re -> FindSubmatch re s = None <-> forall x g y, ~ re_match re s x g y.
Proof.
  intros Hd. split.
  - intros Hn x g y Hm. destruct (FindSubmatch_complete _ _ _ _ _ Hd Hm). congruence.
  - intros H. destruct (FindSubmatch re s) as [g|] eqn:E; [|done].
    apply FindSubmatch_sound in E as (x & y & Hm). by destruct (H x g y).
Qed.

(** ** What the loops return *)

(** The first line with an occurrence ends the wait; the lines before it are
    dropped. *)
Lemma waitForRe_lines re pre l g rest :
  Forall (fun l => FindSubmatch re l = None) pre -> FindSubmatch re l = Some g ->
  waitForRe re (map Line pre ++ Line l :: rest) = Some (Ok g, rest).
Proof. intros Hp Hl. induction Hp as [|l' pre H _ IH]; simpl; [by rewrite Hl|by rewrite H]. Qed.

Lemma waitForRe_done re pre e rest :
  Forall (fun l => FindSubmatch re l = None) pre -> waitForRe re (map Line pre ++ Done e :: rest) = Some (Err e, rest).
Proof. intros Hp. induction Hp as [|l' pre H _ IH]; simpl; [done|by rewrite H]. Qed.

(** How many interfaces a line announces. *)
Definition announced (line : string) : nat := Nat.b2n (acmeReadyRE line) + Nat.b2n (mgmtReadyRE line).

Lemma ready_loop_line l rest seen :
  ready_loop (Line l :: rest) seen =
    if Nat.eqb (seen + announced l) 2 then Some (None, rest) else ready_loop rest (seen + announced l).
Proof.
  unfold announced. cbn [ready_loop]. rewrite (Nat.add_comm seen). by destruct (acmeReadyRE l), (mgmtReadyRE l).
Qed.

(** Fewer than two announcements are waited through. *)
Lemma ready_loop_wait pre rest seen :
  (seen + sum_list (map announced pre) < 2)%nat ->
  ready_loop (map Line pre ++ rest) seen = ready_loop rest (seen + sum_list (map announced pre)).
Proof.
  revert seen. induction pre as [|l pre IH]; intros seen.
  - intros _. by rewrite Nat.add_0_r.
  - change (sum_list (map announced (l :: pre))) with (announced l + sum_list (map announced pre))%nat.
    intros H. cbn [map app]. rewrite ready_loop_line. destruct (Nat.eqb_spec (seen + announced l) 2); [lia|].
    rewrite IH by lia. f_equal. lia.
Qed.

(** The line that completes two announcements ends the wait, whatever else the
    lines before it say; otherwise the context does. *)
Lemma WaitForReady_lines pre l rest :
  (sum_list (map announced pre) < 2)%nat -> (sum_list (map announced pre) + announced l = 2)%nat ->
  WaitForReady (map Line pre ++ Line l :: rest) = Some (None, rest).
Proof.
  intros H1 H2. unfold WaitForReady. rewrite ready_loop_wait by done. rewrite ready_loop_line. simpl Nat.add. by rewrite H2.
Qed.

Lemma WaitForReady_done pre e rest :
  (sum_list (map announced pre) < 2)%nat -> WaitForReady (map Line pre ++ Done e :: rest) = Some (Some e, rest).
Proof. intros H1. unfold WaitForReady. by rewrite ready_loop_wait. Qed.

(** ** A session with the mock *)

(** A flag argument followed by its value. *)
Lemma flag_Parse_value name v cfg :
  Nat.ltb (slen name) 1 = false -> HasPrefix name "-" = false -> HasPrefix name "=" = false -> Cut name "=" = None ->
  flag_Parse name v ["-" +:+ name; cfg] = Parsed cfg [].
Proof.
  intros H0 H1 H2 H3. destruct name as [|c name]; [done|].
  assert (Hc : c <> "-"%char) by (intros ->; done).
  assert (H4 : HasPrefix ("-" +:+ String c name) "--" = false).
  { apply not_true_iff_false. intros [t Ht]%HasPrefix_spec. injection Ht as Ht _. by destruct Hc. }
  assert (H5 : ("-" +:+ String c name) <> "--") by (intros [= Ht _]; by destruct Hc).
  cbn [flag_Parse]. unfold flag_name. rewrite H4.
  change (str_drop 1 ("-" +:+ String c name)) with (String c name). change (slen ("-" +:+ String c name)) with (S (S (slen name))).
  change (HasPrefix ("-" +:+ String c name) "-") with true. cbn [Nat.ltb Nat.leb negb orb].
  rewrite (bool_decide_false _ H5), H1, H2, H3. rewrite (bool_decide_false (String c name = "")) by done. cbn [orb].
  by rewrite bool_decide_true.
Qed.

Lemma Contains_cons c s sub : HasPrefix (String c s) sub = false -> Contains (String c s) sub = Contains s sub.
Proof. unfold Contains. cbn [Cut]. intros ->. by destruct (Cut s sub) as [[??]|]. Qed.

(** A message that announces nothing. *)
Lemma failed_not_ready msg :
  Contains msg "available at:" = false -> announced ("Failed to read config file: " +:+ msg) = 0%nat.
Proof.
  intros Hc. unfold announced, acmeReadyRE, mgmtReadyRE.
  assert (H : forall sub, Contains msg (sub +:+ "available at:") = false).
  { intros sub. apply not_true_iff_false. intros (x & y & ->)%Contains_spec. apply not_true_iff_false in Hc.
    apply Hc, Contains_spec. exists (x +:+ sub), y. by rewrite !app_str_assoc. }
  cbn [String.append]. rewrite !Contains_cons by done.
  change (Contains _ "ACME directory available at:") with (Contains msg ("ACME directory " +:+ "available at:")).
  change (Contains _ "Root CA certificate available at:") with (Contains msg ("Root CA certificate " +:+ "available at:")).
  by rewrite !H.
Qed.

Section session.
(** The line filter: the lines of an output, without their ends. *)
Variable lines : string -> list string.
Hypothesis lines_nil : lines "" = [].
Hypothesis lines_cons : forall l s, without "010"%char l -> lines (l +:+ LF +:+ s) = l :: lines s.

Variable ReadFile : string -> option error.
Variable text : error -> string.

Lemma lines_one l : without "010"%char l -> lines (l +:+ LF) = [l].
Proof. intros Hl. rewrite <- (app_empty_r LF), lines_cons by done. by rewrite lines_nil. Qed.

(** What the mock prints, as lines, and how it ends. *)
Lemma mock_main_lines cfg w :
  (forall err, ReadFile cfg = Some err -> without "010"%char (text err)) ->
  let '(out, code) := mock_main ReadFile text ["-config"; cfg] w in
  match ReadFile cfg with
  | Some err => lines out = ["Failed to read config file: " +:+ text err] /\ code = 1
  | None =>
      lines out = ["ACME directory available at: https://0.0.0.0:14000/dir";
                   "Root CA certificate available at: https://0.0.0.0:15000/roots/0";
                   "Issued certificate serial 0123456789abcdef for order";
                   match w with Signalled => "Received signal, exiting" | After10Minutes => "Timeout reached, exiting" end] /\
      code = match w with Signalled => 0 | After10Minutes => 1 end
  end.
Proof.
  intros Ht. unfold mock_main. rewrite (flag_Parse_value "config") by done.
  destruct (ReadFile cfg) as [err|].
  - split; [|done]. rewrite <- app_str_assoc. rewrite lines_one; [done|].
    apply without_app. split; [by repeat constructor|by apply Ht].
  - destruct w; split; try done; rewrite !app_str_assoc, !lines_cons by (by repeat constructor);
      by rewrite lines_one by (by repeat constructor).
Qed.

(** A server that [Start] has started from the mock. When the configuration can
    be read, [WaitForReady] returns nil and the serial number that is then
    waited for is the one printed; the first signal that [EnsureStopped] sends
    is one that ends the mock with status 0. When it cannot be read the mock
    ends with status 1, and [WaitForReady] waits until the context ends, as it
    does not notice that the process has. *)
Theorem mock_session LookPath environ start p dir cfg p' w ctxErr :
  Pebble.Start LookPath environ start p dir cfg = (None, p') ->
  (forall err, ReadFile cfg = Some err ->
     without "010"%char (text err) /\ Contains (text err) "available at:" = false) ->
  exists cmd, t_cmd p' = Some cmd /\
    let '(out, code) := mock_main ReadFile text (c_Args cmd) w in
    let events := map Line (lines out) ++ [Done ctxErr] in
    (exists first later, forall f waitFor, EnsureStopped f p' waitFor = f waitFor (Some cmd) (first :: later) /\ first ∈ mock_Notify) /\
    match ReadFile cfg with
    | Some _ => code = 1 /\ WaitForReady events = Some (Some ctxErr, [])
    | None =>
        code = match w with Signalled => 0 | After10Minutes => 1 end /\
        exists later, WaitForReady events = Some (None, later) /\
          exists rest, WaitForIssuedCertificateSerial later = Some (Ok "0123456789abcdef", rest)
    end.
Proof.
  intros Hs Ht. unfold Pebble.Start in Hs. destruct (LookPath _) as [path|]; [|done].
  destruct (start _) as [pid|] eqn:Est; [|done]. injection Hs as <-. eexists. split; [reflexivity|]. cbn [c_Args].
  pose proof (mock_main_lines cfg w (fun err H => proj1 (Ht err H))) as Hm.
  destruct (mock_main ReadFile text ["-config"; cfg] w) as [out code]. cbv zeta. split.
  { exists SIGINT, [SIGINT; SIGKILL]. intros f waitFor. split; [done|]. by left. }
  destruct (ReadFile cfg) as [err|] eqn:Er; destruct Hm as [-> ->].
  - split; [done|]. destruct (Ht err eq_refl) as [_ Hc].
    apply (WaitForReady_done [_]). change (announced ("Failed to read config file: " +:+ text err) + 0 < 2)%nat.
    rewrite failed_not_ready by done. lia.
  - split; [done|]. eexists. split.
    + apply (WaitForReady_lines ["ACME directory available at: https://0.0.0.0:14000/dir"]); vm_compute; [constructor|done].
    + eexists. by apply (waitForRe_lines issuedRE []).
Qed.

End session.

(** A line filter that drops an unfinished last line. *)
Definition demo_lines (s : string) : list string := removelast (split_byte "010"%char s).

Lemma mock_session_witness :
  exists cmd rest, (Pebble.Start (fun b => Ok b) [] (fun _ => Ok 7) (New "pebble-mock" [WithNoSleep]) "/tmp" "c.json").2 =
      mkT "pebble-mock" (Some cmd) (Some 7) (mkServerOptions true) /\
    match WaitForReady (map Line (demo_lines (mock_main (fun _ => None) (fun _ => "") (c_Args cmd) Signalled).1)
            ++ [Done (Sentinel context_Canceled)]) with
    | Some (None, later) => WaitForIssuedCertificateSerial later = Some (Ok "0123456789abcdef", rest)
    | _ => False
    end.
Proof.
  destruct (mock_session demo_lines eq_refl) with (ReadFile := fun _ : string => @None error) (text := fun _ : error => "")
    (LookPath := fun b : string => Ok b : res string) (environ := @nil string) (start := fun _ : Cmd => Ok 7 : res Z)
    (p := New "pebble-mock" [WithNoSleep]) (dir := "/tmp") (cfg := "c.json")
    (p' := (Pebble.Start (fun b => Ok b) [] (fun _ => Ok 7) (New "pebble-mock" [WithNoSleep]) "/tmp" "c.json").2)
    (w := Signalled) (ctxErr := Sentinel context_Canceled) as (cmd & Hc & Hm).
  - intros l s Hl. unfold demo_lines. unfold LF. change (String "010"%char "" +:+ s) with (String "010"%char s).
    rewrite split_byte_cons by done. pose proof (split_byte_ne "010"%char s). by destruct (split_byte _ s).
  - done.
  - done.
  - destruct (mock_main _ _ _ _) as [out code] eqn:Em. cbv zeta in Hm. destruct Hm as (_ & _ & later & Hr & rest & Hs).
    exists cmd, rest. split; [by injection Hc as <-|]. rewrite Em. cbn [fst]. by rewrite Hr.
Defined.
