(* ===== verification/DevTest.v ===== *)
(** * devtest: certificates and scripts for tests

Models [devtest/tls.go], [ts.go] and [js.go].  Files are a map; the random
source, the certificate and key encoders, the network interfaces, mkcert and
the TypeScript compiler are parameters. *)

From S2P Require Import Prelude GoStrings GoTime GoErrors GoHTTP GoEncoding Certs GoX509.

Abbreviation files := (gmap string string).

(** ** Writing files

[open] truncates the file; [write] gives the bytes that reach it and the error
of the call. *)
Record os_calls := mkOS {
  os_open : string -> option error;
  os_write : string -> string -> string * option error;
  os_close : string -> option error
}.

(** System calls that succeed. *)
Definition os_ok : os_calls := mkOS (fun _ => None) (fun _ data => (data, None)) (fun _ => None).

(** [os.WriteFile] *)
Definition WriteFile (os : os_calls) (file data : string) (fs : files) : option error * files :=
  match os_open os file with
  | Some e => (Some e, fs)
  | None =>
      let '(written, err) := os_write os file data in
      (match err with Some e => Some e | None => os_close os file end, <[file := written]> fs)
  end.

(** ** mkcert *)

Definition NewSelfSignedCertUsingMkcert (mkcert : list string -> option error) (certFile keyFile : string)
    (hosts : list string) : option error :=
  if Nat.eqb (slen certFile) 0 || Nat.eqb (slen keyFile) 0
  then Some (errors_New "both the crt and key files must be specified")
  else if Nat.eqb (length hosts) 0 then Some (errors_New "at least one host must be specified")
  else match mkcert (["--cert-file"; certFile; "--key-file"; keyFile] ++ hosts) with
       | Some e => Some (Errorf "failed to create certificates: %v" [] [])
       | None => None
       end.

Section tls.
Context {Cert Key TLSCert : Type} `{X : !X509 Cert Key TLSCert}.

(** ** Self-signed certificates *)

(** A private key by its Go type. *)
Inductive PrivateKey := RSAPrivate (k : Key) | ECDSAPrivate (k : Key) | Ed25519Private (k : Key) | OtherPrivate (k : Key).

Record selfSignedCertOptions := mkSSC {
  ssc_ips : list string; ssc_dns : list string; ssc_key : option PrivateKey; ssc_orgs : list string
}.

Definition CertDNSHosts (hosts : list string) (ssc : selfSignedCertOptions) : selfSignedCertOptions :=
  mkSSC (ssc_ips ssc) hosts (ssc_key ssc) (ssc_orgs ssc).
Definition CertIPAddresses (ips : list string) (ssc : selfSignedCertOptions) : selfSignedCertOptions :=
  mkSSC ips (ssc_dns ssc) (ssc_key ssc) (ssc_orgs ssc).
Definition CertPrivateKey (key : option PrivateKey) (ssc : selfSignedCertOptions) : selfSignedCertOptions :=
  mkSSC (ssc_ips ssc) (ssc_dns ssc) key (ssc_orgs ssc).
Definition CertOrganizations (orgs : list string) (ssc : selfSignedCertOptions) : selfSignedCertOptions :=
  mkSSC (ssc_ips ssc) (ssc_dns ssc) (ssc_key ssc) orgs.

(** The addresses of an interface: an address with its mask prints in CIDR
    notation, a plain address by itself. *)
Inductive Addr := IPNet (ip : string) (bits : nat) | IPAddr (ip : string) | OtherAddr (s : string).

Definition Addr_String (a : Addr) : string :=
  match a with IPNet ip bits => ip +:+ "/" +:+ Itoa bits | IPAddr ip => ip | OtherAddr s => s end.

(** [ifaces] are the interfaces with the outcome of [Addrs]. *)
Definition allIPS (ifaces : list (res (list Addr))) : list string :=
  concat (map (fun addrs => match addrs with
    | Err _ => []
    | Ok addrs => omap (fun a => match a with OtherAddr _ => None | _ => Some (Addr_String a) end) addrs
    end) ifaces).

Definition CertAllIPAddresses (ifaces : list (res (list Addr))) (ssc : selfSignedCertOptions) : selfSignedCertOptions :=
  CertIPAddresses (allIPS ifaces) ssc.

(** [generated] is what [rsa.GenerateKey] returns; its error is dropped. *)
Definition setDefaults (generated : res Key) (o : selfSignedCertOptions) : selfSignedCertOptions :=
  match ssc_key o, generated with
  | None, Err _ => o
  | _, _ =>
      mkSSC (match ssc_ips o with [] => ["127.0.0.1"] | ips => ips end)
            (match ssc_dns o with [] => ["localhost"] | dns => dns end)
            (match ssc_key o, generated with None, Ok k => Some (RSAPrivate k) | key, _ => key end)
            (match ssc_orgs o with [] => ["cloudeng llc"] | orgs => orgs end)
  end.

Context {Pub IP : Type}.
Variable pub_of : Key -> Pub.

Definition publicKey (priv : option PrivateKey) : option Pub :=
  match priv with
  | Some (RSAPrivate k) | Some (ECDSAPrivate k) | Some (Ed25519Private k) => Some (pub_of k)
  | _ => None
  end.

(** Bits of [x509.KeyUsage]. *)
Definition KeyUsageDigitalSignature : Z := 1.
Definition KeyUsageKeyEncipherment : Z := 4.
Definition KeyUsageCertSign : Z := 32.

Record Template := mkTemplate {
  tm_SerialNumber : Z; tm_Organization : list string; tm_NotBefore : Z; tm_NotAfter : Z; tm_KeyUsage : Z;
  tm_IsCA : bool; tm_DNSNames : list string; tm_IPAddresses : list IP
}.

Variable ParseIP : string -> option IP.
(** [x509.CreateCertificate] of a template signed by itself, and
    [x509.MarshalPKCS8PrivateKey]. *)
Variable CreateCertificate : Template -> option Pub -> option PrivateKey -> res string.
Variable MarshalPKCS8PrivateKey : option PrivateKey -> res string.
Variable quote : string -> string.

Definition template_of (o : selfSignedCertOptions) (now serial : Z) (ips : list IP) : Template :=
  let keyUsage := KeyUsageDigitalSignature in
  let keyUsage := match ssc_key o with Some (RSAPrivate _) => Z.lor keyUsage KeyUsageKeyEncipherment | _ => keyUsage end in
  mkTemplate serial (ssc_orgs o) now (now + Hour * 24 * 5)%Z (Z.lor keyUsage KeyUsageCertSign) true (ssc_dns o) ips.

Fixpoint parse_ips (ips : list string) : res (list IP) :=
  match ips with
  | [] => Ok []
  | ip :: ips' =>
      match ParseIP ip with
      | None => Err (Errorf "failed to parse IP address %q" [quote ip] [])
      | Some a => match parse_ips ips' with Err e => Err e | Ok l => Ok (a :: l) end
      end
  end.

(** The PEM block that is written to [file] once it is open. *)
Definition encode_to (os : os_calls) (file : string) (block : Block) (fs : files) : option error * files :=
  let '(written, err) := os_write os file (pem_EncodeToMemory block) in
  let fs := <[file := written]> fs in
  match err with
  | Some e => (Some (Errorf "failed to write data to %v: %v" [file] []), fs)
  | None => match os_close os file with
            | Some e => (Some (Errorf "error closing %v: %v" [file] []), fs)
            | None => (None, fs)
            end
  end.

(** [now] is the time, [serial] the random serial number. *)
Definition NewSelfSignedCert (os : os_calls) (generated : res Key) (now : Z) (serial : res Z)
    (certFile keyFile : string) (options : list (selfSignedCertOptions -> selfSignedCertOptions)) (fs : files)
  : option error * files :=
  let o := setDefaults generated (fold_left (fun o fn => fn o) options (mkSSC [] [] None [])) in
  match serial with
  | Err e => (Some (Errorf "failed to generate serial number: %v" [] []), fs)
  | Ok serialNumber =>
  match parse_ips (ssc_ips o) with
  | Err e => (Some e, fs)
  | Ok ips =>
  match CreateCertificate (template_of o now serialNumber ips) (publicKey (ssc_key o)) (ssc_key o) with
  | Err e => (Some (Errorf "failed to create certificate: %v" [] []), fs)
  | Ok derBytes =>
  match os_open os certFile with
  | Some e => (Some (Errorf "failed to open %v for writing: %v" [certFile] []), fs)
  | None =>
  match encode_to os certFile (mkBlock "CERTIFICATE" derBytes) (<[certFile := ""]> fs) with
  | (Some e, fs) => (Some e, fs)
  | (None, fs) =>
  match os_open os keyFile with
  | Some e => (Some (Errorf "failed to open %v for writing: %v" [keyFile] []), fs)
  | None =>
      let fs := <[keyFile := ""]> fs in
      match MarshalPKCS8PrivateKey (ssc_key o) with
      | Err e => (Some (Errorf "unable to marshal private key: %v" [] []), fs)
      | Ok privBytes => encode_to os keyFile (mkBlock "PRIVATE KEY" privBytes) fs
      end
  end end end end end end.

(** ** Certificate pools *)

Variable SystemCertPool : res (list Cert).
(** [os.ReadFile] *)
Variable ReadFile : string -> res string.

Fixpoint pool_loop (pemFiles : list string) (rootCAs : list Cert) : res (list Cert) :=
  match pemFiles with
  | [] => Ok rootCAs
  | pemFile :: pemFiles' =>
      if Nat.eqb (slen pemFile) 0 then pool_loop pemFiles' rootCAs
      else match ReadFile pemFile with
           | Err e => Err (Errorf "failed to append %q to RootCAs: %v" [quote pemFile] [])
           | Ok certs =>
               let '(rootCAs, ok) := AppendCertsFromPEM rootCAs certs in
               if negb ok then Err (errors_New "no certs appended") else pool_loop pemFiles' rootCAs
           end
  end.

Definition certPoolForTesting (pool : option (list Cert)) (pemFiles : list string) : res (list Cert) :=
  if Nat.eqb (length pemFiles) 0 then match pool with None => SystemCertPool | Some pool => Ok pool end
  else pool_loop pemFiles (default [] pool).

Definition CertPoolForTesting (pemFiles : list string) : res (list Cert) := certPoolForTesting None pemFiles.

Definition CertPoolWithSystemRootsForTesting (pemFiles : list string) : res (list Cert) :=
  match SystemCertPool with
  | Err e => Err (Errorf "failed to load system cert pool: %w" [] [e])
  | Ok sysPool => certPoolForTesting (Some sysPool) pemFiles
  end.

(** ** Certificate chains *)

(** [download] reads a URL. *)
Fixpoint DownloadCertChain (download : string -> res string) (urls : list string) (certs : list Cert) : res (list Cert) :=
  match urls with
  | [] => Ok certs
  | url :: urls' =>
      match download url with
      | Err e => Err (Errorf "failed to download cert from %q: %w" [quote url] [e])
      | Ok data =>
          match pem_Decode data with
          | None => Err (Errorf "failed to decode PEM from %q: no block found" [quote url] [])
          | Some (block, _) =>
              match ParseCertificate (b_Bytes block) with
              | Err e => Err (Errorf "failed to parse certificate from %q: %w" [quote url] [e])
              | Ok cert => DownloadCertChain download urls' (certs ++ [cert])
              end
          end
      end
  end.

(** [cert.Raw]; [None] is a nil certificate. *)
Variable Raw : Cert -> string.

Definition chain_pem (certs : list (option Cert)) : string :=
  fold_left (fun pemData cert => match cert with
    | None => pemData
    | Some cert => pemData +:+ pem_EncodeToMemory (mkBlock "CERTIFICATE" (Raw cert))
    end) certs "".

Definition WriteCertChainToPEMFile (os : os_calls) (certs : list (option Cert)) (pemFile : string) (fs : files)
  : option error * files := WriteFile os pemFile (chain_pem certs) fs.

End tls.

Arguments PrivateKey : clear implicits.
Arguments selfSignedCertOptions : clear implicits.
Arguments Template : clear implicits.

(** ** ts.go *)

Record typescriptOptions := mkTSOptions { ts_compiler : string; ts_target : string }.

Definition WithTypescriptCompiler (compiler : string) (o : typescriptOptions) : typescriptOptions :=
  mkTSOptions compiler (ts_target o).
Definition WithTypescriptTarget (target : string) (o : typescriptOptions) : typescriptOptions :=
  mkTSOptions (ts_compiler o) target.

(** [ts_dir] is [None] until [SetDirAndFiles]; [ts_last] is [None] for the zero
    time, which is before every file's. *)
Record TypescriptSources := mkTS {
  ts_options : typescriptOptions; ts_dir : option string; ts_files : list string; ts_last : option Z
}.

Definition NewTypescriptSources (opts : list (typescriptOptions -> typescriptOptions)) : TypescriptSources :=
  let o := fold_left (fun o fn => fn o) opts (mkTSOptions "" "") in
  let o := if bool_decide (ts_target o = "") then mkTSOptions (ts_compiler o) "es2015" else o in
  let o := if bool_decide (ts_compiler o = "") then mkTSOptions "tsc" (ts_target o) else o in
  mkTS o None [] None.

Definition SetDirAndFiles (dir : string) (files : list string) (ts : TypescriptSources) : TypescriptSources :=
  mkTS (ts_options ts) (Some dir) files (ts_last ts).

Definition After (t : Z) (last : option Z) : bool := match last with None => true | Some l => (l <? t)%Z end.

Section compile.
(** The modification time of a file of the directory. *)
Variable Stat : string -> string -> res Z.
Variable LookPath : string -> res string.
(** [run path dir args] is the error of the compiler. *)
Variable run : string -> string -> list string -> option error.
Variable quote : string -> string.

Fixpoint modified_loop (dir : string) (last : option Z) (files : list string) (modified : list string)
  : res (list string) :=
  match files with
  | [] => Ok modified
  | candidate :: files' =>
      match Stat dir candidate with
      | Err e => Err e
      | Ok t => modified_loop dir last files' (if After t last then modified ++ [candidate] else modified)
      end
  end.

(** [now] is the time when the compiler has finished. The files it compiled are
    part of the result. *)
Definition Compile (now : Z) (ts : TypescriptSources) : option error * TypescriptSources * list string :=
  match ts_dir ts with
  | None => (Some (errors_New "no fs set (call SetDirAndFiles first)"), ts, [])
  | Some dir =>
      if Nat.eqb (length (ts_files ts)) 0 then (Some (errors_New "no TypeScript files configured"), ts, [])
      else match modified_loop dir (ts_last ts) (ts_files ts) [] with
      | Err e => (Some e, ts, [])
      | Ok [] => (None, ts, [])
      | Ok modified =>
          match LookPath (ts_compiler (ts_options ts)) with
          | Err e => (Some (Errorf "failed to find typescript compiler %q in PATH: %w"
                              [quote (ts_compiler (ts_options ts))] [e]), ts, [])
          | Ok compilerPath =>
              match run compilerPath dir (["--target"; ts_target (ts_options ts)] ++ modified) with
              | Some e => (Some (Errorf "failed to compile TypeScript: %v: %v: output: %s" [] []), ts, modified)
              | None => (None, mkTS (ts_options ts) (ts_dir ts) (ts_files ts) (Some now), modified)
              end
          end
      end
  end.

(** What is compiled: the files changed after the last successful run, in
    order. *)
Lemma modified_loop_spec dir last files modified out :
  modified_loop dir last files modified = Ok out ->
  exists times, Forall2 (fun f t => Stat dir f = Ok t) files times /\
    out = modified ++ omap (fun ft => if After ft.2 last then Some ft.1 else None) (zip files times).
Proof.
  revert modified. induction files as [|f files IH]; intros modified; simpl.
  { intros [= <-]. exists []. by rewrite app_nil_r. }
  destruct (Stat dir f) as [t|] eqn:E; [|done]. intros H. destruct (IH _ H) as (times & HF & ->).
  exists (t :: times). split; [by constructor|]. simpl. destruct (After t last); simpl; [by rewrite <- app_assoc|done].
Qed.

(** When nothing has changed since a successful run, the compiler is not run
    again. *)
Lemma Compile_unchanged now now2 ts ts' compiled dir :
  ts_dir ts = Some dir -> Compile now ts = (None, ts', compiled) -> compiled <> [] ->
  (forall f t, f ∈ ts_files ts -> Stat dir f = Ok t -> (t <= now)%Z) ->
  Compile now2 ts' = (None, ts', []).
Proof.
  intros Hd. unfold Compile. rewrite Hd. destruct (Nat.eqb_spec (length (ts_files ts)) 0) as [|Hl]; [by intros [= <- <-]|].
  destruct (modified_loop dir (ts_last ts) (ts_files ts) []) as [m|] eqn:Em; [|done].
  destruct m as [|m0 m]; [by intros [= <- <-]|]. destruct (LookPath _); [|done].
  destruct (run _ _ _); [done|]. intros [= <- <-] _ Hold. cbn [ts_dir ts_files ts_last].
  destruct (Nat.eqb_spec (length (ts_files ts)) 0); [done|].
  apply modified_loop_spec in Em as (times & HF & _).
  assert (Hn : modified_loop dir (Some now) (ts_files ts) [] = Ok []); [|by rewrite Hn].
  clear Hl n. revert Hold. induction HF as [|f t fs ts0 Hf HF IH]; intros Hold; [done|]. simpl. rewrite Hf.
  unfold After. destruct (Z.ltb_spec now t) as [Hlt|_].
  - pose proof (Hold f t ltac:(by left) Hf). lia.
  - apply IH. intros f' t' Hin. apply Hold. by right.
Qed.

(** ** js.go *)

Record JSServer := mkJSS { jss_title : string; jss_scripts : list string; jss_ts : option TypescriptSources }.

Definition NewJSServer (title : string) (ts : option TypescriptSources) (jsScripts : list string) : JSServer :=
  mkJSS title jsScripts ts.

(** The text of an error. *)
Variable text : error -> string.

Definition jss_writeError (w : rw) (status : Z) (err : error) : rw :=
  let w := rw_Set "Content-Type" "application/json" w in
  Write (json_string (text err) +:+ LF) (WriteHeader status w).

(** [execute] is the output of the template up to its error. *)
Definition ServeJS (now : Z) (execute : string -> list string -> string * option error) (jss : JSServer) (w : rw)
  : rw * JSServer :=
  let page jss :=
    let w := rw_Set "Content-Type" "text/html; charset=utf-8" w in
    let '(out, err) := execute (jss_title jss) (jss_scripts jss) in
    let w := if bool_decide (out = "") then w else Write out w in
    (match err with Some e => jss_writeError w 500 e | None => w end, jss) in
  match jss_ts jss with
  | None => page jss
  | Some ts =>
      match Compile now ts with
      | (Some err, ts, _) => (jss_writeError w 500 err, mkJSS (jss_title jss) (jss_scripts jss) (Some ts))
      | (None, ts, _) => page (mkJSS (jss_title jss) (jss_scripts jss) (Some ts))
      end
  end.

(** A page is only served when the sources compile; otherwise the client gets
    the error as JSON with status 500. *)
Lemma ServeJS_compile_error now execute jss w ts err ts' compiled :
  fresh w -> jss_ts jss = Some ts -> Compile now ts = (Some err, ts', compiled) ->
  let w' := (ServeJS now execute jss w).1 in
  final_status w' = 500%Z /\ rw_body w' = json_string (text err) +:+ LF /\
  Header_Get (final_header w') "Content-Type" = "application/json".
Proof.
  intros (Hs & Hp & Hb) Hj HC. unfold ServeJS. rewrite Hj, HC. unfold jss_writeError. simpl.
  unfold WriteHeader, Write, final_status, final_header, rw_Set, on_header, rw_status. simpl. rewrite Hs, Hp. simpl.
  rewrite Hb. split_and!; try done. apply Header_Get_Set.
Qed.

End compile.

(** ** Reading back what was written *)
Section readback.
Context {Cert Key TLSCert : Type} `{X : !X509 Cert Key TLSCert} `{!PEMLaws}.
Variable Raw : Cert -> string.

(** A write call that reports no error has written all the data. *)
Definition full_writes (os : os_calls) : Prop := forall f data, (os_write os f data).2 = None -> (os_write os f data).1 = data.

Lemma concat_cons (x : string) l : String.concat "" (x :: l) = x +:+ String.concat "" l.
Proof. destruct l; simpl; [by rewrite app_empty_r|done]. Qed.

Lemma chain_pem_concat certs :
  chain_pem Raw certs =
    String.concat "" (map pem_EncodeToMemory (map (fun c => mkBlock "CERTIFICATE" (Raw c)) (omap id certs))).
Proof.
  unfold chain_pem.
  assert (Hacc : forall acc, fold_left (fun pemData cert => match cert with
      | None => pemData
      | Some cert => pemData +:+ pem_EncodeToMemory (mkBlock "CERTIFICATE" (Raw cert))
      end) certs acc = acc +:+ String.concat ""
        (map pem_EncodeToMemory (map (fun c => mkBlock "CERTIFICATE" (Raw c)) (omap id certs)))); [|by rewrite Hacc].
  induction certs as [|[c|] certs IH]; intros acc; cbn [fold_left omap list_omap id]; [by rewrite app_empty_r| |apply IH].
  cbn [map]. by rewrite IH, concat_cons, app_str_assoc.
Qed.

Lemma WriteFile_content os file data fs fs' :
  full_writes os -> WriteFile os file data fs = (None, fs') -> fs' = <[file := data]> fs.
Proof.
  intros Hw. unfold WriteFile. destruct (os_open os file); [done|].
  specialize (Hw file data). destruct (os_write os file data) as [written [e|]]; [done|].
  simpl in Hw. destruct (os_close os file); [done|]. intros [= <-]. by rewrite Hw.
Qed.

Lemma encode_to_content os file block fs fs' :
  full_writes os -> encode_to os file block fs = (None, fs') -> fs' = <[file := pem_EncodeToMemory block]> fs.
Proof.
  intros Hw. unfold encode_to. specialize (Hw file (pem_EncodeToMemory block)).
  destruct (os_write os file _) as [written [e|]]; [done|]. simpl in Hw.
  destruct (os_close os file); [done|]. intros [= <-]. by rewrite Hw.
Qed.

(** The certificates of a list of encoded certificate blocks. *)
Lemma ReadAndParse_blocks bs cs f :
  Forall (fun b => b_Type b = "CERTIFICATE" /\ b_Headers b = ∅) bs -> bs <> [] ->
  Forall2 (fun b c => ParseCertificate (b_Bytes b) = Ok c) bs cs ->
  ReadAndParseCertsPEM (Ok (String.concat "" (map pem_EncodeToMemory bs))) f = Ok cs.
Proof.
  intros Hc Hne HF.
  assert (Hcl : (classify bs).2 = bs).
  { unfold classify. simpl. clear -Hc. induction Hc as [|b bs [Hb _] _ IH]; [done|]. simpl. unfold is_cert.
    rewrite bool_decide_true by done. f_equal. exact IH. }
  unfold ReadAndParseCertsPEM, ParseCertsPEM, ParsePEM.
  rewrite ParsePEM_blocks; [|eapply Forall_impl; [exact Hc|]; intros b [Hb Hh]; split; [by rewrite Hb|done]|lia].
  unfold acc_app. simpl. simpl in Hcl. rewrite Hcl. unfold parseCertsPEM.
  rewrite (proj2 (parse_blocks_Ok bs [] cs)) by eauto.
  assert (Hl : length cs <> 0%nat) by (destruct HF; [done|simpl; lia]).
  by rewrite !bool_decide_false by done.
Qed.

(** A chain written by [WriteCertChainToPEMFile] is read back without its nil
    entries, and its certificates make a pool. *)
Lemma written_chain_read_back os certs pemFile fs fs' :
  (forall c, ParseCertificate (Raw c) = Ok c) -> full_writes os ->
  WriteCertChainToPEMFile Raw os certs pemFile fs = (None, fs') ->
  exists data, fs' = <[pemFile := data]> fs /\
    (omap id certs <> [] -> ReadAndParseCertsPEM (Ok data) pemFile = Ok (omap id certs)) /\
    (forall pool, AppendCertsFromPEM pool data = (pool ++ omap id certs, negb (Nat.eqb (length (omap id certs)) 0))).
Proof.
  intros HP Hw HW. apply WriteFile_content in HW; [|done]. exists (chain_pem Raw certs). split; [done|].
  rewrite chain_pem_concat. generalize (omap id certs). intros cs. split.
  - intros Hne. apply ReadAndParse_blocks.
    + apply Forall_map, Forall_forall. done.
    + by destruct cs.
    + apply Forall2_fmap_l, Forall_Forall2_diag, Forall_forall. intros c _. apply HP.
  - intros pool. unfold AppendCertsFromPEM.
    rewrite pem_blocks_encoded by (apply Forall_map, Forall_forall; done).
    assert (Ho : omap block_cert (map (fun c => mkBlock "CERTIFICATE" (Raw c)) cs) = cs); [|by rewrite Ho].
    assert (Hb : forall c, block_cert (mkBlock "CERTIFICATE" (Raw c)) = Some c)
      by (intros c; unfold block_cert; simpl; by rewrite HP).
    induction cs as [|c cs IH]; [done|]. simpl. rewrite Hb. f_equal. exact IH.
Qed.

End readback.

(** ** Self-signed certificates *)
Section self_signed.
Context {Cert Key TLSCert : Type} `{X : !X509 Cert Key TLSCert} `{!PEMLaws}.
Context {Pub IP : Type}.
Variable pub_of : Key -> Pub.
Variable ParseIP : string -> option IP.
Variable CreateCertificate : Template IP -> option Pub -> option (PrivateKey Key) -> res string.
Variable MarshalPKCS8PrivateKey : option (PrivateKey Key) -> res string.
Variable quote : string -> string.

(** How a key comes back from PKCS#8. *)
Definition pkcs8_of (k : PrivateKey Key) : pkcs8_key Key :=
  match k with
  | RSAPrivate k => RSAKey k
  | ECDSAPrivate k => ECDSAKey k
  | Ed25519Private k | OtherPrivate k => OtherKey k
  end.

(** The options in effect. *)
Definition options_of (generated : res Key) (options : list (selfSignedCertOptions Key -> selfSignedCertOptions Key)) :=
  setDefaults generated (fold_left (fun o fn => fn o) options (mkSSC [] [] None [])).

Lemma parse_ips_Ok ss ips : parse_ips ParseIP quote ss = Ok ips <-> Forall2 (fun s ip => ParseIP s = Some ip) ss ips.
Proof.
  revert ips. induction ss as [|s ss IH]; intros ips; simpl.
  - split; [intros [= <-]; constructor|]. by inversion 1.
  - destruct (ParseIP s) as [ip|] eqn:E; [|split; [done|]; inversion 1; congruence].
    destruct (parse_ips ParseIP quote ss) as [l|e].
    + split; [intros [= <-]; constructor; [done|by apply IH]|].
      inversion 1 as [|? ip' ? l' Hs HF]; subst. apply IH in HF as [= ->]. congruence.
    + split; [done|]. inversion 1 as [|? ip' ? l' Hs HF]; subst. by apply IH in HF.
Qed.

(** What a successful call has done. *)
Lemma NewSelfSignedCert_Some os generated now serial certFile keyFile options fs fs' :
  full_writes os -> certFile <> keyFile ->
  NewSelfSignedCert pub_of ParseIP CreateCertificate MarshalPKCS8PrivateKey quote os generated now serial
    certFile keyFile options fs = (None, fs') ->
  let o := options_of generated options in
  exists n ips der priv, serial = Ok n /\ Forall2 (fun s ip => ParseIP s = Some ip) (ssc_ips o) ips /\
    CreateCertificate (template_of o now n ips) (publicKey pub_of (ssc_key o)) (ssc_key o) = Ok der /\
    MarshalPKCS8PrivateKey (ssc_key o) = Ok priv /\
    fs' !! certFile = Some (pem_EncodeToMemory (mkBlock "CERTIFICATE" der)) /\
    fs' !! keyFile = Some (pem_EncodeToMemory (mkBlock "PRIVATE KEY" priv)).
Proof.
  intros Hw Hne. unfold NewSelfSignedCert. fold (options_of generated options). cbv zeta.
  destruct serial as [n|]; [|done]. destruct (parse_ips _ _ _) as [ips|] eqn:Ei; [|done]. apply parse_ips_Ok in Ei.
  destruct (CreateCertificate _ _ _) as [der|] eqn:Ec; [|done]. destruct (os_open os certFile); [done|].
  destruct (encode_to os certFile _ _) as [[e|] fs1] eqn:E1; [done|]. apply encode_to_content in E1; [|done].
  destruct (os_open os keyFile); [done|]. destruct (MarshalPKCS8PrivateKey _) as [priv|] eqn:Ep; [|done].
  intros E2. apply encode_to_content in E2; [|done]. subst. exists n, ips, der, priv. split_and!; try done.
  - rewrite lookup_insert_ne by done. rewrite lookup_insert_ne by done. apply lookup_insert_eq.
  - apply lookup_insert_eq.
Qed.

(** A key file of one PKCS#8 block. *)
Lemma ReadAndParsePrivateKey_pkcs8 priv f e k :
  ParsePKCS1PrivateKey priv = Err e -> ParsePKCS8PrivateKey priv = Ok (pkcs8_of k) ->
  ReadAndParsePrivateKeyPEM (Ok (pem_EncodeToMemory (mkBlock "PRIVATE KEY" priv))) f =
    match k with
    | RSAPrivate k | ECDSAPrivate k => Ok k
    | _ => Err (errors_New "unknown private key type in PKCS#8 wrapping")
    end.
Proof.
  intros H1 H8. unfold ReadAndParsePrivateKeyPEM, ParsePEM.
  pose proof (ParsePEM_blocks [mkBlock "PRIVATE KEY" priv]
    (S (slen (pem_EncodeToMemory (mkBlock "PRIVATE KEY" priv)))) ([], [], [])) as Hb.
  simpl String.concat in Hb. rewrite Hb; [|by repeat constructor|simpl; lia]. simpl.
  unfold ParsePrivateKeyDER. rewrite H1, H8. by destruct k.
Qed.

(** C23 The files of [NewSelfSignedCert] fit the readers of certs.go. When it
    succeeds, [ReadAndParseCertsPEM] of the certificate file gives the one
    certificate that was created, for the configured names and addresses, and
    [ReadAndParsePrivateKeyPEM] of the key file gives back an RSA or ECDSA key
    (an Ed25519 key is written but not read). It never succeeds with
    [CertAllIPAddresses] on a machine with an interface address: those carry
    their mask, and [net.ParseIP] rejects them. *)
Theorem self_signed_read_back os generated now serial certFile keyFile options fs fs' :
  full_writes os -> certFile <> keyFile ->
  (forall t p k der, CreateCertificate t p k = Ok der -> k <> None /\ exists c, ParseCertificate der = Ok c) ->
  (forall k der, MarshalPKCS8PrivateKey (Some k) = Ok der ->
     (exists e, ParsePKCS1PrivateKey der = Err e) /\ ParsePKCS8PrivateKey der = Ok (pkcs8_of k)) ->
  (forall s, Contains s "/" = true -> ParseIP s = None) ->
  NewSelfSignedCert pub_of ParseIP CreateCertificate MarshalPKCS8PrivateKey quote os generated now serial
    certFile keyFile options fs = (None, fs') ->
  let o := options_of generated options in
  (exists n ips der cert k cdata kdata,
    Forall2 (fun s ip => ParseIP s = Some ip) (ssc_ips o) ips /\ ssc_key o = Some k /\
    CreateCertificate (template_of o now n ips) (publicKey pub_of (Some k)) (Some k) = Ok der /\
    ParseCertificate der = Ok cert /\
    fs' !! certFile = Some cdata /\ ReadAndParseCertsPEM (Ok cdata) certFile = Ok [cert] /\
    fs' !! keyFile = Some kdata /\
    ReadAndParsePrivateKeyPEM (Ok kdata) keyFile =
      match k with
      | RSAPrivate k | ECDSAPrivate k => Ok k
      | _ => Err (errors_New "unknown private key type in PKCS#8 wrapping")
      end) /\
  (forall ifaces addrs ip bits, Ok addrs ∈ ifaces -> IPNet ip bits ∈ addrs -> ssc_ips o <> allIPS ifaces).
Proof.
  intros Hw Hne Hcert Hkey Hip HS o.
  destruct (NewSelfSignedCert_Some _ _ _ _ _ _ _ _ _ Hw Hne HS) as (n & ips & der & priv & -> & Hips & Hc & Hm & Hf1 & Hf2).
  fold o in Hips, Hc, Hm. split.
  - destruct (Hcert _ _ _ _ Hc) as [Hk (cert & Hp)]. destruct (ssc_key o) as [k|] eqn:Ek; [|done].
    destruct (Hkey k priv Hm) as [[e H1] H8].
    exists n, ips, der, cert, k, (pem_EncodeToMemory (mkBlock "CERTIFICATE" der)), (pem_EncodeToMemory (mkBlock "PRIVATE KEY" priv)).
    split_and!; try done; [|by eapply ReadAndParsePrivateKey_pkcs8].
    pose proof (ReadAndParse_blocks [mkBlock "CERTIFICATE" der] [cert] certFile) as HR. apply HR; [by repeat constructor|done|].
    by repeat constructor.
  - intros ifaces addrs ip bits Hi Ha Heq. rewrite Heq in Hips.
    assert (Hin : (ip +:+ "/" +:+ Itoa bits) ∈ allIPS ifaces).
    { unfold allIPS. apply list_elem_of_In, in_concat.
      eexists. split; [apply in_map_iff; exists (Ok addrs); split; [reflexivity|by apply list_elem_of_In]|]. apply list_elem_of_In, list_elem_of_omap.
      exists (IPNet ip bits). done. }
    apply list_elem_of_lookup in Hin as [i Hin]. destruct (Forall2_lookup_l _ _ _ _ _ Hips Hin) as (a & _ & Hpa).
    rewrite Hip in Hpa; [done|]. apply Contains_spec. eauto.
Qed.

End self_signed.

(** ** A model of the encoders

DER bytes are tagged text, and certificates are their bytes. *)
Module ToyDevTest.

#[local] Instance toy8 : X509 string string (string * string) := {|
  ParseCertificate := fun s => Ok s;
  IsCA := fun c => false;
  cert_Verify := fun _ _ => Err (errors_New "no roots");
  ParsePKCS1PrivateKey := fun s => Err (errors_New "not PKCS#1");
  ParsePKCS8PrivateKey := fun s =>
    match CutPrefix s "rsa:" with Some k => Ok (RSAKey k) | None =>
    match CutPrefix s "ec:" with Some k => Ok (ECDSAKey k) | None => Ok (OtherKey s) end end;
  ParseECPrivateKey := fun s => Err (errors_New "not EC");
  pem_Decode := pem_Decode (X509 := ToyX509.toy);
  pem_EncodeToMemory := pem_EncodeToMemory (X509 := ToyX509.toy);
  X509KeyPair := fun certs key => Ok (certs, key)
|}.

#[local] Instance toy8_laws : PEMLaws (H := toy8).
Proof.
  constructor; [exact (decode_shrinks (PEMLaws := ToyX509.toy_laws))|exact (decode_encode_block (PEMLaws := ToyX509.toy_laws))].
Qed.

Definition toy_ParseIP (s : string) : option string := if Contains s "/" then None else Some s.
Definition toy_Create (t : Template string) (p : option string) (k : option (PrivateKey string)) : res string :=
  match k with None => Err (errors_New "no key") | Some _ => Ok ("cert for " +:+ Join (tm_DNSNames t) ",") end.
Definition toy_Marshal (k : option (PrivateKey string)) : res string :=
  match k with
  | Some (RSAPrivate k) => Ok ("rsa:" +:+ k)
  | Some (ECDSAPrivate k) => Ok ("ec:" +:+ k)
  | _ => Err (errors_New "unsupported key")
  end.

Definition demo_files : option error * files :=
  NewSelfSignedCert id toy_ParseIP toy_Create toy_Marshal id os_ok (Ok "k0") 0 (Ok 7%Z) "c.pem" "k.pem"
    [CertDNSHosts ["a.example"]] ∅.

End ToyDevTest.

Import ToyDevTest.
#[local] Existing Instances toy8 toy8_laws.

Lemma self_signed_read_back_witness :
  exists fs' cdata kdata, demo_files = (None, fs') /\
    fs' !! "c.pem" = Some cdata /\ ReadAndParseCertsPEM (X := toy8) (Ok cdata) "c.pem" = Ok ["cert for a.example"] /\
    fs' !! "k.pem" = Some kdata /\ ReadAndParsePrivateKeyPEM (X := toy8) (Ok kdata) "k.pem" = Ok "k0".
Proof.
  destruct demo_files as [err fs'] eqn:E. exists fs'.
  assert (He : err = None) by (assert (demo_files.1 = None) by (by vm_compute); rewrite E in *; done). subst err.
  destruct (self_signed_read_back (X := toy8) id toy_ParseIP toy_Create toy_Marshal id os_ok (Ok "k0") 0 (Ok 7%Z)
    "c.pem" "k.pem" [CertDNSHosts ["a.example"]] ∅ fs') as [(n & ips & der & cert & k & cdata & kdata & _ & Hk & Hc & Hp & H1 & H2 & H3 & H4) _].
  - by intros f data.
  - done.
  - intros t p [k|] der; [|done]. intros [= <-]. split; [done|]. by eexists.
  - intros [k|k|k|k] der; [..|done|done]; intros [= <-]; (split; [by eexists|]); done.
  - intros s Hs. unfold toy_ParseIP. by rewrite Hs.
  - exact E.
  - exists cdata, kdata. split; [done|]. injection Hk as <-. injection Hc as <-. injection Hp as <-. done.
Defined.
