(* ===== verification/JSPage.v ===== *)
(** * The page of scripts of devtest

Models the template of [devtest/js.go] as html/template renders it, which
escapes every value for the place it appears in: the title as RCDATA, a name as
text, and a name as the URL of a script in a quoted attribute. *)

From S2P Require Import Prelude GoStrings GoEncoding GoErrors GoHTTP GoURL GoHTML DevTest.

(** ** URLs in attributes *)

(** The simple folding that [strings.EqualFold] compares ASCII letters by: the
    long s and the Kelvin sign are letters too. *)
Definition fold_rune (r : N) : N :=
  if ((65 <=? r) && (r <=? 90))%N then (r + 32)%N
  else if (r =? 383)%N then 115%N else if (r =? 8490)%N then 107%N else r.

Definition EqualFold (s t : string) : bool :=
  bool_decide (map (fun x => fold_rune x.1) (runes s) = map (fun x => fold_rune x.1) (runes t)).

Definition isSafeURL (s : string) : bool :=
  match Cut s ":" with
  | Some (protocol, _) =>
      Contains protocol "/" || EqualFold protocol "http" || EqualFold protocol "https" || EqualFold protocol "mailto"
  | None => true
  end.

Definition urlFilter (s : string) : string := if isSafeURL s then s else "#ZgotmplZ".

(** The bytes that [processURLOnto] keeps when it normalizes. *)
Definition url_kept (c : ascii) : bool :=
  alphanumeric c ||
  existsb (fun d => bool_decide (c = d))
    (String.list_ascii_of_string "!#$&*+,/:;=?@[]-._~").

(** All others are encoded, but for a percent sign that starts an escape. *)
Fixpoint urlNormalizer (s : string) : string :=
  match s with
  | "" => ""
  | String c s' =>
      let keep := url_kept c ||
        (bool_decide (c = PERCENT) &&
         match s' with String a (String b _) => bool_decide (is_Some (hex_val a) /\ is_Some (hex_val b)) | _ => false end) in
      (if keep then String c ""
       else String PERCENT (String (digit_char false (N_of_ascii c / 16)) (String (digit_char false (N_of_ascii c mod 16)) "")))
      +:+ urlNormalizer s'
  end.

Definition rcdataEscaper (s : string) : string := htmlReplacer true s.

(** A name as the value of the attribute src. *)
Definition src_value (s : string) : string := attrEscaper (urlNormalizer (urlFilter s)).

(** ** The template *)

Definition named_script (s : string) : string := LF +:+ "        <p>" +:+ htmlEscaper s +:+ "</p>" +:+ LF +:+ "    ".
Definition loaded_script (s : string) : string :=
  LF +:+ "        <script src=" +:+ QUOTE +:+ src_value s +:+ QUOTE +:+ "></script>" +:+ LF +:+ "    ".

Definition htmlTpl (title : string) (scripts : list string) : string :=
  "<!DOCTYPE html>" +:+ LF +:+ "<html>" +:+ LF +:+ "<head>" +:+ LF
  +:+ "    <meta charset=" +:+ QUOTE +:+ "UTF-8" +:+ QUOTE +:+ ">" +:+ LF
  +:+ "    <title>" +:+ rcdataEscaper title +:+ "</title>" +:+ LF +:+ "</head>" +:+ LF +:+ "<body>" +:+ LF
  +:+ "    <h1>Check the browser console in developer tools windows!</h1>" +:+ LF
  +:+ "    <p>This page dynamically loads multiple scripts.</p>" +:+ LF
  +:+ String "009" " " +:+ String.concat "" (map named_script scripts) +:+ LF +:+ LF
  +:+ "    " +:+ String.concat "" (map loaded_script scripts) +:+ LF +:+ "</body>" +:+ LF +:+ "</html>" +:+ LF.

(** ** Names of files *)

Definition file_byte (c : ascii) : bool := alphanumeric c || bool_decide (c ∈ ["-"; "."; "_"; "~"; "/"]%char).

Definition file_byte_plain (c : ascii) : bool :=
  negb (file_byte c) ||
  (url_kept c && (N_of_ascii c <? 128)%N && negb (bool_decide (c = ":"%char)) &&
   bool_decide (replace_rune false (N_of_ascii c, String c "") = String c "") &&
   bool_decide (replace_rune true (N_of_ascii c, String c "") = String c "")).

Lemma file_byte_plain_all c : file_byte_plain c = true.
Proof. destruct c as [[] [] [] [] [] [] [] []]; vm_compute; reflexivity. Qed.

Lemma file_byte_spec c : file_byte c = true ->
  url_kept c = true /\ (N_of_ascii c < 128)%N /\ c <> ":"%char /\ forall bad, replace_rune bad (N_of_ascii c, String c "") = String c "".
Proof.
  intros Hc. pose proof (file_byte_plain_all c) as H. unfold file_byte_plain in H. rewrite Hc in H. simpl in H.
  repeat (apply andb_true_iff in H as [H ?]). split_and!; [done|by apply N.ltb_lt| |].
  - by eapply bool_decide_eq_false_1, negb_true_iff.
  - intros []; by eapply bool_decide_eq_true_1.
Qed.

Lemma htmlReplacer_cons bad c s :
  (N_of_ascii c < 128)%N -> htmlReplacer bad (String c s) = replace_rune bad (N_of_ascii c, String c "") +:+ htmlReplacer bad s.
Proof.
  intros Hc. unfold htmlReplacer, runes. change (slen (String c s)) with (S (slen s)). cbn [runes_fuel].
  rewrite DecodeRune_ascii by done. cbn [map str_take str_drop]. apply concat_cons.
Qed.

(** Plain names are shown and loaded as they are. *)
Lemma file_name_kept s :
  str_forallb file_byte s = true -> htmlEscaper s = s /\ src_value s = s.
Proof.
  intros Hs. assert (HR : forall bad, htmlReplacer bad s = s).
  { intros bad. induction s as [|c s IH]; [done|]. unfold str_forallb in Hs. simpl in Hs. apply andb_true_iff in Hs as [Hc Hs].
    apply file_byte_spec in Hc as (_ & Hc & _ & Hr). by rewrite htmlReplacer_cons, Hr, IH. }
  assert (HN : urlNormalizer s = s).
  { clear HR. induction s as [|c s IH]; [done|]. unfold str_forallb in Hs. simpl in Hs. apply andb_true_iff in Hs as [Hc Hs].
    apply file_byte_spec in Hc as (Hk & _). cbn [urlNormalizer]. by rewrite Hk, IH. }
  split; [apply HR|]. unfold src_value, urlFilter, isSafeURL.
  rewrite (Cut_none ":"%char); [by rewrite HN; apply HR|].
  clear HR HN. induction s as [|c s IH]; [constructor|]. unfold str_forallb in Hs. simpl in Hs.
  apply andb_true_iff in Hs as [Hc Hs]. apply file_byte_spec in Hc as (_ & _ & Hc & _). constructor; [done|by apply IH].
Qed.

(** No name or title can end the attribute it is in or start a tag: the tags of
    the page are those of the template. *)
Lemma page_values_inert title script :
  Forall (fun v => without lt_char v /\ without quote_char v) [rcdataEscaper title; htmlEscaper script; src_value script].
Proof. repeat constructor; apply htmlReplacer_spec. Qed.

(** A name with another scheme than those of pages and mail is not loaded. *)
Lemma script_scheme_filtered scheme rest :
  without ":"%char scheme -> Contains scheme "/" = false -> Forall (fun p => EqualFold scheme p = false) ["http"; "https"; "mailto"] ->
  src_value (scheme +:+ String ":" rest) = "#ZgotmplZ".
Proof.
  intros Hc Hs (H1 & (H2 & (H3 & _)%Forall_cons)%Forall_cons)%Forall_cons. unfold src_value, urlFilter, isSafeURL.
  rewrite (Cut_without ":"%char) by done. rewrite Hs, H1, H2, H3. by vm_compute.
Qed.

(** The page is what is served when there is nothing to compile or it compiles,
    as html with status 200. *)
Lemma ServeJS_page Stat LookPath run quote text now jss w :
  fresh w ->
  (forall ts, jss_ts jss = Some ts -> (Compile Stat LookPath run quote now ts).1.1 = None) ->
  let w' := (ServeJS Stat LookPath run quote text now (fun title scripts => (htmlTpl title scripts, None)) jss w).1 in
  rw_body w' = htmlTpl (jss_title jss) (jss_scripts jss) /\ final_status w' = 200%Z /\
  Header_Get (final_header w') "Content-Type" = "text/html; charset=utf-8".
Proof.
  intros (Hs & Hp & Hb) Hc.
  assert (H : (ServeJS Stat LookPath run quote text now (fun title scripts => (htmlTpl title scripts, None)) jss w).1 =
    Write (htmlTpl (jss_title jss) (jss_scripts jss)) (rw_Set "Content-Type" "text/html; charset=utf-8" w)).
  { unfold ServeJS. destruct (jss_ts jss) as [ts|]; [|done]. specialize (Hc ts eq_refl).
    by destruct (Compile _ _ _ _ now ts) as [[[e|] ts'] compiled]. }
  cbv zeta. rewrite H. set (page := htmlTpl _ _). clearbody page.
  unfold Write, WriteHeader, final_status, final_header, rw_Set, on_header, rw_status. simpl. rewrite Hs, Hp. simpl.
  rewrite Hb. split_and!; try done. apply Header_Get_Set.
Qed.
