(* ===== verification/Commands.v ===== *)
(** * cmd/acme: the commands on certificate stores

Models [cmd/acme/certs.go], [revoke.go], [validate.go] and [cert_manager.go] on
top of the packages they call: the caching store of [CertCache], the PEM
functions of [Certs], the pools of [DevTest] and the validator of
[TLSValidate].  AWS, the ACME service and the outcomes of system calls are
parameters. *)

From S2P Require Import Prelude GoStrings GoPath GoErrors GoHTTP GoNet Certs GoX509 DevTest TLSValidate Acme CertCache.

(** ** certs.go *)

Record TLSCertStoreFlags := mkStoreFlags { UseAWSSecretsManager : bool; LocalCacheDir : string }.

(** The backing store that was chosen. *)
Inductive backing := LocalBacking (dir : string) | AWSBacking (allowCreation allowUpdates : bool).

Section store.
Context {L B : Type} `{Cache L} `{StoreFS B}.
Variable NewM : error -> error -> error.
(** Outcomes of [os.MkdirAll], of the lock file and of loading the AWS
    configuration. *)
Variable MkdirAll : string -> option error.
Variable lock rlock : list event -> option error.
Variable LoadUsingFlags : option error.

Definition newCertStore (cl : TLSCertStoreFlags) (aws : bool) (opts : list (CertCache.options -> CertCache.options))
    (w : world (L:=L) (B:=B)) : res (backing * CachingStore) * world :=
  let caching b := match NewCachingStore (MkdirAll (LocalCacheDir cl)) lock rlock opts w with
                   | (Err e, w) => (Err e, w)
                   | (Ok dc, w) => (Ok (b, dc), w)
                   end in
  if UseAWSSecretsManager cl && negb aws
  then (Err (errors_New "aws-secrets-manager flag requires aws configuration to be enabled"), w)
  else if bool_decide (LocalCacheDir cl = "") then (Err (errors_New "local-cache-dir must be specified"), w)
  else if negb (UseAWSSecretsManager cl) || negb aws then
    let dir := path_Join [LocalCacheDir cl; "certs"] in
    match LocalStore.NewLocalStore (fun name => path_Join [dir; name]) (MkdirAll dir) with
    | Err e => (Err e, w)
    | Ok _ => caching (LocalBacking dir)
    end
  else match LoadUsingFlags with
       | Some e => (Err e, w)
       | None => caching (if HasReadonlyOption opts then AWSBacking false false else AWSBacking true true)
       end.

(** The error and the lines printed. *)
Definition getCert (cl : TLSCertStoreFlags) (aws : bool) (logger : string) (args : list string)
    (w : world (L:=L) (B:=B)) : go (option error * list string * world (L:=L) (B:=B)) :=
  match newCertStore cl aws [WithReadonly true; WithLogger (Some logger)] w with
  | (Err e, w) => Ret (Some e, [], w)
  | (Ok (_, store), w) =>
      host ← index args 0;
      Ret (match Get NewM store host w with
           | (Err e, w) => (Some e, [], w)
           | (Ok cert, w) => (None, [cert], w)
           end)
  end.

(** The certificate is stored under the name of the file. *)
Definition putCert (cl : TLSCertStoreFlags) (aws : bool) (logger : string) (ReadFile : string -> res string)
    (args : list string) (w : world (L:=L) (B:=B)) : go (option error * world (L:=L) (B:=B)) :=
  match newCertStore cl aws [WithReadonly false; WithLogger (Some logger)] w with
  | (Err e, w) => Ret (Some e, w)
  | (Ok (_, store), w) =>
      file ← index args 0;
      Ret (match ReadFile file with
           | Err e => (Some e, w)
           | Ok buf => Put NewM store file buf w
           end)
  end.

(** ** revoke.go *)

Context {Cert Key TLSCert : Type} `{X : !X509 Cert Key TLSCert}.

Record revokeFlags := mkRevokeFlags {
  rf_Service : ServiceFlags; rf_TestingCAPEM : string; rf_AccountKeyAlias : string;
  rf_Store : TLSCertStoreFlags; rf_AWS : bool; rf_RevocationReason : string; rf_UseAccountKey : bool
}.

(** A call of [acme.Client.RevokeCert]: the directory and key of the client, the
    signing key ([None] for the account key), the certificate and the reason. *)
Record revocation := mkRevocation {
  rv_DirectoryURL : string; rv_AccountKey : Key; rv_Key : option Key; rv_DER : string; rv_Reason : Z
}.

(** [NewHTTPClient] is the error of making a client for a CA file, [RevokeCert]
    that of the service. *)
Variable NewHTTPClient : string -> option error.
Variable RevokeCert : revocation -> option error.

Definition first_block (data : string) : option (string * string) :=
  match pem_Decode data with Some (b, _) => Some (b_Type b, b_Bytes b) | None => None end.

(** The error and the revocations that were requested. *)
Definition revokeUsingKey (cl : revokeFlags) (args : list string) (w : world (L:=L) (B:=B))
  : go (option error * list revocation * world (L:=L) (B:=B)) :=
  name ← index args 0;
  match ParseRevocationReason (rf_RevocationReason cl) with
  | (_, Some e) => Ret (Some e, [], w)
  | (reason, None) =>
  match newCertStore (rf_Store cl) (rf_AWS cl) [WithSaveAccountKey (rf_AccountKeyAlias cl); WithReadonly true] w with
  | (Err e, w) => Ret (Some e, [], w)
  | (Ok (_, cache), w) =>
  match GetAccountKey NewM Key first_block ParsePrivateKeyDER cache w with
  | (Err e, w) => Ret (Some (Errorf "failed to obtain acme account key: %w" [] [e]), [], w)
  | (Ok accountKey, w) =>
  match NewHTTPClient (rf_TestingCAPEM cl) with
  | Some e => Ret (Some (Errorf "failed to create acme manager http client: %w" [] [e]), [], w)
  | None =>
  match Get NewM cache name w with
  | (Err e, w) => Ret (Some (Errorf "failed to get certificate from cache: %w" [] [e]), [], w)
  | (Ok certPEM, w) =>
      let '(privKeys, _, certs) := ParsePEM certPEM in
      if Nat.eqb (length certs) 0 then Ret (Some (errors_New "no certificates found in certificate data"), [], w)
      else match privKeys with
      | [] => Ret (Some (errors_New "no private keys found in certificate data"), [], w)
      | key :: _ =>
          match ParsePrivateKeyDER (b_Bytes key) with
          | Err e => Ret (Some (Errorf "failed to parse certificate private key: %w" [] [e]), [], w)
          | Ok certKey =>
              match FindLeafPEM certs with
              | Err e => Ret (Some (Errorf "failed to find leaf certificate: %w" [] [e]), [], w)
              | Ok (leafDER, _) =>
                  let rv := mkRevocation (DirectoryURL (ServiceFlags_AutocertConfig (rf_Service cl))) accountKey
                              (if negb (rf_UseAccountKey cl) then Some certKey else None) leafDER reason in
                  Ret (match RevokeCert rv with
                       | Some e => Some (Errorf "failed to revoke certificate for %q: %w" [name] [e])
                       | None => None
                       end, [rv], w)
              end
          end
      end
  end end end end end.

End store.

(** ** validate.go *)
Section validate.
Context {Cert Key TLSCert : Type} `{X : !X509 Cert Key TLSCert}.
Variable SystemCertPool : res (list Cert).
Variable ReadFile : string -> res string.
Variable quote : string -> string.

Definition validatePEMFile (pemFile rootCA : string) : option error :=
  match ReadAndParseCertsPEM (ReadFile pemFile) pemFile with
  | Err e => Some e
  | Ok certs =>
      match CertPoolForTesting quote SystemCertPool ReadFile [rootCA] with
      | Err e => Some (Errorf "failed to obtain cert pool containing %v: %w" [rootCA] [e])
      | Ok root =>
          match VerifyCertChain "" certs (Some root) with
          | Err e => Some e
          | Ok _ => None
          end
      end
  end.

(** The error, and the files reported as valid. *)
Fixpoint validatePEMFilesCmd (rootCA : string) (args : list string) (printed : list string) : option error * list string :=
  match args with
  | [] => (None, printed)
  | pemFile :: args' =>
      match validatePEMFile pemFile rootCA with
      | Some e => (Some e, printed)
      | None => validatePEMFilesCmd rootCA args' (printed ++ [pemFile +:+ ": ok"])
      end
  end.

Record validateHostFlags := mkHostFlags {
  vf_TLSPort : string; vf_CustomROOTCA : string; vf_CheckSerialNumbers : bool; vf_ValidFor : Z;
  vf_Issuer : list string; vf_AllHosts : bool
}.

(** [regexp.Compile]: the regular expression as its match function. *)
Variable regexp_Compile : string -> res (string -> bool).
Variable EnsureHostPort : string -> string -> string.
(** [Validate] of a validator, at the moment of the call. *)
Variable validate : TLSValidate.options (list Cert) -> string -> string -> go (option error).

Fixpoint compile_all (exprs : list string) : res (list (string -> bool)) :=
  match exprs with
  | [] => Ok []
  | expr :: exprs' =>
      match regexp_Compile expr with
      | Err e => Err e
      | Ok re => match compile_all exprs' with Err e => Err e | Ok res => Ok (re :: res) end
      end
  end.

Definition validateCerts (cl : validateHostFlags) (host : string) : go (option error) :=
  match compile_all (vf_Issuer cl) with
  | Err e => Ret (Some e)
  | Ok regexps =>
      let opts := [WithExpandDNSNames (vf_AllHosts cl); WithCheckSerialNumbers (vf_CheckSerialNumbers cl);
                   WithValidForAtLeast (vf_ValidFor cl); WithIssuerRegexps regexps] in
      let run opts := validate (NewValidator EnsureHostPort opts).1 host (vf_TLSPort cl) in
      if Nat.ltb 0 (slen (vf_CustomROOTCA cl)) then
        match CertPoolForTesting quote SystemCertPool ReadFile [vf_CustomROOTCA cl] with
        | Err e => Ret (Some (Errorf "failed to obtain cert pool containing %v: %w" [vf_CustomROOTCA cl] [e]))
        | Ok root => run (opts ++ [WithRootCAs (Some root)])
        end
      else run opts
  end.

Fixpoint validateHostCertificatesCmd (cl : validateHostFlags) (args : list string) (printed : list string)
  : go (option error * list string) :=
  match args with
  | [] => Ret (None, printed)
  | host :: args' =>
      err ← validateCerts cl host;
      match err with
      | Some e => Ret (Some e, printed)
      | None => validateHostCertificatesCmd cl args' (printed ++ [host +:+ ": ok"])
      end
  end.

End validate.

(** ** What the store commands do *)
Section store_facts.
Context {L B : Type} `{Cache L} `{StoreFS B}.
Variable NewM : error -> error -> error.
Variable MkdirAll : string -> option error.
Variable lock rlock : list event -> option error.
Variable LoadUsingFlags : option error.
Abbreviation W := (world (L:=L) (B:=B)).

(** The stores of two worlds are the same. *)
Definition same_stores (w w' : W) : Prop := localCache w' = localCache w /\ backingStore w' = backingStore w.

#[global] Instance same_stores_preorder : PreOrder same_stores.
Proof. split; [by intros w|]. intros x y z [H1 H2] [H3 H4]. split; congruence. Qed.

Lemma newCertStore_same cl aws opts (w : W) r w' :
  newCertStore MkdirAll lock rlock LoadUsingFlags cl aws opts w = (r, w') -> same_stores w w'.
Proof.
  unfold newCertStore, NewCachingStore. intros Hn.
  repeat (case_match; simplify_eq/=); done.
Qed.

(** The store that is made has the options of the command. *)
Lemma newCertStore_opts cl aws opts (w : W) b dc w' :
  newCertStore MkdirAll lock rlock LoadUsingFlags cl aws opts w = (Ok (b, dc), w') ->
  readonly (CertCache.opts dc) = HasReadonlyOption opts /\
  saveAccountKeyName (CertCache.opts dc) = saveAccountKeyName (apply_options opts zero_options) /\
  allowRSAKeys (CertCache.opts dc) = allowRSAKeys (apply_options opts zero_options) /\
  lock_Lock dc = lock /\ lock_RLock dc = rlock.
Proof.
  unfold newCertStore, NewCachingStore, HasReadonlyOption. generalize (apply_options opts zero_options). intros o Hn.
  repeat (case_match; simplify_eq/=); done.
Qed.

Lemma Get_same dc name (w : W) : same_stores w (Get NewM dc name w).2.
Proof. unfold Get. repeat (case_match; simplify_eq/=); done. Qed.

Lemma find_key_same dc names (w : W) : same_stores w (find_key NewM dc names w).2.
Proof.
  revert w. induction names as [|n names IH]; intros w; simpl; [done|].
  pose proof (Get_same dc n w) as Hg. destruct (Get NewM dc n w) as [[d|e] w1]; simpl in *; [done|].
  etransitivity; [exact Hg|apply IH].
Qed.

Lemma GetAccountKey_same {signer} (dec : string -> option (string * string)) (parse : string -> res signer) dc (w : W) :
  same_stores w (GetAccountKey NewM signer dec parse dc w).2.
Proof.
  unfold GetAccountKey. pose proof (find_key_same dc ["acme_account+key"; "acme_account.key"] w) as Hf.
  destruct (find_key _ _ _ _) as [[d|] w1]; simpl in Hf; repeat case_match; done.
Qed.

(** What [put] stores under a name, [get] prints. *)
Lemma put_then_get labs babs `{!CacheLaws L labs} `{!StoreLaws B babs} cl aws l1 l2 ReadFile file (w w' : W) :
  (forall h, lock h = None) -> (forall h, rlock h = None) ->
  putCert NewM MkdirAll lock rlock LoadUsingFlags cl aws l1 ReadFile [file] w = Ret (None, w') ->
  exists buf, ReadFile file = Ok buf /\
    exists w'', getCert NewM MkdirAll lock rlock LoadUsingFlags cl aws l2 [file] w' = Ret (None, [buf], w'').
Proof.
  intros Hl Hr. unfold putCert, getCert.
  destruct (newCertStore _ _ _ _ cl aws [WithReadonly false; _] w) as [[[b dc]|] w1] eqn:E1; [|done].
  simpl. destruct (ReadFile file) as [buf|]; [|done]. intros [= HP]. exists buf. split; [done|].
  destruct (newCertStore_opts _ _ _ _ _ _ _ E1) as (H1 & H2 & H3 & H4 & H5).
  destruct (newCertStore _ _ _ _ cl aws [WithReadonly true; _] w') as [[[b2 dc2]|e2] w2] eqn:E2.
  - destruct (newCertStore_opts _ _ _ _ _ _ _ E2) as (K1 & K2 & K3 & K4 & K5).
    pose proof (newCertStore_same _ _ _ _ _ _ E2) as [Hs1 Hs2].
    assert (Hg : (Get NewM dc2 file w2).1 = Ok buf).
    { destruct (Put_refines labs babs NewM dc file buf w1 w' HP) as (_ & _ & p & Hp & Ha).
      assert (Hp2 : routed (CertCache.opts dc2) file p) by (eapply routed_options; [| |exact Hp]; by rewrite ?K2, ?K3, ?H2, ?H3).
      destruct (Get_refines labs babs NewM dc2 file p w2) as [-> _]; [by rewrite K4|by rewrite K5|done|].
      assert (Ha2 : abs labs babs w2 = abs labs babs w') by (unfold abs; by rewrite Hs1, Hs2).
      by rewrite Ha2, Ha, content_update. }
    simpl. destruct (Get NewM dc2 file w2) as [r w3]. simpl in Hg. subst r. by eexists.
  - exfalso. revert E1 E2. unfold newCertStore, NewCachingStore. clear -Hl.
    intros. repeat (case_match; simplify_eq/=); congruence.
Qed.

End store_facts.

Section revoke_facts.
Context {L B : Type} `{Cache L} `{StoreFS B}.
Context {Cert Key TLSCert : Type} `{X : !X509 Cert Key TLSCert}.
Variable NewM : error -> error -> error.
Variable MkdirAll : string -> option error.
Variable lock rlock : list event -> option error.
Variable LoadUsingFlags : option error.
Variable NewHTTPClient : string -> option error.
Variable RevokeCert : revocation (Key := Key) -> option error.

Lemma FindLeafPEM_Ok blocks der (cert : Cert) :
  FindLeafPEM blocks = Ok (der, cert) ->
  exists b, b ∈ blocks /\ b_Type b = "CERTIFICATE" /\ b_Bytes b = der /\ ParseCertificate der = Ok cert /\ IsCA cert = false.
Proof.
  induction blocks as [|b blocks IH]; simpl; [done|].
  case_bool_decide as Hb; [intros Hf; destruct (IH Hf) as (b' & ? & ?); exists b'; split; [by right|done]|].
  destruct (ParseCertificate (b_Bytes b)) as [c|] eqn:E; [|done].
  destruct (IsCA c) eqn:Ec; simpl.
  - intros Hf. destruct (IH Hf) as (b' & ? & ?). exists b'. split; [by right|done].
  - intros [= <- <-]. exists b. split; [by left|done].
Qed.

(** A return before the revocation is requested. *)
Ltac no_request S := intros [= <- <- <-]; split_and!; [exact S|simpl; lia|done|by intros ? ?%not_elem_of_nil].

(** The data of the account key that is in the stores: under its alias in the
    backing store if one is given, else under the first of its names in the local
    cache that can be read. *)
Definition stored_account_key (alias : string) (w : world (L:=L) (B:=B)) (data : string) : Prop :=
  if decide (alias = "") then
    cache_get (localCache w) "acme_account+key" = Ok data \/
    ((forall h, rlock h = None) -> exists e, cache_get (localCache w) "acme_account+key" = Err e) /\
    cache_get (localCache w) "acme_account.key" = Ok data
  else read_file (backingStore w) alias = Ok data.

(** How a read-only store reads an account key. *)
Lemma Get_account_key dc n (w : world (L:=L) (B:=B)) :
  account_key n -> readonly (CertCache.opts dc) = true ->
  let found := if decide (saveAccountKeyName (CertCache.opts dc) = "") then cache_get (localCache w) n
               else read_file (backingStore w) (saveAccountKeyName (CertCache.opts dc)) in
  (forall d, (Get NewM dc n w).1 = Ok d -> found = Ok d) /\
  (forall d, (forall h, lock_RLock dc h = None) -> found = Ok d -> (Get NewM dc n w).1 = Ok d).
Proof.
  intros Hn Hro. pose proof (useBackingStore_routed dc n) as Hr. unfold Get. rewrite Hro. cbv zeta.
  destruct (decide _) as [He|He].
  - pose proof (routed_det _ _ _ _ Hr (routed_private _ _ (account_key_local _ _ Hn) (fun _ => He))) as Hp.
    destruct (useBackingStore dc n) as [b [|]]; [discriminate Hp|]. simpl. split; intros d.
    + repeat (case_match; simplify_eq/=); intros; by simplify_eq.
    + intros Hl Hg. by rewrite Hl, Hg.
  - pose proof (routed_det _ _ _ _ Hr (routed_saved _ _ Hn He)) as Hp.
    destruct (useBackingStore dc n) as [b [|]]; [|discriminate Hp]. injection Hp as ->. simpl. split; intros d.
    + repeat (case_match; simplify_eq/=); intros; by simplify_eq.
    + intros _ Hg. by rewrite Hg.
Qed.

Lemma GetAccountKey_stored dc (w w' : world (L:=L) (B:=B)) k :
  readonly (CertCache.opts dc) = true -> lock_RLock dc = rlock ->
  GetAccountKey NewM Key first_block ParsePrivateKeyDER dc w = (Ok k, w') ->
  exists data block rest, stored_account_key (saveAccountKeyName (CertCache.opts dc)) w data /\
    pem_Decode data = Some (block, rest) /\ Contains (b_Type block) "PRIVATE" = true /\
    ParsePrivateKeyDER (b_Bytes block) = Ok k.
Proof.
  intros Hro Hlk. unfold GetAccountKey. destruct (find_key _ _ _ w) as [[data|] w1] eqn:Ef; [|done].
  unfold first_block. destruct (pem_Decode data) as [[block rest]|] eqn:Ed; [|done].
  destruct (Contains (b_Type block) "PRIVATE") eqn:Ec; [|done]. simpl. intros [= Hk _].
  exists data, block, rest. split_and!; try done. unfold stored_account_key. cbn [find_key] in Ef.
  destruct (Get_account_key dc "acme_account+key" w (or_introl eq_refl) Hro) as [H1 H1'].
  pose proof (Get_same NewM dc "acme_account+key" w) as [S1 S2].
  destruct (Get NewM dc "acme_account+key" w) as [[d|e] w2]; simpl in *.
  { injection Ef as -> _. specialize (H1 _ eq_refl). destruct (decide _); auto. }
  destruct (Get_account_key dc "acme_account.key" w2 (or_intror eq_refl) Hro) as [H2 _].
  destruct (Get NewM dc "acme_account.key" w2) as [[d|e'] w3]; [|done]. injection Ef as -> _. specialize (H2 _ eq_refl).
  rewrite S1, S2 in H2. destruct (decide _); [|done]. right. split; [|done]. intros Hl. rewrite Hlk in H1'.
  destruct (cache_get (localCache w) "acme_account+key") as [d'|e']; [|by eexists]. by specialize (H1' d' Hl eq_refl).
Qed.

(** C9 Revoking a certificate. Whatever the outcome, the command leaves the
    certificate stores as they are, and it requests at most one revocation, as the
    account whose key is stored (under the alias of the command if it has one): of
    the leaf certificate in the PEM data stored under the given name, for the
    parsed reason, signed by the private key stored with it, or by that account key
    exactly when that was asked for. It reports success only if that revocation was
    requested and accepted. *)
Theorem revoke_stored_leaf cl args (w : world (L:=L) (B:=B)) err rvs w' :
  revokeUsingKey NewM MkdirAll lock rlock LoadUsingFlags NewHTTPClient RevokeCert cl args w = Ret (err, rvs, w') ->
  same_stores w w' /\ (length rvs <= 1)%nat /\
  (err = None -> exists rv, rvs = [rv] /\ RevokeCert rv = None) /\
  (forall rv, rv ∈ rvs -> exists name dc w0 certPEM key cert certKey,
     args !! 0%nat = Some name /\ readonly (CertCache.opts dc) = true /\
     saveAccountKeyName (CertCache.opts dc) = rf_AccountKeyAlias cl /\ same_stores w w0 /\
     (Get NewM dc name w0).1 = Ok certPEM /\
     head (ParsePEM certPEM).1.1 = Some key /\ ParsePrivateKeyDER (b_Bytes key) = Ok certKey /\
     (exists headers, mkPEMBlock "CERTIFICATE" headers (rv_DER rv) ∈ (ParsePEM certPEM).2) /\
     ParseCertificate (rv_DER rv) = Ok cert /\ IsCA cert = false /\
     rv_Key rv = (if rf_UseAccountKey cl then None else Some certKey) /\
     (exists accountPEM block rest, stored_account_key (rf_AccountKeyAlias cl) w accountPEM /\
        pem_Decode accountPEM = Some (block, rest) /\ Contains (b_Type block) "PRIVATE" = true /\
        ParsePrivateKeyDER (b_Bytes block) = Ok (rv_AccountKey rv)) /\
     rv_DirectoryURL rv = DirectoryURL (ServiceFlags_AutocertConfig (rf_Service cl)) /\
     ParseRevocationReason (rf_RevocationReason cl) = (rv_Reason rv, None)).
Proof.
  unfold revokeUsingKey, index. destruct (args !! 0%nat) as [name|]; [|done]. simpl.
  destruct (ParseRevocationReason _) as [reason [e|]] eqn:Er; [no_request (conj (eq_refl (localCache w)) (eq_refl (backingStore w)))|].
  destruct (newCertStore _ _ _ _ _ _ _ w) as [[[b dc]|e] w1] eqn:Es; pose proof (newCertStore_same _ _ _ _ _ _ _ _ _ _ Es) as S1;
    [|no_request S1].
  destruct (newCertStore_opts _ _ _ _ _ _ _ _ _ _ _ Es) as (Hro & Hsave & _ & _ & Hlk).
  pose proof (GetAccountKey_same NewM first_block ParsePrivateKeyDER dc w1) as S2.
  destruct (GetAccountKey _ _ _ _ _ w1) as [r w2] eqn:Ea. simpl in S2.
  assert (S12 : same_stores w w2) by (by etransitivity).
  destruct r as [ak|e]; [|no_request S12]. destruct (NewHTTPClient _); [no_request S12|].
  pose proof (Get_same NewM dc name w2) as S3. destruct (Get NewM dc name w2) as [r w3] eqn:Eg. simpl in S3.
  assert (S13 : same_stores w w3) by (by etransitivity). destruct r as [pem|e]; [|no_request S13].
  destruct (ParsePEM pem) as [[privKeys pubs] certs] eqn:Ep. destruct (Nat.eqb _ 0); [no_request S13|].
  destruct privKeys as [|key keys]; [no_request S13|].
  destruct (ParsePrivateKeyDER (b_Bytes key)) as [certKey|] eqn:Ek; [|no_request S13].
  destruct (FindLeafPEM certs) as [[der cert]|] eqn:El; [|no_request S13].
  intros [= <- <- <-]. split_and!; [done|simpl; lia| |].
  - destruct (RevokeCert _) eqn:Erv; [done|]. intros _. by eexists.
  - intros rv ->%list_elem_of_singleton. destruct (FindLeafPEM_Ok _ _ _ El) as ([t hs d] & Hin & Ht & Hd & Hc & Hca).
    simpl in Ht, Hd. subst t d. exists name, dc, w2, pem, key, cert, certKey. rewrite Eg, Ep. simpl.
    split_and!; try done; [by exists hs|by destruct (rf_UseAccountKey cl)|].
    destruct (GetAccountKey_stored _ _ _ _ Hro Hlk Ea) as (data & block & rest & Hst & Hrest). exists data, block, rest.
    split; [|done]. rewrite Hsave in Hst. unfold stored_account_key in *. destruct S1 as [<- <-]. done.
Qed.

End revoke_facts.

(** A store with a leaf, its key and the account key; the account key is found
    under its alias. *)
Definition demo_block (t bytes : string) : string := pem_EncodeToMemory (X509 := ToyX509.toy) (mkBlock t bytes).

Definition demo_world : world (L:=gmap string string) (B:=gmap string string) :=
  mkWorld ∅ {["www.example.com" := ToyX509.chain_file; "acct" := demo_block "EC PRIVATE KEY" "account"]} [].

Definition demo_flags : revokeFlags :=
  mkRevokeFlags (mkServiceFlags "letsencrypt" 0 "" "") "" "acct" (mkStoreFlags false "/tmp/c") false "superseded" false.

Definition demo_revoke :=
  revokeUsingKey (X := ToyX509.toy) (fun a b => Joined [a; b]) (fun _ => None) (fun _ => None) (fun _ => None) None (fun _ => None)
    (fun _ => None) demo_flags ["www.example.com"] demo_world.

Lemma revoke_stored_leaf_witness :
  exists rvs w', demo_revoke = Ret (None, rvs, w') /\ same_stores demo_world w' /\
    rvs = [mkRevocation LetsEncryptProduction "account" (Some "key") "www.example.com" 4].
Proof.
  assert (Hr : exists rvs w', demo_revoke = Ret (None, rvs, w') /\
    rvs = [mkRevocation LetsEncryptProduction "account" (Some "key") "www.example.com" 4]).
  { eexists _, _. split; vm_compute; reflexivity. }
  destruct Hr as (rvs & w' & Hr & Hv). exists rvs, w'. split; [done|]. unfold demo_revoke in Hr.
  destruct (revoke_stored_leaf (X := ToyX509.toy) (fun a b => Joined [a; b]) (fun _ => None) (fun _ => None) (fun _ => None) None (fun _ => None)
    (fun _ => None) demo_flags ["www.example.com"] demo_world None rvs w' Hr) as (Hs & _). done.
Defined.

(** ** Validation of files *)
Section validate_facts.
Context {Cert Key TLSCert : Type} `{X : !X509 Cert Key TLSCert}.
Variable SystemCertPool : res (list Cert).
Variable ReadFile : string -> res string.
Variable quote : string -> string.

(** The pool of one file: its certificates, or for no name the empty pool. *)
Lemma CertPoolForTesting_one f :
  CertPoolForTesting quote SystemCertPool ReadFile [f] =
    (if bool_decide (f = "") then Ok []
     else match ReadFile f with
          | Err e => Err (Errorf "failed to append %q to RootCAs: %v" [quote f] [])
          | Ok data => match omap block_cert (pem_blocks data) with
                       | [] => Err (errors_New "no certs appended")
                       | certs => Ok certs
                       end
          end).
Proof.
  unfold CertPoolForTesting, certPoolForTesting. simpl. destruct (Nat.eqb_spec (slen f) 0) as [Hz|Hz].
  - rewrite bool_decide_true by (by apply slen_zero). done.
  - rewrite bool_decide_false by (intros Hf; apply Hz; by apply slen_zero).
    destruct (ReadFile f) as [data|]; [|done]. unfold AppendCertsFromPEM. simpl.
    by destruct (omap block_cert (pem_blocks data)).
Qed.

(** C25 [acme certs validate-pem-files]. With a root CA file a PEM file is
    accepted exactly when its chain verifies against the certificates of that
    file. Without one, the flag's default, the pool is not the system's but an
    empty one: every PEM file is rejected. *)
Theorem validate_pem_file_roots pemFile rootCA :
  (forall c o, vo_Roots o = Some [] -> exists e, cert_Verify c o = Err e) ->
  (rootCA <> "" ->
   validatePEMFile SystemCertPool ReadFile quote pemFile rootCA = None <->
   exists data certs rootData chains, ReadFile pemFile = Ok data /\ ReadAndParseCertsPEM (Ok data) pemFile = Ok certs /\
     ReadFile rootCA = Ok rootData /\ omap block_cert (pem_blocks rootData) <> [] /\
     VerifyCertChain "" certs (Some (omap block_cert (pem_blocks rootData))) = Ok chains) /\
  (exists e, validatePEMFile SystemCertPool ReadFile quote pemFile "" = Some e).
Proof.
  intros Hempty. unfold validatePEMFile. split.
  - intros Hne. rewrite CertPoolForTesting_one, bool_decide_false by done.
    destruct (ReadFile pemFile) as [data|e]; [|split; [done|by intros (? & ? & ? & ? & ? & _)]].
    destruct (ReadAndParseCertsPEM (Ok data) pemFile) as [certs|e] eqn:Ec.
    2: { split; [done|]. intros (? & ? & ? & ? & [= <-] & Hc & _). congruence. }
    destruct (ReadFile rootCA) as [rd|e]; [|split; [done|by intros (? & ? & ? & ? & _ & _ & ? & _)]].
    destruct (omap block_cert (pem_blocks rd)) as [|c cs] eqn:Eo.
    + split; [done|]. intros (? & ? & ? & ? & _ & _ & [= <-] & Hn & _). congruence.
    + destruct (VerifyCertChain "" certs (Some (c :: cs))) as [chains|e] eqn:Ev.
      * split; [|done]. intros _. exists data, certs, rd, chains. rewrite Eo. by split_and!.
      * split; [done|]. intros (? & ? & ? & ? & [= <-] & Hc & [= <-] & _ & Hv).
        rewrite Hc in Ec. injection Ec as ->. rewrite Eo in Hv. congruence.
  - destruct (ReadAndParseCertsPEM _ _) as [certs|e]; [|by eexists].
    rewrite CertPoolForTesting_one, bool_decide_true by done.
    destruct (VerifyCertChain "" certs (Some [])) as [chains|e] eqn:Ev; [|by eexists].
    unfold VerifyCertChain in Ev. apply verifyCertChainOpts_Ok in Ev as (leaf & _ & Hv).
    simpl in Hv. edestruct (Hempty leaf) as [e He]; [|rewrite He in Hv; done]. done.
Qed.

End validate_facts.

(** A verifier that only accepts chains to a root of the pool. *)
Module ToyRoots.
#[local] Instance toy_roots : X509 string string (string * string) := {|
  ParseCertificate := ParseCertificate (X509 := ToyX509.toy);
  IsCA := IsCA (X509 := ToyX509.toy);
  cert_Verify := fun c o =>
    match vo_Roots o with
    | Some (r :: _) => Ok [[c; r]]
    | _ => Err (errors_New "x509: certificate signed by unknown authority")
    end;
  ParsePKCS1PrivateKey := fun s => Ok s;
  ParsePKCS8PrivateKey := fun s => Ok (OtherKey s);
  ParseECPrivateKey := fun s => Ok s;
  pem_Decode := pem_Decode (X509 := ToyX509.toy);
  pem_EncodeToMemory := pem_EncodeToMemory (X509 := ToyX509.toy);
  X509KeyPair := fun certs key => Ok (certs, key)
|}.

Definition read (f : string) : res string :=
  if bool_decide (f = "chain.pem") then Ok ToyX509.chain_file
  else if bool_decide (f = "root.pem") then Ok (demo_block "CERTIFICATE" "CA1")
  else Err (errors_New "no such file").
End ToyRoots.

Lemma validate_pem_file_roots_witness :
  validatePEMFile (X := ToyRoots.toy_roots) (Ok ["CA1"]) ToyRoots.read id "chain.pem" "root.pem" = None /\
  exists e, validatePEMFile (X := ToyRoots.toy_roots) (Ok ["CA1"]) ToyRoots.read id "chain.pem" "" = Some e.
Proof.
  split; [by vm_compute|].
  apply (validate_pem_file_roots (X := ToyRoots.toy_roots) (Ok ["CA1"]) ToyRoots.read id "chain.pem" "").
  intros c o Ho. simpl. rewrite Ho. by eexists.
Defined.
