(* ===== verification/Servers.v ===== *)
(** * The servers of the commands

Models [RedirectPort80] of redirect.go, the redirect and certificate manager
servers of cmd/acme ([redirect.go], [cert_manager.go]), as compositions of the
packages they call.  What a server returns once it runs, and the outcomes of
system calls, are parameters. *)

From S2P Require Import Prelude GoStrings GoEncoding GoErrors GoHTTP GoNet GoTime GoURL GoMux GoRedirect Redirect ServerConfig Shutdown Certs CertCache Acme Commands.

Section servers.
Context {Cfg Listener AddrPort Ctx : Type}.
Variable ParseAddrDefaultPort : string -> string -> res AddrPort.
Variable HTTPServerAddr : AddrPort -> string.
Variable Listen : string -> string -> res Listener.

(** ** redirect.go: RedirectPort80 *)

(** The mux that the server on port 80 serves in the background. *)
Definition RedirectPort80 (ctx : Ctx) (redirects : list (string * Redirect)) : go (res (list (list pseg * Redirect))) :=
  mux ← mux_Handle redirects [];
  Ret (match NewHTTPServer (Cfg := Cfg) ParseAddrDefaultPort HTTPServerAddr Listen ctx ":80" mux with
       | Err e => Err e
       | Ok (_, srv) => Ok (srv_Handler srv)
       end).

(** ** cmd/acme/redirect.go *)

(** [tlsCfg] is the configuration made from the certificate store. *)
Definition acme_redirects (acmeClientHost address : string) : list (string * Redirect) :=
  [(ACMEHTTP01Prefix, RedirectAcmeHTTP01 acmeClientHost);
   ("/", RedirectToHTTPSPort address)].

Definition hello_handler (w : rw) : rw := Write ("hello" +:+ LF) w.
Definition hello_mux : list (list pseg * (rw -> rw)) := [(parsePattern "/", hello_handler)].

(** [newStore] is the outcome of [newCertStore], [serve] that of
    [ServeTLSWithShutdown]; the result has the handler of port 80 once it is
    served. *)
Definition redirect (ctx : Ctx) (acmeClientHost : string) (cl : HTTPServerFlags) (newStore : res unit)
    (tlsCfg : res Cfg) (serve : Server (Handler := list (list pseg * (rw -> rw))) (Cfg := Cfg) (Ctx := Ctx) -> option error)
  : go (option error * option (list (list pseg * Redirect))) :=
  if Nat.eqb (slen acmeClientHost) 0 then Ret (Some (errors_New "must specific a target for the acme client"), None)
  else
    let cfg := HTTPServerFlags_HTTPServerConfig cl in
    port80 ← RedirectPort80 ctx (acme_redirects acmeClientHost (sc_Address cfg));
    Ret (match port80 with
         | Err e => (Some e, None)
         | Ok mux =>
             match newStore with
             | Err e => (Some e, Some mux)
             | Ok _ =>
                 match tlsCfg with
                 | Err e => (Some e, Some mux)
                 | Ok c =>
                     match NewTLSServer ParseAddrDefaultPort HTTPServerAddr Listen ctx (f_Address cl)
                             hello_mux (Some c) with
                     | Err e => (Some e, Some mux)
                     | Ok (_, srv) => (serve srv, Some mux)
                     end
                 end
             end
         end).

(** ** cmd/acme/cert_manager.go *)

Record certManagerFlags := mkManagerFlags {
  mf_ClientHost : string; mf_Service : ServiceFlags; mf_TestingCAPEM : string; mf_Store : TLSCertStoreFlags;
  mf_AccountKeyAlias : string; mf_AWS : bool; mf_HTTPPort : Z; mf_RefreshInterval : Z; mf_Trace : bool
}.

Definition manager_hosts (cl : certManagerFlags) (args : list string) : list string := mf_ClientHost cl :: args.

Definition manager_store_options (cl : certManagerFlags) : list (CertCache.options -> CertCache.options) :=
  [WithReadonly false; WithSaveAccountKey (mf_AccountKeyAlias cl)].

(** The host policy in use: with another port than 80 it sees hosts without
    their port. *)
Definition manager_policy (cl : certManagerFlags) (HostPolicy : string -> option error) : string -> option error :=
  if negb (mf_HTTPPort cl =? 80)%Z then WrapHostPolicyNoPort HostPolicy else HostPolicy.

(** Requests that are not challenges are refused. *)
Definition manager_fallback (w : rw) : rw := WriteHeader 403 w.

Definition manager_addr (cl : certManagerFlags) : string :=
  ":" +:+ (if (mf_HTTPPort cl <? 0)%Z then "-" else "") +:+ fmt_uint false 10 (Z.abs_N (mf_HTTPPort cl)).

(** The parameters are, in order: the outcomes of the store, the manager and the
    HTTP client; the server on a port; whether it was reached; what the server
    returns; the start of the refresh client and what stopping it returns. *)
Definition manageCerts {TLSCert HTTPClient : Type} (newStore : list (CertCache.options -> CertCache.options) -> res unit)
    (newManager : AutocertConfig -> list string -> res (Manager TLSCert))
    (newClient : bool -> string -> res HTTPClient) (newServer : string -> res Listener)
    (wait : option error) (served : option error) (start : Acme.Client TLSCert -> list string -> option error)
    (stopped : option error) (cl : certManagerFlags) (args : list string) : option error :=
  match newStore (manager_store_options cl) with
  | Err e => Some e
  | Ok _ =>
  match newManager (ServiceFlags_AutocertConfig (mf_Service cl)) (manager_hosts cl args) with
  | Err e => Some e
  | Ok mgr =>
  match newClient (mf_Trace cl) (mf_TestingCAPEM cl) with
  | Err e => Some (Errorf "failed to create acme manager http client: %w" [] [e])
  | Ok _ =>
  match newServer (manager_addr cl) with
  | Err e => Some e
  | Ok _ =>
  match wait with
  | Some e => Some (Errorf "http server failed to start: %w" [] [e])
  | None =>
      match start (NewClient mgr [WithRefreshInterval (mf_RefreshInterval cl)]) args with
      | Some e => Some (Errorf "failed to start acme client: %w" [] [e])
      | None => group_Wait [served; stopped]
      end
  end end end end end.

(** ** Routing on port 80 *)

(** The mux answers a request with one of its redirects, its log record
    included; [None] when the mux itself redirects the request. *)
Definition port80_ServeHTTP (ip_literal : string -> bool) (mux : list (list pseg * Redirect)) (w : rw) (req : Request)
  : option (go (rw * option (list string))) :=
  match findHandler mux req with
  | Served r => Some (Redirect_Handler ip_literal r w req)
  | NoHandler => Some (Ret (http_NotFound w, None))
  | MovedByMux => None
  end.

(** A path below that of the ACME challenges, however its segments are escaped. *)
Definition challenge_path (path : string) : bool :=
  match path_segments path with
  | s1 :: s2 :: _ :: _ => bool_decide (s1 = ".well-known") && bool_decide (s2 = "acme-challenge")
  | _ => false
  end.

(** The directory of the challenges itself, without its slash. *)
Definition challenge_dir (path : string) : bool :=
  bool_decide (path_segments path = [".well-known"; "acme-challenge"]).

Lemma redirect_mux ctx acmeClientHost cl newStore tlsCfg serve err mux :
  redirect ctx acmeClientHost cl newStore tlsCfg serve = Ret (err, Some mux) ->
  acmeClientHost <> "" /\
  mux = [(parsePattern ACMEHTTP01Prefix, RedirectAcmeHTTP01 acmeClientHost);
         (parsePattern "/", RedirectToHTTPSPort (f_Address cl))].
Proof.
  unfold redirect. destruct (Nat.eqb_spec (slen acmeClientHost) 0) as [|Hne]; [done|].
  unfold RedirectPort80, acme_redirects. change (mux_Handle _ []) with
    (Ret [(parsePattern ACMEHTTP01Prefix, RedirectAcmeHTTP01 acmeClientHost);
          (parsePattern "/", RedirectToHTTPSPort (sc_Address (HTTPServerFlags_HTTPServerConfig cl)))]).
  cbn [mbind go_bind]. unfold NewHTTPServer, newServer. destruct (ParseAddrDefaultPort ":80" "http"); [|done].
  destruct (Listen _ _); [|done]. simpl srv_Handler. intros Hr. split; [by intros ->|].
  repeat (case_match; simplify_eq/=); done.
Qed.

End servers.

Section routing.
Context {Handler : Type}.
Variable challenge other : Handler.
Definition port80_mux : list (list pseg * Handler) :=
  [(parsePattern ACMEHTTP01Prefix, challenge); (parsePattern "/", other)].

Lemma port80_match path :
  match_mux port80_mux path =
    if challenge_path path then Some (parsePattern ACMEHTTP01Prefix, challenge)
    else if bool_decide (path = "") then None else Some (parsePattern "/", other).
Proof.
  unfold match_mux, challenge_path. pose proof (path_segments_nil path) as Hn.
  destruct (path_segments path) as [|s1 segs]; [by rewrite bool_decide_true by (by apply Hn)|].
  rewrite (bool_decide_false (path = "")) by (intros H; by apply Hn in H). clear Hn.
  set (a := (parsePattern ACMEHTTP01Prefix, challenge)). set (b := (parsePattern "/", other)).
  change (map _ port80_mux) with [([Lit ".well-known"; Lit "acme-challenge"; Multi], a); ([Multi], b)].
  cbn [matchPath]. autorewrite with mux_rw. case_bool_decide as H1.
  2:{ rewrite matchPath_nil. destruct segs as [|? [|]]; rewrite ?bool_decide_false by congruence; reflexivity. }
  subst s1. destruct segs as [|s2 [|s3 segs]]; [done| |]; cbn [matchPath]; autorewrite with mux_rw.
  - by case_bool_decide.
  - rewrite (bool_decide_true (".well-known" = ".well-known")) by done. cbn [andb]. case_bool_decide as H2.
    + subst s2. autorewrite with mux_rw. by rewrite bool_decide_true.
    + autorewrite with mux_rw. by rewrite bool_decide_false by congruence.
Qed.

(** When the mux redirects a clean path itself: only the directory of the
    challenges lacks a slash. *)
Lemma port80_slash path :
  HasPrefix path "/" = true -> slash_redirect port80_mux path = challenge_dir path.
Proof.
  intros Hp. destruct path as [|c path]; [done|]. assert (c = slash) as ->.
  { apply HasPrefix_spec in Hp as [t Ht]. by injection Ht as ->. }
  unfold slash_redirect, challenge_dir. destruct (HasSuffix (String slash path) "/") eqn:Hs.
  { rewrite andb_false_r. symmetry. apply bool_decide_eq_false. intros H.
    apply last_path_segments in Hs. by rewrite H in Hs. }
  assert (Hc : Count (String slash path +:+ "/") "/" = S (length (path_segments (String slash path)))).
  { change (String slash path +:+ "/") with (String slash (path +:+ "/")). rewrite Count_segments.
    change (String slash (path +:+ "/")) with (String slash path +:+ "/"). rewrite path_segments_slash, length_app by done.
    simpl. lia. }
  assert (He : HasSuffix (String slash path +:+ "/") "/" = true) by apply HasSuffix_app.
  assert (Hx : forall p, p <> "" -> exactMatch (match_mux port80_mux p) p =
                 HasSuffix p "/" && Nat.eqb (if challenge_path p then 3 else 1) (Count p "/")).
  { intros p Hne. rewrite port80_match, (bool_decide_false (p = "")) by done.
    destruct (challenge_path p); by rewrite exactMatch_multi. }
  rewrite !Hx, Hs, Hc, He by done. cbn [andb negb]. unfold challenge_path. rewrite path_segments_slash by done.
  pose proof (path_segments_nil (String slash path)) as Hn.
  destruct (path_segments (String slash path)) as [|s1 [|s2 [|s3 segs]]]; cbn [app length].
  - by apply proj1 in Hn; discriminate Hn.
  - symmetry. by apply bool_decide_eq_false.
  - repeat case_bool_decide; simplify_eq; naive_solver.
  - rewrite (bool_decide_false (_ :: _ = _)) by done. by destruct (_ && _).
Qed.

(** Every request for a clean path but the directory of the challenges is
    served by one of the two. *)
Lemma port80_findHandler req :
  r_Method req <> "CONNECT" -> let path := EscapedPath (r_URL req) in
  cleanPath path = path -> HasPrefix path "/" = true ->
  findHandler port80_mux req =
    if challenge_dir path then MovedByMux else Served (if challenge_path path then challenge else other).
Proof.
  intros Hm path Hc Hp. unfold findHandler. rewrite (bool_decide_false (_ = "CONNECT")) by done. fold path.
  rewrite Hc, port80_slash, (bool_decide_true (path = path)) by done. destruct (challenge_dir path); [done|].
  cbn [negb andb]. rewrite port80_match, (bool_decide_false (path = "")) by (by destruct path).
  by destruct (challenge_path path).
Qed.

End routing.

Section answers.
Context {Cfg Listener AddrPort Ctx : Type}.
Variable ParseAddrDefaultPort : string -> string -> res AddrPort.
Variable HTTPServerAddr : AddrPort -> string.
Variable Listen : string -> string -> res Listener.
Abbreviation redirect := (redirect (Cfg := Cfg) (Ctx := Ctx) ParseAddrDefaultPort HTTPServerAddr Listen).

(** C33 What the redirect command answers on port 80. Once its server runs, a
    request for a clean path, but not of method CONNECT, that names a host in
    any form is answered as follows. Below the path of the ACME challenges,
    whatever its escaping, it is answered 307 with the same path on the host of
    the ACME client, so that the challenge reaches the certificate manager;
    without the slash of that path the mux redirects it; every other one is
    answered 301 with the https URL that has the host of the request (that of
    the address if it has none), the port of the address (443 if it has none),
    and the path and the query of the request. *)
Theorem port80_answers ip ctx acmeClientHost cl newStore tlsCfg serve err mux ahost aport host req w :
  redirect ctx acmeClientHost cl newStore tlsCfg serve = Ret (err, Some mux) ->
  str_forallb host_byte acmeClientHost = true ->
  no_brackets ahost -> no_brackets aport -> has_byte aport COLON = false -> no_brackets host ->
  str_forallb host_byte ahost = true -> str_forallb host_byte aport = true -> str_forallb host_byte host = true ->
  (f_Address cl = JoinHostPort ahost aport \/ f_Address cl = ahost /\ aport = "" /\ has_byte ahost COLON = false) ->
  names_host (r_Host req) host -> origin_form (r_URL req) -> fresh w ->
  r_Method req <> "CONNECT" -> let path := EscapedPath (r_URL req) in cleanPath path = path ->
  if challenge_dir path then port80_ServeHTTP ip mux w req = None
  else exists w' record location,
    port80_ServeHTTP ip mux w req = Some (Ret (w', record)) /\
    unescape location encodePath = Ok (r_Path req) /\
    if challenge_path path then
      final_status w' = StatusTemporaryRedirect /\
      Header_Get (final_header w') "Location" = "http://" +:+ acmeClientHost +:+ location
    else exists authority,
      final_status w' = StatusMovedPermanently /\
      Header_Get (final_header w') "Location" = "https://" +:+ authority +:+ location +:+
        hexEscapeNonASCII (if u_ForceQuery (r_URL req) || nonempty (r_Query req) then "?" +:+ r_Query req else "") /\
      SplitHostPort authority = Ok (if bool_decide (host = "") then ahost else host,
                                    if bool_decide (aport = "") then "443" else aport).
Proof.
  intros Hr Hab Ha Hp Hpc Hh Hahb Hpb Hhb Haddr Hreq Hu Hf Hm path Hc.
  apply redirect_mux in Hr as [Hne ->]. assert (Hroot : HasPrefix path "/" = true) by apply Hu.
  unfold port80_ServeHTTP. change [(_, ?a); (_, ?b)] with (port80_mux a b). rewrite port80_findHandler by done. fold path.
  destruct (challenge_dir path); [done|]. destruct (challenge_path path).
  - destruct (RedirectAcmeHTTP01_target ip acmeClientHost req w Hne Hab (rooted_path _ Hroot) Hf)
      as (loc & w' & record & -> & Hs & Hl & Hun). by exists w', (Some record), loc.
  - destruct (RedirectToHTTPSPort_target ip ahost aport (f_Address cl) host req w) as (authority & loc & w' & -> & Hs & Hl & Hsp & Hun);
      [done..|]. exists w', None, loc. split_and!; [done..|]. by exists authority.
Qed.

End answers.

(** The redirected challenge names the host of the ACME client, with the port of
    its server if that is not 80. The certificate manager on that host answers
    it: the host is one of those its policy allows, as [manageCerts] adds it to
    the hosts that certificates are managed for. *)
Section policy.
(** [autocert.HostWhitelist] *)
Variable HostWhitelist : list string -> string -> option error.
Hypothesis HostWhitelist_allows : forall hosts host, host ∈ hosts -> HostWhitelist hosts host = None.

Lemma manager_allows_client cl args port :
  no_brackets (mf_ClientHost cl) -> has_byte (mf_ClientHost cl) COLON = false ->
  no_brackets port -> has_byte port COLON = false ->
  let policy := manager_policy cl (HostWhitelist (manager_hosts cl args)) in
  policy (mf_ClientHost cl) = None /\
  (mf_HTTPPort cl <> 80%Z -> policy (JoinHostPort (mf_ClientHost cl) port) = None).
Proof.
  intros Hh Hc Hp Hpc policy.
  assert (Ha : HostWhitelist (manager_hosts cl args) (mf_ClientHost cl) = None) by (apply HostWhitelist_allows; by left).
  unfold policy, manager_policy. split.
  - destruct (negb _); [|done]. unfold WrapHostPolicyNoPort. by destruct (SplitHostPort_no_colon _ Hc) as [e ->].
  - intros Hne. rewrite (proj2 (Z.eqb_neq _ _) Hne). unfold WrapHostPolicyNoPort. simpl. by rewrite Split_JoinHostPort.
Qed.

End policy.

(** A server for host certs.an.example and the port 8443. *)
Definition demo_redirect : go (option error * option (list (list pseg * Redirect))) :=
  redirect (Cfg := unit) (Ctx := unit) (fun a _ => Ok a : res string) id (fun _ _ => Ok tt : res unit) tt "certs.an.example"
    (mkServerFlags "10.0.0.1:8443" (mkCertFlags "" "")) (Ok tt) (Ok tt) (fun _ => None).

Definition demo_get (host raw path : string) : Request :=
  mkReq "GET" (mkURL "" "" None "" path raw false "x=1" "" "" false) host ∅ [] "" 0 None None.

(** A challenge whose path has an escaped byte, and another request. *)
Lemma port80_answers_witness :
  exists mux w1 w2 record1 record2 loc1 loc2 authority, demo_redirect = Ret (None, Some mux) /\
    port80_ServeHTTP (fun _ => true) mux new_rw
      (demo_get "an.example" "/.well-known/acme%2dchallenge/tok" "/.well-known/acme-challenge/tok") = Some (Ret (w1, record1)) /\
    final_status w1 = StatusTemporaryRedirect /\
    Header_Get (final_header w1) "Location" = "http://certs.an.example" +:+ loc1 /\
    unescape loc1 encodePath = Ok "/.well-known/acme-challenge/tok" /\
    port80_ServeHTTP (fun _ => true) mux new_rw (demo_get "[::1]:80" "" "/a/b") = Some (Ret (w2, record2)) /\
    Header_Get (final_header w2) "Location" = "https://" +:+ authority +:+ loc2 +:+ "?x=1" /\
    SplitHostPort authority = Ok ("::1", "8443").
Proof.
  assert (exists mux, demo_redirect = Ret (None, Some mux)) as [mux Hr] by (by eexists).
  assert (Hn : forall s, has_byte s LBRACK = false -> has_byte s RBRACK = false -> no_brackets s) by (by split).
  destruct (port80_answers _ _ _ (fun _ => true) _ _ _ _ _ _ _ mux "10.0.0.1" "8443" "an.example"
    (demo_get "an.example" "/.well-known/acme%2dchallenge/tok" "/.well-known/acme-challenge/tok") new_rw Hr)
    as (w1 & record1 & loc1 & H1 & Hu1 & H2 & H3);
    [by vm_compute|by apply Hn|by apply Hn|done|by apply Hn|by vm_compute|by vm_compute|by vm_compute|by left
    |by right; left|by split_and!|exact new_rw_fresh|done|by vm_compute|].
  destruct (port80_answers _ _ _ (fun _ => true) _ _ _ _ _ _ _ mux "10.0.0.1" "8443" "::1"
    (demo_get "[::1]:80" "" "/a/b") new_rw Hr) as (w2 & record2 & loc2 & H4 & _ & authority & _ & H5 & H6);
    [by vm_compute|by apply Hn|by apply Hn|done|by apply Hn|by vm_compute|by vm_compute|by vm_compute|by left
    |by left; exists "80"; split; [apply Hn|]|by split_and!|exact new_rw_fresh|done|by vm_compute|].
  exists mux, w1, w2, record1, record2, loc1, loc2, authority. by split_and!.
Defined.
