(* ===== verification/RedirectCheck.v ===== *)
(** * The redirect check against the server on port 80

The redirect check of testwebapp ([WebChecks]) and the redirects of port 80
([Servers]) meet here: the transport of the client is the mux of the redirect
command, with the requests that a server receives for the URLs of the specs. *)

From S2P Require Import Prelude GoStrings GoErrors GoURL GoNet GoMux GoHTTP GoRedirect GoClient GoEncoding Redirect ServerConfig Servers WebChecks EndToEnd.

Section check.
Variable transport : list string -> string -> res Response.
Variable url_Parse : string -> string -> res string.
Variable NewRequest : string -> option error.
Variable fuel : nat.

(** One answer: a check of a URL that is redirected makes one request, and passes
    exactly when the code and the location are those of the spec. *)
Lemma redirect_verify_answer client spec hist w loc next :
  (0 < fuel)%nat -> NewRequest (rs_URL spec) = None -> transport hist (rs_URL spec) = Ok (response_of w) ->
  redirectBehavior (final_status w) = true -> Header_Get (final_header w) "Location" = loc -> loc <> "" ->
  url_Parse (rs_URL spec) loc = Ok next ->
  exists err, redirect_verify transport url_Parse NewRequest fuel (ClientNoRedirect client) spec hist =
      Some (err, hist ++ [rs_URL spec]) /\
    (err = None <-> final_status w = rs_Code spec /\ loc = rs_Target spec).
Proof.
  intros Hf Hn Ht Hb Hl Hne Hp. unfold redirect_verify. rewrite Hn. unfold do, Do. rewrite no_redirect_follow by done.
  cbn [follow]. rewrite Ht. unfold redirect_of. cbn [resp_StatusCode resp_Header response_of]. rewrite Hb, Hl.
  rewrite bool_decide_false by done. rewrite Hp. cbn [fst snd resp_StatusCode resp_Header response_of]. rewrite Hl.
  eexists. split; [reflexivity|]. destruct (Z.eqb_spec (final_status w) (rs_Code spec)) as [E|E]; cbn [negb].
  - case_bool_decide; naive_solver.
  - naive_solver.
Qed.

Variable ip_literal : string -> bool.
Variable mux : list (list pseg * Redirect).

(** The URL of a spec is one of a server on port 80 with the redirects [mux]: the
    answer to the request that it receives for the URL is a redirect [w]. *)
Definition redirected (spec : RedirectSpec) (w : rw) : Prop :=
  NewRequest (rs_URL spec) = None /\
  exists u record, Parse ip_literal (rs_URL spec) = Ok u /\
    port80_ServeHTTP ip_literal mux new_rw (received u) = Some (Ret (w, record)) /\
    (forall hist, transport hist (rs_URL spec) = Ok (response_of w)) /\
    redirectBehavior (final_status w) = true /\
    let loc := Header_Get (final_header w) "Location" in loc <> "" /\ exists next, url_Parse (rs_URL spec) loc = Ok next.

(** [RedirectTest.Run] makes one request per spec, and passes exactly when every
    spec has the code and the location that the server answers. *)
Lemma redirect_checks_port80 fmt_spec client specs ws hist :
  (0 < fuel)%nat -> Forall2 redirected specs ws ->
  exists err, RedirectTest_Run transport url_Parse NewRequest fuel fmt_spec client specs hist =
      Some (err, map (fun spec => hist ++ [rs_URL spec]) specs) /\
    (err = None <-> Forall2 (fun spec w => final_status w = rs_Code spec /\
                               Header_Get (final_header w) "Location" = rs_Target spec) specs ws).
Proof.
  intros Hf HF. unfold RedirectTest_Run.
  enough (H : exists errs, mapM (fun spec => r ← redirect_verify transport url_Parse NewRequest fuel (ClientNoRedirect client) spec hist;
      Some (match r.1 with Some e => Some (Errorf "%v: %w" [fmt_spec spec] [e]) | None => None end, r.2)) specs =
        Some (zip errs (map (fun spec => hist ++ [rs_URL spec]) specs)) /\ length errs = length specs /\
      (Forall (fun e => e = None) errs <-> Forall2 (fun spec w => final_status w = rs_Code spec /\
                               Header_Get (final_header w) "Location" = rs_Target spec) specs ws)).
  { destruct H as (errs & -> & Hlen & Hiff). eexists. simpl.
    change (map fst (zip errs ?l)) with ((zip errs l).*1). change (map snd (zip errs ?l)) with ((zip errs l).*2).
    rewrite fst_zip, snd_zip by (rewrite length_map; lia). split; [reflexivity|]. by rewrite group_Wait_None. }
  induction HF as [|spec w specs ws (Hn & u & record & _ & _ & Ht & Hb & Hne & next & Hp) _ (errs & Hm & Hlen & Hiff)].
  - exists []. split; [done|]. split; [done|]. split; constructor.
  - destruct (redirect_verify_answer client spec hist w _ next Hf Hn (Ht hist) Hb eq_refl Hne Hp) as (err & Hv & He).
    exists (match err with Some e => Some (Errorf "%v: %w" [fmt_spec spec] [e]) | None => None end :: errs).
    split; [|split; [by simpl; rewrite Hlen|]].
    + simpl. rewrite Hv. simpl. by rewrite Hm.
    + rewrite Forall_cons, Hiff. split.
      * intros [H1 H2]. constructor; [|done]. apply He. by destruct err.
      * intros [H1 H2]%Forall2_cons. split; [|done]. apply He in H1. by subst err.
Qed.

End check.

(** A deployed server and the specs of a page and of a challenge. *)
Definition demo_transport (hist : list string) (url : string) : res Response :=
  match demo_redirect, Parse (fun _ => true) url with
  | Ret (_, Some mux), Ok u =>
      match port80_ServeHTTP (fun _ => true) mux new_rw (received u) with
      | Some (Ret (w, _)) => Ok (response_of w)
      | _ => Err (errors_New "moved")
      end
  | _, _ => Err (errors_New "unreachable")
  end.

Example demo_redirect_checks :
  let run target := RedirectTest_Run demo_transport (fun _ loc => Ok loc) (fun _ => None) 1 rs_URL None
    [mkRedirect "http://an.example/a/b?x=1" target 301;
     mkRedirect "http://an.example/.well-known/acme-challenge/tok" "http://certs.an.example/.well-known/acme-challenge/tok" 307] [] in
  option_map fst (run "https://an.example:8443/a/b?x=1") = Some None /\
  option_map fst (run "https://an.example/a/b?x=1") <> Some None.
Proof. split; vm_compute; [reflexivity|discriminate]. Qed.
