(* ===== verification/DevServer.v ===== *)
(** * devserver: development servers and their URLs

Models [devserver.go], [vite.go] and [webpack.go].  The process and the line
filter are the sequence of what the waiting loop receives; regular expressions
are match functions, the default ones are literals. *)

From S2P Require Import Prelude GoStrings GoErrors GoURL.

(** [bytes.LastIndex(line, " ")]: the text before and after the last space. *)
Fixpoint cut_last_space (s : string) : option (string * string) :=
  match s with
  | "" => None
  | String c s' =>
      match cut_last_space s' with
      | Some (a, b) => Some (String c a, b)
      | None => if bool_decide (c = " "%char) then Some ("", s') else None
      end
  end.

Section extract.
Variable ip_literal : string -> bool.

Definition extractURLAtLastSpace (line : string) : res URL :=
  match cut_last_space line with
  | None => Err (Errorf "malformed line: %s" [line] [])
  | Some (_, u) => if bool_decide (u = "") then Err (Errorf "malformed line: %s" [line] []) else Parse ip_literal u
  end.

(** The result of an extractor: [None] for a line without a URL. *)
Definition URLExtractor := string -> option (res URL).

Definition webpackHostRE (line : string) : bool := Contains line "Local:".

(** The bytes of a right arrow, two spaces and the word. *)
Definition viteHostRE (line : string) : bool :=
  Contains line (String "226" (String "158" (String "156" "  Local:"))).

Definition NewWebpackURLExtractor (re : option (string -> bool)) : URLExtractor :=
  let re := default webpackHostRE re in
  fun line => if negb (re line) then None else Some (extractURLAtLastSpace line).

Definition NewViteURLExtractor (re : option (string -> bool)) : URLExtractor :=
  let re := default viteHostRE re in
  fun line => if negb (re line) then None else Some (extractURLAtLastSpace line).

(** ** The server *)

Record DevServer := mkDevServer { ds_dir : string; ds_binary : string; ds_args : list string; ds_closer : bool }.

Definition NewServer (dir binary : string) (args : list string) : DevServer := mkDevServer dir binary args false.

(** What the [select] of the loop receives. *)
Inductive dev_event := CtxDone (e : error) | OutputLine (line : string).

(** [None]: the events end while the loop waits. *)
Fixpoint wait_for_url (extractor : URLExtractor) (events : list dev_event) : option (res URL) :=
  match events with
  | [] => None
  | CtxDone e :: _ => Some (Err e)
  | OutputLine line :: events' =>
      match extractor line with
      | None => wait_for_url extractor events'
      | Some r => Some r
      end
  end.

(** [start] is the error of starting the command. *)
Definition StartAndWaitForURL (start : option error) (extractor : URLExtractor) (events : list dev_event) (ds : DevServer)
  : option (res URL) * DevServer :=
  let ds := mkDevServer (ds_dir ds) (ds_binary ds) (ds_args ds) true in
  match start with
  | Some e => (Some (Err (Errorf "failed to start dev server %q in %q: %w" [ds_binary ds; ds_dir ds] [e])), ds)
  | None => (wait_for_url extractor events, ds)
  end.

(** Whether the output filter is closed. *)
Definition Close (ds : DevServer) : bool := ds_closer ds.

(** *** What is found *)

Lemma cut_last_space_app a b :
  Contains b " " = false -> cut_last_space (a +:+ " " +:+ b) = Some (a, b).
Proof.
  intros Hb.
  assert (Hn : cut_last_space b = None).
  { induction b as [|c b IH]; [done|]. simpl. rewrite IH.
    - case_bool_decide as Hc; [|done]. subst. exfalso.
      enough (Contains (String " "%char b) " " = true) by congruence.
      apply Contains_spec. by exists "", b.
    - apply not_true_iff_false. intros (x & y & Hxy)%Contains_spec.
      enough (Contains (String c b) " " = true) by congruence.
      apply Contains_spec. exists (String c x), y. simpl. by rewrite Hxy. }
  induction a as [|c a IH]; simpl; [by rewrite Hn|].
  change (String.append a (String " "%char b)) with (a +:+ " " +:+ b). by rewrite IH.
Qed.

(** The URL after the last space of the first line that matches, whatever lines
    come before and after it. *)
Lemma StartAndWaitForURL_first re before label u after ds :
  Forall (fun l => re l = false) before -> re (label +:+ " " +:+ u) = true -> u <> "" -> Contains u " " = false ->
  (StartAndWaitForURL None (NewWebpackURLExtractor (Some re))
     (map OutputLine before ++ OutputLine (label +:+ " " +:+ u) :: after) ds).1 = Some (Parse ip_literal u).
Proof.
  intros Hb Hre Hu Hs. unfold StartAndWaitForURL. cbn [fst].
  assert (Hx : forall l, NewWebpackURLExtractor (Some re) l = if negb (re l) then None else Some (extractURLAtLastSpace l))
    by done.
  induction Hb as [|l before Hl _ IH]; cbn [map app wait_for_url]; rewrite Hx.
  - rewrite Hre. cbn [negb]. unfold extractURLAtLastSpace. by rewrite cut_last_space_app, bool_decide_false.
  - rewrite Hl. apply IH.
Qed.

End extract.
