(* ===== verification/WebApp.v ===== *)
(** * cmd/webapp: the sample web application

Models [cmd/webapp/webapp.go]: the production server, which serves embedded
assets, and the development server, which serves them or proxies a development
server.  A router is the list of what is registered with it; how go-chi chooses
among it is an interface with its documented behaviour; what serving returns is
a parameter. *)

From S2P Require Import Prelude GoStrings GoErrors GoPath GoHTTP Redirect ServerConfig Certs WebAssets GoFileServer Servers DevServer GoURL GoMux.

(** ** Routes *)

(** What a route serves: the greeting of the API, files of the assets, the index
    page, or what another server answers. *)
Inductive content := Hello | StaticFiles | IndexPage | ProxyTo (url : URL).

(** The routes, with a method when they are for one, and the handler of all other
    requests. *)
Record router := mkRouter { rt_routes : list (option string * string * content); rt_notFound : option content }.

Definition NewRouter : router := mkRouter [] None.
Definition router_Handle (meth : option string) (pattern : string) (c : content) (r : router) : router :=
  mkRouter (rt_routes r ++ [(meth, pattern, c)]) (rt_notFound r).
Definition router_NotFound (c : content) (r : router) : router := mkRouter (rt_routes r) (Some c).

Definition configureAPIEndpoints (r : router) : router := router_Handle (Some "GET") "/hello" Hello r.

Definition serveContent (r : router) : router :=
  router_NotFound IndexPage (router_Handle None "/static/*" StaticFiles r).

(** The public path is not used. *)
Definition routeToProxy (r : router) (_ : string) (url : URL) : router :=
  let r := router_Handle (Some "GET") "/sockjs-node" (ProxyTo url) r in
  let r := router_Handle (Some "POST") "/sockjs-node" (ProxyTo url) r in
  let r := router_Handle (Some "GET") "/" (ProxyTo url) r in
  router_NotFound (ProxyTo url) r.

(** The handlers. *)
Section assets.
Variable reloadfs_New : string -> string -> FS hfile -> Z -> bool -> FS hfile.
Variable webpackedAssets : FS hfile.
(** What the file server of net/http is given. *)
Variable dirList : hfile -> rw -> rw.
Variable ParseTime : string -> option Z.
Variable multipart : list httpRange -> string -> string.
(** [httputil.NewSingleHostReverseProxy] *)
Variable proxy : URL -> Request -> rw -> rw.

Definition app_assets : FS hfile := NewAssets reloadfs_New "webapp-sample/build/" webpackedAssets [].

Definition serveIndexHTML (fsys : FS hfile) (req : Request) (w : rw) : rw :=
  FileServer (SameFile_Open (NewSameFileHTTPFilesystem fsys "index.html")) dirList ParseTime multipart req w.

Definition serve_static (fsys : FS hfile) (req : Request) (w : rw) : rw :=
  FileServer (http_FS fsys) dirList ParseTime multipart req w.

Definition serve_hello (_ : Request) (w : rw) : rw := Write ("hello" +:+ LF) w.

(** The handler that is registered for a content. *)
Definition handler (c : content) : Request -> rw -> rw :=
  match c with
  | Hello => serve_hello
  | StaticFiles => serve_static app_assets
  | IndexPage => serveIndexHTML app_assets
  | ProxyTo url => proxy url
  end.

End assets.

(** ** go-chi *)

(** The methods that go-chi knows. *)
Definition chi_methods : list string :=
  ["CONNECT"; "DELETE"; "GET"; "HEAD"; "OPTIONS"; "PATCH"; "POST"; "PUT"; "TRACE"].

(** A pattern without parameters matches its own path, and with a star at its end
    the paths that it is a prefix of. *)
Definition pattern_matches (pattern path : string) : bool :=
  if HasSuffix pattern "*" then HasPrefix path (TrimSuffix pattern "*") else bool_decide (path = pattern).
Definition accepts (meth : option string) (m : string) : bool :=
  match meth with Some m' => bool_decide (m' = m) | None => true end.
Definition plain_pattern (r : option string * string * content) : Prop := Contains r.1.2 "{" = false.

(** The path that is matched: the encoded one if its encoding is not the default. *)
Definition route_path (req : Request) : string :=
  if bool_decide (u_RawPath (r_URL req) = "") then r_Path req else u_RawPath (r_URL req).

(** [Mux.ServeHTTP], given the handlers of the contents: a route whose pattern and
    method match is served, when all those that match serve the same; a path that
    no pattern matches is for the handler given to [NotFound]; a path that is
    matched for other methods only, and a method that is not known, are not
    allowed. *)
Class ChiLaws (ServeHTTP : router -> (content -> Request -> rw -> rw) -> Request -> rw -> rw) : Prop := {
  chi_route : forall r h req w meth pattern c,
    Forall plain_pattern (rt_routes r) -> r_Method req ∈ chi_methods ->
    (meth, pattern, c) ∈ rt_routes r -> pattern_matches pattern (route_path req) = true -> accepts meth (r_Method req) = true ->
    (forall meth' pattern' c', (meth', pattern', c') ∈ rt_routes r -> pattern_matches pattern' (route_path req) = true ->
       accepts meth' (r_Method req) = true -> c' = c) ->
    ServeHTTP r h req w = h c req w;
  chi_NotFound : forall r h req w c,
    Forall plain_pattern (rt_routes r) -> r_Method req ∈ chi_methods ->
    Forall (fun x => pattern_matches x.1.2 (route_path req) = false) (rt_routes r) -> rt_notFound r = Some c ->
    ServeHTTP r h req w = h c req w;
  chi_MethodNotAllowed : forall r h req w,
    Forall plain_pattern (rt_routes r) -> r_Method req ∈ chi_methods ->
    Exists (fun x => pattern_matches x.1.2 (route_path req) = true) (rt_routes r) ->
    Forall (fun x => pattern_matches x.1.2 (route_path req) && accepts x.1.1 (r_Method req) = false) (rt_routes r) ->
    fresh w -> final_status (ServeHTTP r h req w) = StatusMethodNotAllowed;
  chi_unknown_method : forall r h req w,
    r_Method req ∉ chi_methods -> fresh w -> final_status (ServeHTTP r h req w) = StatusMethodNotAllowed
}.

(** ** The commands *)

Record WebpackFlags := mkWebpackFlags { WebpackDir : string; WebpackServer : string }.
Record ViteFlags := mkViteFlags { ViteDir : string; ViteServer : string }.
Record ProdServerFlags := mkProdFlags { pf_Server : HTTPServerFlags; pf_Certs : TLSCertConfig }.
Record DevServerFlags := mkDevFlags {
  df_Server : HTTPServerFlags; df_Webpack : WebpackFlags; df_Vite : ViteFlags; df_Assets : AssetsFlags
}.

Section commands.
Context {Cfg Listener AddrPort Ctx : Type}.
Variable ParseAddrDefaultPort : string -> string -> res AddrPort.
Variable HTTPServerAddr : AddrPort -> string.
Variable Listen : string -> string -> res Listener.
Variable ip_literal : string -> bool.
(** The error of starting the command of a development server and what its output
    loop receives. *)
Variable start : DevServer -> option error.
Variable output : DevServer -> list dev_event.

Definition webpack_server (webpackDir : string) : DevServer := NewServer webpackDir "yarn" ["start"].
Definition vite_server (viteDir : string) : DevServer := NewServer viteDir "npm" ["run"; "dev"; "--"; "--host"].

(** [None]: the development server has not printed its URL yet. *)
Definition runWebpackDevServer (webpackDir : string) : option (res URL) :=
  let ds := webpack_server webpackDir in
  (StartAndWaitForURL (start ds) (NewWebpackURLExtractor ip_literal None) (output ds) ds).1.

Definition runViteDevServer (viteDir : string) : option (res URL) :=
  let ds := vite_server viteDir in
  (StartAndWaitForURL (start ds) (NewViteURLExtractor ip_literal None) (output ds) ds).1.

(** The switch of [devServe]: the URL to proxy, or none for the assets; [None] while
    a development server starts. *)
Definition dev_source (cl : DevServerFlags) : option (option (res URL)) :=
  if Nat.ltb 0 (slen (WebpackServer (df_Webpack cl))) then Some (Some (Parse ip_literal (WebpackServer (df_Webpack cl))))
  else if Nat.ltb 0 (slen (WebpackDir (df_Webpack cl))) then
    match runWebpackDevServer (WebpackDir (df_Webpack cl)) with Some r => Some (Some r) | None => None end
  else if Nat.ltb 0 (slen (ViteServer (df_Vite cl))) then Some (Some (Parse ip_literal (ViteServer (df_Vite cl))))
  else if Nat.ltb 0 (slen (ViteDir (df_Vite cl))) then
    match runViteDevServer (ViteDir (df_Vite cl)) with Some r => Some (Some r) | None => None end
  else Some None.

(** [serve] is what serving the router returns; the router is part of the result
    when it is served. *)
Definition devServe (tlsConfig : HTTPServerConfig -> res Cfg) (newTLS : string -> Cfg -> res Listener)
    (serve : router -> option error) (cl : DevServerFlags) : option (option error * option router) :=
  let r := configureAPIEndpoints NewRouter in
  match tlsConfig (HTTPServerFlags_HTTPServerConfig (df_Server cl)) with
  | Err e => Some (Some e, None)
  | Ok cfg =>
      match newTLS (f_Address (df_Server cl)) cfg with
      | Err e => Some (Some e, None)
      | Ok _ =>
          match dev_source cl with
          | None => None
          | Some None => Some (serve (serveContent r), Some (serveContent r))
          | Some (Some (Ok url)) => Some (serve (routeToProxy r "/build/" url), Some (routeToProxy r "/build/" url))
          | Some (Some (Err e)) => Some (Some e, None)
          end
      end
  end.

(** The router, and the redirects on port 80 once they are served. *)
Definition prodServe (ctx : Ctx) (tlsConfig : HTTPServerConfig -> res Cfg) (newTLS : string -> Cfg -> res Listener)
    (serve : router -> option error) (cl : ProdServerFlags) : go (option error * option (router * list (list pseg * Redirect))) :=
  let r := serveContent (configureAPIEndpoints NewRouter) in
  match tlsConfig (HTTPServerFlags_HTTPServerConfig (pf_Server cl)) with
  | Err e => Ret (Some e, None)
  | Ok cfg =>
      match newTLS (f_Address (pf_Server cl)) cfg with
      | Err e => Ret (Some e, None)
      | Ok _ =>
          port80 ← RedirectPort80 (Cfg := Cfg) ParseAddrDefaultPort HTTPServerAddr Listen ctx
                     [("/", RedirectToHTTPSPort (f_Address (pf_Server cl)))];
          Ret (match port80 with
               | Err e => (Some e, None)
               | Ok mux => (serve r, Some (r, mux))
               end)
      end
  end.

(** A development server is proxied exactly when one is configured, webpack before
    vite and a running server before a directory; otherwise the assets are served. *)
Lemma devServe_content tlsConfig newTLS serve cl err r :
  devServe tlsConfig newTLS serve cl = Some (err, Some r) ->
  (Some "GET", "/hello", Hello) ∈ rt_routes r /\
  (forall e, dev_source cl <> Some (Some (Err e))) /\ err = serve r /\
  rt_notFound r = Some (match dev_source cl with Some (Some (Ok url)) => ProxyTo url | _ => IndexPage end).
Proof.
  unfold devServe. destruct (tlsConfig _); [|done]. destruct (newTLS _ _); [|done].
  destruct (dev_source cl) as [[[url|e]|]|]; [|done| |done]; intros [= <- <-]; split_and!; try done; by left.
Qed.

(** The flags for reloading assets have no effect. *)
Lemma devServe_ignores_reloading tlsConfig newTLS serve cl assets :
  devServe tlsConfig newTLS serve (mkDevFlags (df_Server cl) (df_Webpack cl) (df_Vite cl) assets) =
  devServe tlsConfig newTLS serve cl.
Proof. done. Qed.

(** The URL of a development server that is started is the one of the first line
    of its output that has one. *)
Lemma webpack_url dir before label u after :
  start (webpack_server dir) = None ->
  output (webpack_server dir) = map OutputLine before ++ OutputLine (label +:+ " " +:+ u) :: after ->
  Forall (fun l => webpackHostRE l = false) before -> webpackHostRE (label +:+ " " +:+ u) = true ->
  u <> "" -> Contains u " " = false ->
  runWebpackDevServer dir = Some (Parse ip_literal u).
Proof.
  intros Hs Ho Hb Hl Hu Hc. unfold runWebpackDevServer. rewrite Hs, Ho.
  apply (StartAndWaitForURL_first ip_literal webpackHostRE before label u after (webpack_server dir) Hb Hl Hu Hc).
Qed.

End commands.

(** ** The index page *)

Lemma localRedirect_fresh req p w : fresh w ->
  final_status (localRedirect req p w) = StatusMovedPermanently /\
  Header_Get (final_header (localRedirect req p w)) "Location" =
    (if bool_decide (r_Query req = "") then p else p +:+ "?" +:+ r_Query req).
Proof.
  intros Hf. unfold localRedirect. rewrite WriteHeader_fresh by (done || by apply on_header_fresh).
  split; [done|]. apply Header_Get_Set.
Qed.

Lemma last_char_inj a b c d : a +:+ String c "" = b +:+ String d "" -> c = d.
Proof.
  revert b. induction a as [|x a IH]; intros [|y b]; simpl; try congruence.
  - intros [= _ Hb]. by destruct b.
  - intros [= _ Ha]. by destruct a.
  - intros [= _ Hab]. eauto.
Qed.

Lemma index_not_slash path : HasSuffix path "/" = true -> HasSuffix path indexPage = false.
Proof.
  intros (t & ->)%HasSuffix_spec. apply not_true_iff_false. intros (t' & Ht)%HasSuffix_spec.
  change indexPage with ("/index.htm" +:+ "l") in Ht. rewrite <- app_str_assoc in Ht. by apply last_char_inj in Ht.
Qed.

(** A valid name is the path that it is opened by. *)
Lemma Clean_rooted name : ValidPath name = true -> name <> "." -> Clean ("/" +:+ name) = "/" +:+ name.
Proof.
  intros HV Hd. unfold ValidPath in HV. rewrite bool_decide_false in HV by done. simpl in HV. apply forallb_Forall in HV.
  unfold Clean. rewrite bool_decide_false by done. change (HasPrefix ("/" +:+ name) "/") with true. cbv zeta.
  rewrite (Split_slash "" name : Split ("/" +:+ name) "/" = _). unfold clean_elems. rewrite fold_left_app.
  change (fold_left (clean_step true) (Split "" "/") []) with (@nil string).
  rewrite (clean_plain _ _ [] HV), app_nil_r, rev_involutive, Join_Split by done. done.
Qed.

Lemma valid_no_slash name : ValidPath name = true -> HasSuffix ("/" +:+ name) "/" = false.
Proof.
  intros HV. apply not_true_iff_false. intros (t & Ht)%HasSuffix_spec. unfold ValidPath in HV.
  destruct (decide (name = ".")) as [->|Hd]; [by apply (last_char_inj "/" t) in Ht|].
  rewrite bool_decide_false in HV by done. simpl in HV. apply forallb_Forall in HV.
  destruct t as [|c t]; simpl in Ht; [injection Ht as ->|injection Ht as _ ->].
  - by inversion HV.
  - change (Split (t +:+ "/") "/") with (Split (t +:+ "/" +:+ "") "/") in HV. rewrite (Split_slash t "") in HV. apply Forall_app in HV as [_ HV]. by inversion HV.
Qed.

Section production.
Variable reloadfs_New : string -> string -> FS hfile -> Z -> bool -> FS hfile.
Variable fsys : FS hfile.
Variable dirList : hfile -> rw -> rw.
Variable ParseTime : string -> option Z.
Variable multipart : list httpRange -> string -> string.
Hypothesis ParseTime_empty : ParseTime "" = None.

Lemma app_assets_below name :
  ValidPath name = true -> name <> "." -> app_assets reloadfs_New fsys name = fsys ("webapp-sample/build/" +:+ name).
Proof.
  intros HV Hd. unfold app_assets, NewAssets. simpl. unfold relative_Open. simpl.
  rewrite join_below; [|by split_and!; [done|done|apply (bool_decide_unpack _); vm_compute]|done].
  unfold path_elems. rewrite bool_decide_false by done.
  change (base_elems "webapp-sample/build/" ++ Split name "/") with ("webapp-sample" :: "build" :: Split name "/").
  rewrite !Join_cons, Join_Split by (done || apply split_fuel_ne).
  by destruct (fsys _).
Qed.

(** What the file server answers with a file that it opens, or does not find, at a
    path of its own. *)
Lemma static_answer name req w :
  r_Path req = "/" +:+ name -> ValidPath name = true -> name <> "." -> HasSuffix (r_Path req) indexPage = false -> fresh w ->
  let w' := serve_static dirList ParseTime multipart (app_assets reloadfs_New fsys) req w in
  match fsys ("webapp-sample/build/" +:+ name) with
  | Ok f => f_IsDir f = false -> unconditional req ->
      final_status w' = StatusOK /\ rw_body w' = (if bool_decide (r_Method req = "HEAD") then "" else f_data f)
  | Err e => errors_is e fs_ErrNotExist = true -> final_status w' = StatusNotFound
  end.
Proof.
  intros Hp HV Hd Hi Hf w'. unfold w', serve_static, FileServer.
  assert (HasPrefix (r_Path req) "/" = true) as -> by (by rewrite Hp). unfold serveFile. rewrite r_Path_with_path, Hi, Hp.
  rewrite Clean_rooted by done.
  assert (http_FS (app_assets reloadfs_New fsys) ("/" +:+ name) = fsys ("webapp-sample/build/" +:+ name)) as ->.
  { rewrite <- app_assets_below by done. unfold http_FS. rewrite bool_decide_false; [done|].
    intros [= ->]. by vm_compute in HV. }
  destruct (fsys _) as [f|e].
  - intros Hn Hu. rewrite Hn, valid_no_slash by done. by apply (ServeContent_whole ParseTime multipart (with_path req ("/" +:+ name))).
  - intros He. unfold toHTTPError. rewrite He. by apply serveError_final.
Qed.

(** What the index handler answers: the page, a redirect, or 500. *)
Lemma index_answer data modtime req w :
  fsys "webapp-sample/build/index.html" = Ok (mkHFile false data modtime) -> fresh w -> HasPrefix (r_Path req) "/" = true ->
  let path := r_Path req in
  let w' := serveIndexHTML dirList ParseTime multipart (app_assets reloadfs_New fsys) req w in
  let location p := if bool_decide (r_Query req = "") then p else p +:+ "?" +:+ r_Query req in
  (HasSuffix path "/" = false -> HasSuffix path indexPage = false -> unconditional req ->
     final_status w' = StatusOK /\ rw_body w' = if bool_decide (r_Method req = "HEAD") then "" else data) /\
  (HasSuffix path indexPage = true ->
     final_status w' = StatusMovedPermanently /\ Header_Get (final_header w') "Location" = location "./") /\
  (HasSuffix path "/" = true -> path_Base path ∉ ["/"; "."] ->
     final_status w' = StatusMovedPermanently /\ Header_Get (final_header w') "Location" = location ("../" +:+ path_Base path)) /\
  (HasSuffix path "/" = true -> path_Base path ∈ ["/"; "."] -> final_status w' = StatusInternalServerError).
Proof.
  intros Hfs Hf Hp path w' location.
  assert (Hw : w' = serveFile (fun _ => Ok (mkHFile false data modtime)) dirList ParseTime multipart (Clean path) (with_path req path) w).
  { unfold w', serveIndexHTML, FileServer. rewrite Hp. unfold serveFile, path. destruct (HasSuffix _ indexPage); [done|].
    assert (Ho : SameFile_Open (NewSameFileHTTPFilesystem (app_assets reloadfs_New fsys) "index.html") (Clean (r_Path req)) =
      match fsys "webapp-sample/build/index.html" with Ok f => Ok f | Err e => Err e end) by reflexivity.
    by rewrite Ho, Hfs. }
  rewrite Hw. unfold serveFile. rewrite !r_Path_with_path. cbn [f_IsDir]. split_and!.
  - intros Hs Hi Hu. rewrite Hi, Hs. by apply (ServeContent_whole ParseTime multipart (with_path req path)).
  - intros Hi. rewrite Hi. by apply localRedirect_fresh.
  - intros Hs Hb. rewrite index_not_slash, Hs, bool_decide_false by (done || set_solver). by apply localRedirect_fresh.
  - intros Hs Hb. rewrite index_not_slash, Hs, bool_decide_true by (done || set_solver). by apply serveError_final.
Qed.

End production.

(** The production router: what it sends a request to. *)
Section routing.
Context `{ChiLaws ServeHTTP}.
Variable h : content -> Request -> rw -> rw.
Variable req : Request.
Variable w : rw.
Hypothesis method_known : r_Method req ∈ chi_methods.

Definition prod_router : router := serveContent (configureAPIEndpoints NewRouter).

Lemma prod_router_plain : Forall plain_pattern (rt_routes prod_router).
Proof. by repeat constructor. Qed.

Lemma prod_hello : route_path req = "/hello" -> r_Method req = "GET" -> ServeHTTP prod_router h req w = h Hello req w.
Proof.
  intros Hp Hm. apply (chi_route prod_router h req w (Some "GET") "/hello").
  - apply prod_router_plain.
  - done.
  - by left.
  - by rewrite Hp.
  - by rewrite Hm.
  - intros m p c. unfold prod_router; simpl. rewrite !elem_of_cons, elem_of_nil, Hp. naive_solver.
Qed.

Lemma prod_hello_method : route_path req = "/hello" -> r_Method req <> "GET" -> fresh w ->
  final_status (ServeHTTP prod_router h req w) = StatusMethodNotAllowed.
Proof.
  intros Hp Hm Hf. apply (chi_MethodNotAllowed prod_router); [apply prod_router_plain|done| | |done].
  - left. simpl. by rewrite Hp.
  - unfold prod_router; simpl. rewrite Hp. repeat constructor; simpl. by rewrite bool_decide_false.
Qed.

Lemma prod_static : HasPrefix (route_path req) "/static/" = true -> ServeHTTP prod_router h req w = h StaticFiles req w.
Proof.
  intros Hp. apply (chi_route prod_router h req w None "/static/*"); [apply prod_router_plain|done| |done|done|].
  - right. by left.
  - intros m p c. unfold prod_router; simpl. rewrite !elem_of_cons, elem_of_nil. intros [[= -> -> ->]|[[= -> -> ->]|[]]]; [|done].
    unfold pattern_matches. simpl. case_bool_decide as E; [|done]. by rewrite E in Hp.
Qed.

Lemma prod_others : route_path req <> "/hello" -> HasPrefix (route_path req) "/static/" = false ->
  ServeHTTP prod_router h req w = h IndexPage req w.
Proof.
  intros Hp Hs. apply (chi_NotFound prod_router); [apply prod_router_plain|done| |done].
  repeat constructor; simpl; [|done]. unfold pattern_matches. simpl. by rewrite bool_decide_false.
Qed.

End routing.

(** C10 What the production server answers, for the methods that the router knows.
    The greeting is for GET requests of /hello only. Below /static/ the file of the
    assets is served, or 404 when there is none. On all other paths it is the index
    page, for exactly those that end neither in a slash nor in /index.html. The
    other ones are redirected: a path that ends in /index.html to its directory, one
    that ends in a slash to its last element next to it. The paths whose last
    element is the root or a dot are answered 500, the root of the application
    itself among them, although the index page is meant to be served on all URLs. A
    page and a file are answered 200 with all of their contents (no body for HEAD)
    if the request has no condition and no range. *)
Theorem index_for_all_paths `{ChiLaws ServeHTTP} {Cfg Listener AddrPort Ctx}
    ParseAddrDefaultPort HTTPServerAddr Listen (ctx : Ctx) (tlsConfig : HTTPServerConfig -> res Cfg) newTLS serve cl err r mux
    reloadfs_New (fsys : FS hfile) dirList ParseTime multipart proxy data modtime req w :
  prodServe (Listener := Listener) (AddrPort := AddrPort) ParseAddrDefaultPort HTTPServerAddr Listen ctx tlsConfig newTLS serve cl =
    Ret (err, Some (r, mux)) ->
  ParseTime "" = None ->
  fsys "webapp-sample/build/index.html" = Ok (mkHFile false data modtime) ->
  fresh w -> HasPrefix (r_Path req) "/" = true -> r_Method req ∈ chi_methods ->
  let path := r_Path req in
  let w' := ServeHTTP r (handler reloadfs_New fsys dirList ParseTime multipart proxy) req w in
  let body contents := if bool_decide (r_Method req = "HEAD") then "" else contents in
  let location p := if bool_decide (r_Query req = "") then p else p +:+ "?" +:+ r_Query req in
  (route_path req = "/hello" ->
     if bool_decide (r_Method req = "GET") then final_status w' = StatusOK /\ rw_body w' = "hello" +:+ LF
     else final_status w' = StatusMethodNotAllowed) /\
  (forall name, HasPrefix (route_path req) "/static/" = true -> path = "/" +:+ name -> ValidPath name = true -> name <> "." ->
     HasSuffix path indexPage = false ->
     match fsys ("webapp-sample/build/" +:+ name) with
     | Ok f => f_IsDir f = false -> unconditional req -> final_status w' = StatusOK /\ rw_body w' = body (f_data f)
     | Err e => errors_is e fs_ErrNotExist = true -> final_status w' = StatusNotFound
     end) /\
  (route_path req <> "/hello" -> HasPrefix (route_path req) "/static/" = false ->
     (HasSuffix path "/" = false -> HasSuffix path indexPage = false -> unconditional req ->
        final_status w' = StatusOK /\ rw_body w' = body data) /\
     (HasSuffix path indexPage = true ->
        final_status w' = StatusMovedPermanently /\ Header_Get (final_header w') "Location" = location "./") /\
     (HasSuffix path "/" = true -> path_Base path ∉ ["/"; "."] ->
        final_status w' = StatusMovedPermanently /\ Header_Get (final_header w') "Location" = location ("../" +:+ path_Base path)) /\
     (HasSuffix path "/" = true -> path_Base path ∈ ["/"; "."] -> final_status w' = StatusInternalServerError)).
Proof.
  intros Hs HP Hfs Hf Hp Hm path w' body location.
  assert (r = prod_router) as ->.
  { unfold prodServe in Hs. destruct (tlsConfig _); [|done]. destruct (newTLS _ _); [|done].
    destruct (RedirectPort80 _ _ _ _ _) as [[m|e]|]; naive_solver. }
  split_and!.
  - intros Hh. case_bool_decide as Hg.
    + unfold w'. rewrite prod_hello by done. unfold handler, serve_hello. by rewrite Write_fresh.
    + by apply prod_hello_method.
  - intros name Hst Hn HV Hd Hi. unfold w'. rewrite prod_static by done. by apply static_answer.
  - intros Hh Hst. unfold w'. rewrite prod_others by done. by eapply index_answer.
Qed.

Definition demo_assets : FS hfile := fun name =>
  if bool_decide (name = "webapp-sample/build/index.html") then Ok (mkHFile false "<html>" None)
  else if bool_decide (name = "webapp-sample/build/static/a.js") then Ok (mkHFile false "js" None)
  else Err (Sentinel fs_ErrNotExist).
Definition page_request (path : string) : Request := mkRequest "GET" path "" "" "localhost" ∅ [] "" 0 None None.

(** A router that tries the routes in order. *)
Definition demo_chi (r : router) (h : content -> Request -> rw -> rw) (req : Request) (w : rw) : rw :=
  if negb (bool_decide (r_Method req ∈ chi_methods)) then WriteHeader StatusMethodNotAllowed w
  else match List.find (fun x => pattern_matches x.1.2 (route_path req) && accepts x.1.1 (r_Method req)) (rt_routes r) with
       | Some x => h x.2 req w
       | None =>
           if existsb (fun x => pattern_matches x.1.2 (route_path req)) (rt_routes r) then WriteHeader StatusMethodNotAllowed w
           else match rt_notFound r with Some c => h c req w | None => http_Error "404 page not found" StatusNotFound w end
       end.

#[global] Instance demo_chi_laws : ChiLaws demo_chi.
Proof.
  split; intros r h req w; unfold demo_chi.
  - intros meth pattern c _ Hm Hin Hp Ha Hu. rewrite bool_decide_true by done. cbn [negb].
    destruct (List.find _ _) as [[[m' p'] c']|] eqn:E.
    + apply List.find_some in E as [Hx%list_elem_of_In [Hp' Ha']%andb_prop]. by rewrite <- (Hu m' p' c').
    + eapply List.find_none in E; [|by apply list_elem_of_In]. simpl in E. by rewrite Hp, Ha in E.
  - intros c _ Hm Hn Hc. rewrite bool_decide_true by done. cbn [negb]. rewrite Hc.
    induction Hn as [|x l Hx _ IH]; [done|]. simpl. rewrite Hx. exact IH.
  - intros _ Hm He Hn Hf. rewrite bool_decide_true by done. cbn [negb].
    destruct (List.find _ _) as [x|] eqn:E.
    { apply List.find_some in E as [Hx%list_elem_of_In E]. rewrite Forall_forall in Hn. by rewrite (Hn x) in E. }
    assert (existsb (fun x => pattern_matches x.1.2 (route_path req)) (rt_routes r) = true) as ->.
    { apply List.existsb_exists. apply Exists_exists in He as (x & Hx%list_elem_of_In & Hp). eauto. }
    by rewrite WriteHeader_fresh.
  - intros Hm Hf. rewrite bool_decide_false by done. simpl. by rewrite WriteHeader_fresh.
Qed.

Definition demo_flags : ProdServerFlags := mkProdFlags (mkServerFlags ":8080" (mkCertFlags "" "")) (mkCertConfig "" "").

Lemma index_for_all_paths_witness :
  let h := handler (fun _ _ f _ _ => f) demo_assets (fun _ w => w) (fun _ => None) (fun _ _ => "") (fun _ _ w => w) in
  let get path := demo_chi prod_router h (page_request path) new_rw in
  rw_body (get "/hello") = "hello" +:+ LF /\ rw_body (get "/static/a.js") = "js" /\ rw_body (get "/app/page") = "<html>" /\
  final_status (get "/") = StatusInternalServerError /\ Header_Get (final_header (get "/a/b/")) "Location" = "../b".
Proof.
  intros h get.
  assert (Hrun : exists mux,
    prodServe (Cfg := unit) (Listener := unit) (AddrPort := unit) (fun _ _ => Ok tt) (fun _ => ":80") (fun _ _ => Ok tt)
      tt (fun _ => Ok tt) (fun _ _ => Ok tt) (fun _ => None) demo_flags = Ret (None, Some (prod_router, mux))).
  { eexists. reflexivity. }
  destruct Hrun as [mux Hrun].
  pose proof (fun path Hp => index_for_all_paths _ _ _ tt _ _ _ demo_flags None prod_router mux (fun _ _ f _ _ => f) demo_assets
    (fun _ w => w) (fun _ => None) (fun _ _ => "") (fun _ _ w => w) "<html>" None (page_request path) new_rw
    Hrun eq_refl eq_refl new_rw_fresh Hp ltac:(set_solver)) as HC.
  assert (Hu : forall path, unconditional (page_request path)) by (by intros path; repeat constructor).
  split_and!.
  - destruct (HC "/hello" eq_refl) as (Hhello & _). by destruct (Hhello eq_refl).
  - destruct (HC "/static/a.js" eq_refl) as (_ & Hstatic & _).
    by destruct (Hstatic "static/a.js" eq_refl eq_refl eq_refl ltac:(done) eq_refl eq_refl (Hu _)).
  - destruct (HC "/app/page" eq_refl) as (_ & _ & Hindex). destruct Hindex as (Hpage & _); [done|done|].
    by destruct (Hpage eq_refl eq_refl (Hu _)).
  - destruct (HC "/" eq_refl) as (_ & _ & Hindex). destruct Hindex as (_ & _ & _ & Hroot); [done|done|].
    apply Hroot; [done|]. apply (bool_decide_unpack _). by vm_compute.
  - destruct (HC "/a/b/" eq_refl) as (_ & _ & Hindex). destruct Hindex as (_ & _ & Hslash & _); [done|done|].
    destruct (Hslash eq_refl) as [_ Hl]; [|done]. apply (bool_decide_unpack _). by vm_compute.
Defined.
