(* ===== verification/Chrome.v ===== *)
(** * chromedputil and navigation checks

Models [devtest/chromedputil/util.go] and [listener.go], and the navigation
checks of [testwebapp/test_click.go].  The browser and the chromedp package are
parameters: an option of the browser is what it sets, an action what it does. *)

From S2P Require Import Prelude GoStrings GoEncoding GoErrors GoHTTP.

(** ** Options of the browser process *)

Inductive flag_value := FTrue | FString (s : string).

Inductive alloc_option :=
| Flag (name : string) (v : flag_value)
| ExecPath (path : string)
| UserDataDir (dir : string)
| NamedOption (name : string)      (* the options that chromedp names *)
| CombinedOutput
| ModifyCmd.

Definition NoFirstRun : alloc_option := NamedOption "NoFirstRun".
Definition NoDefaultBrowserCheck : alloc_option := NamedOption "NoDefaultBrowserCheck".
Definition DisableGPU : alloc_option := NamedOption "DisableGPU".
Definition NoSandbox : alloc_option := NamedOption "NoSandbox".

Definition AllocatorOptsForCI : list alloc_option :=
  [NoFirstRun; NoDefaultBrowserCheck; Flag "headless" (FString "new");
   Flag "disable-background-networking" FTrue;
   Flag "disable-background-timer-throttling" FTrue;
   Flag "disable-backgrounding-occluded-windows" FTrue;
   Flag "disable-breakpad" FTrue;
   Flag "disable-client-side-phishing-detection" FTrue;
   Flag "disable-default-apps" FTrue;
   Flag "disable-dev-shm-usage" FTrue;
   Flag "disable-extensions" FTrue;
   Flag "disable-features" (FString "site-per-process,Translate,BlinkGenPropertyTrees");
   Flag "disable-hang-monitor" FTrue;
   Flag "disable-ipc-flooding-protection" FTrue;
   Flag "disable-popup-blocking" FTrue;
   Flag "disable-prompt-on-repost" FTrue;
   Flag "disable-renderer-backgrounding" FTrue;
   Flag "disable-sync" FTrue;
   Flag "force-color-profile" (FString "srgb");
   Flag "metrics-recording-only" FTrue;
   Flag "safebrowsing-disable-auto-update" FTrue;
   Flag "enable-automation" FTrue;
   Flag "password-store" (FString "basic");
   Flag "use-mock-keychain" FTrue;
   DisableGPU; NoSandbox;
   Flag "disable-setuid-sandbox" FTrue;
   Flag "headless" (FString "new");
   Flag "disable-breakpad" FTrue;
   Flag "disable-crash-reporter" FTrue;
   Flag "disable-component-update" FTrue;
   Flag "disable-features" (FString "MetricsReporting,UserMetrics")].

(** [fingerprint] is the encoded SHA-256 of a certificate's public key; a nil
    certificate is [None]. The slice starts with as many empty strings as there
    are certificates. *)
Definition CertPoolAllocatorOption {Cert} (fingerprint : Cert -> string) (certs : list (option Cert)) : alloc_option :=
  let hashes := replicate (length certs) "" in
  let hashes := fold_left (fun hashes cert => match cert with
    | None => hashes
    | Some cert => hashes ++ [fingerprint cert]
    end) certs hashes in
  Flag "ignore-certificate-errors-spki-list" (FString (Join hashes ",")).

(** The environment variables CHROME_BIN_PATH and CHROME_USER_DATA_DIR. *)
Definition ChromeBinPathOnCI (Getenv : string -> string) : string := Getenv "CHROME_BIN_PATH".
Definition UserDataDirOnCI (Getenv : string -> string) : string := Getenv "CHROME_USER_DATA_DIR".

(** The options of the allocator; [defaults] are those of chromedp. *)
Definition WithExecAllocatorForCI (Getenv : string -> string) (defaults : list alloc_option) (userDataDir : string)
    (extraExecAllocOpts : list alloc_option) : list alloc_option :=
  let chromeBin := ChromeBinPathOnCI Getenv in
  if Nat.eqb (slen chromeBin) 0 then defaults ++ extraExecAllocOpts ++ [ModifyCmd]
  else
    let userDataDir := if Nat.eqb (slen userDataDir) 0 then UserDataDirOnCI Getenv else userDataDir in
    [ExecPath chromeBin]
    ++ (if Nat.ltb 0 (slen userDataDir) then [UserDataDir userDataDir] else [])
    ++ AllocatorOptsForCI ++ extraExecAllocOpts ++ [ModifyCmd].

(** The allocator's options and those of the context; the cancel functions are
    called in the opposite order. *)
Definition WithContextForCI {CtxOption} (Getenv : string -> string) (defaults : list alloc_option) (userDataDir : string)
    (extraExecAllocOpts : list alloc_option) (opts : list CtxOption) : list alloc_option * list CtxOption * list string :=
  (WithExecAllocatorForCI Getenv defaults userDataDir extraExecAllocOpts, opts, ["context"; "allocator"]).

Definition SkipTestsIfNoChromeForTesting (GOOS GOARCH : string) : bool :=
  bool_decide (GOOS = "linux") && bool_decide (GOARCH = "arm64").

Definition AllocatorLoggingWithLevel (level : Z) : list alloc_option :=
  [Flag "enable-logging" (FString "stderr");
   Flag "v" (FString ((if (level <? 0)%Z then "-" else "") +:+ fmt_uint false 10 (Z.abs_N level)))].

Definition DebuggingExecOpts (level : Z) (debug : bool) : list alloc_option :=
  if debug then CombinedOutput :: AllocatorLoggingWithLevel level else [].

(** The context options by name. *)
Definition DebuggingCtxOpts (debug : bool) : list string :=
  if debug then ["WithBrowserDebugf"; "WithBrowserLogf"; "WithBrowserErrorf"; "WithLogf"; "WithDebugf"; "WithErrorf"]
  else [].

(** [chromeWriter.Write]: [write] is the underlying writer. *)
Definition chrome_prefix : string := "chrome(output): ".
Definition chromeWriter_Write (write : string -> Z * option error) (p : string) : Z * option error :=
  let lp := Z.of_nat (slen chrome_prefix) in
  let '(nw, err) := write (chrome_prefix +:+ p) in
  ((if (lp <? nw)%Z then nw - lp else 0)%Z, err).

(** *** Facts on options *)

(** The value of a flag on the command line: of the options with its name, the
    last one counts. *)
Definition flag_of (opts : list alloc_option) (name : string) : option flag_value :=
  fold_left (fun v o => match o with Flag n x => if bool_decide (n = name) then Some x else v | _ => v end) opts None.

(** The second list of disabled features replaces the first. *)
Lemma CI_disabled_features :
  flag_of AllocatorOptsForCI "disable-features" = Some (FString "MetricsReporting,UserMetrics").
Proof. done. Qed.

(** Options given by the caller come after the built-in ones, so they win. *)
Lemma extra_options_win Getenv defaults dir extra name v :
  flag_of extra name = Some v ->
  flag_of (WithExecAllocatorForCI Getenv defaults dir extra) name = Some v.
Proof.
  intros He.
  assert (Happ : forall a b, flag_of (a ++ b) name = match flag_of b name with Some x => Some x | None => flag_of a name end).
  { intros a b. unfold flag_of. rewrite fold_left_app. generalize (fold_left
      (fun v o => match o with Flag n x => if bool_decide (n = name) then Some x else v | _ => v end) a None).
    intros acc. revert acc. induction b as [|o b IH] using rev_ind; intros acc; [done|].
    rewrite !fold_left_app. simpl. destruct o; try apply IH. destruct (bool_decide _); [done|apply IH]. }
  unfold WithExecAllocatorForCI. destruct (Nat.eqb _ 0); rewrite !Happ, He; reflexivity.
Qed.

(** A writer that keeps the contract of [io.Writer] is wrapped into one that
    does: at most the bytes of [p] are reported, and all of them exactly when
    all was written. *)
Lemma chromeWriter_bounds write p :
  (forall s, (0 <= (write s).1 <= Z.of_nat (slen s))%Z) ->
  let '(n, err) := chromeWriter_Write write p in
  (0 <= n <= Z.of_nat (slen p))%Z /\ err = (write (chrome_prefix +:+ p)).2 /\
  (p <> "" -> n = Z.of_nat (slen p) <-> (write (chrome_prefix +:+ p)).1 = Z.of_nat (slen (chrome_prefix +:+ p))).
Proof.
  intros Hw. specialize (Hw (chrome_prefix +:+ p)). unfold chromeWriter_Write.
  destruct (write (chrome_prefix +:+ p)) as [nw err]. cbn [fst snd] in *. rewrite slen_app in *.
  change (slen chrome_prefix) with 16%nat in *.
  assert (Hz : p <> "" -> slen p <> 0%nat) by (intros Hp Hl; apply Hp; by apply slen_zero).
  destruct (Z.ltb_spec (Z.of_nat 16) nw); (split_and!; [lia|lia|done|]); intros Hp; specialize (Hz Hp); lia.
Qed.

(** ** Remote objects *)

(** The fields that the code uses; [ro_Value] is [None] when it is not set. *)
Record RemoteObject := mkRO { ro_Type : string; ro_ClassName : string; ro_ObjectID : string; ro_Value : option string }.

(** The outcome of a call to the browser: an error, an exception in the script,
    or an object, which may be nil. *)
Inductive call_result := CallError (e : error) | CallException (text : string) | CallObject (ro : option RemoteObject).

Definition evaluate (Evaluate : string -> call_result) (expr : string) : res RemoteObject :=
  match Evaluate expr with
  | CallError e => Err e
  | CallException _ => Err (Errorf "javascript exception: %v" [] [])
  | CallObject None => Err (Errorf "failed to get remote object: %s" [expr] [])
  | CallObject (Some ro) => Ok ro
  end.

Definition GetRemoteObjectRef (Evaluate : string -> call_result) (name : string) : res RemoteObject :=
  match evaluate Evaluate name with
  | Err e => Err (Errorf "failed to evaluate %s: %w" [name] [e])
  | Ok ro => Ok ro
  end.

(** [CallFunctionOn fn objectID deep] *)
Definition callon (CallFunctionOn : string -> string -> bool -> call_result) (fn objectID : string) (deep : bool)
  : res (option RemoteObject) :=
  if bool_decide (objectID = "") then Err (errors_New "missing objectID")
  else match CallFunctionOn fn objectID deep with
       | CallError e => Err (Errorf "failed to call function %s on object %s: %w" [fn; objectID] [e])
       | CallException text => Err (Errorf "javascript exception: %v (%+v)" [text] [])
       | CallObject ro => Ok ro
       end.

Definition safeClone_fn : string := "function() { return chromedp_utils.safeClone(this); }".

(** [load] is the outcome of loading the helper script; [platformInfo] the _type
    and className fields of a JSON value, if it is an object. *)
Definition safeClone (load : option error) (CallFunctionOn : string -> string -> bool -> call_result)
    (platformInfo : option string -> option (string * string)) (objectID : string) : go (res (RemoteObject * option string)) :=
  match load with
  | Some e => Ret (Err e)
  | None =>
      match callon CallFunctionOn safeClone_fn objectID false with
      | Err e => Ret (Err e)
      | Ok None => Panic NilDereference
      | Ok (Some obj) =>
          Ret (Ok (if negb (bool_decide (ro_Type obj = "")) && negb (bool_decide (ro_ClassName obj = ""))
                   then (obj, ro_Value obj)
                   else match platformInfo (ro_Value obj) with
                        | None => (obj, ro_Value obj)
                        | Some (typ, className) =>
                            if negb (bool_decide (typ = ""))
                            then (mkRO (ro_Type obj) className (ro_ObjectID obj) (ro_Value obj), ro_Value obj)
                            else (obj, ro_Value obj)
                        end))
      end
  end.

Definition undefined_json : string := DQUOTE +:+ "undefined" +:+ DQUOTE.

(** The object of the caller, which the call may change, is the last part of the
    result. *)
Definition GetRemoteObjectValueJSON (load : option error) (CallFunctionOn : string -> string -> bool -> call_result)
    (platformInfo : option string -> option (string * string)) (object : RemoteObject)
  : go (res (RemoteObject * option string) * RemoteObject) :=
  match ro_Value object with
  | Some v => Ret (Ok (object, Some v), object)
  | None =>
      if bool_decide (ro_Type object = "undefined") then
        let object := mkRO (ro_Type object) (ro_ClassName object) (ro_ObjectID object) (Some undefined_json) in
        Ret (Ok (object, ro_Value object), object)
      else r ← safeClone load CallFunctionOn platformInfo (ro_ObjectID object); Ret (r, object)
  end.

(** [text] is the message of an error. *)
Definition IsPlatformObjectError (text : error -> string) (err : option error) : bool :=
  match err with
  | None => false
  | Some e => Contains (text e) "unknown DeepSerializedValueType value: platformobject"
  end.

Definition IsPlatformObject (platformInfo : option string -> option (string * string)) (obj : option RemoteObject) : bool :=
  match obj with
  | None => false
  | Some obj => match platformInfo (ro_Value obj) with
                | None => false
                | Some (typ, _) => negb (bool_decide (typ = ""))
                end
  end.

(** The parameters of an evaluation that the code sets. *)
Record EvaluateParams := mkEvaluate { ep_Expression : string; ep_AwaitPromise : bool }.

Definition WaitForPromise (p : EvaluateParams) : EvaluateParams := mkEvaluate (ep_Expression p) true.

(** The template is one of text/template, which inserts the name as it is. *)
Definition loadTpl (script : string) : string :=
  LF +:+ "(async () => {" +:+ LF
  +:+ "  let r = await chromedp_utils.loadScript(" +:+ DQUOTE +:+ script +:+ DQUOTE +:+ ");" +:+ LF
  +:+ "  console.log(" +:+ DQUOTE +:+ "Script load result:" +:+ DQUOTE +:+ ", r);" +:+ LF
  +:+ "  return r;" +:+ LF +:+ "})();".

(** [run] evaluates expressions in turn and gives the result of the last one;
    writing to the builder of the script does not fail. *)
Definition SourceScript (javascriptFunctions : string) (run : list EvaluateParams -> res (bool * string)) (script : string)
  : option error :=
  match run [mkEvaluate javascriptFunctions false; WaitForPromise (mkEvaluate (loadTpl script) false)] with
  | Err e => Some (Errorf "failed to evaluate load script %s: %w" [script] [e])
  | Ok (success, err) => if negb success then Some (Errorf "failed to load script: %s" [err] []) else None
  end.

Definition ListGlobalFunctions (run : res (list string)) : res (list string) := run.

(** A value that is known is returned without asking the browser, also by a
    second call on an object of type undefined. *)
Lemma GetRemoteObjectValueJSON_cached load call info object :
  ro_Value object <> None \/ ro_Type object = "undefined" ->
  exists v object', GetRemoteObjectValueJSON load call info object = Ret (Ok (object', Some v), object') /\
    GetRemoteObjectValueJSON load call info object' = Ret (Ok (object', Some v), object').
Proof.
  unfold GetRemoteObjectValueJSON. destruct (ro_Value object) as [v|] eqn:Ev.
  - intros _. exists v, object. by rewrite Ev.
  - intros [? | ->]; [done|]. rewrite bool_decide_true by done. by eexists _, _.
Qed.

(** ** listener.go *)

(** What is logged of the details of an exception. *)
Record ExceptionDetails := mkDetails { ed_StackTrace : string; ed_Exception : string; ed_LineNumber : Z; ed_ColumnNumber : Z }.

(** The events that have a handler of their own, and all others. *)
Inductive cdp_event :=
| ConsoleAPICalled (args : list RemoteObject)
| ExceptionThrown (details : ExceptionDetails)
| EntryAdded (entry : string)
| ResponseReceived (url : string) (status : Z)
| RequestWillBeSent (url method : string)
| OtherEvent (name : string).

Inductive event_type := TConsole | TException | TEntry | TResponse | TRequest | TAny.

#[global] Instance event_type_eq_dec : EqDecision event_type.
Proof. solve_decision. Defined.

(** The type assertion of [NewListenHandler]. *)
Definition has_type (t : event_type) (ev : cdp_event) : bool :=
  match t, ev with
  | TAny, _ | TConsole, ConsoleAPICalled _ | TException, ExceptionThrown _ | TEntry, EntryAdded _
  | TResponse, ResponseReceived _ _ | TRequest, RequestWillBeSent _ _ => true
  | _, _ => false
  end.

(** A handler sends events of a type to a channel, numbered by its creation. *)
Record handler := mkHandler { h_type : event_type; h_chan : nat }.

(** The contents of all channels: what was sent to each and not received yet, in
    the order in which it was sent. *)
Abbreviation chans := (list (nat * cdp_event)).

(** [sent]: the send happened before the context was done. *)
Definition ListenHandler (h : handler) (sent : bool) (ev : cdp_event) (cs : chans) : bool * chans :=
  if negb (has_type (h_type h) ev) then (false, cs)
  else (true, if sent then cs ++ [(h_chan h, ev)] else cs).

Fixpoint Listen (handlers : list handler) (sent : bool) (ev : cdp_event) (cs : chans) : chans :=
  match handlers with
  | [] => cs
  | h :: handlers' =>
      match ListenHandler h sent ev cs with
      | (true, cs) => cs
      | (false, cs) => Listen handlers' sent ev cs
      end
  end.

(** The channels that the options make. *)
Definition chan_capacity : nat := 10.

(** [loggingOptions]: the channel of every type that has been set, the handlers
    and the number of channels made. *)
Record loggingOptions := mkLogging { lo_chan : event_type -> option nat; lo_handlers : list handler; lo_next : nat }.

Definition event_type_eqb (a b : event_type) : bool :=
  match a, b with
  | TConsole, TConsole | TException, TException | TEntry, TEntry | TResponse, TResponse | TRequest, TRequest
  | TAny, TAny => true
  | _, _ => false
  end.

Definition set_chan (t : event_type) (c : nat) (f : event_type -> option nat) : event_type -> option nat :=
  fun t' => if event_type_eqb t t' then Some c else f t'.

Definition handlerOption (t : event_type) (o : loggingOptions) : loggingOptions :=
  mkLogging (set_chan t (lo_next o) (lo_chan o)) (lo_handlers o ++ [mkHandler t (lo_next o)]) (S (lo_next o)).

Definition WithConsoleLogging : loggingOptions -> loggingOptions := handlerOption TConsole.
Definition WithExceptionLogging : loggingOptions -> loggingOptions := handlerOption TException.
Definition WithEventEntryLogging : loggingOptions -> loggingOptions := handlerOption TEntry.
Definition WithNetworkLogging (o : loggingOptions) : loggingOptions := handlerOption TRequest (handlerOption TResponse o).
Definition WithAnyEventLogging : loggingOptions -> loggingOptions := handlerOption TAny.

(** [initCh]: a channel of its own for every type that has none. *)
Definition initCh (t : event_type) (o : loggingOptions) : loggingOptions :=
  match lo_chan o t with
  | Some _ => o
  | None => mkLogging (set_chan t (lo_next o) (lo_chan o)) (lo_handlers o) (S (lo_next o))
  end.

Definition listener_options (opts : list (loggingOptions -> loggingOptions)) : loggingOptions :=
  let o := fold_left (fun o opt => opt o) opts (mkLogging (fun _ => None) [] 0) in
  fold_left (fun o t => initCh t o) [TConsole; TException; TResponse; TRequest; TEntry; TAny] o.

(** [ConsoleArgsAsJSON]: [get] is [GetRemoteObjectValueJSON] and [marshal] the
    printer of the object it returns. *)
Fixpoint ConsoleArgsAsJSON (get : RemoteObject -> res RemoteObject) (marshal : RemoteObject -> res string)
    (args : list RemoteObject) (values : list string) : res (list string) :=
  match args with
  | [] => Ok values
  | arg :: args' =>
      match get arg with
      | Err e => Err (Errorf "failed to get remote object value: %+v %w" [] [e])
      | Ok val =>
          match marshal val with
          | Err e => Err (Errorf "failed to marshal JSON: %w" [] [e])
          | Ok out => ConsoleArgsAsJSON get marshal args' (values ++ [out])
          end
      end
  end.

(** *** Dispatch *)

(** An event goes to the first handler of its type and to no other channel. *)
Lemma Listen_first handlers sent ev cs :
  Listen handlers sent ev cs =
    match List.find (fun h => has_type (h_type h) ev) handlers with
    | Some h => if sent then cs ++ [(h_chan h, ev)] else cs
    | None => cs
    end.
Proof.
  induction handlers as [|h hs IH]; simpl; [done|]. unfold ListenHandler.
  destruct (has_type (h_type h) ev); simpl; [done|apply IH].
Qed.

(** An option given twice leaves events in a channel that nobody reads. *)
Lemma repeated_option_unread ev :
  let o := listener_options [WithConsoleLogging; WithConsoleLogging] in
  has_type TConsole ev = true ->
  exists c, Listen (lo_handlers o) true ev [] = [(c, ev)] /\ forall t, lo_chan o t <> Some c.
Proof.
  intros o He. exists 0%nat. rewrite Listen_first. simpl. unfold o in *. simpl in *. rewrite He.
  split; [done|]. by intros [].
Qed.

(** ** test_click.go *)

Definition SelectorActionNone : string := "".
Definition SelectorActionClick : string := "click".
Definition SelectorActionDoubleClick : string := "double_click".

Definition SelectorAction_MarshalYAML (a : string) : string := a.

(** [decoded] is the string of the node. *)
Definition SelectorAction_UnmarshalYAML (decoded : res string) : res string :=
  match decoded with
  | Err e => Err e
  | Ok s =>
      if bool_decide (s ∈ [SelectorActionNone; SelectorActionClick; SelectorActionDoubleClick]) then Ok s
      else Err (Errorf "unknown SelectorAction %q; valid values: %q, %q"
                  [s; SelectorActionClick; SelectorActionDoubleClick] [])
  end.

Inductive action :=
| Navigate (url : string) | WaitVisible (sel : string) | Click (sel : string) | DoubleClick (sel : string)
| CustomAction (name : string).

Definition chromedpActions (a selector : string) : list action :=
  if bool_decide (a = SelectorActionClick) then [Click selector]
  else if bool_decide (a = SelectorActionDoubleClick) then [DoubleClick selector]
  else [].

Record NavigationSpec := mkNav { nv_URL : string; nv_Selectors : list string; nv_Action : string; nv_Sequential : bool }.

Definition NavigationSpec_String := yaml_String (A := NavigationSpec).

Record navigateTestOptions := mkNavOptions {
  no_timeout : Z; no_elementTimeout : Z; no_extra : list alloc_option; no_ctxOpts : list string;
  no_userDataDir : string; no_selectorActions : gmap string (list action)
}.

Definition WithTimeout (d : Z) (o : navigateTestOptions) : navigateTestOptions :=
  mkNavOptions d (no_elementTimeout o) (no_extra o) (no_ctxOpts o) (no_userDataDir o) (no_selectorActions o).
Definition WithElementTimeout (d : Z) (o : navigateTestOptions) : navigateTestOptions :=
  mkNavOptions (no_timeout o) d (no_extra o) (no_ctxOpts o) (no_userDataDir o) (no_selectorActions o).
Definition WithExecAllocatorOptions (l : list alloc_option) (o : navigateTestOptions) : navigateTestOptions :=
  mkNavOptions (no_timeout o) (no_elementTimeout o) (no_extra o ++ l) (no_ctxOpts o) (no_userDataDir o) (no_selectorActions o).
Definition WithContextOptions (l : list string) (o : navigateTestOptions) : navigateTestOptions :=
  mkNavOptions (no_timeout o) (no_elementTimeout o) (no_extra o) (no_ctxOpts o ++ l) (no_userDataDir o) (no_selectorActions o).
Definition WithUserDataDir (dir : string) (o : navigateTestOptions) : navigateTestOptions :=
  mkNavOptions (no_timeout o) (no_elementTimeout o) (no_extra o) (no_ctxOpts o) dir (no_selectorActions o).
Definition WithSuppressedCertErrorsFor {Cert} (fingerprint : Cert -> string) (certs : list (option Cert))
  : navigateTestOptions -> navigateTestOptions :=
  WithExecAllocatorOptions [CertPoolAllocatorOption fingerprint certs].
Definition WithSelectorActions (selector : string) (actions : list action) (o : navigateTestOptions) : navigateTestOptions :=
  mkNavOptions (no_timeout o) (no_elementTimeout o) (no_extra o) (no_ctxOpts o) (no_userDataDir o)
    (<[selector := actions]> (no_selectorActions o)).

Definition NewNavigationTest (opts : list (navigateTestOptions -> navigateTestOptions)) : navigateTestOptions :=
  let o := fold_left (fun o opt => opt o) opts (mkNavOptions 0 0 [] [] "" ∅) in
  let o := if (no_timeout o =? 0)%Z then WithTimeout 30000000000 o else o in
  if (no_elementTimeout o =? 0)%Z then WithElementTimeout 5000000000 o else o.

Definition ErrNavigateUnexpectedError : string := "click unexpected error".
Definition ErrNavigateElementNotFound : string := "click element not found".

Section navigate.
Variable quote : string -> string.
(** [chromedp.Run] of actions in a browser with these options. *)
Variable run : list alloc_option -> list action -> option error.
Variable Getenv : string -> string.
Variable defaults : list alloc_option.
Variable MkdirTemp : res string.

Definition selector_actions (o : navigateTestOptions) (spec : NavigationSpec) (selector : string) : list action :=
  WaitVisible selector ::
  match no_selectorActions o !! selector with
  | Some extra => extra
  | None => chromedpActions (nv_Action spec) selector
  end.

Definition runSelector (o : navigateTestOptions) (browser : list alloc_option) (spec : NavigationSpec) (selector : string)
  : option error :=
  match run browser (selector_actions o spec selector) with
  | None => None
  | Some err =>
      if errors_is err "context.DeadlineExceeded"
      then Some (Errorf "selector %q not found or not visible before timeout: %w: %w" [quote selector]
                   [err; Sentinel ErrNavigateElementNotFound])
      else Some (Errorf "error on selector %q: %w: %w" [quote selector] [err; Sentinel ErrNavigateUnexpectedError])
  end.

(** Sequential selectors stop at the first error. *)
Fixpoint run_sequential (o : navigateTestOptions) (browser : list alloc_option) (spec : NavigationSpec) (selectors : list string)
  : option error :=
  match selectors with
  | [] => None
  | s :: selectors' =>
      match runSelector o browser spec s with
      | Some e => Some e
      | None => run_sequential o browser spec selectors'
      end
  end.

Definition nav_verify (o : navigateTestOptions) (spec : NavigationSpec) : option error :=
  let dir := if Nat.eqb (slen (no_userDataDir o)) 0 then MkdirTemp else Ok (no_userDataDir o) in
  match dir with
  | Err err => Some (Errorf "failed to create user data directory: %w: %w" [] [err; Sentinel ErrNavigateUnexpectedError])
  | Ok userDataDir =>
      let browser := WithExecAllocatorForCI Getenv defaults userDataDir (no_extra o) in
      match run browser [Navigate (nv_URL spec)] with
      | Some err => Some (Errorf "failed to navigate to %s: %w: %w" [nv_URL spec] [err; Sentinel ErrNavigateUnexpectedError])
      | None =>
          if nv_Sequential spec then run_sequential o browser spec (nv_Selectors spec)
          else group_Wait (map (runSelector o browser spec) (nv_Selectors spec))
      end
  end.

Definition NavigationTest_Run (fmt_spec : NavigationSpec -> string) (o : navigateTestOptions) (specs : list NavigationSpec)
  : option error :=
  match specs with
  | [] => None
  | _ => group_Wait (map (fun spec => match nav_verify o spec with
           | Some err => Some (Errorf "%v: %w" [fmt_spec spec] [err])
           | None => None
           end) specs)
  end.

(** Sequential and concurrent checks of a page pass on the same pages: when
    every selector can be handled. *)
Lemma nav_verify_modes o url sels act b1 b2 :
  nav_verify o (mkNav url sels act b1) = None <-> nav_verify o (mkNav url sels act b2) = None.
Proof.
  assert (Hmodes : forall br spec l, run_sequential o br spec l = None <-> group_Wait (map (runSelector o br spec) l) = None).
  { intros br spec l. rewrite group_Wait_None, Forall_map. induction l as [|s l IH]; simpl; [done|].
    rewrite Forall_cons, <- IH. destruct (runSelector o br spec s); naive_solver. }
  unfold nav_verify. simpl. destruct (if Nat.eqb _ 0 then _ else _); [|done]. destruct (run _ _); [done|].
  destruct b1, b2; try done; unfold runSelector, selector_actions in *; simpl; [|symmetry]; apply Hmodes.
Qed.

End navigate.
