(* ===== verification/ChromeListener.v ===== *)
(** * The logging listener of chromedputil

Models [RunLoggingListener] of [devtest/chromedputil/listener.go] as a
transition system: the browser delivers events to the handlers that [Listen]
registers, which send them to channels of bounded capacity or give up once the
context is done; the loop takes events from the channels and logs them, those of
the console in goroutines of their own; when the context is done it waits for
these and closes the channel that it returned. *)

From S2P Require Import Prelude GoStrings GoEncoding GoErrors Chrome.

(** ** What is logged *)

Inductive level := LevelInfo | LevelError.
Record log_record := mkLog { lr_Level : level; lr_Msg : string; lr_Attrs : list (string * string) }.

(** [%03d] of an index. *)
Definition fmt_03d (n : nat) : string :=
  let s := fmt_int (Z.of_nat n) in String.concat "" (repeat "0" (3 - slen s)) +:+ s.

Section listener.
(** [ConsoleArgsAsJSON] for the arguments of an event; the member value of a
    JSON object, if it can be unmarshalled; how an event and a value are printed. *)
Variable args_json : list RemoteObject -> res (list string).
Variable json_value : string -> option string.
Variable show : cdp_event -> string.

Definition console_attrs (s : list string) : list (string * string) :=
  imap (fun i arg => (fmt_03d i, match json_value arg with None => arg | Some v => v end)) s.

Definition console_records (ev : cdp_event) : list log_record :=
  match ev with
  | ConsoleAPICalled args =>
      match args_json args with
      | Err _ => [mkLog LevelError "Failed to marshal console args to JSON" []]
      | Ok s => [mkLog LevelInfo "Console API called" (console_attrs s)]
      end
  | _ => []
  end.

(** The case of the [select] for the channel of a type. *)
Definition log_records (t : event_type) (ev : cdp_event) : list log_record :=
  match t, ev with
  | TConsole, _ => console_records ev
  | TException, ExceptionThrown d =>
      [mkLog LevelError "Exception thrown" [("event", show ev)];
       mkLog LevelError "Exception details"
         [("stackTrace", ed_StackTrace d); ("exception", ed_Exception d);
          ("lineNumber", fmt_int (ed_LineNumber d)); ("columnNumber", fmt_int (ed_ColumnNumber d))]]
  | TEntry, EntryAdded entry => [mkLog LevelInfo "Log entry added" [("event", entry)]]
  | TAny, _ => [mkLog LevelInfo "Other event" [("event", show ev)]]
  | TResponse, ResponseReceived url status =>
      [mkLog LevelInfo "Network response received" [("url", url); ("status", fmt_int status)]]
  | TRequest, RequestWillBeSent url method =>
      [mkLog LevelInfo "Network request received" [("url", url); ("method", method)]]
  | _, _ => []
  end.

(** ** The goroutines *)

(** The loop, its wait for the console goroutines, and after the channel that
    was returned is closed. *)
Inductive phase := Running | Waiting | Finished.

(** The context is done; the events that the browser has yet to deliver; the
    channels; the console goroutines that run; the loop; the log. *)
Record lstate := mkL {
  ls_done : bool; ls_pending : list cdp_event; ls_chans : chans; ls_tasks : list cdp_event;
  ls_loop : phase; ls_log : list log_record
}.

Definition queued (c : nat) (cs : chans) : list cdp_event :=
  omap (fun x => if bool_decide (x.1 = c) then Some x.2 else None) cs.

Definition handler_of (o : loggingOptions) (ev : cdp_event) : option handler :=
  List.find (fun h => has_type (h_type h) ev) (lo_handlers o).

(** Whether a send of the event would not block. *)
Definition room (o : loggingOptions) (ev : cdp_event) (cs : chans) : bool :=
  match handler_of o ev with
  | Some h => Nat.ltb (length (queued (h_chan h) cs)) chan_capacity
  | None => true
  end.

Inductive lstep (o : loggingOptions) : lstate -> lstate -> Prop :=
| step_cancel evs cs ts ph lg : lstep o (mkL false evs cs ts ph lg) (mkL true evs cs ts ph lg)
| step_deliver d ev evs cs ts ph lg :
    room o ev cs = true ->
    lstep o (mkL d (ev :: evs) cs ts ph lg) (mkL d evs (Listen (lo_handlers o) true ev cs) ts ph lg)
| step_drop ev evs cs ts ph lg :
    lstep o (mkL true (ev :: evs) cs ts ph lg) (mkL true evs (Listen (lo_handlers o) false ev cs) ts ph lg)
| step_console d evs cs1 c ev cs2 ts lg :
    lo_chan o TConsole = Some c -> queued c cs1 = [] ->
    lstep o (mkL d evs (cs1 ++ (c, ev) :: cs2) ts Running lg) (mkL d evs (cs1 ++ cs2) (ts ++ [ev]) Running lg)
| step_log d evs cs1 c ev cs2 ts lg t :
    t <> TConsole -> lo_chan o t = Some c -> queued c cs1 = [] ->
    lstep o (mkL d evs (cs1 ++ (c, ev) :: cs2) ts Running lg) (mkL d evs (cs1 ++ cs2) ts Running (lg ++ log_records t ev))
| step_task d evs cs ts1 ev ts2 ph lg :
    lstep o (mkL d evs cs (ts1 ++ ev :: ts2) ph lg) (mkL d evs cs (ts1 ++ ts2) ph (lg ++ console_records ev))
| step_stop evs cs ts lg : lstep o (mkL true evs cs ts Running lg) (mkL true evs cs ts Waiting lg)
| step_close d evs cs lg : lstep o (mkL d evs cs [] Waiting lg) (mkL d evs cs [] Finished lg).

(** [RunLoggingListener] with the events that will be delivered. *)
Definition RunLoggingListener (evs : list cdp_event) : lstate := mkL false evs [] [] Running [].

(** [k] steps. *)
Inductive lsteps (o : loggingOptions) : nat -> lstate -> lstate -> Prop :=
| lsteps_0 s : lsteps o 0 s s
| lsteps_S k s s' s'' : lsteps o k s s' -> lstep o s' s'' -> lsteps o (S k) s s''.

(** ** Lemmas *)

(** The records of an event that is delivered and not dropped. *)
Definition logged_as (o : loggingOptions) (ev : cdp_event) : list log_record :=
  match handler_of o ev with Some h => log_records (h_type h) ev | None => [] end.

(** The channel of a handler is not that of another type. *)
Definition chans_typed (o : loggingOptions) : Prop :=
  forall h t, h ∈ lo_handlers o -> lo_chan o t = Some (h_chan h) -> t = h_type h.

(** Every channel that a handler sends to is read. *)
Definition all_read (o : loggingOptions) : Prop :=
  forall h, h ∈ lo_handlers o -> lo_chan o (h_type h) = Some (h_chan h).

Lemma handler_of_elem o ev h : handler_of o ev = Some h -> h ∈ lo_handlers o /\ has_type (h_type h) ev = true.
Proof. intros [H1 H2]%List.find_some. by rewrite list_elem_of_In. Qed.

Lemma queued_app c cs1 cs2 : queued c (cs1 ++ cs2) = queued c cs1 ++ queued c cs2.
Proof. apply omap_app. Qed.

(** Steps that are left, at most. *)
Definition left_steps (s : lstate) : nat :=
  (3 * length (ls_pending s) + 2 * length (ls_chans s) + length (ls_tasks s) +
   match ls_loop s with Running => 2 | Waiting => 1 | Finished => 0 end + (if ls_done s then 0 else 1))%nat.

Lemma Listen_length hs sent ev cs : (length (Listen hs sent ev cs) <= S (length cs))%nat.
Proof. rewrite Listen_first. destruct (List.find _ _); [|lia]. destruct sent; [rewrite length_app; simpl; lia|lia]. Qed.

Lemma lstep_left o s s' : lstep o s s' -> (left_steps s' < left_steps s)%nat.
Proof.
  intros H. destruct H; unfold left_steps; cbn [ls_pending ls_chans ls_tasks ls_loop ls_done length];
    rewrite ?length_app; cbn [length]; try lia.
  - pose proof (Listen_length (lo_handlers o) true ev cs). destruct ph, d; lia.
  - pose proof (Listen_length (lo_handlers o) false ev cs). destruct ph; lia.
Qed.

Lemma lsteps_left o k s s' : lsteps o k s s' -> (k + left_steps s' <= left_steps s)%nat.
Proof. induction 1 as [|k s s' s'' _ IH H]; [lia|]. apply lstep_left in H. lia. Qed.

(** What holds in every state that is reached with the events [evs]. *)
Record linv (o : loggingOptions) (evs : list cdp_event) (s : lstate) : Prop := {
  li_chans : Forall (fun x => exists h, handler_of o x.2 = Some h /\ h_chan h = x.1) (ls_chans s);
  li_room : forall c, (length (queued c (ls_chans s)) <= chan_capacity)%nat;
  li_tasks : Forall (fun ev => logged_as o ev = console_records ev) (ls_tasks s);
  li_loop : match ls_loop s with Running => True | Waiting => ls_done s = true | Finished => ls_done s = true /\ ls_tasks s = [] end;
  li_log : exists lost, (ls_done s = false -> lost = []) /\
    ls_log s ++ (ls_tasks s ≫= logged_as o) ++ ((ls_chans s).*2 ≫= logged_as o) ++ (ls_pending s ≫= logged_as o) ++ lost
      ≡ₚ evs ≫= logged_as o
}.

Lemma linv_init o evs : linv o evs (RunLoggingListener evs).
Proof.
  split; simpl; [constructor|intros; apply Nat.le_0_l|constructor|done|].
  exists []. split; [done|]. by rewrite app_nil_r.
Qed.

(** Moving the records of an event from one place to the next. *)
Lemma bind_app_cons {A B} (f : A -> list B) l1 x l2 : (l1 ++ x :: l2) ≫= f ≡ₚ f x ++ ((l1 ++ l2) ≫= f).
Proof. rewrite !bind_app, bind_cons. solve_Permutation. Qed.

(** A delivery sends the event to the channel of its handler. *)
Lemma Listen_sent o ev cs :
  Listen (lo_handlers o) true ev cs = match handler_of o ev with Some h => cs ++ [(h_chan h, ev)] | None => cs end.
Proof. by rewrite Listen_first. Qed.

Lemma Listen_dropped o ev cs : Listen (lo_handlers o) false ev cs = cs.
Proof. rewrite Listen_first. by destruct (List.find _ _). Qed.

Lemma queued_delete c cs1 x cs2 : (length (queued c (cs1 ++ cs2)) <= length (queued c (cs1 ++ x :: cs2)))%nat.
Proof. change (x :: cs2) with ([x] ++ cs2). rewrite !queued_app, !length_app. lia. Qed.

(** The event taken from the channel of a type is logged as one of its handler. *)
Lemma taken_logged o t c ev :
  chans_typed o -> lo_chan o t = Some c -> (exists h, handler_of o ev = Some h /\ h_chan h = c) ->
  logged_as o ev = log_records t ev.
Proof.
  intros Ht Hc (h & Hh & <-). unfold logged_as. rewrite Hh. apply handler_of_elem in Hh as [Hh _].
  by rewrite (Ht h t Hh Hc).
Qed.

Ltac lsimpl := cbn [ls_done ls_pending ls_chans ls_tasks ls_loop ls_log] in *.

Lemma linv_step o evs s s' : chans_typed o -> linv o evs s -> lstep o s s' -> linv o evs s'.
Proof.
  intros Ht [Hc Hr Htk Hl (lost & Hlost & Hlog)] Hs.
  destruct Hs as [evs' cs ts ph lg|d ev evs' cs ts ph lg Hroom|ev evs' cs ts ph lg|d evs' cs1 c ev cs2 ts lg Hch Hq
    |d evs' cs1 c ev cs2 ts lg t Hne Hch Hq|d evs' cs ts1 ev ts2 ph lg|evs' cs ts lg|d evs' cs lg];
    lsimpl.
  - split; lsimpl; try done; [by destruct ph; naive_solver|]. exists lost. by split.
  - rewrite Listen_sent. unfold room in Hroom. destruct (handler_of o ev) as [h|] eqn:Eh.
    + split; lsimpl; try done.
      * apply Forall_app. split; [done|]. constructor; [by exists h|constructor].
      * intros c. rewrite queued_app, length_app. unfold queued at 2. simpl. specialize (Hr c).
        case_bool_decide as Hcc; simpl; [subst c; apply Nat.ltb_lt in Hroom|]; lia.
      * exists lost. split; [done|]. rewrite <- Hlog, fmap_app, bind_app. simpl. rewrite app_nil_r. solve_Permutation.
    + split; lsimpl; try done. exists lost. split; [done|]. rewrite <- Hlog. simpl. unfold logged_as at 6. by rewrite Eh.
  - rewrite Listen_dropped. split; lsimpl; try done. exists (logged_as o ev ++ lost). split; [done|]. rewrite <- Hlog, bind_cons. solve_Permutation.
  - apply Forall_app in Hc as [Hc1 [Hx Hc2]%Forall_cons]. split; lsimpl; try done.
    + by apply Forall_app.
    + intros c'. etransitivity; [apply queued_delete|apply Hr].
    + apply Forall_app. split; [done|]. constructor; [|constructor]. by rewrite (taken_logged o TConsole c ev).
    + exists lost. split; [done|]. rewrite <- Hlog, !fmap_app, fmap_cons, !bind_app_cons, !app_nil_r. cbn [snd]. solve_Permutation.
  - apply Forall_app in Hc as [Hc1 [Hx Hc2]%Forall_cons]. split; lsimpl; try done.
    + by apply Forall_app.
    + intros c'. etransitivity; [apply queued_delete|apply Hr].
    + exists lost. split; [done|]. rewrite <- Hlog, !fmap_app, fmap_cons, bind_app_cons. cbn [snd].
      rewrite <- (taken_logged o t c ev) by done. solve_Permutation.
  - apply Forall_app in Htk as [Ht1 [Hx Ht2]%Forall_cons]. split; lsimpl; try done.
    + by apply Forall_app.
    + destruct ph; [done..|]. destruct Hl as [? Hl]. by destruct ts1.
    + exists lost. split; [done|]. rewrite <- Hlog, bind_app_cons, Hx. solve_Permutation.
  - split; lsimpl; try done. by exists lost.
  - split; lsimpl; try done. by exists lost.
Qed.

Lemma linv_steps o evs k s : chans_typed o -> lsteps o k (RunLoggingListener evs) s -> linv o evs s.
Proof.
  intros Ht. remember (RunLoggingListener evs) as s0 eqn:E0. induction 1 as [|k s0 s s' Hk IH Hs]; subst.
  - apply linv_init.
  - eapply linv_step; eauto.
Qed.

(** ** Progress *)

Lemma first_in_channel c ev cs :
  ev ∈ queued c cs -> exists cs1 ev' cs2, cs = cs1 ++ (c, ev') :: cs2 /\ queued c cs1 = [].
Proof.
  induction cs as [|[c' ev'] cs IH]; [by intros ?%not_elem_of_nil|].
  destruct (decide (c' = c)) as [->|Hne].
  - intros _. by exists [], ev', cs.
  - change ((c', ev') :: cs) with ([(c', ev')] ++ cs). rewrite queued_app.
    assert (H0 : queued c [(c', ev')] = []) by (unfold queued; simpl; by rewrite bool_decide_false).
    rewrite H0. intros Hin. destruct (IH Hin) as (cs1 & e & cs2 & -> & Hq).
    exists ((c', ev') :: cs1), e, cs2. split; [done|]. change ((c', ev') :: cs1) with ([(c', ev')] ++ cs1).
    by rewrite queued_app, H0, Hq.
Qed.

(** While the loop runs, an event in a channel that is read can be taken. *)
Lemma take_enabled o d evs cs ts lg t c ev :
  lo_chan o t = Some c -> ev ∈ queued c cs -> exists s', lstep o (mkL d evs cs ts Running lg) s'.
Proof.
  intros Hc (cs1 & ev' & cs2 & -> & Hq)%first_in_channel.
  destruct (decide (t = TConsole)) as [->|Hne]; eexists; [by eapply step_console|by eapply step_log].
Qed.

(** A state without a step has a done context and a closed channel. *)
Lemma stuck_finished o evs s :
  linv o evs s -> (forall s', ~ lstep o s s') ->
  ls_done s = true /\ ls_pending s = [] /\ ls_loop s = Finished /\ ls_tasks s = [].
Proof.
  intros Hi Hn. pose proof (li_loop _ _ _ Hi) as Hl. clear Hi. destruct s as [d evs' cs ts ph lg]; lsimpl.
  destruct d; [|by destruct (Hn _ (step_cancel o _ _ _ _ _))].
  destruct evs' as [|ev evs']; [|by destruct (Hn _ (step_drop o _ _ _ _ _ _))].
  destruct ph; [by destruct (Hn _ (step_stop o _ _ _ _))| |by destruct Hl].
  destruct ts as [|ev ts]; [by destruct (Hn _ (step_close o _ _ _ _))|by destruct (Hn _ (step_task o _ _ _ [] ev ts _ _))].
Qed.

(** Nothing is left to do but to wait for more events or the end of the context. *)
Definition quiescent (o : loggingOptions) (s : lstate) : Prop :=
  forall s', lstep o s s' -> ls_done s' = true /\ ls_done s = false.

Lemma quiescent_logged o evs s :
  all_read o -> linv o evs s -> ls_done s = false -> quiescent o s ->
  ls_pending s = [] /\ ls_log s ≡ₚ evs ≫= logged_as o.
Proof.
  intros Ha [Hc Hr Htk Hl (lost & Hlost & Hlog)] Hd Hq. specialize (Hlost Hd). subst lost.
  destruct s as [d evs' cs ts ph lg]; lsimpl. subst d.
  assert (Hn : forall s', lstep o (mkL false evs' cs ts ph lg) s' -> ls_done s' = false -> False).
  { intros s' Hs Hd. apply Hq in Hs as [Hd' _]. congruence. }
  destruct ph; [|done|by destruct Hl].
  assert (Hts : ts = []).
  { destruct ts as [|ev ts]; [done|]. by destruct (Hn _ (step_task o false evs' cs [] ev ts Running lg)). }
  assert (Hcs : cs = []).
  { destruct cs as [|[c ev] cs]; [done|]. apply Forall_cons in Hc as [(h & Hh & Hhc) _]. simpl in Hh, Hhc.
    apply handler_of_elem in Hh as [Hh _]. specialize (Ha h Hh). rewrite Hhc in Ha.
    destruct (decide (h_type h = TConsole)) as [E|E]; exfalso.
    - rewrite E in Ha. by eapply Hn; [eapply (step_console o _ _ [])|].
    - by eapply Hn; [eapply (step_log o _ _ [])|]. }
  subst ts cs. assert (He : evs' = []).
  { destruct evs' as [|ev evs']; [done|]. exfalso. eapply Hn; [eapply step_deliver|done].
    unfold room. by destruct (handler_of o ev). }
  subst evs'. split; [done|]. by rewrite <- Hlog, !app_nil_r.
Qed.

End listener.

(** ** The options *)

(** The options of the package, by the types that they register. *)
Inductive LoggingOption := ConsoleLogging | ExceptionLogging | EventEntryLogging | NetworkLogging | AnyEventLogging.

Definition apply_option (l : LoggingOption) : loggingOptions -> loggingOptions :=
  match l with
  | ConsoleLogging => WithConsoleLogging | ExceptionLogging => WithExceptionLogging
  | EventEntryLogging => WithEventEntryLogging | NetworkLogging => WithNetworkLogging
  | AnyEventLogging => WithAnyEventLogging
  end.

Definition option_types (l : LoggingOption) : list event_type :=
  match l with
  | ConsoleLogging => [TConsole] | ExceptionLogging => [TException] | EventEntryLogging => [TEntry]
  | NetworkLogging => [TResponse; TRequest] | AnyEventLogging => [TAny]
  end.

(** Channels are numbered by their creation, and those of a type are its own. *)
Record lo_ok (o : loggingOptions) : Prop := {
  ok_handlers : forall h, h ∈ lo_handlers o -> (h_chan h < lo_next o)%nat;
  ok_chans : forall t c, lo_chan o t = Some c -> (c < lo_next o)%nat;
  ok_typed : chans_typed o
}.

Lemma set_chan_spec t c f t' : set_chan t c f t' = if decide (t = t') then Some c else f t'.
Proof. unfold set_chan. by destruct t, t'. Qed.

(** A channel that is made for a type. *)
Lemma new_chan_ok t o hs :
  lo_ok o -> (forall h, h ∈ hs -> h ∈ lo_handlers o \/ h = mkHandler t (lo_next o)) ->
  lo_ok (mkLogging (set_chan t (lo_next o) (lo_chan o)) hs (S (lo_next o))).
Proof.
  intros [H1 H2 H3] Hhs. split; simpl.
  - intros h [Hh| ->]%Hhs; [apply H1 in Hh; lia|simpl; lia].
  - intros t' c. rewrite set_chan_spec. case_decide; [intros [= <-]; lia|]. intros Hc%H2. lia.
  - intros h t' Hh. simpl. rewrite set_chan_spec. apply Hhs in Hh as [Hh| ->]; case_decide as E; simpl.
    + intros [= Hn]. apply H1 in Hh. lia.
    + apply H3, Hh.
    + by subst.
    + intros Hc%H2. lia.
Qed.

Lemma handlerOption_ok t o : lo_ok o -> lo_ok (handlerOption t o).
Proof. intros Ho. apply new_chan_ok; [done|]. intros h [?| ?%list_elem_of_singleton]%elem_of_app; auto. Qed.

Lemma initCh_ok t o : lo_ok o -> lo_ok (initCh t o).
Proof. intros Ho. unfold initCh. destruct (lo_chan o t); [done|]. apply new_chan_ok; auto. Qed.

Lemma handlerOption_read t o :
  all_read o -> t ∉ map h_type (lo_handlers o) -> all_read (handlerOption t o).
Proof.
  intros Ha Hn h. simpl. rewrite set_chan_spec. intros [Hh| ->%list_elem_of_singleton]%elem_of_app; simpl.
  - rewrite decide_False; [by apply Ha|]. intros ->. by apply Hn, list_elem_of_fmap_2.
  - by rewrite decide_True.
Qed.

Lemma initCh_read t o : all_read o -> all_read (initCh t o).
Proof.
  intros Ha. unfold initCh. destruct (lo_chan o t) eqn:E; [done|]. intros h Hh. simpl in *. rewrite set_chan_spec.
  rewrite decide_False; [by apply Ha|]. intros ->. rewrite (Ha h Hh) in E. done.
Qed.

Lemma apply_option_ok l o :
  lo_ok o -> lo_ok (apply_option l o) /\ map h_type (lo_handlers (apply_option l o)) = map h_type (lo_handlers o) ++ option_types l /\
  (all_read o -> NoDup (map h_type (lo_handlers o) ++ option_types l) -> all_read (apply_option l o)).
Proof.
  intros Ho. split; [by destruct l; repeat apply handlerOption_ok|].
  split; [destruct l; simpl; rewrite !map_app, <- ?app_assoc; done|].
  intros Ha (_ & Hd & Hn)%NoDup_app.
  assert (Ht : forall t, t ∈ option_types l -> t ∉ map h_type (lo_handlers o)) by (intros t ? ?; by eapply Hd).
  destruct l; simpl in *; repeat apply handlerOption_read; try done; try (apply Ht; set_solver).
  simpl. rewrite map_app. simpl. intros [H|H]%elem_of_app; [revert H; apply Ht; set_solver|set_solver].
Qed.

Lemma apply_options_ok ls o :
  lo_ok o -> let o' := fold_left (fun o opt => opt o) (map apply_option ls) o in
  lo_ok o' /\ (all_read o -> NoDup (map h_type (lo_handlers o) ++ (ls ≫= option_types)) -> all_read o').
Proof.
  revert o. induction ls as [|l ls IH]; intros o Ho; [done|].
  destruct (apply_option_ok l o Ho) as (Ho1 & Hty & Hr1). destruct (IH _ Ho1) as [Ho2 Hr2].
  split; [done|]. intros Hr Hn. rewrite bind_cons, app_assoc in Hn. apply Hr2; [|by rewrite Hty].
  apply Hr1; [done|]. by apply NoDup_app in Hn as (Hn & _).
Qed.

(** The options of a listener: every channel has one type; without repetition
    every channel that is sent to is read. *)
Lemma listener_options_ok ls :
  let o := listener_options (map apply_option ls) in chans_typed o /\ (NoDup (ls ≫= option_types) -> all_read o).
Proof.
  cbv zeta. unfold listener_options. set (init := mkLogging _ _ _).
  assert (H0 : lo_ok init) by (split; simpl; try done; by intros ? ?%not_elem_of_nil || by intros ? ? ?%not_elem_of_nil).
  destruct (apply_options_ok ls init H0) as [H1 H2]. revert H1 H2. generalize (fold_left (fun o opt => opt o) (map apply_option ls) init).
  intros o1 H1 H2. cbn [fold_left]. split; [by repeat apply initCh_ok|].
  intros Hn. repeat apply initCh_read. apply H2; [|done]. by intros h ?%not_elem_of_nil.
Qed.

(** C12 The listener, for any options of the package and any events. Every run is
    bounded by the number of events, however the goroutines interleave, and ends
    with the returned channel closed, which happens only once the context is done
    and no console goroutine is running. Channels never hold more than their
    capacity. If no option is repeated, then a listener whose context is not done
    and which has nothing left to do has logged exactly the records of every
    event, each by its first handler. *)
Theorem listener_runs args_json json_value show ls evs k s :
  let o := listener_options (map apply_option ls) in
  lsteps args_json json_value show o k (RunLoggingListener evs) s ->
  (k <= 3 * length evs + 3)%nat /\ (forall c, length (queued c (ls_chans s)) <= chan_capacity)%nat /\
  (ls_loop s = Finished -> ls_done s = true /\ ls_tasks s = []) /\
  ((forall s', ~ lstep args_json json_value show o s s') -> ls_loop s = Finished /\ ls_pending s = []) /\
  (NoDup (ls ≫= option_types) -> ls_done s = false -> quiescent args_json json_value show o s ->
     ls_pending s = [] /\ ls_log s ≡ₚ evs ≫= logged_as args_json json_value show o).
Proof.
  intros o Hs. destruct (listener_options_ok ls) as [Ht Hr]. fold o in Ht, Hr.
  pose proof (linv_steps _ _ _ _ _ _ _ Ht Hs) as Hi. apply lsteps_left in Hs.
  split_and!.
  - unfold left_steps in Hs at 2. simpl in Hs. lia.
  - apply (li_room _ _ _ _ _ _ Hi).
  - intros E. pose proof (li_loop _ _ _ _ _ _ Hi) as Hl. by rewrite E in Hl.
  - intros Hn. destruct (stuck_finished _ _ _ _ _ _ Hi Hn) as (_ & ? & ? & _). done.
  - intros Hnd Hd Hq. eapply quiescent_logged; eauto.
Qed.

(** One console event, with its listener, that is logged. *)
Definition demo_event : cdp_event := ConsoleAPICalled [].
Definition demo_final : lstate := mkL false [] [] [] Running [mkLog LevelInfo "Console API called" []].

Lemma demo_run :
  lsteps (fun _ => Ok []) (fun _ => None) (fun _ => "") (listener_options (map apply_option [ConsoleLogging])) 3
    (RunLoggingListener [demo_event]) demo_final.
Proof.
  eapply lsteps_S; [eapply lsteps_S; [eapply lsteps_S; [apply lsteps_0|]|]|].
  - by apply step_deliver.
  - by apply (step_console _ _ _ _ _ _ [] 0 demo_event [] []).
  - exact (step_task (fun _ => Ok []) (fun _ => None) (fun _ => "") _ false [] [] [] demo_event [] Running []).
Qed.

Lemma demo_quiescent :
  quiescent (fun _ => Ok []) (fun _ => None) (fun _ => "") (listener_options (map apply_option [ConsoleLogging])) demo_final.
Proof.
  intros s' Hs. inversion Hs; subst; try done;
    match goal with H : ?l ++ _ :: _ = [] |- _ => by destruct l end.
Qed.

Lemma listener_runs_witness :
  let o := listener_options (map apply_option [ConsoleLogging]) in
  (3 <= 3 * length [demo_event] + 3)%nat /\
  ls_log demo_final ≡ₚ [demo_event] ≫= logged_as (fun _ => Ok []) (fun _ => None) (fun _ => "") o.
Proof.
  destruct (listener_runs (fun _ => Ok []) (fun _ => None) (fun _ => "") [ConsoleLogging] [demo_event] 3 demo_final demo_run)
    as (Hk & _ & _ & _ & Hq).
  split; [exact Hk|]. destruct Hq as [_ Hlog].
  - apply (bool_decide_unpack _). by vm_compute.
  - reflexivity.
  - exact demo_quiescent.
  - exact Hlog.
Defined.

Lemma queued_repeat c ev k : length (queued c (repeat (c, ev) k)) = k.
Proof.
  induction k as [|k IH]; [done|]. change (repeat (c, ev) (S k)) with ([(c, ev)] ++ repeat (c, ev) k).
  rewrite queued_app, length_app, IH. unfold queued. simpl. by rewrite bool_decide_true.
Qed.

(** An option that is given twice: the eleventh event blocks the delivery of all
    later ones, and nothing is logged. *)
Lemma repeated_option_blocks args_json json_value show later :
  let o := listener_options (map apply_option [ConsoleLogging; ConsoleLogging]) in
  exists s, lsteps args_json json_value show o 10 (RunLoggingListener (repeat demo_event 11 ++ later)) s /\
    ls_pending s = demo_event :: later /\ ls_log s = [] /\ quiescent args_json json_value show o s.
Proof.
  intros o. exists (mkL false (demo_event :: later) (repeat (0, demo_event) 10) [] Running []). split_and!; [|done|done|].
  - assert (Hk : forall k, (k <= 10)%nat -> lsteps args_json json_value show o k (RunLoggingListener (repeat demo_event 11 ++ later))
        (mkL false (repeat demo_event (11 - k) ++ later) (repeat (0, demo_event) k) [] Running [])); [|exact (Hk 10 ltac:(lia))].
    induction k as [|k IH]; intros Hle; [apply lsteps_0|]. eapply lsteps_S; [apply IH; lia|].
    assert (E : (11 - k = S (11 - S k))%nat) by lia. rewrite E.
    change (repeat demo_event (S (11 - S k)) ++ later) with (demo_event :: repeat demo_event (11 - S k) ++ later).
    replace (repeat (0, demo_event) (S k)) with (Listen (lo_handlers o) true demo_event (repeat (0, demo_event) k)).
    + apply step_deliver. apply Nat.ltb_lt. simpl. rewrite queued_repeat. unfold chan_capacity. lia.
    + rewrite Listen_sent. simpl. symmetry. apply (repeat_cons k (0, demo_event)).
  - assert (Hnot : forall cs1 c ev cs2 t, repeat (0, demo_event) 10 = cs1 ++ (c, ev) :: cs2 -> lo_chan o t <> Some c).
    { intros cs1 c ev cs2 t Hr. assert (Hin : (c, ev) ∈ repeat (0, demo_event) 10) by (rewrite Hr; set_solver).
      apply list_elem_of_In, repeat_spec in Hin. injection Hin as -> _. by destruct t. }
    intros s' Hs. inversion Hs; subst; try done; exfalso; try (by eapply Hnot; eauto).
    match goal with H : ?l ++ _ :: _ = [] |- _ => by destruct l end.
Qed.
