(* ===== verification/TLSChecks.v ===== *)
(** * testwebapp: TLS checks

Models [testwebapp/test_tls.go], which configures the validator of
[TLSValidate] from a spec with the certificate pools of [DevTest]. *)

From S2P Require Import Prelude GoStrings GoTime GoErrors Certs GoX509 DevTest TLSValidate.

Section tls_checks.
Context {Cert Key TLSCert : Type} `{X : !X509 Cert Key TLSCert}.

(** Names of cipher suites and algorithms are their numbers; the regular
    expressions their match functions. *)
Record TLSSpec := mkTLSSpec {
  sp_Host : string; sp_Port : string; sp_CustomDNSServer : string; sp_LogCertInfo : bool;
  sp_ExpandDNSNames : bool; sp_CheckSerialNumbers : bool; sp_ValidFor : Z; sp_TLSMinVersion : N;
  sp_IssuerREs : list (string -> bool); sp_CustomCAPEM : string; sp_CustomCAPEMOnly : bool;
  sp_CipherSuites : list N; sp_NotAllowedCipherSuites : list N;
  sp_SignatureAlgorithms : list N; sp_NotAllowedSignatureAlgorithms : list N
}.

Definition TLSSpec_String := yaml_String (A := TLSSpec).

Definition set_CustomCAPEM (f : string) (s : TLSSpec) : TLSSpec :=
  mkTLSSpec (sp_Host s) (sp_Port s) (sp_CustomDNSServer s) (sp_LogCertInfo s) (sp_ExpandDNSNames s)
    (sp_CheckSerialNumbers s) (sp_ValidFor s) (sp_TLSMinVersion s) (sp_IssuerREs s) f (sp_CustomCAPEMOnly s)
    (sp_CipherSuites s) (sp_NotAllowedCipherSuites s) (sp_SignatureAlgorithms s) (sp_NotAllowedSignatureAlgorithms s).

Definition WithCustomCAPEMFile (s : list TLSSpec) (pemFile : string) : list TLSSpec :=
  if Nat.eqb (slen pemFile) 0 then s
  else map (fun spec => if Nat.ltb 0 (slen (sp_CustomCAPEM spec)) then spec else set_CustomCAPEM pemFile spec) s.

(** [Let'?s Encrypt] *)
Definition letsEncryptRE (s : string) : bool := Contains s "Let's Encrypt" || Contains s "Lets Encrypt".

Definition LetsEncryptTLSSpec : TLSSpec :=
  mkTLSSpec "" "" "" false true true (240 * Hour)%Z 0x0303 [letsEncryptRE] "" false [] [] [] [].

Variable quote : string -> string.
Variable SystemCertPool : res (list Cert).
Variable ReadFile : string -> res string.

Abbreviation voptions := (TLSValidate.options (list Cert)).

(** [TLSSpec.options] *)
Definition spec_options (s : TLSSpec) : res (list (voptions -> voptions)) :=
  let o := [WithLogCertificateInfo (sp_LogCertInfo s); WithValidForAtLeast (sp_ValidFor s);
            WithIssuerRegexps (sp_IssuerREs s); WithCheckSerialNumbers (sp_CheckSerialNumbers s);
            WithExpandDNSNames (sp_ExpandDNSNames s); WithTLSMinVersion (sp_TLSMinVersion s);
            WithCustomDNSServer (sp_CustomDNSServer s); WithCiphersuites (sp_CipherSuites s);
            WithAllowedSignatureAlgorithms (sp_SignatureAlgorithms s);
            WithDeniedCipherSuites (sp_NotAllowedCipherSuites s);
            WithDeniedSignatureAlgorithms (sp_NotAllowedSignatureAlgorithms s)] in
  if Nat.eqb (slen (sp_CustomCAPEM s)) 0 then Ok o
  else match (if sp_CustomCAPEMOnly s then CertPoolForTesting quote SystemCertPool ReadFile [sp_CustomCAPEM s]
              else CertPoolWithSystemRootsForTesting quote SystemCertPool ReadFile [sp_CustomCAPEM s]) with
       | Err e => Err (Errorf "failed to create cert pool: %w" [] [e])
       | Ok certPool => Ok (o ++ [WithRootCAs (Some certPool)])
       end.

Variable EnsureHostPort : string -> string -> string.
(** [Validate] of a validator for a host and a port. *)
Variable validate : voptions -> string -> string -> go (res (list ErrValidator)).

(** How a spec fails: with an error, or with validation errors. *)
Inductive tls_failure := FailError (e : error) | FailChecks (ev : ErrValidator) (more : list ErrValidator).

Definition tls_verify (spec : TLSSpec) : go (option tls_failure) :=
  match spec_options spec with
  | Err e => Ret (Some (FailError e))
  | Ok opts =>
      let port := if Nat.eqb (slen (sp_Port spec)) 0 then "443" else sp_Port spec in
      r ← validate (NewValidator EnsureHostPort opts).1 (sp_Host spec) port;
      Ret (match r with
           | Err e => Some (FailError e)
           | Ok [] => None
           | Ok (ev :: more) => Some (FailChecks ev more)
           end)
  end.

(** The clients that are made are only checked for errors. *)
Fixpoint configureHTTPClients (newClient : string -> option error) (specs : list TLSSpec) : option error :=
  match specs with
  | [] => None
  | spec :: specs' =>
      if Nat.ltb 0 (slen (sp_CustomCAPEM spec)) then
        match newClient (sp_CustomCAPEM spec) with
        | Some e => Some e
        | None => configureHTTPClients newClient specs'
        end
      else configureHTTPClients newClient specs'
  end.

(** The loop of [Run]: logging a validation error reads its certificate. *)
Fixpoint tls_loop (specs : list TLSSpec) (errs : list tls_failure) : go (list tls_failure) :=
  match specs with
  | [] => Ret errs
  | spec :: specs' =>
      err ← tls_verify spec;
      match err with
      | None => tls_loop specs' errs
      | Some f =>
          match f with
          | FailChecks ev _ =>
              match ev_Certificate ev with
              | None => Panic NilDereference
              | Some _ => tls_loop specs' (errs ++ [f])
              end
          | FailError _ => tls_loop specs' (errs ++ [f])
          end
      end
  end.

Definition TLSTest_Run (newClient : string -> option error) (specs : list TLSSpec) : go (res (list tls_failure)) :=
  match configureHTTPClients newClient specs with
  | Some e => Ret (Err e)
  | None => errs ← tls_loop specs []; Ret (Ok errs)
  end.

(** ** What a passing run has checked *)

(** The validator's settings are those of the spec. *)
Lemma spec_options_settings s opts :
  spec_options s = Ok opts ->
  let v := (NewValidator EnsureHostPort opts).1 in
  validFor v = sp_ValidFor s /\ issuerREs v = sp_IssuerREs s /\ checkSerial v = sp_CheckSerialNumbers s /\
  expand v = sp_ExpandDNSNames s /\ tlsMinVer v = sp_TLSMinVersion s /\ ciphersuites v = sp_CipherSuites s /\
  allowedSignatureAlgorithms v = sp_SignatureAlgorithms s /\ deniedCipherSuites v = sp_NotAllowedCipherSuites s /\
  deniedSignatureAlgorithms v = sp_NotAllowedSignatureAlgorithms s /\ checkZeroSerialNumbers v = true /\
  (sp_CustomCAPEM s = "" -> rootCAs v = None) /\
  (sp_CustomCAPEM s <> "" -> exists pool, rootCAs v = Some pool).
Proof.
  unfold spec_options. destruct (Nat.eqb_spec (slen (sp_CustomCAPEM s)) 0) as [Hz|Hz].
  - apply slen_zero in Hz. intros [= <-]. unfold NewValidator. simpl.
    case_bool_decide; simpl; split_and!; try done; intros; congruence.
  - destruct (if sp_CustomCAPEMOnly s then _ else _) as [pool|]; [|done]. intros [= <-]. unfold NewValidator. simpl.
    assert (Hne : sp_CustomCAPEM s <> "") by (intros E; apply Hz; by rewrite E).
    case_bool_decide; simpl; split_and!; try done; intros; by eexists.
Qed.

Lemma tls_loop_grows specs errs out : tls_loop specs errs = Ret out -> exists l, out = errs ++ l.
Proof.
  revert errs. induction specs as [|s specs IH]; intros errs; simpl; [intros [= <-]; exists []; by rewrite app_nil_r|].
  destruct (tls_verify s) as [[[e|ev more]|]|]; simpl; [| |apply IH|done].
  - intros Hl. destruct (IH _ Hl) as [l ->]. eexists. by rewrite <- app_assoc.
  - destruct (ev_Certificate ev); [|done]. intros Hl. destruct (IH _ Hl) as [l ->]. eexists. by rewrite <- app_assoc.
Qed.

(** No failures means that every spec was validated and accepted. *)
Lemma TLSTest_passes newClient specs :
  TLSTest_Run newClient specs = Ret (Ok []) ->
  Forall (fun spec => exists opts, spec_options spec = Ok opts /\
    validate (NewValidator EnsureHostPort opts).1 (sp_Host spec)
      (if Nat.eqb (slen (sp_Port spec)) 0 then "443" else sp_Port spec) = Ret (Ok [])) specs.
Proof.
  unfold TLSTest_Run. destruct (configureHTTPClients _ _); [done|]. destruct (tls_loop specs []) as [errs|] eqn:El; [|done].
  simpl. intros [= ->]. induction specs as [|s specs IH]; [constructor|]. simpl in El.
  unfold tls_verify in El. destruct (spec_options s) as [opts|e] eqn:Eo; simpl in El.
  2: { apply tls_loop_grows in El as [l El]. done. }
  destruct (validate _ _ _) as [[[|ev more]|e]|] eqn:Ev; simpl in El; [| | |done].
  - constructor; [by eexists|auto].
  - destruct (ev_Certificate ev); [|done]. apply tls_loop_grows in El as [l El]. done.
  - apply tls_loop_grows in El as [l El]. done.
Qed.

End tls_checks.
