(* ===== verification/CommandLine.v ===== *)
(** * The command lines of cmd/acme and cmd/webapp

Models the command tree of [cmd/acme/main.go], as its YAML has it, with the
runners that [cli] registers for its commands, and the commands of
[cmd/webapp/webapp.go].  The command line package (cloudeng.io/cmdutil/subcmd)
parses the YAML and panics when a runner is set for a command that is not there;
what matters here is that the two sides agree. *)

From S2P Require Import Prelude GoStrings GoErrors CertCache Commands.

(** How many arguments a command takes. *)
Inductive arity := NoArguments | One (name : string) | Optional (name : string) | OneOrMore (name : string).

Inductive command := mkCommand { cmd_name : string; cmd_args : arity; cmd_commands : list command }.

Definition cmdSpecYAML : command :=
  mkCommand "acme" NoArguments
    [mkCommand "servers" NoArguments
       [mkCommand "cert-manager" (Optional "<hosts>...") [];
        mkCommand "redirect" NoArguments []];
     mkCommand "certs" NoArguments
       [mkCommand "validate-hosts" (OneOrMore "<hosts>+") [];
        mkCommand "validate-pem-files" (Optional "<pem-files>...") [];
        mkCommand "store" NoArguments [mkCommand "put" NoArguments []; mkCommand "get" NoArguments []];
        mkCommand "revoke" (One "<name>") []]].

(** The functions that the commands run. *)
Inductive runner :=
| manageCerts | redirect | validateHostCertificatesCmd | validatePEMFilesCmd | putCert | getCert | revokeUsingKey.

#[global] Instance runner_eq_dec : EqDecision runner.
Proof. solve_decision. Defined.

(** [cmd.Set(path...).MustRunner(runner, flags)], in order. *)
Definition cli : list (list string * runner) :=
  [(["servers"; "cert-manager"], manageCerts);
   (["servers"; "redirect"], redirect);
   (["certs"; "validate-hosts"], validateHostCertificatesCmd);
   (["certs"; "validate-pem-files"], validatePEMFilesCmd);
   (["certs"; "store"; "put"], putCert);
   (["certs"; "store"; "get"], getCert);
   (["certs"; "revoke"], revokeUsingKey)].

(** The commands of cmd/webapp: no arguments, one runner each. *)
Inductive webapp_runner := prodServe | devServe.
Definition webapp_commands : list (string * arity * webapp_runner) :=
  [("prod", NoArguments, prodServe); ("dev", NoArguments, devServe)].

(** The command at a path below a command. *)
Fixpoint find_command (path : list string) (c : command) : option command :=
  match path with
  | [] => Some c
  | name :: path' =>
      match List.find (fun s => bool_decide (cmd_name s = name)) (cmd_commands c) with
      | None => None
      | Some s => find_command path' s
      end
  end.

(** The paths of the commands without subcommands. *)
Fixpoint leaves (c : command) : list (list string) :=
  match cmd_commands c with
  | [] => [[]]
  | cs => concat (map (fun s => map (cons (cmd_name s)) (leaves s)) cs)
  end.

(** Every command that can be run has exactly one runner, no runner is set for a
    command that is not there, and no function runs two commands. *)
Lemma cli_complete :
  map fst cli = leaves cmdSpecYAML /\ NoDup (map fst cli) /\ NoDup (map snd cli) /\
  Forall (fun '(path, _) => is_Some (find_command path cmdSpecYAML)) cli.
Proof.
  split; [done|]. split; [apply (bool_decide_unpack _); by vm_compute|]. split; [apply (bool_decide_unpack _); by vm_compute|].
  repeat (constructor; [by vm_compute; eexists|]). constructor.
Qed.

(** ** main *)

Definition ErrInterrupt : string := "cmdutil.ErrInterrupt".

(** [main] of cmd/acme: what it exits with, given the error of dispatching the
    command line and the cause of the end of the context; [None] for success. *)
Definition acme_main (dispatch cause : option error) : option error :=
  match dispatch with
  | None => None
  | Some err =>
      match cause with
      | Some c => if is_sentinel c ErrInterrupt then Some (Sentinel ErrInterrupt) else Some err
      | None => Some err
      end
  end.

(** ** Arguments *)
Section arguments.
(** The arguments that the command line package accepts for a command. *)
Variable accepts : arity -> list string -> Prop.
Hypothesis accepts_none : forall args, accepts NoArguments args -> args = [].
Hypothesis accepts_one : forall name args, accepts (One name) args -> length args = 1.

Context {L B : Type} `{Cache L} `{StoreFS B}.
Variable NewM : error -> error -> error.
Variable MkdirAll : string -> option error.
Variable lock rlock : list event -> option error.
Variable LoadUsingFlags : option error.
Variable w : world (L := L) (B := B).

Definition accepted (path : list string) (args : list string) : Prop :=
  exists c, find_command path cmdSpecYAML = Some c /\ accepts (cmd_args c) args.

(** The commands that read and write the store use an argument that their
    specification does not have: once the store is opened they panic, on every
    command line. *)
Lemma store_commands_panic args cl aws logger ReadFile :
  (accepted ["certs"; "store"; "get"] args ->
   forall store w', newCertStore MkdirAll lock rlock LoadUsingFlags cl aws [WithReadonly true; WithLogger (Some logger)] w = (Ok store, w') ->
   exists p, Commands.getCert NewM MkdirAll lock rlock LoadUsingFlags cl aws logger args w = Panic p) /\
  (accepted ["certs"; "store"; "put"] args ->
   forall store w', newCertStore MkdirAll lock rlock LoadUsingFlags cl aws [WithReadonly false; WithLogger (Some logger)] w = (Ok store, w') ->
   exists p, Commands.putCert NewM MkdirAll lock rlock LoadUsingFlags cl aws logger ReadFile args w = Panic p).
Proof.
  split; intros (c & [= <-] & ->%accepts_none) store w' Hs.
  - unfold Commands.getCert. rewrite Hs. destruct store. by exists IndexOutOfRange.
  - unfold Commands.putCert. rewrite Hs. destruct store. by exists IndexOutOfRange.
Qed.

(** The name that the revoke command uses is there. *)
Lemma revoke_has_name args : accepted ["certs"; "revoke"] args -> exists name, args = [name] /\ index args 0 = Ret name.
Proof. intros (c & [= <-] & Hl%accepts_one). destruct args as [|name [|]]; try done. by exists name. Qed.

End arguments.
